(** * TurboSerial v5: a shallow embedding of the codec engine

    The development follows the layout of the JavaScript source
    (one module per class): the constants and the tag table, the writer
    pool [UltraMemoryPool], the numeric-array analyzer [SIMDProcessor], the
    classifier [UltraTypeDetector] and the driver [TurboSerial] with its
    writer ([serialize]) and reader ([deserialize]).

    JavaScript values live in an explicit heap: objects, arrays, collections,
    buffers and views are heap cells addressed by a location, so that sharing
    and cycles are visible.  Numbers are IEEE-754 binary64 values, carried
    by the Standard Library's [spec_float]; 32-bit integer operators are
    written out with their wrap-around on [Z]. *)

From Stdlib Require Import ZArith Lia Bool Floats.SpecFloat.
From stdpp Require Import base option list gmap strings.

Local Open Scope Z_scope.

(** ** JavaScript's 32-bit integer operators *)

Module JS.

(** [x|0]: ToInt32 of an integer. *)
Definition to_int32 (z : Z) : Z := (z + 2147483648) mod 4294967296 - 2147483648.

(** [x>>>0]: ToUint32 of an integer. *)
Definition to_uint32 (z : Z) : Z := z mod 4294967296.

(** [a & b], [a | b], [~a], [a << n], [a >>> n] on integers. *)
Definition band (a b : Z) : Z := Z.land (to_int32 a) (to_int32 b).
Definition bor (a b : Z) : Z := Z.lor (to_int32 a) (to_int32 b).
Definition bnot (a : Z) : Z := Z.lnot (to_int32 a).
Definition shl (a n : Z) : Z := to_int32 (Z.shiftl (to_int32 a) (n mod 32)).
Definition ushr (a n : Z) : Z := Z.shiftr (to_uint32 a) (n mod 32).

(** Little-endian bytes of the low [8*n] bits of [z]. *)
Fixpoint le_bytes (n : nat) (z : Z) : list Z :=
  match n with
  | O => []
  | S k => (z mod 256) :: le_bytes k (z / 256)
  end.

(** The unsigned integer held by little-endian bytes. *)
Fixpoint of_le_bytes (bs : list Z) : Z :=
  match bs with
  | [] => 0
  | b :: r => b + 256 * of_le_bytes r
  end.

(** Reading [w] bits as a two's complement integer. *)
Definition signed (w : Z) (u : Z) : Z :=
  if u <? 2 ^ (w - 1) then u else u - 2 ^ w.

(** A JavaScript string is a sequence of UTF-16 code units. *)
Definition jsstring := list Z.

Definition str (s : string) : jsstring :=
  map (fun a => Z.of_nat (Ascii.nat_of_ascii a)) (String.list_ascii_of_string s).

End JS.

(** ** Numbers: IEEE-754 binary64 *)

Module Num.

Definition number := spec_float.

Definition NaN : number := S754_nan.
Definition Infinity : number := S754_infinity false.
Definition NegInfinity : number := S754_infinity true.
Definition NegZero : number := S754_zero true.

(** The double that holds the integer [z] exactly (for [|z| < 2^53]):
    mantissa shifted up to 53 bits. *)
Definition of_int (z : Z) : number :=
  match z with
  | 0 => S754_zero false
  | _ => let a := Z.abs z in
         let l := Z.log2 a in
         S754_finite (z <? 0) (Z.to_pos (Z.shiftl a (52 - l))) (l - 52)
  end.

(** [x == y], [x <= y], [x < y] on numbers. *)
Definition eqb (x y : number) : bool := SFeqb x y.
Definition leb (x y : number) : bool := SFleb x y.
Definition ltb (x y : number) : bool := SFltb x y.

(** [Math.abs] and unary minus. *)
Definition abs (x : number) : number := SFabs x.
Definition neg (x : number) : number := SFopp x.

(** The integer part of a finite number, truncated toward zero. *)
Definition trunc (x : number) : Z :=
  match x with
  | S754_finite s m e =>
      let t := Z.shiftl (Z.pos m) e in if s then - t else t
  | _ => 0
  end.

(** [x|0] and [x>>>0] on numbers. *)
Definition to_int32 (x : number) : Z := JS.to_int32 (trunc x).
Definition to_uint32 (x : number) : Z := JS.to_uint32 (trunc x).

(** Rounding to the nearest binary32 value, ties to even, and the double
    that holds a binary32 value. *)
Definition to_f32 (x : number) : spec_float :=
  match x with
  | S754_finite s m e => binary_normalize 24 128 (if s then Z.neg m else Z.pos m) e s
  | _ => x
  end.

Definition of_f32 (x : spec_float) : number :=
  match x with
  | S754_finite s m e => binary_normalize 53 1024 (if s then Z.neg m else Z.pos m) e s
  | _ => x
  end.

(** [Math.fround]. *)
Definition fround (x : number) : number := of_f32 (to_f32 x).

(** [Math.min] and [Math.max] of two numbers: NaN is contagious and
    [-0] is below [+0]. *)
Definition min (x y : number) : number :=
  match x, y with
  | S754_nan, _ | _, S754_nan => S754_nan
  | S754_zero sx, S754_zero sy => S754_zero (sx || sy)
  | _, _ => if SFltb y x then y else x
  end.

Definition max (x y : number) : number :=
  match x, y with
  | S754_nan, _ | _, S754_nan => S754_nan
  | S754_zero sx, S754_zero sy => S754_zero (sx && sy)
  | _, _ => if SFltb x y then y else x
  end.

(** The sign bit. *)
Definition sign (x : number) : bool :=
  match x with
  | S754_zero s | S754_infinity s | S754_finite s _ _ => s
  | S754_nan => false
  end.

(** The bit pattern of a value of a binary format with [mw] mantissa
    bits and [ew] exponent bits.  NaN is the canonical quiet NaN. *)
Definition bits (mw ew : Z) (x : spec_float) : Z :=
  let emin := 3 - 2 ^ (ew - 1) - (mw + 1) in
  let sgn (s : bool) := if s then 2 ^ (mw + ew) else 0 in
  match x with
  | S754_zero s => sgn s
  | S754_infinity s => sgn s + (2 ^ ew - 1) * 2 ^ mw
  | S754_nan => (2 ^ ew - 1) * 2 ^ mw + 2 ^ (mw - 1)
  | S754_finite s m e =>
      if 2 ^ mw <=? Z.pos m
      then sgn s + (e - emin + 1) * 2 ^ mw + (Z.pos m - 2 ^ mw)
      else sgn s + Z.pos m
  end.

(** The value held by a bit pattern. *)
Definition of_bits (mw ew : Z) (b : Z) : spec_float :=
  let emin := 3 - 2 ^ (ew - 1) - (mw + 1) in
  let s := Z.testbit b (mw + ew) in
  let ex := (b / 2 ^ mw) mod 2 ^ ew in
  let mx := b mod 2 ^ mw in
  if ex =? 0 then
    match mx with
    | Z.pos p => S754_finite s p emin
    | _ => S754_zero s
    end
  else if ex =? 2 ^ ew - 1 then
    (if mx =? 0 then S754_infinity s else S754_nan)
  else
    match mx + 2 ^ mw with
    | Z.pos p => S754_finite s p (ex + emin - 1)
    | _ => S754_nan
    end.

Definition bits64 (x : number) : Z := bits 52 11 x.
Definition of_bits64 (b : Z) : number := of_bits 52 11 b.
Definition bits32 (x : number) : Z := bits 23 8 (to_f32 x).
Definition of_bits32 (b : Z) : number := of_f32 (of_bits 23 8 b).

(** A double in canonical form. *)
Definition valid (x : number) : bool := valid_binary 53 1024 x.

End Num.

(** ** Constants and the tag table *)

Definition CACHE_LINE_SIZE : Z := 128.
Definition SIMD_ALIGNMENT : Z := 8.
Definition SIMD_BLOCK_SIZE : Z := 16.

Module TYPE_MASK.
Definition GROUP : Z := 0xF0.
Definition SUBTYPE : Z := 0x0F.
Definition ALIGNMENT : Z := 0x07.
End TYPE_MASK.

Module TYPE_GROUP.
Definition PRIMITIVE : Z := 0x00.
Definition NUMBER : Z := 0x10.
Definition BIGINT : Z := 0x20.
Definition STRING : Z := 0x30.
Definition ARRAY : Z := 0x40.
Definition OBJECT : Z := 0x50.
Definition TYPED : Z := 0x60.
Definition BUFFER : Z := 0x70.
Definition COLLECTION : Z := 0x80.
Definition DATE : Z := 0x90.
Definition ERROR : Z := 0xA0.
Definition REGEX : Z := 0xB0.
Definition BINARY : Z := 0xC0.
Definition REFERENCE : Z := 0xD0.
Definition SPECIAL : Z := 0xE0.
Definition EXTENSION : Z := 0xF0.
End TYPE_GROUP.

Module TYPE.
Definition NULL : Z := 0x00.
Definition UNDEFINED : Z := 0x01.
Definition FALSE : Z := 0x02.
Definition TRUE : Z := 0x03.
Definition INT8 : Z := 0x10.
Definition INT16 : Z := 0x11.
Definition INT32 : Z := 0x12.
Definition UINT32 : Z := 0x13.
Definition FLOAT32 : Z := 0x14.
Definition FLOAT64 : Z := 0x15.
Definition NAN : Z := 0x16.
Definition INFINITY : Z := 0x17.
Definition NEG_INFINITY : Z := 0x18.
Definition NEG_ZERO : Z := 0x19.
Definition VARINT : Z := 0x1A.
Definition BIGINT_POS_SMALL : Z := 0x20.
Definition BIGINT_NEG_SMALL : Z := 0x21.
Definition BIGINT_POS_LARGE : Z := 0x22.
Definition BIGINT_NEG_LARGE : Z := 0x23.
Definition STRING_EMPTY : Z := 0x30.
Definition STRING_ASCII_TINY : Z := 0x31.
Definition STRING_ASCII_SHORT : Z := 0x32.
Definition STRING_ASCII_LONG : Z := 0x33.
Definition STRING_UTF8_TINY : Z := 0x34.
Definition STRING_UTF8_SHORT : Z := 0x35.
Definition STRING_UTF8_LONG : Z := 0x36.
Definition STRING_REF : Z := 0x37.
Definition ARRAY_EMPTY : Z := 0x40.
Definition ARRAY_DENSE : Z := 0x41.
Definition ARRAY_SPARSE : Z := 0x42.
Definition ARRAY_PACKED_I8 : Z := 0x43.
Definition ARRAY_PACKED_I16 : Z := 0x44.
Definition ARRAY_PACKED_I32 : Z := 0x45.
Definition ARRAY_PACKED_F32 : Z := 0x46.
Definition ARRAY_PACKED_F64 : Z := 0x47.
Definition OBJECT_EMPTY : Z := 0x50.
Definition OBJECT_PLAIN : Z := 0x51.
Definition OBJECT_LITERAL : Z := 0x52.
Definition OBJECT_CONSTRUCTOR : Z := 0x53.
Definition OBJECT_WITH_DESCRIPTORS : Z := 0x54.
Definition OBJECT_WITH_METHODS : Z := 0x55.
Definition UINT8ARRAY : Z := 0x60.
Definition INT8ARRAY : Z := 0x61.
Definition UINT8CLAMPEDARRAY : Z := 0x62.
Definition UINT16ARRAY : Z := 0x63.
Definition INT16ARRAY : Z := 0x64.
Definition UINT32ARRAY : Z := 0x65.
Definition INT32ARRAY : Z := 0x66.
Definition FLOAT32ARRAY : Z := 0x67.
Definition FLOAT64ARRAY : Z := 0x68.
Definition BIGINT64ARRAY : Z := 0x69.
Definition BIGUINT64ARRAY : Z := 0x6A.
Definition DATAVIEW : Z := 0x6B.
Definition ARRAYBUFFER : Z := 0x70.
Definition BUFFER_REF : Z := 0x71.
Definition SHAREDARRAYBUFFER : Z := 0x72.
Definition MAP : Z := 0x80.
Definition SET : Z := 0x81.
Definition DATE : Z := 0x90.
Definition DATE_INVALID : Z := 0x91.
Definition ERROR : Z := 0xA0.
Definition EVAL_ERROR : Z := 0xA1.
Definition RANGE_ERROR : Z := 0xA2.
Definition REFERENCE_ERROR : Z := 0xA3.
Definition SYNTAX_ERROR : Z := 0xA4.
Definition TYPE_ERROR : Z := 0xA5.
Definition URI_ERROR : Z := 0xA6.
Definition AGGREGATE_ERROR : Z := 0xA7.
Definition CUSTOM_ERROR : Z := 0xA8.
Definition REGEXP : Z := 0xB0.
Definition BLOB : Z := 0xC0.
Definition FILE : Z := 0xC1.
Definition REFERENCE : Z := 0xD0.
Definition CIRCULAR_REF : Z := 0xD1.
Definition SYMBOL : Z := 0xE0.
Definition SYMBOL_GLOBAL : Z := 0xE1.
Definition SYMBOL_WELLKNOWN : Z := 0xE2.
Definition SYMBOL_NO_DESC : Z := 0xE3.
Definition FUNCTION_PLACEHOLDER : Z := 0xF0.
End TYPE.

(** The lookup table [BYTES_PER_ELEMENT]: a [Uint8Array(256)], zero where
    [initLookups] stores nothing. *)
Definition BYTES_PER_ELEMENT (t : Z) : Z :=
  if (t =? TYPE.UINT8ARRAY) || (t =? TYPE.INT8ARRAY) || (t =? TYPE.UINT8CLAMPEDARRAY) then 1
  else if (t =? TYPE.UINT16ARRAY) || (t =? TYPE.INT16ARRAY) then 2
  else if (t =? TYPE.UINT32ARRAY) || (t =? TYPE.INT32ARRAY) || (t =? TYPE.FLOAT32ARRAY) then 4
  else if (t =? TYPE.FLOAT64ARRAY) || (t =? TYPE.BIGINT64ARRAY) || (t =? TYPE.BIGUINT64ARRAY) then 8
  else if t =? TYPE.ARRAY_PACKED_I8 then 1
  else if t =? TYPE.ARRAY_PACKED_I16 then 2
  else if (t =? TYPE.ARRAY_PACKED_I32) || (t =? TYPE.ARRAY_PACKED_F32) then 4
  else if t =? TYPE.ARRAY_PACKED_F64 then 8
  else 0.

(** ** Outcomes of a call: a result, a thrown error, or fuel exhausted *)

Inductive error : Type :=
| InvalidData                          (* 'Invalid TurboSerial data' *)
| UnsupportedVersion (v : Z)           (* 'Unsupported version: v' *)
| UnexpectedEnd                        (* 'Unexpected end of buffer' *)
| InvalidReference (id : Z)            (* 'Invalid reference: id' *)
| InvalidStringReference (id : Z)      (* 'Invalid string reference: id' *)
| InvalidBufferReference (id : Z)      (* 'Invalid buffer reference: id' *)
| BufferUnderflow (need avail : Z)     (* 'Buffer underflow: need .., available ..' *)
| UnknownType (t : Z)                  (* 'Unknown type: 0x..' and its siblings *)
| UnknownElementType (t : Z)           (* 'Unknown element type' / 'Unknown packed array type' *)
| HostRangeError                       (* RangeError raised by a built-in *)
| HostTypeError                        (* TypeError raised by a built-in *)
| HostSyntaxError                      (* SyntaxError raised by a built-in *)
| HostError.                           (* an exception raised by evaluated source text *)

Inductive outcome (A : Type) : Type :=
| Done (a : A)
| Throw (e : error)
| OutOfFuel.
Arguments Done {A} a.
Arguments Throw {A} e.
Arguments OutOfFuel {A}.

(** ** UltraMemoryPool: the writer's growable byte buffer *)

Module UltraMemoryPool.

(** [size] is the capacity, [u8] the bytes of the buffer (a byte that
    was never stored is 0), [pos] the append cursor. *)
Record pool : Type := mkPool { size : Z; u8 : gmap Z Z; pos : Z }.

(** [constructor(initialSize)]. *)
Definition new (initialSize : Z) : pool :=
  {| size := JS.to_uint32 (JS.band (initialSize + CACHE_LINE_SIZE - 1) (JS.bnot (CACHE_LINE_SIZE - 1)));
     u8 := ∅; pos := 0 |}.

(** [u8[i]]. *)
Definition byte_at (m : gmap Z Z) (i : Z) : Z := default 0 (m !! i).

(** [u8[i] = v] on a [Uint8Array] of [n] bytes: the value is reduced
    modulo 256 and a store outside the array is dropped. *)
Definition store (n : Z) (i v : Z) (m : gmap Z Z) : gmap Z Z :=
  if (0 <=? i) && (i <? n) then <[i := v mod 256]> m else m.

Fixpoint store_bytes (n : Z) (i : Z) (bs : list Z) (m : gmap Z Z) : gmap Z Z :=
  match bs with
  | [] => m
  | b :: r => store_bytes n (i + 1) r (store n i b m)
  end.

(** [ensure(bytes)]: grow so that [bytes] more bytes fit; growth copies
    the live prefix [[0, pos)] into a zeroed buffer. *)
Definition ensure (bytes : Z) (p : pool) : pool :=
  let bytes := JS.to_int32 bytes in
  let required := JS.to_int32 (pos p + bytes) in
  if size p <? required then
    let newSize := JS.to_int32 (Z.max (JS.shl (size p) 1) (required + CACHE_LINE_SIZE)) in
    let alignedSize :=
      JS.to_uint32 (JS.band (newSize + CACHE_LINE_SIZE - 1) (JS.bnot (CACHE_LINE_SIZE - 1))) in
    {| size := alignedSize;
       u8 := filter (fun kv => fst kv < pos p) (u8 p);
       pos := pos p |}
  else p.

(** [alignPos(alignment)]. *)
Definition alignPos (alignment : Z) (p : pool) : pool :=
  let mask := JS.to_int32 (alignment - 1) in
  {| size := size p; u8 := u8 p;
     pos := JS.to_uint32 (JS.band (pos p + mask) (JS.bnot mask)) |}.

(** The common tail of the typed writes: store [bs] at the cursor and
    advance it; [wrap] is the source's [|0] on the new cursor. *)
Definition put (bs : list Z) (p : pool) : pool :=
  {| size := size p;
     u8 := store_bytes (size p) (pos p) bs (u8 p);
     pos := JS.to_int32 (pos p + Z.of_nat (length bs)) |}.

(** [writeU8(value)]: [u8[pos++] = value & 0xFF]. *)
Definition writeU8 (value : Z) (p : pool) : pool :=
  let p := ensure 1 p in
  {| size := size p;
     u8 := store (size p) (pos p) (JS.band value 0xFF) (u8 p);
     pos := pos p + 1 |}.

(** [writeU16], [writeI16], [writeU32], [writeI32]: align, ensure, store
    little-endian. *)
Definition writeU16 (value : Z) (p : pool) : pool :=
  put (JS.le_bytes 2 (JS.band value 0xFFFF)) (ensure 2 (alignPos 2 p)).

Definition writeI16 (value : Z) (p : pool) : pool :=
  put (JS.le_bytes 2 value) (ensure 2 (alignPos 2 p)).

Definition writeU32 (value : Z) (p : pool) : pool :=
  put (JS.le_bytes 4 (JS.to_uint32 value)) (ensure 4 (alignPos 4 p)).

Definition writeI32 (value : Z) (p : pool) : pool :=
  put (JS.le_bytes 4 (JS.to_int32 value)) (ensure 4 (alignPos 4 p)).

(** [writeF32], [writeF64]: the binary32 / binary64 bit pattern. *)
Definition writeF32 (value : Num.number) (p : pool) : pool :=
  put (JS.le_bytes 4 (Num.bits32 value)) (ensure 4 (alignPos 4 p)).

Definition writeF64 (value : Num.number) (p : pool) : pool :=
  put (JS.le_bytes 8 (Num.bits64 value)) (ensure 8 (alignPos 8 p)).

(** [writeBigInt64(value)]: the low 64 bits, two's complement. *)
Definition writeBigInt64 (value : Z) (p : pool) : pool :=
  put (JS.le_bytes 8 value) (ensure 8 (alignPos 8 p)).

(** The [do { .. } while (value >= 0x80)] loop of [writeVarint]: one
    continuation group per turn.  The loop runs on a value of at most
    32 bits, so [fuel] 5 is never exhausted. *)
Fixpoint varint_loop (fuel : nat) (n : Z) (value : Z) (cur : Z) (m : gmap Z Z)
  : Z * Z * gmap Z Z :=
  let m := store n cur (JS.bor (JS.band value 0x7F) 0x80) m in
  let cur := cur + 1 in
  let value := JS.ushr value 7 in
  match fuel with
  | O => (value, cur, m)
  | S k => if 0x80 <=? value then varint_loop k n value cur m else (value, cur, m)
  end.

(** [writeVarint(value)]. *)
Definition writeVarint (value : Z) (p : pool) : pool :=
  let value := JS.to_uint32 value in
  let p := ensure 5 p in
  if value <? 0x80 then
    {| size := size p; u8 := store (size p) (pos p) value (u8 p); pos := pos p + 1 |}
  else if value <? 0x4000 then
    {| size := size p;
       u8 := store (size p) (pos p + 1) (JS.ushr value 7)
               (store (size p) (pos p) (JS.bor (JS.band value 0x7F) 0x80) (u8 p));
       pos := JS.to_int32 (pos p + 2) |}
  else
    let '(value, cur, m) := varint_loop 5 (size p) value (pos p) (u8 p) in
    {| size := size p; u8 := store (size p) cur value m; pos := cur + 1 |}.

(** [writeBulkAligned(data, elementSize)] for a byte sequence [data]. *)
Definition writeBulkAligned (data : list Z) (elementSize : Z) (p : pool) : pool :=
  let alignment := Z.min elementSize SIMD_ALIGNMENT in
  let p := alignPos alignment p in
  let totalBytes := Z.of_nat (length data) in
  let p := ensure totalBytes p in
  {| size := size p;
     u8 := store_bytes (size p) (pos p) data (u8 p);
     pos := JS.to_int32 (pos p + totalBytes) |}.

(** [writePackedArray(array, elementType)], on the elements already
    coerced to numbers ([view.set(array)], [array[i]|0], [+array[i]]). *)
Definition writePackedArray (array : list Num.number) (elementType : Z) (p : pool)
  : outcome pool :=
  let len := JS.to_int32 (Z.of_nat (length array)) in
  let p := writeVarint len p in
  let elementSize := JS.to_int32 (BYTES_PER_ELEMENT elementType) in
  if elementSize =? 0 then Throw (UnknownElementType elementType)
  else
    let p := alignPos (Z.min elementSize 8) p in
    let p := ensure (len * elementSize) p in
    if elementType =? TYPE.ARRAY_PACKED_I8 then
      Done (put (flat_map (fun x => JS.le_bytes 1 (Num.trunc x)) array) p)
    else if elementType =? TYPE.ARRAY_PACKED_I16 then
      Done (put (flat_map (fun x => JS.le_bytes 2 (Num.to_int32 x)) array) p)
    else if elementType =? TYPE.ARRAY_PACKED_I32 then
      Done (put (flat_map (fun x => JS.le_bytes 4 (Num.to_int32 x)) array) p)
    else if elementType =? TYPE.ARRAY_PACKED_F32 then
      Done (put (flat_map (fun x => JS.le_bytes 4 (Num.bits32 x)) array) p)
    else if elementType =? TYPE.ARRAY_PACKED_F64 then
      Done (put (flat_map (fun x => JS.le_bytes 8 (Num.bits64 x)) array) p)
    else Throw (UnknownElementType elementType).

(** [reset()] and [getResult()]: the live prefix [u8.subarray(0, pos)]. *)
Definition reset (p : pool) : pool := {| size := size p; u8 := u8 p; pos := 0 |}.

Definition getResult (p : pool) : list Z :=
  map (byte_at (u8 p)) (seqZ 0 (Z.min (pos p) (size p))).

End UltraMemoryPool.

(** ** Values and the heap *)

Module Heap.

(** A location is the identity of a heap object. *)
Definition loc := nat.

(** Symbols: made by [Symbol(description)] (each with an identity of its
    own), registered by [Symbol.for(key)], or one of the well-known
    ones, named as in [WELLKNOWN_SYMBOLS]. *)
Inductive symbol : Type :=
| SymLocal (id : nat) (description : option JS.jsstring)
| SymGlobal (key : JS.jsstring)
| SymWellKnown (name : JS.jsstring).

(** A function value: an identity, its source text ([toString()]) and
    its [name].  Functions are never called by the codec. *)
Record func : Type := mkFunc { f_id : nat; f_source : JS.jsstring; f_name : JS.jsstring }.

Inductive value : Type :=
| VNull
| VUndefined
| VBool (b : bool)
| VNum (x : Num.number)
| VBigInt (z : Z)
| VStr (s : JS.jsstring)
| VSym (s : symbol)
| VFun (f : func)
| VRef (l : loc).

(** Property keys. *)
Inductive pkey : Type :=
| PKStr (s : JS.jsstring)
| PKSym (s : symbol).

(** A data property with its attributes.  Accessor properties are not
    part of the modelled heap: reading one runs a getter of the caller,
    and the reader never defines one. *)
Record prop : Type :=
  mkProp { p_value : value; p_enumerable : bool; p_writable : bool; p_configurable : bool }.

(** Heap cells.  [OObject cls props]: an ordinary object, [cls = None]
    for a plain one (prototype [Object.prototype]) and [Some name] for an
    instance of a constructor called [name]; [props] are its own
    properties in key order.  [OError t name ..]: an error whose
    constructor is called [name]; [errors] is the [errors] array of an
    [AggregateError].  [OView t buf off len]: a typed array or [DataView]
    of tag [t] over the buffer [buf]. *)
Inductive obj : Type :=
| OArray (len : Z) (elems : gmap Z value)
| OObject (cls : option JS.jsstring) (props : list (pkey * prop))
| OMap (entries : list (value * value))
| OSet (items : list value)
| ODate (time : Num.number)
| ORegExp (source flags : value)
| OError (name : JS.jsstring) (message stack : value) (errors : option (list value))
| OArrayBuffer (shared : bool) (bytes : list Z)
| OView (t : Z) (buffer : loc) (byteOffset length : Z)
| OBlob (file : bool).

Definition heap := list obj.

#[global] Instance symbol_eq_dec : EqDecision symbol.
Proof. solve_decision. Defined.
#[global] Instance func_eq_dec : EqDecision func.
Proof. solve_decision. Defined.
#[global] Instance spec_float_eq_dec : EqDecision spec_float.
Proof. solve_decision. Defined.
#[global] Instance value_eq_dec : EqDecision value.
Proof. solve_decision. Defined.
#[global] Instance pkey_eq_dec : EqDecision pkey.
Proof. solve_decision. Defined.

(** [typeof v]. *)
Inductive jstype : Type :=
| TUndefined | TObject | TBoolean | TNumber | TBigInt | TString | TSymbol | TFunction.

#[global] Instance jstype_eq_dec : EqDecision jstype.
Proof. solve_decision. Defined.

Definition typeof (v : value) : jstype :=
  match v with
  | VNull => TObject
  | VUndefined => TUndefined
  | VBool _ => TBoolean
  | VNum _ => TNumber
  | VBigInt _ => TBigInt
  | VStr _ => TString
  | VSym _ => TSymbol
  | VFun _ => TFunction
  | VRef _ => TObject
  end.

(** [typeof v == 'object' && v != null]. *)
Definition is_object (v : value) : bool :=
  match v with VRef _ => true | _ => false end.

(** Truthiness, [!!v]. *)
Definition truthy (v : value) : bool :=
  match v with
  | VNull | VUndefined => false
  | VBool b => b
  | VNum x => match x with S754_zero _ | S754_nan => false | _ => true end
  | VBigInt z => negb (z =? 0)
  | VStr s => match s with [] => false | _ => true end
  | VSym _ | VFun _ | VRef _ => true
  end.

(** SameValueZero, the key equality of [Map] and [Set]. *)
Definition same_value_zero (a b : value) : bool :=
  match a, b with
  | VNum (S754_zero _), VNum (S754_zero _) => true
  | _, _ => bool_decide (a = b)
  end.

(** [array[i]] on an array cell: a hole reads [undefined]. *)
Definition array_get (elems : gmap Z value) (i : Z) : value :=
  default VUndefined (elems !! i).

(** [i in array]. *)
Definition array_has (elems : gmap Z value) (i : Z) : bool :=
  bool_decide (is_Some (elems !! i)).

(** An array cell holding the given values. *)
Definition array_of (vs : list value) : obj :=
  OArray (Z.of_nat (length vs))
         (list_to_map (zip (seqZ 0 (Z.of_nat (length vs))) vs)).

(** A plain object with the given string-keyed properties, all
    attributes set (an object literal). *)
Definition literal (kvs : list (JS.jsstring * value)) : obj :=
  OObject None (map (fun kv => (PKStr (fst kv), mkProp (snd kv) true true true)) kvs).

(** Own-property lookup and update (a new key goes last). *)
Fixpoint props_get (ps : list (pkey * prop)) (k : pkey) : option prop :=
  match ps with
  | [] => None
  | (k', p) :: r => if bool_decide (k' = k) then Some p else props_get r k
  end.

Fixpoint props_set (ps : list (pkey * prop)) (k : pkey) (p : prop) : list (pkey * prop) :=
  match ps with
  | [] => [(k, p)]
  | (k', p') :: r => if bool_decide (k' = k) then (k, p) :: r else (k', p') :: props_set r k p
  end.

(** [map.set(k, v)] and [set.add(v)]. *)
Fixpoint map_set (es : list (value * value)) (k v : value) : list (value * value) :=
  match es with
  | [] => [(k, v)]
  | (k', v') :: r => if same_value_zero k' k then (k', v) :: r else (k', v') :: map_set r k v
  end.

Definition set_add (xs : list value) (v : value) : list value :=
  if existsb (same_value_zero v) xs then xs else xs ++ [v].

(** What the codec asks of the JavaScript runtime and cannot be read off
    its own source.  [h_evaluate fuel v] is
    [new Function('return ' + v)()]: [None] while the evaluation has not
    finished within [fuel] steps, [Some None] when it throws,
    [Some (Some r)] when it returns [r]. *)
Record Host : Type := mkHost {
  h_encode : JS.jsstring -> list Z;                   (* TextEncoder.encode *)
  h_decode : list Z -> JS.jsstring;                   (* TextDecoder.decode *)
  h_to_string : heap -> value -> option JS.jsstring;  (* ToString; None: TypeError *)
  h_to_number : heap -> value -> option Num.number;   (* ToNumber of a string or an object *)
  h_regexp : heap -> value -> value -> bool;          (* new RegExp(source, flags) accepts *)
  h_evaluate : nat -> value -> option (option value)
}.

End Heap.

(** ** Coercions of values used by the numeric paths *)

Module Coerce.
Import Heap.

Section WithHost.
Context (H : Host) (h : heap).

(** [ToNumber(v)], as [+v], [Math.min(_, v)] and [Math.fround(v)] apply
    it. *)
Definition to_number (v : value) : outcome Num.number :=
  match v with
  | VNum x => Done x
  | VNull => Done (Num.of_int 0)
  | VUndefined => Done Num.NaN
  | VBool b => Done (Num.of_int (if b then 1 else 0))
  | VFun _ => Done Num.NaN
  | VStr _ | VRef _ =>
      match h_to_number H h v with Some x => Done x | None => Throw HostTypeError end
  | VSym _ | VBigInt _ => Throw HostTypeError
  end.

(** [v == x] for a number [x]. *)
Definition loose_eq_number (v : value) (x : Num.number) : bool :=
  match v with
  | VNum y => Num.eqb y x
  | VBool b => Num.eqb (Num.of_int (if b then 1 else 0)) x
  | VStr _ | VRef _ =>
      match h_to_number H h v with Some y => Num.eqb y x | None => false end
  | VBigInt z => Num.eqb (Num.of_int z) x
  | VNull | VUndefined | VSym _ | VFun _ => false
  end.

End WithHost.
End Coerce.

(** ** SIMDProcessor: the numeric-array analyzer *)

Module SIMDProcessor.
Import Heap.

(** [+(b)]: a boolean as 0 or 1. *)
Definition b2z (b : bool) : Z := if b then 1 else 0.

(** [canOptimize(array)] on an array of length [len].  The sampling
    loop visits [i = k * sampleInterval] for [k = 1, 2, ..] while
    [i < len]. *)
Definition canOptimize (len : Z) (elems : gmap Z value) : bool :=
  let isGoodSize :=
    JS.band (b2z (8 <=? len))
            (b2z ((JS.band len (len - 1) =? 0) || (16 <=? len))) in
  if isGoodSize =? 0 then false
  else
    let firstType := typeof (array_get elems 0) in
    if negb (bool_decide (firstType = TNumber)) then false
    else
      let sampleInterval := Z.max 1 (JS.to_int32 (JS.ushr len 5)) in
      forallb (fun k => bool_decide (typeof (array_get elems (k * sampleInterval)) = firstType))
              (seqZ 1 ((len - 1) / sampleInterval)).

(** The accumulators of the scan in [analyzeNumericArray]. *)
Record scan : Type :=
  mkScan { isInteger : Z; min : Num.number; max : Num.number; canBeFloat32 : Z }.

Section WithHost.
Context (H : Host) (h : heap).

(** One turn of the scan loop, on [val = array[i]]. *)
Definition scan_step (a : scan) (val : value) : outcome scan :=
  match Coerce.to_number H h val with
  | Done x =>
      let intVal := Num.to_int32 x in
      let isInteger' :=
        JS.band (isInteger a) (b2z (Coerce.loose_eq_number H h val (Num.of_int intVal))) in
      let min' := Num.min (min a) x in
      let max' := Num.max (max a) x in
      let canBeFloat32' :=
        if canBeFloat32 a =? 0 then canBeFloat32 a
        else
          let f32Val := Num.fround x in
          JS.band (canBeFloat32 a) (b2z (Coerce.loose_eq_number H h val f32Val)) in
      Done (mkScan isInteger' min' max' canBeFloat32')
  | Throw e => Throw e
  | OutOfFuel => OutOfFuel
  end.

Fixpoint scan_loop (a : scan) (vals : list value) : outcome scan :=
  match vals with
  | [] => Done a
  | val :: r =>
      match scan_step a val with
      | Done a' => scan_loop a' r
      | Throw e => Throw e
      | OutOfFuel => OutOfFuel
      end
  end.

(** [analyzeNumericArray(array)]: the chosen tag and its element size. *)
Definition analyzeNumericArray (vals : list value) : outcome (Z * Z) :=
  match scan_loop (mkScan 1 Num.Infinity Num.NegInfinity 1) vals with
  | Done a =>
      if negb (isInteger a =? 0) then
        let absMax := Num.max (Num.abs (min a)) (Num.abs (max a)) in
        let typeIndex :=
          JS.bor (JS.bor (JS.shl (b2z (Num.leb absMax (Num.of_int 0x7F))) 0)
                         (JS.shl (b2z (Num.leb absMax (Num.of_int 0x7FFF))) 1))
                 (JS.shl (b2z (Num.leb absMax (Num.of_int 0x7FFFFFFF))) 2) in
        let types := [ (TYPE.ARRAY_PACKED_I32, 4); (TYPE.ARRAY_PACKED_I8, 1);
                       (TYPE.ARRAY_PACKED_I16, 2); (TYPE.ARRAY_PACKED_I32, 4) ] in
        Done (default (TYPE.ARRAY_PACKED_I32, 4) (types !! Z.to_nat (JS.band typeIndex 3)))
      else if negb (canBeFloat32 a =? 0) then Done (TYPE.ARRAY_PACKED_F32, 4)
      else Done (TYPE.ARRAY_PACKED_F64, 8)
  | Throw e => Throw e
  | OutOfFuel => OutOfFuel
  end.

End WithHost.
End SIMDProcessor.

(** ** UltraTypeDetector: the classifier *)

Module UltraTypeDetector.
Import Heap.

(** [detectNumber(value)].  [highBits] and [lowBits] are the two 32-bit
    words of the binary64 pattern, as the [Uint32Array] view over the
    [Float64Array] shows them. *)
Definition detectNumber (value : Num.number) : Z :=
  if negb (Num.eqb value value) then TYPE.NAN
  else
    let bits := Num.bits64 value in
    let highBits := bits / 4294967296 in
    let lowBits := bits mod 4294967296 in
    let expMask := 0x7FF00000 in
    let isInfinity :=
      JS.band (SIMDProcessor.b2z (JS.band highBits expMask =? expMask))
              (JS.band (SIMDProcessor.b2z (lowBits =? 0))
                       (SIMDProcessor.b2z (JS.band highBits 0xFFFFF =? 0))) in
    if negb (isInfinity =? 0) then
      (if negb (JS.ushr highBits 31 =? 0) then TYPE.NEG_INFINITY else TYPE.INFINITY)
    else if Num.eqb value (Num.of_int 0) && negb (JS.ushr highBits 31 =? 0) then TYPE.NEG_ZERO
    else
      let intValue := Num.to_int32 value in
      if Num.eqb value (Num.of_int intValue) then
        let absValue := Num.abs value in
        let typeIndex :=
          JS.bor (JS.bor (JS.shl (SIMDProcessor.b2z (Num.leb absValue (Num.of_int 0x7F))) 0)
                         (JS.shl (SIMDProcessor.b2z (Num.leb absValue (Num.of_int 0x7FFF))) 1))
                 (JS.shl (SIMDProcessor.b2z (Num.leb absValue (Num.of_int 0x7FFFFFFF))) 2) in
        let types := [TYPE.VARINT; TYPE.INT8; TYPE.INT16; TYPE.INT32] in
        default TYPE.VARINT (types !! Z.to_nat (Z.min typeIndex 3))
      else
        let f32Value := Num.fround value in
        if Num.eqb f32Value value then TYPE.FLOAT32 else TYPE.FLOAT64.

(** [detectBigInt(value)]. *)
Definition detectBigInt (value : Z) : Z :=
  let isNegative := value <? 0 in
  let absValue := if isNegative then - value else value in
  let fits64Bit := absValue <=? 0x7FFFFFFFFFFFFFFF in
  if fits64Bit
  then (if isNegative then TYPE.BIGINT_NEG_SMALL else TYPE.BIGINT_POS_SMALL)
  else (if isNegative then TYPE.BIGINT_NEG_LARGE else TYPE.BIGINT_POS_LARGE).

(** [detectSymbol(value)]. *)
Definition detectSymbol (value : symbol) : Z :=
  match value with
  | SymGlobal _ => TYPE.SYMBOL_GLOBAL
  | SymWellKnown _ => TYPE.SYMBOL_WELLKNOWN
  | SymLocal _ None => TYPE.SYMBOL_NO_DESC
  | SymLocal _ (Some _) => TYPE.SYMBOL
  end.

(** [errorTypeMap.get(name) || TYPE.CUSTOM_ERROR]. *)
Definition detectErrorType (name : JS.jsstring) : Z :=
  if bool_decide (name = JS.str "Error") then TYPE.ERROR
  else if bool_decide (name = JS.str "EvalError") then TYPE.EVAL_ERROR
  else if bool_decide (name = JS.str "RangeError") then TYPE.RANGE_ERROR
  else if bool_decide (name = JS.str "ReferenceError") then TYPE.REFERENCE_ERROR
  else if bool_decide (name = JS.str "SyntaxError") then TYPE.SYNTAX_ERROR
  else if bool_decide (name = JS.str "TypeError") then TYPE.TYPE_ERROR
  else if bool_decide (name = JS.str "URIError") then TYPE.URI_ERROR
  else if bool_decide (name = JS.str "AggregateError") then TYPE.AGGREGATE_ERROR
  else TYPE.CUSTOM_ERROR.

(** [classifyObject(obj)] on an ordinary object. *)
Definition classifyObject (cls : option JS.jsstring) (props : list (pkey * prop)) : Z :=
  let isPlainObject := match cls with None => true | Some _ => false end in
  if negb isPlainObject then TYPE.OBJECT_CONSTRUCTOR
  else
    match props with
    | [] => TYPE.OBJECT_EMPTY
    | _ =>
        let hasMethods :=
          existsb (fun kp => bool_decide (typeof (p_value (snd kp)) = TFunction)) props in
        let hasComplexDescriptors :=
          existsb (fun kp => negb (p_enumerable (snd kp)) || negb (p_writable (snd kp))
                             || negb (p_configurable (snd kp))) props in
        if hasComplexDescriptors then TYPE.OBJECT_WITH_DESCRIPTORS
        else if hasMethods then TYPE.OBJECT_WITH_METHODS
        else TYPE.OBJECT_LITERAL
    end.

Section WithHost.
Context (H : Host) (h : heap).

(** [detectString(value)]. *)
Definition detectString (value : JS.jsstring) : Z :=
  let len := Z.of_nat (length value) in
  if len =? 0 then TYPE.STRING_EMPTY
  else
    let isAscii := forallb (fun c => c <=? 0x7F) value in
    if isAscii then
      (if len <? 16 then TYPE.STRING_ASCII_TINY
       else if len <? 256 then TYPE.STRING_ASCII_SHORT
       else TYPE.STRING_ASCII_LONG)
    else
      let byteLength := Z.of_nat (length (h_encode H value)) in
      if byteLength <? 16 then TYPE.STRING_UTF8_TINY
      else if byteLength <? 256 then TYPE.STRING_UTF8_SHORT
      else TYPE.STRING_UTF8_LONG.

(** [detectArray(arr)]. *)
Definition detectArray (len : Z) (elems : gmap Z value) : outcome Z :=
  if len =? 0 then Done TYPE.ARRAY_EMPTY
  else
    let idx := seqZ 0 len in
    let filledCount := Z.of_nat (length (List.filter (array_has elems) idx)) in
    let hasHoles := negb (forallb (array_has elems) idx) in
    let sparsityThreshold := JS.ushr (len * 3) 2 in
    if hasHoles || (filledCount <? sparsityThreshold) then Done TYPE.ARRAY_SPARSE
    else if SIMDProcessor.canOptimize len elems then
      match SIMDProcessor.analyzeNumericArray H h (map (array_get elems) idx) with
      | Done analysis => Done (fst analysis)
      | Throw e => Throw e
      | OutOfFuel => OutOfFuel
      end
    else Done TYPE.ARRAY_DENSE.

(** [detectObject(obj)]: the constructor lookup, then arrays, errors,
    blobs and ordinary objects.  A location outside the heap does not
    arise; it reads as an empty object. *)
Definition detectObject (l : loc) : outcome Z :=
  match h !! l with
  | Some (ODate time) => Done (if Num.eqb time time then TYPE.DATE else TYPE.DATE_INVALID)
  | Some (ORegExp _ _) => Done TYPE.REGEXP
  | Some (OMap _) => Done TYPE.MAP
  | Some (OSet _) => Done TYPE.SET
  | Some (OArrayBuffer shared _) =>
      Done (if shared then TYPE.SHAREDARRAYBUFFER else TYPE.ARRAYBUFFER)
  | Some (OView t _ _ _) => Done t
  | Some (OArray len elems) => detectArray len elems
  | Some (OError name _ _ _) => Done (detectErrorType name)
  | Some (OBlob file) => Done (if file then TYPE.FILE else TYPE.BLOB)
  | Some (OObject cls props) => Done (classifyObject cls props)
  | None => Done TYPE.OBJECT_EMPTY
  end.

(** [detect(value)]. *)
Definition detect (value : value) : outcome Z :=
  match value with
  | VNull => Done TYPE.NULL
  | VUndefined => Done TYPE.UNDEFINED
  | VBool b => Done (if b then TYPE.TRUE else TYPE.FALSE)
  | VNum x => Done (detectNumber x)
  | VBigInt z => Done (detectBigInt z)
  | VStr s => Done (detectString s)
  | VSym s => Done (detectSymbol s)
  | VRef l => detectObject l
  | VFun _ => Done TYPE.UNDEFINED
  end.

End WithHost.
End UltraTypeDetector.

(** ** A state monad with exceptions and fuel *)

Definition M (S A : Type) : Type := S -> outcome (A * S).

Definition ret {S A} (a : A) : M S A := fun s => Done (a, s).

Definition bind {S A B} (c : M S A) (k : A -> M S B) : M S B :=
  fun s =>
    match c s with
    | Done (a, s') => k a s'
    | Throw e => Throw e
    | OutOfFuel => OutOfFuel
    end.

Definition throw {S A} (e : error) : M S A := fun _ => Throw e.
Definition get {S} : M S S := fun s => Done (s, s).
Definition modify {S} (f : S -> S) : M S unit := fun s => Done (tt, f s).
Definition lift {S A} (o : outcome A) : M S A :=
  fun s => match o with Done a => Done (a, s) | Throw e => Throw e | OutOfFuel => OutOfFuel end.

Declare Scope monad_scope.
Delimit Scope monad_scope with monad.
Notation "'let*' x := c 'in' k" := (bind c (fun x => k))
  (at level 10, x name, c at level 100, k at level 200, only parsing) : monad_scope.
Notation "c ;;; k" := (bind c (fun _ => k))
  (at level 100, k at level 200, only parsing, right associativity) : monad_scope.

(** [for (const x of xs) body(x)]. *)
Fixpoint for_each {S A} (body : A -> M S unit) (xs : list A) : M S unit :=
  match xs with
  | [] => ret tt
  | x :: r => bind (body x) (fun _ => for_each body r)
  end.

(** [for (let i = 0; i < count; i++) body(i)] for a count that comes
    from the input: each turn costs one unit of [fuel]. *)
Fixpoint for_count {S} (fuel : nat) (body : Z -> M S unit) (i count : Z) : M S unit :=
  if count <=? i then ret tt
  else
    match fuel with
    | O => fun _ => OutOfFuel
    | Datatypes.S k => bind (body i) (fun _ => for_count k body (i + 1) count)
    end.

(** ** TurboSerial: options and the writer *)

Module TurboSerial.
Import Heap.
Local Open Scope monad_scope.

Record options : Type := mkOptions {
  compression : bool;
  deduplication : bool;
  shareArrayBuffers : bool;
  simdOptimization : bool;
  detectCircular : bool;
  serializeFunctions : bool;
  preservePropertyDescriptors : bool;
  memoryPoolSize : Z
}.

(** [new TurboSerial()]: every option at its default. *)
Definition default_options : options :=
  {| compression := false; deduplication := true; shareArrayBuffers := true;
     simdOptimization := true; detectCircular := true; serializeFunctions := false;
     preservePropertyDescriptors := true; memoryPoolSize := 65536 |}.

(** The instance state the writer uses: the pool and the reference
    tracking tables. *)
Record wstate : Type := mkW {
  pool : UltraMemoryPool.pool;
  refs : gmap loc Z;
  circularRefs : gset loc;
  strings : gmap JS.jsstring Z;
  buffers : gmap loc Z
}.

Definition W := M wstate unit.

(** A pool operation as a writer step. *)
Definition on_pool (f : UltraMemoryPool.pool -> UltraMemoryPool.pool) : W :=
  modify (fun s => mkW (f (pool s)) (refs s) (circularRefs s) (strings s) (buffers s)).

Definition writeU8 (v : Z) : W := on_pool (UltraMemoryPool.writeU8 v).
Definition writeVarint (v : Z) : W := on_pool (UltraMemoryPool.writeVarint v).

(** [m.size] of a [Map]. *)
Definition msize {K} `{Countable K} {V} (m : gmap K V) : Z := Z.of_nat (size m).

(** [resetState()]. *)
Definition resetState (s : wstate) : wstate :=
  mkW (UltraMemoryPool.reset (pool s)) ∅ ∅ ∅ ∅.

(** Lexicographic order on strings by code unit, the order of
    [Array.prototype.sort()] without a comparator, and the sort itself
    (stable insertion). *)
Fixpoint str_leb (a b : JS.jsstring) : bool :=
  match a, b with
  | [], _ => true
  | _ :: _, [] => false
  | x :: a', y :: b' => if x <? y then true else if y <? x then false else str_leb a' b'
  end.

Fixpoint insert_sorted (k : JS.jsstring) (l : list JS.jsstring) : list JS.jsstring :=
  match l with
  | [] => [k]
  | x :: r => if str_leb x k then x :: insert_sorted k r else k :: l
  end.

Definition sort (l : list JS.jsstring) : list JS.jsstring :=
  foldr insert_sorted [] (reverse l).

(** [Object.keys(obj)]: the own enumerable string keys. *)
Definition object_keys (props : list (pkey * prop)) : list JS.jsstring :=
  omap (fun kp => match fst kp with
                  | PKStr s => if p_enumerable (snd kp) then Some s else None
                  | PKSym _ => None
                  end) props.

(** [[...Object.getOwnPropertyNames(obj), ...Object.getOwnPropertySymbols(obj)]]. *)
Definition own_keys (props : list (pkey * prop)) : list pkey :=
  List.filter (fun k => match k with PKStr _ => true | _ => false end) (map fst props)
  ++ List.filter (fun k => match k with PKSym _ => true | _ => false end) (map fst props).

(** [obj[key]] on own data properties. *)
Definition prop_value (props : list (pkey * prop)) (k : pkey) : value :=
  match props_get props k with Some p => p_value p | None => VUndefined end.

Definition key_value (k : pkey) : value :=
  match k with PKStr s => VStr s | PKSym s => VSym s end.

(** The bytes a view covers: [new Uint8Array(buffer, byteOffset, totalBytes)]. *)
Definition buffer_bytes (h : heap) (buffer : loc) : list Z :=
  match h !! buffer with
  | Some (OArrayBuffer _ bytes) => bytes
  | _ => []
  end.

Section Writer.
Context (H : Host) (opts : options) (h : heap).

(** [detectCircularReferences(value, visited)]: the cycle set after the
    walk.  [visited] holds the objects on the current path; the source
    restores it on the way out ([finally]). *)
Fixpoint detectCircularReferences (fuel : nat) (value : value)
    (visited : gset loc) (circ : gset loc) : outcome (gset loc) :=
  match fuel with
  | O => OutOfFuel
  | Datatypes.S k =>
      match value with
      | VRef l =>
          if bool_decide (l ∈ visited) then Done ({[l]} ∪ circ)
          else
            let visited := {[l]} ∪ visited in
            let walk :=
              fix walk (vs : list Heap.value) (circ : gset loc) : outcome (gset loc) :=
                match vs with
                | [] => Done circ
                | v :: r =>
                    match detectCircularReferences k v visited circ with
                    | Done circ' => walk r circ'
                    | Throw e => Throw e
                    | OutOfFuel => OutOfFuel
                    end
                end in
            match h !! l with
            | Some (OArray len elems) =>
                walk (omap (fun i => elems !! i) (seqZ 0 len)) circ
            | Some (OMap entries) =>
                walk (flat_map (fun kv => [fst kv; snd kv]) entries) circ
            | Some (OSet items) => walk items circ
            | Some (OObject _ props) =>
                walk (map (prop_value props ∘ PKStr) (object_keys props)) circ
            | _ => Done circ
            end
      | _ => Done circ
      end
  end.

(** [writeNumber(value, type)]. *)
Definition writeNumber (value : Num.number) (type : Z) : W :=
  if type =? TYPE.INT8 then writeU8 (Num.trunc value)
  else if type =? TYPE.INT16 then on_pool (UltraMemoryPool.writeI16 (Num.trunc value))
  else if type =? TYPE.INT32 then on_pool (UltraMemoryPool.writeI32 (Num.trunc value))
  else if type =? TYPE.UINT32 then on_pool (UltraMemoryPool.writeU32 (Num.trunc value))
  else if type =? TYPE.FLOAT32 then on_pool (UltraMemoryPool.writeF32 value)
  else if type =? TYPE.FLOAT64 then on_pool (UltraMemoryPool.writeF64 value)
  else if type =? TYPE.VARINT then
    let isNegative := Num.ltb value (Num.of_int 0) in
    writeVarint (Num.trunc (Num.abs value)) ;;;
    writeU8 (if isNegative then 1 else 0)
  else ret tt.

(** [writeLargeBigInt(value)]: the magnitude, least significant byte
    first, as many bytes as its hexadecimal form has digit pairs. *)
Definition writeLargeBigInt (value : Z) : W :=
  let a := Z.abs value in
  let bytes := JS.le_bytes (Z.to_nat (Z.log2 a / 8 + 1)) a in
  writeVarint (Z.of_nat (length bytes)) ;;;
  for_each writeU8 bytes.

(** [writeBigInt(value, type)]. *)
Definition writeBigInt (value : Z) (type : Z) : W :=
  if (type =? TYPE.BIGINT_POS_SMALL) || (type =? TYPE.BIGINT_NEG_SMALL)
  then on_pool (UltraMemoryPool.writeBigInt64 value)
  else if (type =? TYPE.BIGINT_POS_LARGE) || (type =? TYPE.BIGINT_NEG_LARGE)
  then writeLargeBigInt value
  else ret tt.

(** [writeString(value, type)]. *)
Definition writeString (value : JS.jsstring) (type : Z) : W :=
  let len := Z.of_nat (length value) in
  if type =? TYPE.STRING_EMPTY then ret tt
  else if (type =? TYPE.STRING_ASCII_TINY) || (type =? TYPE.STRING_ASCII_SHORT) then
    writeU8 len ;;; for_each writeU8 value
  else if type =? TYPE.STRING_ASCII_LONG then
    writeVarint len ;;; for_each writeU8 value
  else if (type =? TYPE.STRING_UTF8_TINY) || (type =? TYPE.STRING_UTF8_SHORT)
          || (type =? TYPE.STRING_UTF8_LONG) then
    let encoded := h_encode H value in
    (if (type =? TYPE.STRING_UTF8_TINY) || (type =? TYPE.STRING_UTF8_SHORT)
     then writeU8 (Z.of_nat (length encoded))
     else writeVarint (Z.of_nat (length encoded))) ;;;
    on_pool (UltraMemoryPool.writeBulkAligned encoded 1)
  else ret tt.


(** The values of an array cell, [value[0] .. value[len-1]]. *)
Definition array_values (len : Z) (elems : gmap Z value) : list value :=
  map (array_get elems) (seqZ 0 len).

(** [pool.writePackedArray(value, type)] with the element coercions. *)
Definition writePackedArray (vals : list value) (type : Z) : W :=
  fun s =>
    let coerced :=
      (fix go (vs : list value) : outcome (list Num.number) :=
         match vs with
         | [] => Done []
         | v :: r =>
             match Coerce.to_number H h v with
             | Done x =>
                 match go r with
                 | Done xs => Done (x :: xs)
                 | Throw e => Throw e
                 | OutOfFuel => OutOfFuel
                 end
             | Throw e => Throw e
             | OutOfFuel => OutOfFuel
             end
         end) vals in
    match coerced with
    | Done xs =>
        match UltraMemoryPool.writePackedArray xs type (pool s) with
        | Done p => Done (tt, mkW p (refs s) (circularRefs s) (strings s) (buffers s))
        | Throw e => Throw e
        | OutOfFuel => OutOfFuel
        end
    | Throw e => Throw e
    | OutOfFuel => OutOfFuel
    end.

(** The bodies below call [writeValue] back through [wv]. *)
Section Bodies.
Variable wv : value -> W.

(** [writeSparseArray(array)]. *)
Definition writeSparseArray (len : Z) (elems : gmap Z value) : W :=
  let present := List.filter (array_has elems) (seqZ 0 len) in
  let count := Z.of_nat (length present) in
  writeVarint len ;;;
  writeVarint count ;;;
  for_each (fun i => writeVarint i ;;; wv (array_get elems i)) present.

(** [writeArray(value, type)]. *)
Definition writeArray (len : Z) (elems : gmap Z value) (type : Z) : W :=
  if type =? TYPE.ARRAY_EMPTY then ret tt
  else if type =? TYPE.ARRAY_DENSE then
    writeVarint len ;;; for_each wv (array_values len elems)
  else if type =? TYPE.ARRAY_SPARSE then writeSparseArray len elems
  else if (type =? TYPE.ARRAY_PACKED_I8) || (type =? TYPE.ARRAY_PACKED_I16)
          || (type =? TYPE.ARRAY_PACKED_I32) || (type =? TYPE.ARRAY_PACKED_F32)
          || (type =? TYPE.ARRAY_PACKED_F64) then
    writePackedArray (array_values len elems) type
  else ret tt.

(** The filter of [writeSimpleObject] and [writeConstructorObject]:
    [typeof obj[key] !== 'function' || this.options.serializeFunctions]. *)
Definition serializable (props : list (pkey * prop)) (key : JS.jsstring) : bool :=
  negb (bool_decide (typeof (prop_value props (PKStr key)) = TFunction))
  || serializeFunctions opts.

(** [writeSimpleObject(obj)]. *)
Definition writeSimpleObject (props : list (pkey * prop)) : W :=
  let keys := object_keys props in
  let serializableKeys := sort (List.filter (serializable props) keys) in
  writeVarint (Z.of_nat (length serializableKeys)) ;;;
  for_each (fun key => wv (VStr key) ;;; wv (prop_value props (PKStr key))) serializableKeys.

(** [writeObjectWithDescriptors(obj)]. *)
Definition writeObjectWithDescriptors (props : list (pkey * prop)) : W :=
  let allKeys := own_keys props in
  let serializableKeys :=
    List.filter (fun key => serializeFunctions opts
                   || negb (bool_decide (typeof (prop_value props key) = TFunction))) allKeys in
  writeVarint (Z.of_nat (length serializableKeys)) ;;;
  for_each (fun key =>
      wv (key_value key) ;;;
      match props_get props key with
      | Some descriptor =>
          let flags :=
            JS.bor (JS.bor (if p_enumerable descriptor then 1 else 0)
                           (if p_writable descriptor then 2 else 0))
                   (if p_configurable descriptor then 4 else 0) in
          writeU8 flags ;;;
          wv (p_value descriptor)
      | None => throw HostTypeError
      end) serializableKeys.

(** [writeObjectWithMethods(obj)]. *)
Definition writeObjectWithMethods (props : list (pkey * prop)) : W :=
  let keys := object_keys props in
  let serializableEntries :=
    map (fun key =>
           let value := prop_value props (PKStr key) in
           match value with
           | VFun _ => if serializeFunctions opts then (key, value, true) else (key, VNull, false)
           | _ => (key, value, false)
           end) keys in
  writeVarint (Z.of_nat (length serializableEntries)) ;;;
  for_each (fun entry : JS.jsstring * Heap.value * bool =>
      let '(key, value, isFunction) := entry in
      wv (VStr key) ;;;
      writeU8 (if isFunction then 1 else 0) ;;;
      if isFunction && serializeFunctions opts then
        match value with
        | VFun f => wv (VStr (f_source f)) ;;; wv (VStr (f_name f))
        | _ => throw HostTypeError
        end
      else if negb isFunction then wv value
      else writeU8 TYPE.FUNCTION_PLACEHOLDER) serializableEntries.

(** [writeConstructorObject(obj)]. *)
Definition writeConstructorObject (cls : option JS.jsstring) (props : list (pkey * prop)) : W :=
  wv (VStr (default [] cls)) ;;;
  let keys := object_keys props in
  let serializableKeys := List.filter (serializable props) keys in
  writeVarint (Z.of_nat (length serializableKeys)) ;;;
  for_each (fun key => wv (VStr key) ;;; wv (prop_value props (PKStr key))) serializableKeys.

(** [writeObject(value, type)]. *)
Definition writeObject (cls : option JS.jsstring) (props : list (pkey * prop)) (type : Z) : W :=
  if type =? TYPE.OBJECT_EMPTY then ret tt
  else if (type =? TYPE.OBJECT_LITERAL) || (type =? TYPE.OBJECT_PLAIN) then writeSimpleObject props
  else if type =? TYPE.OBJECT_WITH_DESCRIPTORS then writeObjectWithDescriptors props
  else if type =? TYPE.OBJECT_WITH_METHODS then writeObjectWithMethods props
  else if type =? TYPE.OBJECT_CONSTRUCTOR then writeConstructorObject cls props
  else ret tt.

(** [writeTypedArray(array, type)].  A [DataView] has no [length]: the
    source reads [undefined], which [writeVarint] stores as 0 and which
    makes [totalBytes] NaN, an empty byte range. *)
Definition writeTypedArray (buffer : loc) (byteOffset length : Z) (type : Z) : W :=
  let length := if type =? TYPE.DATAVIEW then 0 else length in
  let* s := get in
  let shared :=
    if shareArrayBuffers opts then buffers s !! buffer else None in
  match shared with
  | Some bufferId =>
      writeU8 1 ;;;
      writeVarint bufferId ;;;
      writeVarint byteOffset ;;;
      writeVarint length
  | None =>
      (if shareArrayBuffers opts
       then modify (fun s => mkW (pool s) (refs s) (circularRefs s) (strings s)
                                 (<[buffer := msize (buffers s)]> (buffers s)))
       else ret tt) ;;;
      writeU8 0 ;;;
      writeVarint byteOffset ;;;
      writeVarint length ;;;
      let elementSize := if BYTES_PER_ELEMENT type =? 0 then 1 else BYTES_PER_ELEMENT type in
      let totalBytes := length * elementSize in
      let sourceData :=
        take (Z.to_nat totalBytes) (drop (Z.to_nat byteOffset) (buffer_bytes h buffer)) in
      if (type =? TYPE.BIGINT64ARRAY) || (type =? TYPE.BIGUINT64ARRAY) then
        for_each (fun i =>
            on_pool (UltraMemoryPool.writeBigInt64
                       (JS.of_le_bytes (take 8 (drop (Z.to_nat (8 * i)) sourceData)))))
          (seqZ 0 length)
      else on_pool (UltraMemoryPool.writeBulkAligned sourceData elementSize)
  end.

(** [writeArrayBuffer(buffer, type)]. *)
Definition writeArrayBuffer (bytes : list Z) (type : Z) : W :=
  writeVarint (Z.of_nat (length bytes)) ;;;
  on_pool (UltraMemoryPool.writeBulkAligned bytes 1).

(** [writeCollection(value, type)] on a [Map]'s entries or a [Set]'s
    items. *)
Definition writeMap (entries : list (value * value)) : W :=
  writeVarint (Z.of_nat (length entries)) ;;;
  for_each (fun kv => wv (fst kv) ;;; wv (snd kv)) entries.

Definition writeSet (items : list value) : W :=
  writeVarint (Z.of_nat (length items)) ;;;
  for_each wv items.

(** [writeDate(value, type)]. *)
Definition writeDate (time : Num.number) (type : Z) : W :=
  if type =? TYPE.DATE then on_pool (UltraMemoryPool.writeF64 time) else ret tt.

(** [writeError(error, type)]. *)
Definition writeError (message stack : value) (errors : option (list value)) (type : Z) : W :=
  wv (if truthy message then message else VStr []) ;;;
  wv (if truthy stack then stack else VStr []) ;;;
  match errors with
  | Some errs =>
      if type =? TYPE.AGGREGATE_ERROR
      then writeVarint (Z.of_nat (length errs)) ;;; for_each wv errs
      else ret tt
  | None => ret tt
  end.

(** [writeRegExp(regex)]. *)
Definition writeRegExp (source flags : value) : W := wv source ;;; wv flags.

(** [writeBinary(value, type)]. *)
Definition writeBinary : W := writeVarint 0 ;;; writeVarint 0.

(** [writeSpecial(value, type)]. *)
Definition writeSpecial (value : symbol) (type : Z) : W :=
  match value with
  | SymLocal _ (Some desc) => if type =? TYPE.SYMBOL then wv (VStr desc) else ret tt
  | SymLocal _ None => ret tt
  | SymGlobal key => if type =? TYPE.SYMBOL_GLOBAL then wv (VStr key) else ret tt
  | SymWellKnown name => if type =? TYPE.SYMBOL_WELLKNOWN then wv (VStr name) else ret tt
  end.

(** The group dispatch at the end of [writeValue]. *)
Definition writePayload (value : value) (type : Z) : W :=
  let group := JS.band type TYPE_MASK.GROUP in
  match value with
  | VNum x => if group =? TYPE_GROUP.NUMBER then writeNumber x type else ret tt
  | VBigInt z => if group =? TYPE_GROUP.BIGINT then writeBigInt z type else ret tt
  | VStr s => if group =? TYPE_GROUP.STRING then writeString s type else ret tt
  | VSym s => if group =? TYPE_GROUP.SPECIAL then writeSpecial s type else ret tt
  | VRef l =>
      match h !! l with
      | Some (OArray len elems) => writeArray len elems type
      | Some (OObject cls props) => writeObject cls props type
      | Some (OView t buffer byteOffset length) => writeTypedArray buffer byteOffset length type
      | Some (OArrayBuffer _ bytes) => writeArrayBuffer bytes type
      | Some (OMap entries) => writeMap entries
      | Some (OSet items) => writeSet items
      | Some (ODate time) => writeDate time type
      | Some (OError _ message stack errors) => writeError message stack errors type
      | Some (ORegExp source flags) => writeRegExp source flags
      | Some (OBlob _) => writeBinary
      | None => ret tt
      end
  | VNull | VUndefined | VBool _ | VFun _ => ret tt
  end.

(** [writeValue(value)], one level. *)
Definition writeValue_body (value : value) : W :=
  let* s := get in
  let circular :=
    match value with VRef l => bool_decide (l ∈ circularRefs s) | _ => false end in
  let refId := match value with VRef l => refs s !! l | _ => None end in
  let set_ref :=
    match value with
    | VRef l => modify (fun s => mkW (pool s) (<[l := msize (refs s)]> (refs s))
                                     (circularRefs s) (strings s) (buffers s))
    | _ => ret tt
    end in
  let emit :=
    (* string deduplication, buffer sharing, then type and payload *)
    let* s := get in
    let stringId :=
      match value with
      | VStr v => if deduplication opts && (3 <? Z.of_nat (length v))
                  then Some (strings s !! v) else None
      | _ => None
      end in
    match stringId with
    | Some (Some id) => writeU8 TYPE.STRING_REF ;;; writeVarint id
    | _ =>
        (match value, stringId with
         | VStr v, Some None =>
             modify (fun s => mkW (pool s) (refs s) (circularRefs s)
                                  (<[v := msize (strings s)]> (strings s)) (buffers s))
         | _, _ => ret tt
         end) ;;;
        let* s := get in
        let bufferId :=
          match value with
          | VRef l =>
              match h !! l with
              | Some (OArrayBuffer false _) =>
                  if shareArrayBuffers opts then Some (l, buffers s !! l) else None
              | _ => None
              end
          | _ => None
          end in
        match bufferId with
        | Some (_, Some id) => writeU8 TYPE.BUFFER_REF ;;; writeVarint id
        | _ =>
            (match bufferId with
             | Some (l, None) =>
                 modify (fun s => mkW (pool s) (refs s) (circularRefs s) (strings s)
                                      (<[l := msize (buffers s)]> (buffers s)))
             | _ => ret tt
             end) ;;;
            let* type := lift (UltraTypeDetector.detect H h value) in
            writeU8 type ;;;
            writePayload value type
        end
    end in
  let dedup :=
    (* object deduplication *)
    if deduplication opts && is_object value && negb circular then
      match refId with
      | Some id => writeU8 TYPE.REFERENCE ;;; writeVarint id
      | None => set_ref ;;; emit
      end
    else emit in
  if detectCircular opts && is_object value && circular then
    match refId with
    | Some id => writeU8 TYPE.CIRCULAR_REF ;;; writeVarint id
    | None => set_ref ;;; dedup
    end
  else dedup.

End Bodies.

(** [writeValue(value)]. *)
Fixpoint writeValue (fuel : nat) (value : value) : W :=
  match fuel with
  | O => fun _ => OutOfFuel
  | Datatypes.S k => writeValue_body (writeValue k) value
  end.

(** [serialize(value)], run on an instance in state [s0], with [fuel]
    for the two graph walks: the bytes returned and the state left. *)
Definition serialize (fuel : nat) (s0 : wstate) (value : value) : outcome (list Z * wstate) :=
  let s := resetState s0 in
  let s := mkW (UltraMemoryPool.writeU8 5 (UltraMemoryPool.writeU32 0x54425235 (pool s)))
               (refs s) (circularRefs s) (strings s) (buffers s) in
  let walked :=
    if detectCircular opts then
      match detectCircularReferences fuel value ∅ (circularRefs s) with
      | Done circ => Done (mkW (pool s) (refs s) circ (strings s) (buffers s))
      | Throw e => Throw e
      | OutOfFuel => OutOfFuel
      end
    else Done s in
  match walked with
  | Done s =>
      match writeValue fuel value s with
      | Done (_, s') => Done (UltraMemoryPool.getResult (pool s'), s')
      | Throw e => Throw e
      | OutOfFuel => OutOfFuel
      end
  | Throw e => Throw e
  | OutOfFuel => OutOfFuel
  end.

End Writer.

(** The state of a new instance: [new TurboSerial(options)]. *)
Definition new (opts : options) : wstate :=
  mkW (UltraMemoryPool.new (if memoryPoolSize opts =? 0 then 65536 else memoryPoolSize opts))
      ∅ ∅ ∅ ∅.

(** *** The reader *)

(** The state of a [deserialize] call: the input and its cursor, the
    three decode-side tables, the heap the values are built in, and a
    counter for the identities of new symbols and functions. *)
Record rstate : Type := mkR {
  buffer : list Z;
  rpos : Z;
  deserializeRefs : list value;
  deserializeStrings : list value;
  deserializeBuffers : list loc;
  rheap : heap;
  fresh : nat
}.

Definition R (A : Type) := M rstate A.

Definition buffer_length (s : rstate) : Z := Z.of_nat (length (buffer s)).

Definition set_pos (p : Z) (s : rstate) : rstate :=
  mkR (buffer s) p (deserializeRefs s) (deserializeStrings s) (deserializeBuffers s)
      (rheap s) (fresh s).

Definition set_heap (h : heap) (s : rstate) : rstate :=
  mkR (buffer s) (rpos s) (deserializeRefs s) (deserializeStrings s) (deserializeBuffers s)
      h (fresh s).

(** [this.buffer[i]]; the reads below come after a bounds check. *)
Definition byte (s : rstate) (i : Z) : Z :=
  if i <? 0 then 0 else default 0 (buffer s !! Z.to_nat i).

(** [this.buffer.subarray(pos, pos + n)]. *)
Definition bytes_at (s : rstate) (p n : Z) : list Z :=
  take (Z.to_nat n) (drop (Z.to_nat p) (buffer s)).

(** [ensureBytes(count)]. *)
Definition ensureBytes (count : Z) : R unit :=
  fun s =>
    if buffer_length s <? rpos s + count
    then Throw (BufferUnderflow count (buffer_length s - rpos s))
    else Done (tt, s).

(** The reader's [alignPos(alignment)]. *)
Definition alignPos (alignment : Z) : R unit :=
  modify (fun s =>
    let mask := JS.to_int32 (alignment - 1) in
    set_pos (JS.to_uint32 (JS.band (rpos s + mask) (JS.bnot mask))) s).

(** Take [n] bytes at the cursor and advance it. *)
Definition take_bytes (n : Z) : R (list Z) :=
  fun s => Done (bytes_at s (rpos s) n, set_pos (rpos s + n) s).

(** [readU8()]. *)
Definition readU8 : R Z :=
  ensureBytes 1 ;;;
  fun s => Done (byte s (rpos s), set_pos (rpos s + 1) s).

(** An aligned little-endian read of [n] bytes: [alignPos(n)],
    [ensureBytes(n)], the [DataView] getter, [pos += n]. *)
Definition read_le (n : Z) : R Z :=
  alignPos n ;;;
  ensureBytes n ;;;
  let* bs := take_bytes n in
  ret (JS.of_le_bytes bs).

Definition readI16 : R Z := let* u := read_le 2 in ret (JS.signed 16 u).
Definition readU16 : R Z := read_le 2.
Definition readI32 : R Z := let* u := read_le 4 in ret (JS.signed 32 u).
Definition readU32 : R Z := read_le 4.
Definition readF32 : R Num.number := let* u := read_le 4 in ret (Num.of_bits32 u).
Definition readF64 : R Num.number := let* u := read_le 8 in ret (Num.of_bits64 u).
Definition readBigInt64 : R Z := let* u := read_le 8 in ret (JS.signed 64 u).

(** [this.view.getInt8(this.pos++)]: the [DataView] checks the index
    itself. *)
Definition getInt8 : R Z :=
  fun s =>
    if (rpos s <? 0) || (buffer_length s <=? rpos s) then Throw HostRangeError
    else Done (JS.signed 8 (byte s (rpos s)), set_pos (rpos s + 1) s).

(** The loop of [readVarint()], along the bytes from the cursor on: one
    byte per turn, [avail] is what [ensureBytes] reports when they run
    out. *)
Fixpoint varint_loop (bytes : list Z) (avail : Z) (value shift : Z) (n : Z) : outcome (Z * Z) :=
  match bytes with
  | [] => Throw (BufferUnderflow 1 avail)
  | byte :: r =>
      let value := JS.bor value (JS.shl (JS.band byte 0x7F) shift) in
      let shift := shift + 7 in
      if negb (JS.band byte 0x80 =? 0)
      then varint_loop r 0 value shift (n + 1)
      else Done (JS.to_uint32 value, n + 1)
  end.

(** [readVarint()]. *)
Definition readVarint : R Z :=
  fun s =>
    let rest := if rpos s <? 0 then [] else drop (Z.to_nat (rpos s)) (buffer s) in
    match varint_loop rest (buffer_length s - rpos s) 0 0 0 with
    | Done (v, n) => Done (v, set_pos (rpos s + n) s)
    | Throw e => Throw e
    | OutOfFuel => OutOfFuel
    end.

(** Allocation of a heap cell, and the update of one. *)
Definition alloc (o : obj) : R loc :=
  fun s => Done (length (rheap s), set_heap (rheap s ++ [o]) s).

Definition update (l : loc) (f : obj -> obj) : R unit :=
  modify (fun s => set_heap (alter f l (rheap s)) s).

Definition next_id : R nat :=
  fun s => Done (fresh s, mkR (buffer s) (rpos s) (deserializeRefs s) (deserializeStrings s)
                              (deserializeBuffers s) (rheap s) (Datatypes.S (fresh s))).

Definition push_ref (v : value) : R unit :=
  modify (fun s => mkR (buffer s) (rpos s) (deserializeRefs s ++ [v]) (deserializeStrings s)
                       (deserializeBuffers s) (rheap s) (fresh s)).

Definition push_string (v : value) : R unit :=
  modify (fun s => mkR (buffer s) (rpos s) (deserializeRefs s) (deserializeStrings s ++ [v])
                       (deserializeBuffers s) (rheap s) (fresh s)).

Definition push_buffer (l : loc) : R unit :=
  modify (fun s => mkR (buffer s) (rpos s) (deserializeRefs s) (deserializeStrings s)
                       (deserializeBuffers s ++ [l]) (rheap s) (fresh s)).

(** [array[index] = v] on an array cell: an index below [2^32 - 1]
    extends [length]. *)
Definition array_store (index : Z) (v : value) (o : obj) : obj :=
  match o with
  | OArray len elems =>
      OArray (if index <? 4294967295 then Z.max len (index + 1) else len) (<[index := v]> elems)
  | _ => o
  end.

(** [array.length = n] on an array cell. *)
Definition array_set_length (n : Z) (o : obj) : obj :=
  match o with
  | OArray len elems => OArray n (filter (fun kv => fst kv < n) elems)
  | _ => o
  end.

(** [array.push(...xs)]. *)
Definition array_push (xs : list value) (o : obj) : obj :=
  match o with
  | OArray len elems =>
      OArray (len + Z.of_nat (length xs))
             (list_to_map (zip (seqZ len (Z.of_nat (length xs))) xs) ∪ elems)
  | _ => o
  end.

(** The closures the reader makes, by their source text. *)
Definition not_serialized (id : nat) : value :=
  VFun (mkFunc id (JS.str "function() { throw new Error('Function not serialized'); }") []).

Definition failed (id : nat) : value :=
  VFun (mkFunc id
    (JS.str "function() { throw new Error('Function deserialization failed'); }") []).

(** [WELLKNOWN_SYMBOLS_BY_NAME.has(name)]. *)
Definition wellKnownNames : list JS.jsstring :=
  map JS.str [ "asyncIterator"; "hasInstance"; "isConcatSpreadable"; "iterator";
               "match"; "matchAll"; "replace"; "search"; "species"; "split";
               "toPrimitive"; "toStringTag"; "unscopables" ]%string.

(** [new Date(t)]: the time value is clipped to an integral number of
    milliseconds within range, or NaN. *)
Definition time_clip (t : Num.number) : Num.number :=
  match t with
  | S754_finite _ _ _ =>
      if Num.leb (Num.abs t) (Num.of_int 8640000000000000)
      then Num.of_int (Num.trunc t) else Num.NaN
  | S754_zero _ => Num.of_int 0
  | _ => Num.NaN
  end.

(** The constructor name of the error a tag stands for:
    [errorConstructors[type] || Error], and [AggregateError]. *)
Definition error_name (type : Z) : JS.jsstring :=
  if type =? TYPE.EVAL_ERROR then JS.str "EvalError"
  else if type =? TYPE.RANGE_ERROR then JS.str "RangeError"
  else if type =? TYPE.REFERENCE_ERROR then JS.str "ReferenceError"
  else if type =? TYPE.SYNTAX_ERROR then JS.str "SyntaxError"
  else if type =? TYPE.TYPE_ERROR then JS.str "TypeError"
  else if type =? TYPE.URI_ERROR then JS.str "URIError"
  else if type =? TYPE.AGGREGATE_ERROR then JS.str "AggregateError"
  else JS.str "Error".

(** The tags [createTypedArray] has a constructor for, with the element
    size the constructor checks ([DataView]: bytes). *)
Definition view_element_size (type : Z) : option Z :=
  if (TYPE.UINT8ARRAY <=? type) && (type <=? TYPE.BIGUINT64ARRAY) then Some (BYTES_PER_ELEMENT type)
  else if type =? TYPE.DATAVIEW then Some 1
  else None.

Section Reader.
Context (H : Host) (opts : options).

(** [ToPropertyKey(key)]. *)
Definition to_pkey (key : value) : R pkey :=
  fun s =>
    match key with
    | VStr x => Done (PKStr x, s)
    | VSym x => Done (PKSym x, s)
    | _ => match h_to_string H (rheap s) key with
           | Some x => Done (PKStr x, s)
           | None => Throw HostTypeError
           end
    end.

(** [ToString(v)] where a constructor applies it. *)
Definition to_string (v : value) : R JS.jsstring :=
  fun s =>
    match v with
    | VStr x => Done (x, s)
    | _ => match h_to_string H (rheap s) v with
           | Some x => Done (x, s)
           | None => Throw HostTypeError
           end
    end.

(** [obj[key] = v] on an object the reader is filling (strict mode).
    The key [__proto__] reaches the setter of [Object.prototype]: no own
    property is made (the prototype is not part of the model). *)
Definition assign (l : loc) (key v : value) : R unit :=
  let* k := to_pkey key in
  if bool_decide (k = PKStr (JS.str "__proto__")) then ret tt
  else
    fun s =>
      match rheap s !! l with
      | Some (OObject cls props) =>
          match props_get props k with
          | Some p =>
              if p_writable p
              then Done (tt, set_heap (<[l := OObject cls
                            (props_set props k (mkProp v (p_enumerable p) true (p_configurable p)))]>
                            (rheap s)) s)
              else Throw HostTypeError
          | None =>
              Done (tt, set_heap (<[l := OObject cls (props_set props k (mkProp v true true true))]>
                                    (rheap s)) s)
          end
      | _ => Done (tt, s)
      end.

(** [Object.defineProperty(obj, key, descriptor)] for a data
    descriptor: a property that is not configurable rejects a change. *)
Definition defineProperty (l : loc) (key : value) (d : prop) : R unit :=
  let* k := to_pkey key in
  fun s =>
    match rheap s !! l with
    | Some (OObject cls props) =>
        let ok :=
          match props_get props k with
          | Some p =>
              p_configurable p
              || (negb (p_configurable d)
                  && eqb (p_enumerable d) (p_enumerable p)
                  && (p_writable p
                      || (negb (p_writable d) && bool_decide (p_value d = p_value p))))
          | None => true
          end in
        if ok then Done (tt, set_heap (<[l := OObject cls (props_set props k d)]> (rheap s)) s)
        else Throw HostTypeError
    | _ => Done (tt, s)
    end.

(** [readPrimitive(type)]. *)
Definition readPrimitive (type : Z) : R value :=
  if type =? TYPE.NULL then ret VNull
  else if type =? TYPE.UNDEFINED then ret VUndefined
  else if type =? TYPE.FALSE then ret (VBool false)
  else if type =? TYPE.TRUE then ret (VBool true)
  else throw (UnknownType type).

(** [readNumber(type)]. *)
Definition readNumber (type : Z) : R value :=
  if type =? TYPE.INT8 then let* v := getInt8 in ret (VNum (Num.of_int v))
  else if type =? TYPE.INT16 then let* v := readI16 in ret (VNum (Num.of_int v))
  else if type =? TYPE.INT32 then let* v := readI32 in ret (VNum (Num.of_int v))
  else if type =? TYPE.UINT32 then let* v := readU32 in ret (VNum (Num.of_int v))
  else if type =? TYPE.FLOAT32 then let* v := readF32 in ret (VNum v)
  else if type =? TYPE.FLOAT64 then let* v := readF64 in ret (VNum v)
  else if type =? TYPE.NAN then ret (VNum Num.NaN)
  else if type =? TYPE.INFINITY then ret (VNum Num.Infinity)
  else if type =? TYPE.NEG_INFINITY then ret (VNum Num.NegInfinity)
  else if type =? TYPE.NEG_ZERO then ret (VNum Num.NegZero)
  else if type =? TYPE.VARINT then
    let* value := readVarint in
    let* isNegative := readU8 in
    ret (VNum (if negb (isNegative =? 0) then Num.neg (Num.of_int value) else Num.of_int value))
  else throw (UnknownType type).

(** [readLargeBigInt(isNegative)]: [BigInt('0x')] of an empty byte
    sequence is a SyntaxError. *)
Definition readLargeBigInt (isNegative : bool) : R value :=
  let* byteLength := readVarint in
  ensureBytes byteLength ;;;
  let* bytes := take_bytes byteLength in
  match bytes with
  | [] => throw HostSyntaxError
  | _ => let value := JS.of_le_bytes bytes in
         ret (VBigInt (if isNegative then - value else value))
  end.

(** [readBigInt(type)]. *)
Definition readBigInt (type : Z) : R value :=
  if (type =? TYPE.BIGINT_POS_SMALL) || (type =? TYPE.BIGINT_NEG_SMALL)
  then let* v := readBigInt64 in ret (VBigInt v)
  else if (type =? TYPE.BIGINT_POS_LARGE) || (type =? TYPE.BIGINT_NEG_LARGE)
  then readLargeBigInt (type =? TYPE.BIGINT_NEG_LARGE)
  else throw (UnknownType type).

(** [readString(type)]. *)
Definition readString (type : Z) : R value :=
  if type =? TYPE.STRING_EMPTY then ret (VStr [])
  else
    let* length :=
      if (type =? TYPE.STRING_ASCII_TINY) || (type =? TYPE.STRING_ASCII_SHORT)
         || (type =? TYPE.STRING_UTF8_TINY) || (type =? TYPE.STRING_UTF8_SHORT)
      then readU8 else readVarint in
    ensureBytes length ;;;
    let* bytes := take_bytes length in
    let str :=
      if (type =? TYPE.STRING_ASCII_TINY) || (type =? TYPE.STRING_ASCII_SHORT)
         || (type =? TYPE.STRING_ASCII_LONG)
      then VStr bytes else VStr (h_decode H bytes) in
    push_string str ;;;
    ret str.

(** The elements of a packed block: [n]-byte little-endian groups. *)
Fixpoint chunks (fuel : nat) (n : nat) (bs : list Z) : list (list Z) :=
  match fuel with
  | O => []
  | Datatypes.S k => take n bs :: chunks k n (drop n bs)
  end.

(** [readPackedArrayData(type)]. *)
Definition readPackedArrayData (type : Z) : R (list value) :=
  let* length := readVarint in
  let elementSize := BYTES_PER_ELEMENT type in
  if elementSize =? 0 then throw (UnknownElementType type)
  else
    alignPos (Z.min elementSize 8) ;;;
    ensureBytes (length * elementSize) ;;;
    if (type =? TYPE.ARRAY_PACKED_I8) || (type =? TYPE.ARRAY_PACKED_I16)
       || (type =? TYPE.ARRAY_PACKED_I32) || (type =? TYPE.ARRAY_PACKED_F32)
       || (type =? TYPE.ARRAY_PACKED_F64) then
      let* bytes := take_bytes (length * elementSize) in
      let decode (b : list Z) : value :=
        let u := JS.of_le_bytes b in
        if type =? TYPE.ARRAY_PACKED_I8 then VNum (Num.of_int (JS.signed 8 u))
        else if type =? TYPE.ARRAY_PACKED_I16 then VNum (Num.of_int (JS.signed 16 u))
        else if type =? TYPE.ARRAY_PACKED_I32 then VNum (Num.of_int (JS.signed 32 u))
        else if type =? TYPE.ARRAY_PACKED_F32 then VNum (Num.of_bits32 u)
        else VNum (Num.of_bits64 u) in
      ret (map decode (chunks (Z.to_nat length) (Z.to_nat elementSize) bytes))
    else ret (replicate (Z.to_nat length) VUndefined).

(** [createTypedArray(type, buffer, byteOffset, length)]: the lookup of
    the constructor, then [new Constructor(buffer, byteOffset, length)]
    with the range checks the constructor makes. *)
Definition createTypedArray (type : Z) (buffer : loc) (byteOffset length : Z) : R value :=
  match view_element_size type with
  | None => throw (UnknownType type)
  | Some elementSize =>
      fun s =>
        let byteLength := Z.of_nat (List.length (buffer_bytes (rheap s) buffer)) in
        if negb (byteOffset mod elementSize =? 0)
           || (byteLength <? byteOffset + length * elementSize)
        then Throw HostRangeError
        else (let* l := alloc (OView type buffer byteOffset length) in ret (VRef l)) s
  end.

(** [readTypedArray(type)].  The [BigInt] branch reads [length] aligned
    64-bit words with [readBigInt64()], each behind its own
    [ensureBytes(8)]: the reads succeed while 8 bytes remain. *)
Definition readTypedArray (type : Z) : R value :=
  let* isShared := readU8 in
  if negb (isShared =? 0) then
    let* bufferId := readVarint in
    let* byteOffset := readVarint in
    let* length := readVarint in
    let* s := get in
    match deserializeBuffers s !! Z.to_nat bufferId with
    | None => throw (InvalidBufferReference bufferId)
    | Some buffer => createTypedArray type buffer byteOffset length
    end
  else
    let* byteOffset := readVarint in
    let* length := readVarint in
    let elementSize := if BYTES_PER_ELEMENT type =? 0 then 1 else BYTES_PER_ELEMENT type in
    if (type =? TYPE.BIGINT64ARRAY) || (type =? TYPE.BIGUINT64ARRAY) then
      alignPos 8 ;;;
      let* s := get in
      let whole := Z.max 0 ((buffer_length s - rpos s) / 8) in
      if whole <? length then
        fun s => Throw (BufferUnderflow 8 (buffer_length s - (rpos s + 8 * whole)))
      else
        let* bytes := take_bytes (8 * length) in
        let* buf := alloc (OArrayBuffer false bytes) in
        let* l := alloc (OView type buf 0 length) in
        ret (VRef l)
    else
      let totalBytes := length * elementSize in
      alignPos elementSize ;;;
      ensureBytes totalBytes ;;;
      let* data := take_bytes totalBytes in
      let* alignedBuffer := alloc (OArrayBuffer false data) in
      push_buffer alignedBuffer ;;;
      createTypedArray type alignedBuffer 0 length.

(** [readArrayBuffer(type)]. *)
Definition readArrayBuffer (type : Z) : R value :=
  let* length := readVarint in
  ensureBytes length ;;;
  let* data := take_bytes length in
  let* buffer := alloc (OArrayBuffer false data) in
  push_buffer buffer ;;;
  ret (VRef buffer).

(** [readDate(type)]. *)
Definition readDate (type : Z) : R value :=
  if type =? TYPE.DATE then
    let* t := readF64 in
    let* l := alloc (ODate (time_clip t)) in ret (VRef l)
  else if type =? TYPE.DATE_INVALID then
    let* l := alloc (ODate Num.NaN) in ret (VRef l)
  else throw (UnknownType type).

(** [readBinary(type)]: the placeholder
    [{ _type: 'Binary', size, typeStr }]. *)
Definition readBinary (type : Z) : R value :=
  let* size := readVarint in
  let* typeStr := readVarint in
  let* l := alloc (literal [ (JS.str "_type", VStr (JS.str "Binary"));
                             (JS.str "size", VNum (Num.of_int size));
                             (JS.str "typeStr", VNum (Num.of_int typeStr)) ]) in
  ret (VRef l).

(** [Symbol(description)]. *)
Definition new_symbol (description : value) : R value :=
  match description with
  | VUndefined => let* id := next_id in ret (VSym (SymLocal id None))
  | _ => let* d := to_string description in
         let* id := next_id in ret (VSym (SymLocal id (Some d)))
  end.

(** [readExtension(type)]. *)
Definition readExtension (type : Z) : R value :=
  if type =? TYPE.FUNCTION_PLACEHOLDER then let* id := next_id in ret (not_serialized id)
  else throw (UnknownType type).

(** The bodies below call [readValue] back through [rv]; [fuel] bounds
    the turns of their loops. *)
Section Bodies.
Variable rv : R value.
Variable fuel : nat.

(** [fillArray(array, type)]. *)
Definition fillArray (array : loc) (type : Z) : R unit :=
  if type =? TYPE.ARRAY_EMPTY then ret tt
  else if type =? TYPE.ARRAY_DENSE then
    let* length := readVarint in
    for_count fuel (fun i => let* v := rv in update array (array_store i v)) 0 length
  else if type =? TYPE.ARRAY_SPARSE then
    let* totalLength := readVarint in
    let* elementCount := readVarint in
    update array (array_set_length totalLength) ;;;
    for_count fuel (fun _ =>
        let* index := readVarint in
        let* v := rv in
        update array (array_store index v)) 0 elementCount
  else if (type =? TYPE.ARRAY_PACKED_I8) || (type =? TYPE.ARRAY_PACKED_I16)
          || (type =? TYPE.ARRAY_PACKED_I32) || (type =? TYPE.ARRAY_PACKED_F32)
          || (type =? TYPE.ARRAY_PACKED_F64) then
    let* packedArray := readPackedArrayData type in
    update array (array_push packedArray)
  else ret tt.

(** [fillSimpleObject(obj)]. *)
Definition fillSimpleObject (obj : loc) : R unit :=
  let* keyCount := readVarint in
  for_count fuel (fun _ =>
      let* key := rv in
      let* v := rv in
      assign obj key v) 0 keyCount.

(** [fillObjectWithDescriptors(obj)].  A descriptor with [get] or [set]
    also carries [writable]: [Object.defineProperty] rejects it. *)
Definition fillObjectWithDescriptors (obj : loc) : R unit :=
  let* keyCount := readVarint in
  for_count fuel (fun _ =>
      let* key := rv in
      let* flags := readU8 in
      let hasGetter := negb (JS.band flags 8 =? 0) in
      let hasSetter := negb (JS.band flags 16 =? 0) in
      if hasGetter || hasSetter then
        (if hasGetter then let* _ := rv in ret tt else ret tt) ;;;
        (if hasSetter then let* _ := rv in ret tt else ret tt) ;;;
        throw HostTypeError
      else
        let* v := rv in
        defineProperty obj key
          (mkProp v (negb (JS.band flags 1 =? 0)) (negb (JS.band flags 2 =? 0))
                  (negb (JS.band flags 4 =? 0)))) 0 keyCount.

(** [try { c } catch (e) { handler }]. *)
Definition try_catch {A} (c : R A) (handler : R A) : R A :=
  fun s =>
    match c s with
    | Throw _ => handler s
    | r => r
    end.

(** [fillObjectWithMethods(obj)]. *)
Definition fillObjectWithMethods (obj : loc) : R unit :=
  let* entryCount := readVarint in
  for_count fuel (fun _ =>
      let* key := rv in
      let* isFunction := readU8 in
      if negb (isFunction =? 0) then
        if serializeFunctions opts then
          let* functionSource := rv in
          let* functionName := rv in
          try_catch
            (fun s =>
               match h_evaluate H fuel functionSource with
               | None => OutOfFuel
               | Some None => Throw HostError
               | Some (Some f) => assign obj key f s
               end)
            (let* id := next_id in assign obj key (failed id))
        else
          let* placeholderType := readU8 in
          if placeholderType =? TYPE.FUNCTION_PLACEHOLDER
          then let* id := next_id in assign obj key (not_serialized id)
          else ret tt
      else
        let* v := rv in
        assign obj key v) 0 entryCount.

(** [fillConstructorObject(obj)]. *)
Definition fillConstructorObject (obj : loc) : R unit :=
  let* constructorName := rv in
  let* keyCount := readVarint in
  for_count fuel (fun _ =>
      let* key := rv in
      let* v := rv in
      assign obj key v) 0 keyCount ;;;
  defineProperty obj (VStr (JS.str "__constructorName"))
    (mkProp constructorName false false true).

(** [fillObject(obj, type)]. *)
Definition fillObject (obj : loc) (type : Z) : R unit :=
  if type =? TYPE.OBJECT_EMPTY then ret tt
  else if (type =? TYPE.OBJECT_LITERAL) || (type =? TYPE.OBJECT_PLAIN) then fillSimpleObject obj
  else if type =? TYPE.OBJECT_WITH_DESCRIPTORS then fillObjectWithDescriptors obj
  else if type =? TYPE.OBJECT_WITH_METHODS then fillObjectWithMethods obj
  else if type =? TYPE.OBJECT_CONSTRUCTOR then fillConstructorObject obj
  else ret tt.

(** [fillCollection(collection, type)]; [collection] is [None] when the
    tag is neither [MAP] nor [SET]. *)
Definition fillCollection (collection : option loc) (type : Z) : R unit :=
  let* size := readVarint in
  match collection with
  | Some c =>
      if type =? TYPE.MAP then
        for_count fuel (fun _ =>
            let* key := rv in
            let* v := rv in
            update c (fun o => match o with OMap es => OMap (map_set es key v) | _ => o end))
          0 size
      else if type =? TYPE.SET then
        for_count fuel (fun _ =>
            let* v := rv in
            update c (fun o => match o with OSet xs => OSet (set_add xs v) | _ => o end))
          0 size
      else ret tt
  | None => ret tt
  end.

(** [readError(type)].  An error made without a [stack] argument keeps
    the engine's own trace, which the model reads as [undefined]. *)
Definition readError (type : Z) : R value :=
  let* message := rv in
  let* stack := rv in
  let* errors :=
    if type =? TYPE.AGGREGATE_ERROR then
      let* errorCount := readVarint in
      let* acc := alloc (OArray 0 ∅) in
      for_count fuel (fun _ => let* e := rv in update acc (array_push [e])) 0 errorCount ;;;
      let* s := get in
      ret (match rheap s !! acc with
           | Some (OArray len elems) => Some (map (array_get elems) (seqZ 0 len))
           | _ => Some []
           end)
    else ret None in
  let* msg :=
    match message with
    | VUndefined => ret VUndefined
    | _ => let* m := to_string message in ret (VStr m)
    end in
  let* l := alloc (OError (error_name type) msg (if truthy stack then stack else VUndefined) errors) in
  ret (VRef l).

(** [readRegExp()]. *)
Definition readRegExp : R value :=
  let* source := rv in
  let* flags := rv in
  let* s := get in
  if h_regexp H (rheap s) source flags
  then let* l := alloc (ORegExp source flags) in ret (VRef l)
  else throw HostSyntaxError.

(** [readSpecial(type)]. *)
Definition readSpecial (type : Z) : R value :=
  if type =? TYPE.SYMBOL then
    let* description := rv in new_symbol description
  else if type =? TYPE.SYMBOL_NO_DESC then
    let* id := next_id in ret (VSym (SymLocal id None))
  else if type =? TYPE.SYMBOL_GLOBAL then
    let* key := rv in
    let* k := to_string key in ret (VSym (SymGlobal k))
  else if type =? TYPE.SYMBOL_WELLKNOWN then
    let* wellKnownName := rv in
    match wellKnownName with
    | VStr name =>
        if bool_decide (name ∈ wellKnownNames) then ret (VSym (SymWellKnown name))
        else new_symbol wellKnownName
    | _ => new_symbol wellKnownName
    end
  else throw (UnknownType type).

(** [readValue()], one level. *)
Definition readValue_body : R value :=
  let* s := get in
  if buffer_length s <=? rpos s then throw UnexpectedEnd
  else
    let* type := readU8 in
    if (type =? TYPE.REFERENCE) || (type =? TYPE.CIRCULAR_REF) then
      let* refId := readVarint in
      let* s := get in
      match deserializeRefs s !! Z.to_nat refId with
      | None => throw (InvalidReference refId)
      | Some v => ret v
      end
    else if type =? TYPE.STRING_REF then
      let* stringId := readVarint in
      let* s := get in
      match deserializeStrings s !! Z.to_nat stringId with
      | None => throw (InvalidStringReference stringId)
      | Some v => ret v
      end
    else if type =? TYPE.BUFFER_REF then
      let* bufferId := readVarint in
      let* s := get in
      match deserializeBuffers s !! Z.to_nat bufferId with
      | None => throw (InvalidBufferReference bufferId)
      | Some l => ret (VRef l)
      end
    else
      let group := JS.band type TYPE_MASK.GROUP in
      if group =? TYPE_GROUP.ARRAY then
        let* l := alloc (OArray 0 ∅) in
        push_ref (VRef l) ;;;
        fillArray l type ;;;
        ret (VRef l)
      else if group =? TYPE_GROUP.OBJECT then
        let* l := alloc (OObject None []) in
        push_ref (VRef l) ;;;
        fillObject l type ;;;
        ret (VRef l)
      else if group =? TYPE_GROUP.COLLECTION then
        if type =? TYPE.MAP then
          let* l := alloc (OMap []) in
          push_ref (VRef l) ;;; fillCollection (Some l) type ;;; ret (VRef l)
        else if type =? TYPE.SET then
          let* l := alloc (OSet []) in
          push_ref (VRef l) ;;; fillCollection (Some l) type ;;; ret (VRef l)
        else
          fillCollection None type ;;; ret VUndefined
      else
        let* value :=
          if group =? TYPE_GROUP.PRIMITIVE then readPrimitive type
          else if group =? TYPE_GROUP.NUMBER then readNumber type
          else if group =? TYPE_GROUP.BIGINT then readBigInt type
          else if group =? TYPE_GROUP.STRING then readString type
          else if group =? TYPE_GROUP.TYPED then readTypedArray type
          else if group =? TYPE_GROUP.BUFFER then readArrayBuffer type
          else if group =? TYPE_GROUP.DATE then readDate type
          else if group =? TYPE_GROUP.ERROR then readError type
          else if group =? TYPE_GROUP.REGEX then readRegExp
          else if group =? TYPE_GROUP.BINARY then readBinary type
          else if group =? TYPE_GROUP.SPECIAL then readSpecial type
          else if group =? TYPE_GROUP.EXTENSION then readExtension type
          else throw (UnknownType type) in
        (if is_object value then push_ref value else ret tt) ;;;
        ret value.

End Bodies.

(** [readValue()]. *)
Fixpoint readValue (fuel : nat) : R value :=
  match fuel with
  | O => fun _ => OutOfFuel
  | Datatypes.S k => readValue_body (readValue k) k
  end.

(** [deserialize(buffer)] into the heap [h0]: the value and the heap it
    lives in. *)
Definition deserialize (fuel : nat) (h0 : heap) (input : list Z) : outcome (value * heap) :=
  let run : R value :=
    let* magic := readU32 in
    if negb (magic =? 0x54425235) then throw InvalidData
    else
      let* version := readU8 in
      if negb (version =? 5) then throw (UnsupportedVersion version)
      else readValue fuel in
  match run (mkR input 0 [] [] [] h0 O) with
  | Done (v, s) => Done (v, rheap s)
  | Throw e => Throw e
  | OutOfFuel => OutOfFuel
  end.

End Reader.

End TurboSerial.

(** * Properties *)

(** ** The 32-bit operators on small values *)

Lemma to_int32_small (z : Z) :
  -2147483648 <= z < 2147483648 -> JS.to_int32 z = z.
Proof. intros Hz. unfold JS.to_int32. rewrite Z.mod_small; lia. Qed.

Lemma to_uint32_small (z : Z) :
  0 <= z < 4294967296 -> JS.to_uint32 z = z.
Proof. intros Hz. unfold JS.to_uint32. apply Z.mod_small; lia. Qed.

(** Clearing the low [j] bits: [x & ~(2^j - 1)] rounds [x] down to a
    multiple of [2^j]. *)
Lemma land_lnot_mask (x j : Z) :
  0 <= j -> Z.land x (Z.lnot (2 ^ j - 1)) = x / 2 ^ j * 2 ^ j.
Proof.
  intros Hj. rewrite <- Z.ldiff_land.
  replace (2 ^ j - 1) with (Z.ones j) by (rewrite Z.ones_equiv; lia).
  rewrite Z.ldiff_ones_r by lia.
  rewrite Z.shiftr_div_pow2, Z.shiftl_mul_pow2 by lia. reflexivity.
Qed.

(** [(pos + mask) & ~mask] for [mask = 2^j - 1]. *)
Lemma align_value (x j : Z) :
  0 <= j <= 8 -> 0 <= x < 2147483648 - 256 ->
  JS.to_uint32 (JS.band (x + JS.to_int32 (2 ^ j - 1)) (JS.bnot (JS.to_int32 (2 ^ j - 1))))
  = (x + 2 ^ j - 1) / 2 ^ j * 2 ^ j.
Proof.
  intros Hj Hx.
  assert (Hp : 1 <= 2 ^ j <= 256).
  { split; [pose proof (Z.pow_pos_nonneg 2 j); lia|].
    change 256 with (2 ^ 8). apply Z.pow_le_mono_r; lia. }
  rewrite (to_int32_small (2 ^ j - 1)) by lia.
  unfold JS.band, JS.bnot.
  rewrite (to_int32_small (2 ^ j - 1)) by lia.
  rewrite (to_int32_small (x + (2 ^ j - 1))) by lia.
  assert (Hl : Z.lnot (2 ^ j - 1) = - 2 ^ j) by (unfold Z.lnot; lia).
  rewrite (to_int32_small (Z.lnot (2 ^ j - 1))) by lia.
  rewrite land_lnot_mask by lia.
  replace (x + (2 ^ j - 1)) with (x + 2 ^ j - 1) by lia.
  apply to_uint32_small.
  pose proof (Z.mul_div_le (x + 2 ^ j - 1) (2 ^ j) ltac:(lia)).
  pose proof (Z.div_pos (x + 2 ^ j - 1) (2 ^ j) ltac:(lia) ltac:(lia)).
  nia.
Qed.

(** The aligned cursor is a multiple of [2^j], at or after the cursor
    and less than [2^j] away. *)
Lemma align_bounds (x j : Z) :
  0 <= j -> 0 <= x ->
  let a := (x + 2 ^ j - 1) / 2 ^ j * 2 ^ j in
  a mod 2 ^ j = 0 /\ x <= a < x + 2 ^ j.
Proof.
  intros Hj Hx a.
  assert (Hp : 0 < 2 ^ j) by (apply Z.pow_pos_nonneg; lia).
  split.
  - unfold a. apply Z.mod_mul. lia.
  - unfold a.
    pose proof (Z.div_mod (x + 2 ^ j - 1) (2 ^ j) ltac:(lia)).
    pose proof (Z.mod_pos_bound (x + 2 ^ j - 1) (2 ^ j) Hp).
    lia.
Qed.

(** ** The writer pool *)

Module PoolFacts.
Import UltraMemoryPool.

(** A pool state the source can be in: the cursor is not negative and
    the capacity is within what [size << 1] and [|0] handle. *)
Definition ok (p : pool) : Prop := 0 <= pos p /\ 0 <= size p <= 2147483648.

(** [p'] keeps what [p] has written below its cursor. *)
Definition keeps (p p' : pool) : Prop :=
  forall i, 0 <= i < pos p -> byte_at (u8 p') i = byte_at (u8 p) i.

(** The bytes [bs] sit in [p] from offset [o] on, inside the buffer. *)
Definition holds (p : pool) (o : Z) (bs : list Z) : Prop :=
  0 <= o /\ o + Z.of_nat (length bs) <= size p /\
  forall i b, bs !! i = Some b -> byte_at (u8 p) (o + Z.of_nat i) = b mod 256.

End PoolFacts.

Lemma round_down_mask (y j : Z) :
  0 <= j <= 8 -> 0 <= y < 4294967296 ->
  JS.to_uint32 (JS.band y (JS.bnot (JS.to_int32 (2 ^ j - 1)))) = y / 2 ^ j * 2 ^ j.
Proof.
  intros Hj Hy.
  assert (Hp : 1 <= 2 ^ j <= 256).
  { split; [pose proof (Z.pow_pos_nonneg 2 j); lia|].
    change 256 with (2 ^ 8). apply Z.pow_le_mono_r; lia. }
  assert (Hd : 2 ^ 32 = 2 ^ (32 - j) * 2 ^ j).
  { rewrite <- Z.pow_add_r by lia. f_equal. lia. }
  unfold JS.band, JS.bnot.
  rewrite (to_int32_small (2 ^ j - 1)) by lia.
  rewrite (to_int32_small (2 ^ j - 1)) by lia.
  assert (Hl : Z.lnot (2 ^ j - 1) = - 2 ^ j) by (unfold Z.lnot; lia).
  rewrite (to_int32_small (Z.lnot (2 ^ j - 1))) by lia.
  rewrite land_lnot_mask by lia.
  pose proof (Z.mul_div_le y (2 ^ j) ltac:(lia)) as Hle.
  pose proof (Z.div_pos y (2 ^ j) ltac:(lia) ltac:(lia)) as Hq.
  destruct (Z_lt_dec y 2147483648) as [Hs|Hs].
  - rewrite (to_int32_small y) by lia. apply to_uint32_small. nia.
  - assert (Hw : JS.to_int32 y = y + - 2 ^ (32 - j) * 2 ^ j).
    { replace (- 2 ^ (32 - j) * 2 ^ j) with (- 2 ^ 32) by (rewrite Hd; ring).
      unfold JS.to_int32. change (2 ^ 32) with 4294967296.
      replace (y + 2147483648) with (y - 2147483648 + 1 * 4294967296) by lia.
      rewrite Z.mod_add by lia. rewrite Z.mod_small by lia. lia. }
    rewrite Hw, Z.div_add by lia.
    unfold JS.to_uint32.
    replace ((y / 2 ^ j + - 2 ^ (32 - j)) * 2 ^ j)
      with (y / 2 ^ j * 2 ^ j + (-1) * 4294967296)
      by (change 4294967296 with (2 ^ 32); rewrite Hd; ring).
    rewrite Z.mod_add by lia. apply Z.mod_small. nia.
Qed.

Lemma pool_alignPos (j : Z) (p : UltraMemoryPool.pool) :
  0 <= j <= 3 -> 0 <= UltraMemoryPool.pos p < 4294967296 - 256 ->
  let p' := UltraMemoryPool.alignPos (2 ^ j) p in
  UltraMemoryPool.pos p' = (UltraMemoryPool.pos p + 2 ^ j - 1) / 2 ^ j * 2 ^ j
  /\ UltraMemoryPool.size p' = UltraMemoryPool.size p
  /\ UltraMemoryPool.u8 p' = UltraMemoryPool.u8 p.
Proof.
  intros Hj Hp. simpl. repeat split.
  assert (H2 : 1 <= 2 ^ j <= 8).
  { split; [pose proof (Z.pow_pos_nonneg 2 j); lia|].
    change 8 with (2 ^ 3). apply Z.pow_le_mono_r; lia. }
  rewrite (to_int32_small (2 ^ j - 1)) by lia.
  rewrite <- (to_int32_small (2 ^ j - 1)) at 2 by lia.
  rewrite round_down_mask by lia.
  f_equal. f_equal. lia.
Qed.

Lemma byte_at_store (n i v : Z) (m : gmap Z Z) (j : Z) :
  UltraMemoryPool.byte_at (UltraMemoryPool.store n i v m) j
  = if (0 <=? i) && (i <? n) && (i =? j) then v mod 256 else UltraMemoryPool.byte_at m j.
Proof.
  unfold UltraMemoryPool.store, UltraMemoryPool.byte_at.
  destruct ((0 <=? i) && (i <? n)) eqn:Hr; simpl; [|reflexivity].
  destruct (Z.eqb_spec i j) as [->|Hne].
  - rewrite lookup_insert_eq. reflexivity.
  - rewrite lookup_insert_ne by exact Hne. reflexivity.
Qed.

Lemma byte_at_store_bytes (n : Z) (bs : list Z) :
  forall (i : Z) (m : gmap Z Z) (j : Z),
    0 <= i -> i + Z.of_nat (length bs) <= n ->
    UltraMemoryPool.byte_at (UltraMemoryPool.store_bytes n i bs m) j
    = match (if (i <=? j) then bs !! Z.to_nat (j - i) else None) with
      | Some b => b mod 256
      | None => UltraMemoryPool.byte_at m j
      end.
Proof.
  induction bs as [|b r IH]; intros i m j Hi Hn; simpl.
  - destruct (i <=? j); reflexivity.
  - simpl in Hn. rewrite IH by lia. rewrite byte_at_store.
    destruct (Z.leb_spec i j) as [Hij|Hij].
    + destruct (Z.eqb_spec i j) as [->|Hne].
      * replace (j - j) with 0 by lia. simpl.
        destruct (Z.leb_spec (j + 1) j); [lia|].
        replace ((0 <=? j) && (j <? n)) with true; [reflexivity|].
        symmetry. apply andb_true_iff. split; [apply Z.leb_le|apply Z.ltb_lt]; lia.
      * destruct (Z.leb_spec (i + 1) j); [|lia].
        replace (Z.to_nat (j - i)) with (S (Z.to_nat (j - (i + 1)))) by lia. simpl.
        destruct (r !! Z.to_nat (j - (i + 1))); [reflexivity|].
        rewrite andb_false_r. reflexivity.
    + destruct (Z.leb_spec (i + 1) j); [lia|].
      destruct (Z.eqb_spec i j); [lia|]. rewrite andb_false_r. reflexivity.
Qed.

Lemma byte_at_filter (q : Z) (m : gmap Z Z) (i : Z) :
  i < q ->
  UltraMemoryPool.byte_at (filter (fun kv : Z * Z => fst kv < q) m) i
  = UltraMemoryPool.byte_at m i.
Proof.
  intros Hi. unfold UltraMemoryPool.byte_at. rewrite map_lookup_filter.
  destruct (m !! i) as [x|]; simpl; [|reflexivity].
  rewrite option_guard_True by (simpl; lia). reflexivity.
Qed.

(** [ensure(n)] leaves the cursor, makes room for [n] bytes and keeps
    the live prefix. *)
Lemma pool_ensure (n : Z) (p : UltraMemoryPool.pool) :
  PoolFacts.ok p -> 0 <= n -> UltraMemoryPool.pos p + n + 256 < 2147483648 ->
  let p' := UltraMemoryPool.ensure n p in
  UltraMemoryPool.pos p' = UltraMemoryPool.pos p
  /\ UltraMemoryPool.pos p + n <= UltraMemoryPool.size p'
  /\ PoolFacts.ok p' /\ PoolFacts.keeps p p'.
Proof.
  intros [Hpos Hsize] Hn Hroom. unfold UltraMemoryPool.ensure.
  rewrite (to_int32_small n) by lia.
  rewrite (to_int32_small (UltraMemoryPool.pos p + n)) by lia.
  destruct (Z.ltb_spec (UltraMemoryPool.size p) (UltraMemoryPool.pos p + n)) as [Hg|Hg]; simpl.
  - set (d := JS.shl (UltraMemoryPool.size p) 1).
    assert (Hd : -2147483648 <= d < 2147483648).
    { unfold d, JS.shl, JS.to_int32.
      pose proof (Z.mod_pos_bound
        (Z.shiftl ((UltraMemoryPool.size p + 2147483648) mod 4294967296 - 2147483648) (1 mod 32)
         + 2147483648) 4294967296 ltac:(lia)). lia. }
    set (newSize := Z.max d (UltraMemoryPool.pos p + n + CACHE_LINE_SIZE)).
    assert (Hns : UltraMemoryPool.pos p + n + 128 <= newSize < 2147483648)
      by (unfold newSize, CACHE_LINE_SIZE; lia).
    rewrite (to_int32_small newSize) by lia.
    unfold CACHE_LINE_SIZE.
    pose proof (round_down_mask (newSize + 128 - 1) 7 ltac:(lia) ltac:(lia)) as Ha.
    rewrite (to_int32_small (2 ^ 7 - 1)) in Ha by (simpl; lia).
    change (2 ^ 7 - 1) with (128 - 1) in Ha. change (2 ^ 7) with 128 in Ha.
    rewrite Ha. clear Ha.
    replace (newSize + 128 - 1) with (newSize + (128 - 1)) by lia.
    pose proof (Z.div_mod (newSize + (128 - 1)) 128 ltac:(lia)) as Hdm.
    pose proof (Z.mod_pos_bound (newSize + (128 - 1)) 128 ltac:(lia)) as Hmb.
    repeat split; simpl; try lia.
    intros i Hi. simpl. apply byte_at_filter. lia.
  - repeat split; simpl; try lia.
Qed.

(** Storing bytes at the cursor when they fit. *)
Lemma pool_put (bs : list Z) (p : UltraMemoryPool.pool) :
  PoolFacts.ok p ->
  UltraMemoryPool.pos p + Z.of_nat (length bs) <= UltraMemoryPool.size p ->
  UltraMemoryPool.pos p + Z.of_nat (length bs) < 2147483648 ->
  let p' := UltraMemoryPool.put bs p in
  UltraMemoryPool.pos p' = UltraMemoryPool.pos p + Z.of_nat (length bs)
  /\ PoolFacts.ok p' /\ PoolFacts.keeps p p'
  /\ PoolFacts.holds p' (UltraMemoryPool.pos p) bs.
Proof.
  intros [Hpos Hsize] Hfit Hsmall. unfold UltraMemoryPool.put. simpl.
  rewrite to_int32_small by lia.
  repeat split; simpl; try lia.
  - intros i Hi. simpl. rewrite byte_at_store_bytes by lia.
    destruct (Z.leb_spec (UltraMemoryPool.pos p) i); [lia|reflexivity].
  - intros i b Hb. rewrite byte_at_store_bytes by lia.
    destruct (Z.leb_spec (UltraMemoryPool.pos p) (UltraMemoryPool.pos p + Z.of_nat i)); [|lia].
    replace (Z.to_nat (UltraMemoryPool.pos p + Z.of_nat i - UltraMemoryPool.pos p)) with i by lia.
    rewrite Hb. reflexivity.
Qed.

(** ** Varints *)

(** The varint of the specification, "7-bit little-endian groups, high
    bit = continuation": the groups of [u], at most [fuel] of them. *)
Fixpoint leb128 (fuel : nat) (u : Z) : list Z :=
  match fuel with
  | O => []
  | S k => if u <? 128 then [u] else (u mod 128 + 128) :: leb128 k (u / 128)
  end.

(** A 32-bit value has at most five groups. *)
Definition varint_groups (u : Z) : list Z := leb128 5 u.

Lemma band_7F (v : Z) : 0 <= v < 4294967296 -> JS.band v 0x7F = v mod 128.
Proof.
  intros Hv. unfold JS.band. rewrite (to_int32_small 127) by lia.
  change 127 with (Z.ones 7). rewrite Z.land_ones by lia. change (2 ^ 7) with 128.
  destruct (Z_lt_dec v 2147483648).
  - rewrite to_int32_small by lia. reflexivity.
  - unfold JS.to_int32.
    replace (v + 2147483648) with (v - 2147483648 + 1 * 4294967296) by lia.
    rewrite Z.mod_add by lia.
    rewrite (Z.mod_small (v - 2147483648) 4294967296) by lia.
    replace (v - 2147483648 - 2147483648) with (v + (-33554432) * 128) by lia.
    apply Z.mod_add. lia.
Qed.

Lemma bor_80 (x : Z) : 0 <= x < 128 -> JS.bor x 0x80 = x + 128.
Proof.
  intros Hx. unfold JS.bor.
  rewrite (to_int32_small x), (to_int32_small 128) by lia.
  assert (Hl : Z.land x 128 = 0).
  { rewrite <- (Z.mod_small x 128) by lia. change 128 with (2 ^ 7) at 1.
    rewrite <- Z.land_ones by lia. rewrite <- Z.land_assoc. apply Z.land_0_r. }
  rewrite <- Z.lxor_lor by exact Hl. symmetry. apply Z.add_nocarry_lxor. exact Hl.
Qed.

Lemma ushr_7 (v : Z) : 0 <= v < 4294967296 -> JS.ushr v 7 = v / 128.
Proof.
  intros Hv. unfold JS.ushr. rewrite to_uint32_small by lia.
  change (7 mod 32) with 7. rewrite Z.shiftr_div_pow2 by lia. reflexivity.
Qed.

Lemma leb128_length (k : nat) :
  forall u, 0 <= u < 128 ^ Z.of_nat (S k) ->
            (1 <= length (leb128 (S k) u) <= S k)%nat.
Proof.
  induction k as [|k IH]; intros u Hu.
  - change (128 ^ Z.of_nat 1) with 128 in Hu. cbn [leb128].
    destruct (Z.ltb_spec u 128); [simpl; lia|lia].
  - cbn [leb128]. destruct (Z.ltb_spec u 128); [simpl; lia|].
    assert (Hq : 0 <= u / 128 < 128 ^ Z.of_nat (S k)).
    { split; [apply Z.div_pos; lia|].
      apply Z.div_lt_upper_bound; [lia|].
      rewrite (Nat2Z.inj_succ (S k)), Z.pow_succ_r in Hu by lia. lia. }
    specialize (IH _ Hq). cbn [leb128] in IH. simpl length. lia.
Qed.

Lemma leb128_bytes (fuel : nat) :
  forall u i b, 0 <= u -> leb128 fuel u !! i = Some b -> 0 <= b < 256.
Proof.
  induction fuel as [|k IH]; intros u i b Hu Hb; [discriminate|].
  cbn [leb128] in Hb. destruct (Z.ltb_spec u 128).
  - destruct i; simpl in Hb; [|discriminate]. inversion Hb; subst. lia.
  - destruct i; simpl in Hb.
    + inversion Hb; subst. pose proof (Z.mod_pos_bound u 128 ltac:(lia)). lia.
    + eapply IH; [|exact Hb]. apply Z.div_pos; lia.
Qed.

Lemma leb128_S (k : nat) (u : Z) :
  leb128 (S k) u = if u <? 128 then [u] else (u mod 128 + 128) :: leb128 k (u / 128).
Proof. reflexivity. Qed.

Lemma in_range_true (i n : Z) : 0 <= i < n -> (0 <=? i) && (i <? n) = true.
Proof. intros. apply andb_true_iff. split; [apply Z.leb_le|apply Z.ltb_lt]; lia. Qed.

(** The general loop of [writeVarint] stores the groups of [value]. *)
Lemma varint_loop_groups (n : Z) (fuel : nat) :
  forall value cur m,
    128 <= value < 4294967296 -> value < 128 ^ Z.of_nat (S fuel) ->
    0 <= cur -> cur + Z.of_nat (length (leb128 (S fuel) value)) <= n ->
    match UltraMemoryPool.varint_loop fuel n value cur m with
    | (v', cur', m') =>
        cur' + 1 = cur + Z.of_nat (length (leb128 (S fuel) value))
        /\ forall j,
             UltraMemoryPool.byte_at (UltraMemoryPool.store n cur' v' m') j
             = match (if cur <=? j then leb128 (S fuel) value !! Z.to_nat (j - cur) else None) with
               | Some b => b
               | None => UltraMemoryPool.byte_at m j
               end
    end.
Proof.
  induction fuel as [|k IH]; intros value cur m Hv Hf Hc Hn.
  - change (128 ^ Z.of_nat 1) with 128 in Hf. lia.
  - cbn [UltraMemoryPool.varint_loop].
    rewrite band_7F, ushr_7 by lia.
    pose proof (Z.mod_pos_bound value 128 ltac:(lia)) as Hm.
    rewrite bor_80 by lia.
    assert (Hq : 0 <= value / 128 < 4294967296).
    { split; [apply Z.div_pos; lia|]. apply Z.div_lt_upper_bound; lia. }
    assert (Hq' : value / 128 < 128 ^ Z.of_nat (S k)).
    { apply Z.div_lt_upper_bound; [lia|].
      rewrite (Nat2Z.inj_succ (S k)), Z.pow_succ_r in Hf by lia. lia. }
    rewrite (leb128_S (S k) value) in Hn |- *.
    destruct (Z.ltb_spec value 128) as [?|_]; [lia|].
    pose proof (leb128_length k (value / 128) ltac:(lia)) as Hlen.
    destruct (Z.leb_spec 128 (value / 128)) as [Hbig|Hsmall].
    + cbn [length] in Hn.
      specialize (IH (value / 128) (cur + 1)
                     (UltraMemoryPool.store n cur (value mod 128 + 128) m)
                     ltac:(lia) Hq' ltac:(lia) ltac:(lia)).
      destruct (UltraMemoryPool.varint_loop k n (value / 128) (cur + 1)
                  (UltraMemoryPool.store n cur (value mod 128 + 128) m))
        as [[v' cur'] m'].
      set (rest := leb128 (S k) (value / 128)) in *.
      destruct IH as [IHc IHb]. split; [cbn [length]; lia|].
      intros j. rewrite IHb. rewrite byte_at_store.
      destruct (Z.leb_spec (cur + 1) j).
      * destruct (Z.leb_spec cur j); [|lia].
        replace (Z.to_nat (j - cur)) with (S (Z.to_nat (j - (cur + 1)))) by lia.
        rewrite lookup_cons_ne_0 by lia. simpl Nat.pred.
        destruct (rest !! Z.to_nat (j - (cur + 1))); [reflexivity|].
        destruct (Z.eqb_spec cur j); [lia|]. rewrite andb_false_r. reflexivity.
      * destruct (Z.leb_spec cur j).
        -- assert (j = cur) by lia. subst j. replace (cur - cur) with 0 by lia.
           change (Z.to_nat 0) with 0%nat. rewrite lookup_cons.
           rewrite Z.eqb_refl, in_range_true by lia.
           simpl. apply Z.mod_small. lia.
        -- destruct (Z.eqb_spec cur j); [lia|]. rewrite andb_false_r. reflexivity.
    + rewrite (leb128_S k (value / 128)) in Hn |- *.
      destruct (Z.ltb_spec (value / 128) 128) as [_|?]; [|lia].
      cbn [length] in Hn.
      split; [simpl; lia|].
      intros j. rewrite !byte_at_store.
      destruct (Z.eqb_spec (cur + 1) j) as [<-|Hne1].
      * destruct (Z.leb_spec cur (cur + 1)); [|lia].
        replace (Z.to_nat (cur + 1 - cur)) with 1%nat by lia.
        rewrite in_range_true by lia.
        simpl. apply Z.mod_small. lia.
      * rewrite andb_false_r.
        destruct (Z.eqb_spec cur j) as [<-|Hne0].
        -- rewrite Z.leb_refl. replace (cur - cur) with 0 by lia.
           rewrite in_range_true by lia.
           simpl. apply Z.mod_small. lia.
        -- rewrite andb_false_r.
           destruct (Z.leb_spec cur j); [|reflexivity].
           replace (Z.to_nat (j - cur)) with (S (S (Z.to_nat (j - cur - 2)))) by lia.
           reflexivity.
Qed.

Lemma leb128_fuel (k : nat) :
  forall u, 0 <= u < 128 ^ Z.of_nat (S k) -> leb128 (S (S k)) u = leb128 (S k) u.
Proof.
  induction k as [|k IH]; intros u Hu.
  - change (128 ^ Z.of_nat 1) with 128 in Hu.
    rewrite !leb128_S. destruct (Z.ltb_spec u 128); [reflexivity|lia].
  - rewrite (leb128_S (S (S k)) u), (leb128_S (S k) u).
    destruct (Z.ltb_spec u 128); [reflexivity|].
    rewrite IH; [reflexivity|].
    split; [apply Z.div_pos; lia|].
    apply Z.div_lt_upper_bound; [lia|].
    rewrite (Nat2Z.inj_succ (S k)), Z.pow_succ_r in Hu by lia. lia.
Qed.

(** [writeVarint(u)] on a pool with room: five bytes are reserved, the
    groups of [u] are stored from the cursor on, inside the buffer, and
    the cursor moves past them. *)
Lemma pool_writeVarint (u : Z) (p : UltraMemoryPool.pool) :
  PoolFacts.ok p -> UltraMemoryPool.pos p + 512 < 2147483648 ->
  0 <= u <= 4294967295 ->
  let reserved := UltraMemoryPool.ensure 5 p in
  let p' := UltraMemoryPool.writeVarint u p in
  UltraMemoryPool.pos reserved = UltraMemoryPool.pos p
  /\ UltraMemoryPool.pos p + 5 <= UltraMemoryPool.size reserved
  /\ UltraMemoryPool.size p' = UltraMemoryPool.size reserved
  /\ (1 <= length (varint_groups u) <= 5)%nat
  /\ UltraMemoryPool.pos p' = UltraMemoryPool.pos p + Z.of_nat (length (varint_groups u))
  /\ PoolFacts.holds p' (UltraMemoryPool.pos p) (varint_groups u)
  /\ PoolFacts.keeps p p'
  /\ PoolFacts.ok p'.
Proof.
  intros Hok Hroom Hu.
  destruct (pool_ensure 5 p Hok ltac:(lia) ltac:(lia)) as (Hpos & Hcap & Hok1 & Hkeep1).
  pose proof (leb128_length 4 u ltac:(change (128 ^ Z.of_nat 5) with 34359738368; lia)) as Hlen.
  pose proof (leb128_bytes 5 u) as Hbytes.
  fold (varint_groups u) in Hlen, Hbytes.
  intros reserved p'. subst p'. unfold UltraMemoryPool.writeVarint.
  rewrite to_uint32_small by lia.
  fold reserved in Hpos, Hcap, Hok1, Hkeep1 |- *.
  destruct Hok as [Hp0 Hsz]. destruct Hok1 as [Hp1 Hsz1].
  split; [exact Hpos|]. split; [exact Hcap|].
  destruct (Z.ltb_spec u 128) as [Hs|Hs].
  - assert (Hg : varint_groups u = [u]).
    { unfold varint_groups. rewrite leb128_S.
      destruct (Z.ltb_spec u 128); [reflexivity|lia]. }
    rewrite Hg in *. simpl.
    repeat split; simpl; try lia.
    + intros i b Hb. destruct i; simpl in Hb; [|discriminate]. inversion Hb; subst b.
      rewrite Z.add_0_r, byte_at_store, <- Hpos, Z.eqb_refl, in_range_true by lia.
      reflexivity.
    + intros i Hi. simpl. rewrite byte_at_store.
      destruct (Z.eqb_spec (UltraMemoryPool.pos reserved) i); [lia|].
      rewrite andb_false_r. apply Hkeep1. lia.
  - destruct (Z.ltb_spec u 16384) as [Hm|Hm].
    + assert (Hg : varint_groups u = [u mod 128 + 128; u / 128]).
      { unfold varint_groups. rewrite !leb128_S.
        destruct (Z.ltb_spec u 128); [lia|].
        destruct (Z.ltb_spec (u / 128) 128) as [|Hc]; [reflexivity|].
        exfalso. pose proof (Z.div_lt_upper_bound u 128 128 ltac:(lia) ltac:(lia)). lia. }
      rewrite Hg in *.
      rewrite band_7F, ushr_7 by lia.
      pose proof (Z.mod_pos_bound u 128 ltac:(lia)) as Hmod.
      rewrite bor_80 by lia.
      rewrite to_int32_small by lia.
      assert (Hq : 0 <= u / 128 < 128).
      { split; [apply Z.div_pos; lia|apply Z.div_lt_upper_bound; lia]. }
      repeat split; simpl; try lia.
      * intros i b Hb. rewrite !byte_at_store. rewrite <- Hpos.
        destruct i as [|[|i]]; simpl in Hb; [| |discriminate]; inversion Hb; subst b.
        -- rewrite Z.add_0_r.
           destruct (Z.eqb_spec (UltraMemoryPool.pos reserved + 1) (UltraMemoryPool.pos reserved));
             [lia|].
           rewrite andb_false_r, Z.eqb_refl, in_range_true by lia. reflexivity.
        -- change (Z.of_nat 1) with 1.
           rewrite Z.eqb_refl, in_range_true by lia. reflexivity.
      * intros i Hi. simpl. rewrite !byte_at_store.
        destruct (Z.eqb_spec (UltraMemoryPool.pos reserved + 1) i); [lia|].
        destruct (Z.eqb_spec (UltraMemoryPool.pos reserved) i); [lia|].
        rewrite !andb_false_r. apply Hkeep1. lia.
    + assert (Hg : leb128 6 u = varint_groups u).
      { unfold varint_groups. apply (leb128_fuel 4).
        change (128 ^ Z.of_nat 5) with 34359738368. lia. }
      pose proof (varint_loop_groups (UltraMemoryPool.size reserved) 5 u
                    (UltraMemoryPool.pos reserved) (UltraMemoryPool.u8 reserved)
                    ltac:(lia) ltac:(change (128 ^ Z.of_nat 6) with 4398046511104; lia)
                    ltac:(lia) ltac:(rewrite Hg; lia)) as Hloop.
      destruct (UltraMemoryPool.varint_loop 5 (UltraMemoryPool.size reserved) u
                  (UltraMemoryPool.pos reserved) (UltraMemoryPool.u8 reserved))
        as [[v' cur'] m'].
      rewrite Hg in Hloop. destruct Hloop as [Hcur Hb].
      repeat split; simpl; try lia.
      * intros i b Hi. rewrite Hb, <- Hpos.
        destruct (Z.leb_spec (UltraMemoryPool.pos reserved) (UltraMemoryPool.pos reserved + Z.of_nat i));
          [|lia].
        replace (Z.to_nat (UltraMemoryPool.pos reserved + Z.of_nat i - UltraMemoryPool.pos reserved))
          with i by lia.
        rewrite Hi. symmetry. apply Z.mod_small. eapply Hbytes; [lia|exact Hi].
      * intros i Hi. simpl. rewrite Hb.
        destruct (Z.leb_spec (UltraMemoryPool.pos reserved) i); [lia|].
        apply Hkeep1. lia.
Qed.

(** ** Aligned writes *)

Lemma keeps_trans (p q r : UltraMemoryPool.pool) :
  UltraMemoryPool.pos p <= UltraMemoryPool.pos q ->
  PoolFacts.keeps p q -> PoolFacts.keeps q r -> PoolFacts.keeps p r.
Proof. intros Hle Hpq Hqr i Hi. rewrite Hqr by lia. apply Hpq. exact Hi. Qed.

(** The shape every typed write has: align the cursor to [2^j], make
    room, store the bytes at the cursor. *)
Lemma pool_aligned_put (j : Z) (bs : list Z) (p : UltraMemoryPool.pool) :
  0 <= j <= 3 -> PoolFacts.ok p ->
  UltraMemoryPool.pos p + Z.of_nat (length bs) + 512 < 2147483648 ->
  let p' := UltraMemoryPool.put bs
              (UltraMemoryPool.ensure (Z.of_nat (length bs)) (UltraMemoryPool.alignPos (2 ^ j) p)) in
  exists o,
    o mod 2 ^ j = 0
    /\ UltraMemoryPool.pos p <= o < UltraMemoryPool.pos p + 2 ^ j
    /\ UltraMemoryPool.pos p' = o + Z.of_nat (length bs)
    /\ PoolFacts.holds p' o bs
    /\ PoolFacts.keeps p p'
    /\ PoolFacts.ok p'.
Proof.
  intros Hj [Hpos Hsize] Hroom.
  assert (H2 : 1 <= 2 ^ j <= 8).
  { split; [pose proof (Z.pow_pos_nonneg 2 j); lia|].
    change 8 with (2 ^ 3). apply Z.pow_le_mono_r; lia. }
  destruct (pool_alignPos j p Hj ltac:(lia)) as (Ha & Hsa & Hua).
  destruct (align_bounds (UltraMemoryPool.pos p) j ltac:(lia) Hpos) as [Hmod Hrange].
  set (p1 := UltraMemoryPool.alignPos (2 ^ j) p) in *.
  set (o := (UltraMemoryPool.pos p + 2 ^ j - 1) / 2 ^ j * 2 ^ j) in *.
  assert (Hok1 : PoolFacts.ok p1) by (split; lia).
  destruct (pool_ensure (Z.of_nat (length bs)) p1 Hok1 ltac:(lia) ltac:(lia))
    as (He & Hcap & Hok2 & Hk2).
  set (p2 := UltraMemoryPool.ensure (Z.of_nat (length bs)) p1) in *.
  destruct (pool_put bs p2 Hok2 ltac:(lia) ltac:(lia)) as (Hp3 & Hok3 & Hk3 & Hh3).
  intros p'. subst p'. exists o.
  split; [exact Hmod|]. split; [exact Hrange|].
  split; [lia|]. split; [rewrite <- Ha, <- He; exact Hh3|].
  split; [|exact Hok3].
  intros i Hi. rewrite Hk3 by lia. rewrite Hk2 by lia. rewrite Hua. reflexivity.
Qed.

Lemma le_bytes_length (n : nat) : forall z, length (JS.le_bytes n z) = n.
Proof. induction n as [|k IH]; intros z; simpl; [reflexivity|]. rewrite IH. reflexivity. Qed.

Lemma band_FF (v : Z) : 0 <= v < 256 -> JS.band v 0xFF = v.
Proof.
  intros Hv. unfold JS.band. rewrite !to_int32_small by lia.
  change 255 with (Z.ones 8). rewrite Z.land_ones by lia. apply Z.mod_small. simpl. lia.
Qed.

(** [writeU8(v)] on a pool with room. *)
Lemma pool_writeU8 (v : Z) (p : UltraMemoryPool.pool) :
  PoolFacts.ok p -> UltraMemoryPool.pos p + 512 < 2147483648 ->
  let p' := UltraMemoryPool.writeU8 v p in
  UltraMemoryPool.pos p' = UltraMemoryPool.pos p + 1
  /\ PoolFacts.holds p' (UltraMemoryPool.pos p) [JS.band v 0xFF]
  /\ PoolFacts.keeps p p'
  /\ PoolFacts.ok p'.
Proof.
  intros Hok Hroom.
  destruct (pool_ensure 1 p Hok ltac:(lia) ltac:(lia)) as (Hpos & Hcap & [Hp1 Hs1] & Hk).
  destruct Hok as [Hp0 Hs0].
  unfold UltraMemoryPool.writeU8. simpl.
  set (p1 := UltraMemoryPool.ensure 1 p) in *.
  repeat split; simpl; try lia.
  - intros i b Hb. destruct i; simpl in Hb; [|discriminate]. inversion Hb; subst b.
    rewrite Z.add_0_r, byte_at_store, <- Hpos, Z.eqb_refl, in_range_true by lia.
    reflexivity.
  - intros i Hi. simpl. rewrite byte_at_store.
    destruct (Z.eqb_spec (UltraMemoryPool.pos p1) i); [lia|].
    rewrite andb_false_r. apply Hk. lia.
Qed.

(** What [getResult()] returns is what the pool holds below the
    cursor. *)
Lemma getResult_lookup (p : UltraMemoryPool.pool) (i : nat) :
  Z.of_nat i < UltraMemoryPool.pos p -> UltraMemoryPool.pos p <= UltraMemoryPool.size p ->
  UltraMemoryPool.getResult p !! i = Some (UltraMemoryPool.byte_at (UltraMemoryPool.u8 p) (Z.of_nat i)).
Proof.
  intros Hi Hs. unfold UltraMemoryPool.getResult.
  rewrite list_lookup_fmap, lookup_seqZ_lt by lia. reflexivity.
Qed.

Lemma getResult_length (p : UltraMemoryPool.pool) :
  0 <= UltraMemoryPool.pos p <= UltraMemoryPool.size p ->
  length (UltraMemoryPool.getResult p) = Z.to_nat (UltraMemoryPool.pos p).
Proof.
  intros Hs. unfold UltraMemoryPool.getResult.
  rewrite length_map, length_seqZ. f_equal. lia.
Qed.

(** ** Numbers that hold integers *)

(** The 53-bit mantissa of a positive integer below [2^53]. *)
Definition mant (a : Z) : Z := a * 2 ^ (52 - Z.log2 a).

Lemma mant_range (a : Z) :
  0 < a < 2 ^ 53 -> 0 <= Z.log2 a <= 52 /\ 2 ^ 52 <= mant a < 2 ^ 53.
Proof.
  intros Ha. pose proof (Z.log2_spec a ltac:(lia)) as [Hl Hu].
  pose proof (Z.log2_nonneg a) as Hn.
  assert (Hl52 : Z.log2 a <= 52).
  { destruct (Z_le_gt_dec (Z.log2 a) 52); [assumption|].
    assert (2 ^ 53 <= 2 ^ Z.log2 a) by (apply Z.pow_le_mono_r; lia). lia. }
  split; [lia|]. unfold mant.
  assert (E52 : 2 ^ 52 = 2 ^ Z.log2 a * 2 ^ (52 - Z.log2 a)).
  { rewrite <- Z.pow_add_r by lia. f_equal. lia. }
  assert (E53 : 2 ^ 53 = 2 ^ Z.succ (Z.log2 a) * 2 ^ (52 - Z.log2 a)).
  { rewrite <- Z.pow_add_r by lia. f_equal. lia. }
  assert (0 < 2 ^ (52 - Z.log2 a)) by (apply Z.pow_pos_nonneg; lia).
  rewrite E52, E53. nia.
Qed.

Lemma of_int_nonzero (n : Z) :
  n <> 0 -> Z.abs n < 2 ^ 53 ->
  Num.of_int n = S754_finite (n <? 0) (Z.to_pos (mant (Z.abs n))) (Z.log2 (Z.abs n) - 52).
Proof.
  intros Hn Hb.
  destruct (mant_range (Z.abs n) ltac:(lia)) as [Hl _].
  unfold Num.of_int, mant. rewrite Z.shiftl_mul_pow2 by lia.
  destruct n; [contradiction| |]; reflexivity.
Qed.

(** [of_int] holds its integer exactly. *)
Lemma trunc_of_int (n : Z) : Z.abs n < 2 ^ 53 -> Num.trunc (Num.of_int n) = n.
Proof.
  intros Hb. destruct (Z.eq_dec n 0) as [->|Hn]; [reflexivity|].
  rewrite of_int_nonzero by assumption.
  destruct (mant_range (Z.abs n) ltac:(lia)) as [Hl Hm].
  unfold Num.trunc. rewrite Z2Pos.id by lia.
  replace (Z.log2 (Z.abs n) - 52) with (- (52 - Z.log2 (Z.abs n))) by lia.
  rewrite Z.shiftl_opp_r, Z.shiftr_div_pow2 by lia.
  unfold mant. rewrite Z.div_mul by (apply Z.pow_nonzero; lia).
  destruct (Z.ltb_spec n 0); lia.
Qed.

(** Comparison of such numbers is comparison of the integers. *)
Lemma compare_of_int_pos (a b : Z) :
  0 < a < 2 ^ 53 -> 0 < b < 2 ^ 53 ->
  match Z.log2 a - 52 ?= Z.log2 b - 52 with
  | Lt => Lt
  | Gt => Gt
  | Eq => Pos.compare_cont Eq (Z.to_pos (mant a)) (Z.to_pos (mant b))
  end = (a ?= b).
Proof.
  intros Ha Hb.
  destruct (mant_range a Ha) as [Hla Hma]. destruct (mant_range b Hb) as [Hlb Hmb].
  pose proof (Z.log2_spec a ltac:(lia)) as [La Ua].
  pose proof (Z.log2_spec b ltac:(lia)) as [Lb Ub].
  destruct (Z.compare_spec (Z.log2 a - 52) (Z.log2 b - 52)) as [He|Hlt|Hgt].
  - change (Pos.compare_cont Eq ?p ?q) with (Z.pos p ?= Z.pos q).
    rewrite !Z2Pos.id by lia. unfold mant.
    replace (Z.log2 b) with (Z.log2 a) by lia.
    symmetry. apply Zmult_compare_compat_r.
    pose proof (Z.pow_pos_nonneg 2 (52 - Z.log2 a)). lia.
  - symmetry. apply Z.compare_lt_iff.
    assert (2 ^ Z.succ (Z.log2 a) <= 2 ^ Z.log2 b) by (apply Z.pow_le_mono_r; lia). lia.
  - symmetry. apply Z.compare_gt_iff.
    assert (2 ^ Z.succ (Z.log2 b) <= 2 ^ Z.log2 a) by (apply Z.pow_le_mono_r; lia). lia.
Qed.

Lemma compare_of_int (a b : Z) :
  Z.abs a < 2 ^ 53 -> Z.abs b < 2 ^ 53 ->
  SFcompare (Num.of_int a) (Num.of_int b) = Some (a ?= b).
Proof.
  intros Ha Hb.
  destruct (Z.eq_dec a 0) as [->|Hna]; destruct (Z.eq_dec b 0) as [->|Hnb].
  - reflexivity.
  - rewrite (of_int_nonzero b) by assumption.
    destruct b; [contradiction| |]; reflexivity.
  - rewrite (of_int_nonzero a) by assumption.
    destruct a; [contradiction| |]; reflexivity.
  - rewrite (of_int_nonzero a), (of_int_nonzero b) by assumption.
    unfold SFcompare.
    destruct (Z.ltb_spec a 0); destruct (Z.ltb_spec b 0); f_equal.
    + pose proof (compare_of_int_pos (Z.abs a) (Z.abs b) ltac:(lia) ltac:(lia)) as Hc.
      replace (a ?= b) with (CompOpp (Z.abs a ?= Z.abs b)).
      * rewrite <- Hc.
        destruct (Z.log2 (Z.abs a) - 52 ?= Z.log2 (Z.abs b) - 52); reflexivity.
      * rewrite <- Z.compare_antisym. rewrite !Z.abs_neq by lia. apply Z.compare_opp.
    + symmetry. apply Z.compare_lt_iff. lia.
    + symmetry. apply Z.compare_gt_iff. lia.
    + rewrite !Z.abs_eq by lia. apply compare_of_int_pos; lia.
Qed.

Lemma eqb_of_int (a b : Z) :
  Z.abs a < 2 ^ 53 -> Z.abs b < 2 ^ 53 -> Num.eqb (Num.of_int a) (Num.of_int b) = (a =? b).
Proof.
  intros Ha Hb. unfold Num.eqb, SFeqb. rewrite compare_of_int by assumption.
  destruct (Z.eqb_spec a b) as [->|Hne]; [rewrite Z.compare_refl; reflexivity|].
  destruct (Z.compare_spec a b); [contradiction|reflexivity|reflexivity].
Qed.

Lemma leb_of_int (a b : Z) :
  Z.abs a < 2 ^ 53 -> Z.abs b < 2 ^ 53 -> Num.leb (Num.of_int a) (Num.of_int b) = (a <=? b).
Proof.
  intros Ha Hb. unfold Num.leb, SFleb. rewrite compare_of_int by assumption.
  unfold Z.leb. destruct (a ?= b); reflexivity.
Qed.

Lemma ltb_of_int (a b : Z) :
  Z.abs a < 2 ^ 53 -> Z.abs b < 2 ^ 53 -> Num.ltb (Num.of_int a) (Num.of_int b) = (a <? b).
Proof.
  intros Ha Hb. unfold Num.ltb, SFltb. rewrite compare_of_int by assumption.
  unfold Z.ltb. destruct (a ?= b); reflexivity.
Qed.

Lemma abs_of_int (n : Z) : Z.abs n < 2 ^ 53 -> Num.abs (Num.of_int n) = Num.of_int (Z.abs n).
Proof.
  intros Hb. destruct (Z.eq_dec n 0) as [->|Hn]; [reflexivity|].
  rewrite (of_int_nonzero n), (of_int_nonzero (Z.abs n)) by lia.
  rewrite (Z.abs_eq (Z.abs n)) by lia. simpl.
  destruct (Z.ltb_spec (Z.abs n) 0); [lia|reflexivity].
Qed.

(** A number equal ([==]) to an integer is that integer, or a zero. *)
Lemma eqb_of_int_inv (x : Num.number) (n : Z) :
  Num.eqb x (Num.of_int n) = true ->
  x = Num.of_int n \/ (n = 0 /\ exists s, x = S754_zero s).
Proof.
  unfold Num.eqb, SFeqb. intros He.
  destruct (Z.eq_dec n 0) as [->|Hn].
  - right. split; [reflexivity|].
    destruct x as [s|s| |s m e]; simpl in He.
    + eauto.
    + destruct s; discriminate.
    + discriminate.
    + destruct s; discriminate.
  - left.
    assert (Hf : exists s' m' e', Num.of_int n = S754_finite s' m' e').
    { unfold Num.of_int. destruct n; [contradiction| |]; eauto. }
    destruct Hf as (s' & m' & e' & Hf). rewrite Hf in *.
    destruct x as [s|s| |s m e]; simpl in He.
    + destruct s'; discriminate.
    + destruct s; discriminate.
    + discriminate.
    + rewrite Pos.compare_cont_spec in He. simpl Pos.switch_Eq in He.
      destruct s, s'; try discriminate;
        destruct (Z.compare_spec e e'); try discriminate;
        destruct (Pos.compare_spec m m'); try discriminate;
        subst; reflexivity.
Qed.

(** ** The number classifier *)

Lemma to_int32_range (z : Z) : -2147483648 <= JS.to_int32 z < 2147483648.
Proof.
  unfold JS.to_int32. pose proof (Z.mod_pos_bound (z + 2147483648) 4294967296 ltac:(lia)). lia.
Qed.

(** Masking a bit field: [y & (ones k << j)]. *)
Lemma land_field (y j k : Z) :
  0 <= j -> 0 <= k ->
  Z.land y (Z.ones k * 2 ^ j) = (y / 2 ^ j) mod 2 ^ k * 2 ^ j.
Proof.
  intros Hj Hk.
  rewrite <- Z.shiftl_mul_pow2, <- Z.land_ones, <- Z.shiftr_div_pow2, <- Z.shiftl_mul_pow2 by lia.
  apply Z.bits_inj'. intros i Hi.
  rewrite Z.land_spec.
  destruct (Z_lt_dec i j) as [Hlt|Hge].
  - rewrite !Z.shiftl_spec_low by lia. apply andb_false_r.
  - rewrite !Z.shiftl_spec by lia. rewrite Z.land_spec, Z.shiftr_spec by lia.
    replace (i - j + j) with i by lia. reflexivity.
Qed.

(** The exponent field of the high word of an integer's bit pattern is
    not all ones. *)
Lemma high_word_of_int (n : Z) :
  n <> 0 -> Z.abs n < 2147483648 ->
  JS.band (Num.bits64 (Num.of_int n) / 4294967296) 0x7FF00000
  = (Z.log2 (Z.abs n) + 1023) * 2 ^ 20.
Proof.
  intros Hn Hb.
  assert (Hb53 : Z.abs n < 2 ^ 53) by (change (2 ^ 53) with 9007199254740992; lia).
  rewrite of_int_nonzero by assumption.
  destruct (mant_range (Z.abs n) ltac:(lia)) as [Hl Hm].
  assert (Hl30 : Z.log2 (Z.abs n) <= 30).
  { destruct (Z_le_gt_dec (Z.log2 (Z.abs n)) 30); [assumption|].
    pose proof (Z.log2_spec (Z.abs n) ltac:(lia)) as [Hlo _].
    assert (2 ^ 31 <= 2 ^ Z.log2 (Z.abs n)) by (apply Z.pow_le_mono_r; lia).
    change (2 ^ 31) with 2147483648 in *. lia. }
  set (l := Z.log2 (Z.abs n)) in *. set (m := mant (Z.abs n)) in *.
  unfold Num.bits64, Num.bits. rewrite Z2Pos.id by lia.
  change (2 ^ 52) with 4503599627370496 in *. change (2 ^ 53) with 9007199254740992 in *.
  destruct (Z.leb_spec 4503599627370496 m) as [_|?]; [|lia].
  change (3 - 2 ^ (11 - 1) - (52 + 1)) with (-1074).
  change (2 ^ (52 + 11)) with 9223372036854775808.
  set (S := if n <? 0 then 1 else 0).
  assert (HS : 0 <= S <= 1) by (unfold S; destruct (n <? 0); lia).
  replace ((if n <? 0 then 9223372036854775808 else 0)
           + (l - 52 - -1074 + 1) * 4503599627370496 + (m - 4503599627370496))
    with ((S * 2147483648 + (l + 1023) * 1048576) * 4294967296 + (m - 4503599627370496))
    by (unfold S; destruct (n <? 0); lia).
  clearbody S.
  rewrite Z.div_add_l by lia.
  set (g := (m - 4503599627370496) / 4294967296).
  assert (Hg : 0 <= g < 1048576).
  { unfold g. split; [apply Z.div_pos; lia|apply Z.div_lt_upper_bound; lia]. }
  unfold JS.band. rewrite (to_int32_small 2146435072) by lia.
  assert (Hy : JS.to_int32 (S * 2147483648 + (l + 1023) * 1048576 + g)
               = (- S * 2048 + (l + 1023)) * 2 ^ 20 + g).
  { change (2 ^ 20) with 1048576.
    destruct (Z.eq_dec S 0) as [->|HS1].
    - rewrite to_int32_small by lia. lia.
    - assert (S = 1) by lia. subst S. unfold JS.to_int32.
      replace (1 * 2147483648 + (l + 1023) * 1048576 + g + 2147483648)
        with ((l + 1023) * 1048576 + g + 1 * 4294967296) by lia.
      rewrite Z.mod_add by lia. rewrite Z.mod_small by lia. lia. }
  rewrite Hy. change 2146435072 with (Z.ones 11 * 2 ^ 20).
  rewrite land_field by lia.
  rewrite Z.div_add_l by lia. rewrite (Z.div_small g) by (change (2 ^ 20) with 1048576; lia).
  rewrite Z.add_0_r.
  replace (- S * 2048 + (l + 1023)) with (l + 1023 + (- S) * 2 ^ 11)
    by (change (2 ^ 11) with 2048; lia).
  rewrite Z.mod_add by lia. rewrite Z.mod_small by (change (2 ^ 11) with 2048; lia).
  reflexivity.
Qed.

(** The classifier on an integer of the 32-bit range other than
    [-2^31]: the source's table lookup, [types[Math.min(typeIndex, 3)]],
    ends at [INT32]. *)
Lemma detectNumber_int32 (n : Z) :
  -2147483648 < n < 2147483648 ->
  UltraTypeDetector.detectNumber (Num.of_int n) = TYPE.INT32.
Proof.
  intros Hn. destruct (Z.eq_dec n 0) as [->|Hn0]; [reflexivity|].
  assert (Hb53 : Z.abs n < 2 ^ 53) by (change (2 ^ 53) with 9007199254740992; lia).
  unfold UltraTypeDetector.detectNumber.
  rewrite eqb_of_int, Z.eqb_refl by assumption. cbn [negb].
  rewrite high_word_of_int by lia.
  assert (Hl : 0 <= Z.log2 (Z.abs n) < 31).
  { split; [apply Z.log2_nonneg|]. apply Z.log2_lt_pow2; lia. }
  destruct (Z.eqb_spec ((Z.log2 (Z.abs n) + 1023) * 2 ^ 20) 2146435072) as [He|_].
  { change (2 ^ 20) with 1048576 in He. lia. }
  change (SIMDProcessor.b2z false) with 0.
  replace (JS.band 0 _) with 0 by (unfold JS.band; reflexivity).
  cbn [Z.eqb negb].
  rewrite (eqb_of_int n 0) by (simpl; lia).
  destruct (Z.eqb_spec n 0) as [?|_]; [contradiction|]. cbn [andb].
  unfold Num.to_int32. rewrite trunc_of_int, to_int32_small by lia.
  rewrite eqb_of_int, Z.eqb_refl by assumption.
  rewrite abs_of_int by assumption.
  rewrite !leb_of_int by (rewrite ?Z.abs_eq by lia; change (2 ^ 53) with 9007199254740992; lia).
  destruct (Z.leb_spec (Z.abs n) 2147483647) as [_|?]; [|lia].
  destruct (Z.abs n <=? 127); destruct (Z.abs n <=? 32767); reflexivity.
Qed.

(** The classifier gives [VARINT] to one number only: [-2^31]. *)
Lemma detectNumber_varint (x : Num.number) :
  UltraTypeDetector.detectNumber x = TYPE.VARINT -> x = Num.of_int (-2147483648).
Proof.
  unfold UltraTypeDetector.detectNumber.
  destruct (negb (Num.eqb x x)); [discriminate|].
  match goal with |- context [negb (?i =? 0)] => destruct (negb (i =? 0)) end.
  { destruct (negb (JS.ushr _ 31 =? 0)); discriminate. }
  match goal with |- context [if ?c then TYPE.NEG_ZERO else _] => destruct c end;
    [discriminate|].
  destruct (Num.eqb x (Num.of_int (Num.to_int32 x))) eqn:He.
  - pose proof (to_int32_range (Num.trunc x)) as Hr. fold (Num.to_int32 x) in Hr.
    destruct (eqb_of_int_inv _ _ He) as [Hx|[_ [s Hx]]].
    + remember (Num.to_int32 x) as n eqn:Hn. clear He Hn. subst x.
      assert (Hb53 : Z.abs n < 2 ^ 53) by (change (2 ^ 53) with 9007199254740992; lia).
      rewrite abs_of_int by assumption.
      rewrite !leb_of_int by (rewrite ?Z.abs_eq by lia; change (2 ^ 53) with 9007199254740992; lia).
      destruct (Z.leb_spec (Z.abs n) 2147483647) as [?|Hbig].
      * destruct (Z.abs n <=? 127); destruct (Z.abs n <=? 32767); discriminate.
      * intros _. f_equal. lia.
    + subst x. destruct s; discriminate.
  - destruct (Num.eqb (Num.fround x) x); discriminate.
Qed.

(** ** The writer on primitives and numbers *)

(** The pool after the header: magic and version. *)
Definition header_pool (p : UltraMemoryPool.pool) : UltraMemoryPool.pool :=
  UltraMemoryPool.writeU8 5 (UltraMemoryPool.writeU32 0x54425235 (UltraMemoryPool.reset p)).

Lemma header_pool_spec (p : UltraMemoryPool.pool) :
  PoolFacts.ok p ->
  let q := header_pool p in
  UltraMemoryPool.pos q = 5 /\ PoolFacts.ok q
  /\ PoolFacts.holds q 0 [0x35; 0x52; 0x42; 0x54; 0x05].
Proof.
  intros [Hpos Hsize]. unfold header_pool.
  set (p0 := UltraMemoryPool.reset p).
  assert (Hok0 : PoolFacts.ok p0) by (split; simpl; lia).
  destruct (pool_aligned_put 2 (JS.le_bytes 4 (JS.to_uint32 0x54425235)) p0
              ltac:(lia) Hok0 ltac:(simpl; lia)) as (o & Hm & Hr & Hp & Hh & _ & Hok1).
  change (UltraMemoryPool.put _ _) with (UltraMemoryPool.writeU32 0x54425235 p0) in *.
  set (p1 := UltraMemoryPool.writeU32 0x54425235 p0) in *.
  assert (Ho : o = 0).
  { change (UltraMemoryPool.pos p0) with 0 in Hr. change (2 ^ 2) with 4 in *.
    rewrite Z.mod_small in Hm by lia. exact Hm. }
  subst o. rewrite le_bytes_length in Hp. change (0 + Z.of_nat 4) with 4 in Hp.
  clearbody p1.
  destruct (pool_writeU8 5 p1 Hok1 ltac:(lia)) as (Hp2 & Hh2 & Hk2 & Hok2).
  set (p2 := UltraMemoryPool.writeU8 5 p1) in *. clearbody p2.
  split; [lia|]. split; [exact Hok2|].
  destruct Hh as (_ & _ & Hb1). destruct Hh2 as (_ & Hs2 & Hb2).
  split; [lia|]. split; [simpl in *; lia|].
  intros i b Hi.
  destruct (Nat.eq_dec i 4%nat) as [->|Hne].
  - simpl in Hi. inversion Hi; subst b.
    pose proof (Hb2 0%nat _ eq_refl) as Hx. rewrite Hp in Hx. exact Hx.
  - assert (Hlt : (i < 4)%nat).
    { apply lookup_lt_Some in Hi. simpl in Hi. lia. }
    rewrite Hk2 by lia. apply Hb1.
    destruct i as [|[|[|[|i]]]]; try exact Hi; lia.
Qed.

Section WriterFacts.
Context (H : Heap.Host) (opts : TurboSerial.options) (h : Heap.heap).

(** [writeValue] on [null]: the tag. *)
Lemma writeValue_null (k : nat) (s : TurboSerial.wstate) :
  TurboSerial.writeValue H opts h (S k) Heap.VNull s
  = TurboSerial.writeU8 TYPE.NULL s.
Proof.
  destruct opts as [c d sab simd dc sf ppd mps].
  destruct s as [p r cr st bf].
  destruct d, dc; reflexivity.
Qed.

(** [writeValue] on a number: the tag of the classifier, then the
    payload. *)
Lemma writeValue_number (k : nat) (x : Num.number) (s : TurboSerial.wstate) :
  TurboSerial.writeValue H opts h (S k) (Heap.VNum x) s
  = bind (TurboSerial.writeU8 (UltraTypeDetector.detectNumber x))
         (fun _ => TurboSerial.writePayload H opts h (TurboSerial.writeValue H opts h k)
                     (Heap.VNum x) (UltraTypeDetector.detectNumber x)) s.
Proof.
  destruct opts as [c d sab simd dc sf ppd mps].
  destruct s as [p r cr st bf].
  destruct d, dc; reflexivity.
Qed.

(** The pre-walk leaves the cycle set alone on a primitive. *)
Lemma prewalk_primitive (k : nat) (v : Heap.value) (circ : gset Heap.loc) :
  Heap.is_object v = false ->
  TurboSerial.detectCircularReferences h (S k) v ∅ circ = Done circ.
Proof. intros Hv. destruct v; try discriminate; reflexivity. Qed.

End WriterFacts.

Lemma getResult_is (p : UltraMemoryPool.pool) (l : list Z) :
  UltraMemoryPool.pos p = Z.of_nat (length l) ->
  UltraMemoryPool.pos p <= UltraMemoryPool.size p ->
  (forall i b, l !! i = Some b ->
               UltraMemoryPool.byte_at (UltraMemoryPool.u8 p) (Z.of_nat i) = b) ->
  UltraMemoryPool.getResult p = l.
Proof.
  intros Hp Hs Hb. apply list_eq. intros i.
  destruct (l !! i) as [b|] eqn:E.
  - pose proof (lookup_lt_Some _ _ _ E).
    rewrite getResult_lookup by lia. f_equal. apply Hb. exact E.
  - apply lookup_ge_None in E. apply lookup_ge_None.
    rewrite getResult_length by lia. lia.
Qed.

Lemma writeVarint_coerces (u : Z) (p : UltraMemoryPool.pool) :
  UltraMemoryPool.writeVarint u p = UltraMemoryPool.writeVarint (JS.to_uint32 u) p.
Proof.
  unfold UltraMemoryPool.writeVarint.
  replace (JS.to_uint32 (JS.to_uint32 u)) with (JS.to_uint32 u); [reflexivity|].
  unfold JS.to_uint32. rewrite Z.mod_mod by lia. reflexivity.
Qed.

Lemma to_uint32_range (u : Z) : 0 <= JS.to_uint32 u <= 4294967295.
Proof. unfold JS.to_uint32. pose proof (Z.mod_pos_bound u 4294967296 ltac:(lia)). lia. Qed.

(** Every tag of the number classifier is a byte of the NUMBER group. *)
Lemma detectNumber_range (x : Num.number) :
  0x10 <= UltraTypeDetector.detectNumber x <= 0x1A.
Proof.
  unfold UltraTypeDetector.detectNumber. cbv zeta.
  destruct (negb (Num.eqb x x)); [vm_compute; split; discriminate|].
  match goal with |- context [if negb (?c =? 0) then _ else _] => generalize c; intros inf end.
  destruct (negb (inf =? 0)).
  { match goal with |- context [if ?c then _ else _] => destruct c end;
      vm_compute; split; discriminate. }
  match goal with |- context [if ?c && ?d then _ else _] => destruct (c && d) end;
    [vm_compute; split; discriminate|].
  match goal with |- context [if ?c then _ else _] => destruct c end.
  - match goal with |- context [Z.to_nat ?k] => generalize (Z.to_nat k); intros i end.
    destruct i as [|[|[|[|i]]]]; vm_compute; split; discriminate.
  - match goal with |- context [if ?c then _ else _] => destruct c end;
      vm_compute; split; discriminate.
Qed.

Section NumberPayload.
Context (H : Heap.Host) (opts : TurboSerial.options) (h : Heap.heap).

(** The payload of a number leaves what is already written. *)
Lemma writeNumber_keeps (x : Num.number) (t : Z) (s : TurboSerial.wstate) :
  PoolFacts.ok (TurboSerial.pool s) ->
  UltraMemoryPool.pos (TurboSerial.pool s) + 1024 < 2147483648 ->
  exists s', TurboSerial.writeNumber x t s = Done (tt, s')
             /\ PoolFacts.keeps (TurboSerial.pool s) (TurboSerial.pool s').
Proof.
  intros Hok Hroom. unfold TurboSerial.writeNumber.
  repeat match goal with
         | |- context [if ?a =? ?b then _ else _] => destruct (a =? b)
         end.
  - eexists. split; [reflexivity|]. simpl.
    apply (pool_writeU8 _ _ Hok). lia.
  - eexists. split; [reflexivity|]. simpl.
    destruct (pool_aligned_put 1 (JS.le_bytes 2 (Num.trunc x)) (TurboSerial.pool s)
                ltac:(lia) Hok ltac:(rewrite le_bytes_length; lia)) as (o & _ & _ & _ & _ & Hk & _).
    exact Hk.
  - eexists. split; [reflexivity|]. simpl.
    destruct (pool_aligned_put 2 (JS.le_bytes 4 (JS.to_int32 (Num.trunc x))) (TurboSerial.pool s)
                ltac:(lia) Hok ltac:(rewrite le_bytes_length; lia)) as (o & _ & _ & _ & _ & Hk & _).
    exact Hk.
  - eexists. split; [reflexivity|]. simpl.
    destruct (pool_aligned_put 2 (JS.le_bytes 4 (JS.to_uint32 (Num.trunc x))) (TurboSerial.pool s)
                ltac:(lia) Hok ltac:(rewrite le_bytes_length; lia)) as (o & _ & _ & _ & _ & Hk & _).
    exact Hk.
  - eexists. split; [reflexivity|]. simpl.
    destruct (pool_aligned_put 2 (JS.le_bytes 4 (Num.bits32 x)) (TurboSerial.pool s)
                ltac:(lia) Hok ltac:(rewrite le_bytes_length; lia)) as (o & _ & _ & _ & _ & Hk & _).
    exact Hk.
  - eexists. split; [reflexivity|]. simpl.
    destruct (pool_aligned_put 3 (JS.le_bytes 8 (Num.bits64 x)) (TurboSerial.pool s)
                ltac:(lia) Hok ltac:(rewrite le_bytes_length; lia)) as (o & _ & _ & _ & _ & Hk & _).
    exact Hk.
  - eexists. split; [reflexivity|]. simpl.
    rewrite writeVarint_coerces.
    destruct (pool_writeVarint (JS.to_uint32 (Num.trunc (Num.abs x))) (TurboSerial.pool s)
                Hok ltac:(lia) (to_uint32_range _)) as (_ & _ & _ & Hlen & Hpos & _ & Hk1 & Hok1).
    set (p1 := UltraMemoryPool.writeVarint _ _) in *.
    destruct (pool_writeU8 (if Num.ltb x (Num.of_int 0) then 1 else 0) p1 Hok1 ltac:(lia))
      as (_ & _ & Hk2 & _).
    eapply keeps_trans; [|exact Hk1|exact Hk2]. lia.
  - eexists. split; [reflexivity|]. intros i Hi. reflexivity.
Qed.

(** After [writeValue] on a number, the byte at the old cursor is the
    classifier's tag. *)
Lemma writeValue_number_tag (k : nat) (x : Num.number) (s : TurboSerial.wstate) :
  PoolFacts.ok (TurboSerial.pool s) ->
  UltraMemoryPool.pos (TurboSerial.pool s) + 2048 < 2147483648 ->
  exists s', TurboSerial.writeValue H opts h (S k) (Heap.VNum x) s = Done (tt, s')
             /\ UltraMemoryPool.byte_at (UltraMemoryPool.u8 (TurboSerial.pool s'))
                  (UltraMemoryPool.pos (TurboSerial.pool s))
                = UltraTypeDetector.detectNumber x.
Proof.
  intros Hok Hroom. rewrite writeValue_number.
  pose proof (detectNumber_range x) as Ht.
  set (t := UltraTypeDetector.detectNumber x) in *.
  destruct (pool_writeU8 t (TurboSerial.pool s) Hok ltac:(lia)) as (Hp1 & Hh1 & Hk1 & Hok1).
  unfold bind, TurboSerial.writeU8, TurboSerial.on_pool, modify.
  set (s1 := TurboSerial.mkW (UltraMemoryPool.writeU8 t (TurboSerial.pool s)) _ _ _ _).
  assert (Hpay : exists s', TurboSerial.writePayload H opts h (TurboSerial.writeValue H opts h k)
                              (Heap.VNum x) t s1 = Done (tt, s')
                            /\ PoolFacts.keeps (TurboSerial.pool s1) (TurboSerial.pool s')).
  { unfold TurboSerial.writePayload.
    destruct (JS.band t TYPE_MASK.GROUP =? TYPE_GROUP.NUMBER).
    - apply writeNumber_keeps; [exact Hok1|].
      unfold s1. cbn [TurboSerial.pool]. cbv zeta in Hp1. rewrite Hp1. lia.
    - eexists. split; [reflexivity|]. intros i Hi. reflexivity. }
  destruct Hpay as (s' & Hs' & Hk). exists s'. split; [exact Hs'|].
  cbv zeta in Hp1.
  rewrite Hk by (unfold s1; cbn [TurboSerial.pool]; rewrite Hp1; destruct Hok; lia).
  destruct Hh1 as (_ & _ & Hb). specialize (Hb 0%nat _ eq_refl).
  rewrite Z.add_0_r in Hb. simpl TurboSerial.pool. rewrite Hb.
  rewrite band_FF by lia. apply Z.mod_small. lia.
Qed.

End NumberPayload.

(** ** The scan of the numeric-array analyzer on integers *)

(** An array of integer-valued numbers. *)
Definition nums (zs : list Z) : list Heap.value :=
  map (fun z => Heap.VNum (Num.of_int z)) zs.

(** Integers a double holds exactly, and integers of the int32 range. *)
Definition small (z : Z) : Prop := Z.abs z < 2 ^ 53.
Definition int32 (z : Z) : Prop := -2147483648 <= z < 2147483648.

(** [z == (z|0)] and [Math.fround(z) == z] on an integer [z]. *)
Definition is_int32 (z : Z) : bool := z =? JS.to_int32 z.
Definition f32_exact (z : Z) : bool :=
  Num.eqb (Num.of_int z) (Num.fround (Num.of_int z)).

Lemma int32_small (z : Z) : int32 z -> small z.
Proof. unfold int32, small. change (2 ^ 53) with 9007199254740992. lia. Qed.

Lemma of_int_not_nan (z : Z) : Num.of_int z <> S754_nan.
Proof. destruct z; discriminate. Qed.

Definition is_finite (x : Num.number) : bool :=
  match x with S754_finite _ _ _ => true | _ => false end.

Lemma of_int_finite (z : Z) : z <> 0 -> is_finite (Num.of_int z) = true.
Proof. destruct z; [contradiction|reflexivity|reflexivity]. Qed.

Lemma min_by_ltb (x y : Num.number) :
  is_finite x || is_finite y = true -> x <> S754_nan -> y <> S754_nan ->
  Num.min x y = if Num.ltb y x then y else x.
Proof. destruct x, y; simpl; intros Hf Hx Hy; try reflexivity; try discriminate; contradiction. Qed.

Lemma max_by_ltb (x y : Num.number) :
  is_finite x || is_finite y = true -> x <> S754_nan -> y <> S754_nan ->
  Num.max x y = if Num.ltb x y then y else x.
Proof. destruct x, y; simpl; intros Hf Hx Hy; try reflexivity; try discriminate; contradiction. Qed.

Lemma min_of_int (a b : Z) :
  small a -> small b -> Num.min (Num.of_int a) (Num.of_int b) = Num.of_int (Z.min a b).
Proof.
  intros Ha Hb.
  destruct (Z.eq_dec a 0) as [->|Hna]; [destruct (Z.eq_dec b 0) as [->|Hnb]|].
  - reflexivity.
  - rewrite min_by_ltb; [|rewrite (of_int_finite b Hnb); apply orb_true_r
                         |apply of_int_not_nan|apply of_int_not_nan].
    rewrite ltb_of_int by assumption.
    destruct (Z.ltb_spec b 0); f_equal; lia.
  - rewrite min_by_ltb; [|rewrite (of_int_finite a Hna); reflexivity
                         |apply of_int_not_nan|apply of_int_not_nan].
    rewrite ltb_of_int by assumption.
    destruct (Z.ltb_spec b a); f_equal; lia.
Qed.

Lemma max_of_int (a b : Z) :
  small a -> small b -> Num.max (Num.of_int a) (Num.of_int b) = Num.of_int (Z.max a b).
Proof.
  intros Ha Hb.
  destruct (Z.eq_dec a 0) as [->|Hna]; [destruct (Z.eq_dec b 0) as [->|Hnb]|].
  - reflexivity.
  - rewrite max_by_ltb; [|rewrite (of_int_finite b Hnb); apply orb_true_r
                         |apply of_int_not_nan|apply of_int_not_nan].
    rewrite ltb_of_int by assumption.
    destruct (Z.ltb_spec 0 b); f_equal; lia.
  - rewrite max_by_ltb; [|rewrite (of_int_finite a Hna); reflexivity
                         |apply of_int_not_nan|apply of_int_not_nan].
    rewrite ltb_of_int by assumption.
    destruct (Z.ltb_spec a b); f_equal; lia.
Qed.

Lemma min_infinity (z : Z) : Num.min Num.Infinity (Num.of_int z) = Num.of_int z.
Proof. destruct z; reflexivity. Qed.

Lemma max_neg_infinity (z : Z) : Num.max Num.NegInfinity (Num.of_int z) = Num.of_int z.
Proof. destruct z; reflexivity. Qed.

Section Scan.
Context (H : Heap.Host) (h : Heap.heap).

(** One turn of the scan on an integer. *)
Lemma scan_step_int (a : SIMDProcessor.scan) (z : Z) :
  small z ->
  SIMDProcessor.scan_step H h a (Heap.VNum (Num.of_int z))
  = Done (SIMDProcessor.mkScan
            (JS.band (SIMDProcessor.isInteger a) (SIMDProcessor.b2z (is_int32 z)))
            (Num.min (SIMDProcessor.min a) (Num.of_int z))
            (Num.max (SIMDProcessor.max a) (Num.of_int z))
            (if SIMDProcessor.canBeFloat32 a =? 0 then SIMDProcessor.canBeFloat32 a
             else JS.band (SIMDProcessor.canBeFloat32 a) (SIMDProcessor.b2z (f32_exact z)))).
Proof.
  intros Hz. unfold SIMDProcessor.scan_step, Coerce.to_number, Coerce.loose_eq_number.
  cbv zeta. unfold Num.to_int32. rewrite trunc_of_int by exact Hz.
  rewrite eqb_of_int; [reflexivity|exact Hz|].
  apply int32_small. apply to_int32_range.
Qed.

(** The two flags after the scan. *)
Lemma scan_loop_flags (zs : list Z) :
  Forall small zs ->
  forall (a : SIMDProcessor.scan) (bi bf : bool),
    SIMDProcessor.isInteger a = SIMDProcessor.b2z bi ->
    SIMDProcessor.canBeFloat32 a = SIMDProcessor.b2z bf ->
    exists a',
      SIMDProcessor.scan_loop H h a (nums zs) = Done a'
      /\ SIMDProcessor.isInteger a' = SIMDProcessor.b2z (bi && forallb is_int32 zs)
      /\ SIMDProcessor.canBeFloat32 a' = SIMDProcessor.b2z (bf && forallb f32_exact zs).
Proof.
  induction 1 as [|z zs Hz Hzs IH]; intros a bi bf Hi Hf.
  - exists a. rewrite !andb_true_r. split; [reflexivity|]. split; assumption.
  - cbn [nums map SIMDProcessor.scan_loop]. rewrite scan_step_int by exact Hz.
    fold (nums zs).
    destruct (IH (SIMDProcessor.mkScan
                    (JS.band (SIMDProcessor.isInteger a) (SIMDProcessor.b2z (is_int32 z)))
                    (Num.min (SIMDProcessor.min a) (Num.of_int z))
                    (Num.max (SIMDProcessor.max a) (Num.of_int z))
                    (if SIMDProcessor.canBeFloat32 a =? 0 then SIMDProcessor.canBeFloat32 a
                     else JS.band (SIMDProcessor.canBeFloat32 a)
                                  (SIMDProcessor.b2z (f32_exact z))))
                 (bi && is_int32 z) (bf && f32_exact z)) as (a' & Ha' & Hi' & Hf').
    + cbn [SIMDProcessor.isInteger]. rewrite Hi. destruct bi, (is_int32 z); reflexivity.
    + cbn [SIMDProcessor.canBeFloat32]. rewrite Hf. destruct bf, (f32_exact z); reflexivity.
    + exists a'. split; [exact Ha'|].
      cbn [forallb]. rewrite !andb_assoc. split; assumption.
Qed.

(** The two bounds after the scan, once they are integers. *)
Lemma scan_loop_bounds (zs : list Z) :
  Forall small zs ->
  forall (a a' : SIMDProcessor.scan) (mn mx : Z),
    SIMDProcessor.min a = Num.of_int mn -> SIMDProcessor.max a = Num.of_int mx ->
    small mn -> small mx ->
    SIMDProcessor.scan_loop H h a (nums zs) = Done a' ->
    exists mn' mx',
      SIMDProcessor.min a' = Num.of_int mn' /\ SIMDProcessor.max a' = Num.of_int mx'
      /\ mn' <= mn /\ mx <= mx'
      /\ Forall (fun z => mn' <= z <= mx') zs
      /\ (mn' = mn \/ In mn' zs) /\ (mx' = mx \/ In mx' zs).
Proof.
  induction 1 as [|z zs Hz Hzs IH]; intros a a' mn mx Hmn Hmx Hsn Hsx Hrun.
  - inversion Hrun; subst a'. exists mn, mx.
    split; [assumption|]. split; [assumption|]. split; [lia|]. split; [lia|].
    split; [constructor|]. split; left; reflexivity.
  - cbn [nums map SIMDProcessor.scan_loop] in Hrun. rewrite scan_step_int in Hrun by exact Hz.
    fold (nums zs) in Hrun.
    apply (IH _ _ (Z.min mn z) (Z.max mx z)) in Hrun.
    + destruct Hrun as (mn' & mx' & E1 & E2 & L1 & L2 & Hall & I1 & I2).
      exists mn', mx'. split; [exact E1|]. split; [exact E2|].
      split; [lia|]. split; [lia|]. split.
      * constructor; [lia|exact Hall].
      * split.
        -- destruct I1 as [->|I1]; [|right; right; exact I1].
           destruct (Z.min_spec mn z) as [[_ ->]|[_ ->]]; [left; reflexivity|right; left; reflexivity].
        -- destruct I2 as [->|I2]; [|right; right; exact I2].
           destruct (Z.max_spec mx z) as [[_ ->]|[_ ->]]; [right; left; reflexivity|left; reflexivity].
    + cbn [SIMDProcessor.min]. rewrite Hmn. apply min_of_int; assumption.
    + cbn [SIMDProcessor.max]. rewrite Hmx. apply max_of_int; assumption.
    + unfold small in *. lia.
    + unfold small in *. lia.
Qed.

End Scan.

(** ** The reader: cursor progress and fuel *)

Module ReaderFacts.
Import TurboSerial.

(** A byte, and the states the reader runs in: the input is made of
    bytes and is shorter than [2^30], and the cursor is inside it or, on
    a multiple of 8, within a last alignment step of its end. *)
Definition is_byte (b : Z) : Prop := 0 <= b < 256.

Definition inv (s : rstate) : Prop :=
  0 <= rpos s <= buffer_length s + 7
  /\ (buffer_length s < rpos s -> rpos s mod 8 = 0)
  /\ buffer_length s < 2 ^ 30
  /\ Forall is_byte (buffer s).

(** The bytes left after the cursor. *)
Definition left (s : rstate) : nat := Z.to_nat (buffer_length s - rpos s).

(** From [s] to [s']: the same input, the cursor not before where it
    was; [strict]: the cursor was inside the input and has advanced. *)
Definition step (strict : bool) (s s' : rstate) : Prop :=
  buffer s' = buffer s
  /\ if strict then rpos s < buffer_length s /\ rpos s < rpos s'
     else rpos s <= rpos s'.

(** What a part [c] of the reader does from a state [s]: a result in a
    later state, a throw, or, only when [k] units of fuel do not exceed
    the bytes left, exhaustion. *)
Definition triple (k : nat) (strict : bool) {A} (c : R A) (post : A -> Prop) : Prop :=
  forall s, inv s ->
    match c s with
    | Done (a, s') => inv s' /\ step strict s s' /\ post a
    | Throw _ => True
    | OutOfFuel => (k <= left s)%nat
    end.

Definition any {A} : A -> Prop := fun _ => True.

Lemma step_weaken (s s' : rstate) : step true s s' -> step false s s'.
Proof. intros [Hb [_ Hp]]. split; [exact Hb|]. simpl. lia. Qed.

Lemma step_trans (b1 b2 : bool) (s s1 s2 : rstate) :
  step b1 s s1 -> step b2 s1 s2 -> step (b1 || b2) s s2.
Proof.
  unfold step, buffer_length. intros [E1 P1] [E2 P2]. split; [congruence|].
  rewrite E1 in P2. destruct b1, b2; simpl in *; lia.
Qed.

Lemma left_mono (s s' : rstate) : step false s s' -> (left s' <= left s)%nat.
Proof. unfold step, left, buffer_length. intros [E P]. rewrite E. simpl in P. lia. Qed.

Lemma left_strict (s s' : rstate) : step true s s' -> (left s' < left s)%nat.
Proof. unfold step, left, buffer_length. intros [E [P Q]]. rewrite E. lia. Qed.

Section Combinators.
Variable k : nat.

Lemma t_weaken {A} (c : R A) (post : A -> Prop) :
  triple k true c post -> triple k false c post.
Proof.
  intros Hc s Hs. specialize (Hc s Hs). destruct (c s) as [[a s']| |]; [|exact I|exact Hc].
  destruct Hc as (Hi & Hst & Hp). split; [exact Hi|]. split; [apply step_weaken; exact Hst|exact Hp].
Qed.

Lemma t_post {A} (b : bool) (c : R A) (p q : A -> Prop) :
  triple k b c p -> (forall a, p a -> q a) -> triple k b c q.
Proof.
  intros Hc Hpq s Hs. specialize (Hc s Hs). destruct (c s) as [[a s']| |]; [|exact I|exact Hc].
  destruct Hc as (Hi & Hst & Hp). split; [exact Hi|]. split; [exact Hst|apply Hpq; exact Hp].
Qed.

Lemma t_ret {A} (a : A) (post : A -> Prop) : post a -> triple k false (ret a) post.
Proof.
  intros Hp s Hs. unfold ret. split; [exact Hs|]. split; [|exact Hp].
  split; [reflexivity|]. simpl. lia.
Qed.

Lemma t_throw {A} (b : bool) (e : error) (post : A -> Prop) : triple k b (throw e) post.
Proof. intros s Hs. exact I. Qed.

Lemma t_bind_gen {A B} (b1 b2 : bool) (c : R A) (f : A -> R B)
    (p1 : A -> Prop) (p2 : B -> Prop) :
  triple k b1 c p1 -> (forall a, p1 a -> triple k b2 (f a) p2) ->
  triple k (b1 || b2) (bind c f) p2.
Proof.
  intros Hc Hf s Hs. unfold bind. specialize (Hc s Hs).
  destruct (c s) as [[a s1]| |]; [|exact I|exact Hc].
  destruct Hc as (Hi1 & Hst1 & Hp1). specialize (Hf a Hp1 s1 Hi1).
  destruct (f a s1) as [[b s2]| |]; [|exact I|].
  - destruct Hf as (Hi2 & Hst2 & Hp2). split; [exact Hi2|]. split; [|exact Hp2].
    eapply step_trans; eassumption.
  - assert (Hl : (left s1 <= left s)%nat).
    { apply left_mono. destruct b1; [apply step_weaken|]; exact Hst1. }
    lia.
Qed.

Lemma t_bind {A B} (c : R A) (f : A -> R B) (p1 : A -> Prop) (p2 : B -> Prop) :
  triple k false c p1 -> (forall a, p1 a -> triple k false (f a) p2) ->
  triple k false (bind c f) p2.
Proof. apply (t_bind_gen false false). Qed.

Lemma t_bind_strict {A B} (c : R A) (f : A -> R B) (p1 : A -> Prop) (p2 : B -> Prop) :
  triple k true c p1 -> (forall a, p1 a -> triple k false (f a) p2) ->
  triple k true (bind c f) p2.
Proof. apply (t_bind_gen true false). Qed.

Lemma t_bind_then {A B} (c : R A) (f : A -> R B) (p1 : A -> Prop) (p2 : B -> Prop) :
  triple k false c p1 -> (forall a, p1 a -> triple k true (f a) p2) ->
  triple k true (bind c f) p2.
Proof. apply (t_bind_gen false true). Qed.

Lemma t_get {A} (b : bool) (f : rstate -> R A) (post : A -> Prop) :
  (forall s0, triple k b (f s0) post) -> triple k b (bind get f) post.
Proof. intros Hf s Hs. unfold bind, get. apply Hf. exact Hs. Qed.

(** A part that leaves the input and the cursor alone and never runs
    out of fuel. *)
Definition quiet {A} (c : R A) : Prop :=
  forall s, match c s with
            | Done (_, s') => buffer s' = buffer s /\ rpos s' = rpos s
            | Throw _ => True
            | OutOfFuel => False
            end.

Lemma t_quiet {A} (c : R A) : quiet c -> triple k false c any.
Proof.
  intros Hq s Hs. specialize (Hq s). destruct (c s) as [[a s']| |]; [|exact I|contradiction].
  destruct Hq as [Eb Ep]. unfold inv, step, buffer_length in *. rewrite Eb, Ep.
  split; [exact Hs|]. split; [|exact I]. split; [reflexivity|]. simpl. lia.
Qed.

(** The counted loop: every turn that completes moves the cursor over
    at least one byte of the input, so [fuel] turns are enough wherever
    fewer than [fuel] bytes are left. *)
Lemma for_count_turns (body : Z -> R unit) (count : Z) :
  (forall i, triple k true (body i) any) ->
  forall (fuel : nat) (i : Z) (s : rstate), inv s ->
    match for_count fuel body i count s with
    | Done (_, s') => inv s' /\ step false s s'
    | Throw _ => True
    | OutOfFuel => (fuel <= left s \/ k <= left s)%nat
    end.
Proof.
  intros Hbody. induction fuel as [|fuel IH]; intros i s Hs; cbn [for_count].
  - destruct (count <=? i).
    + unfold ret. split; [exact Hs|]. split; [reflexivity|]. simpl. lia.
    + left. lia.
  - destruct (count <=? i).
    + unfold ret. split; [exact Hs|]. split; [reflexivity|]. simpl. lia.
    + unfold bind. specialize (Hbody i s Hs).
      destruct (body i s) as [[u s1]| |]; [|exact I|right; exact Hbody].
      destruct Hbody as (Hi1 & Hst1 & _). specialize (IH (i + 1) s1 Hi1).
      pose proof (left_strict _ _ Hst1) as Hl.
      destruct (for_count fuel body (i + 1) count s1) as [[u2 s2]| |]; [|exact I|].
      * destruct IH as [Hi2 Hst2]. split; [exact Hi2|].
        apply (step_trans true false _ _ _ Hst1) in Hst2. apply step_weaken. exact Hst2.
      * lia.
Qed.

Lemma t_for (body : Z -> R unit) (i count : Z) :
  (forall i, triple k true (body i) any) ->
  triple k false (for_count k body i count) any.
Proof.
  intros Hbody s Hs. pose proof (for_count_turns body count Hbody k i s Hs) as Hl.
  destruct (for_count k body i count s) as [[u s']| |]; [|exact I|lia].
  destruct Hl as [Hi Hst]. split; [exact Hi|]. split; [exact Hst|exact I].
Qed.

End Combinators.

(** *** The byte readers *)

Lemma byte_is_byte (s : rstate) (i : Z) : Forall is_byte (buffer s) -> is_byte (byte s i).
Proof.
  intros Hall. unfold byte. destruct (i <? 0); [unfold is_byte; lia|].
  destruct (buffer s !! Z.to_nat i) as [b|] eqn:E; simpl.
  - exact (proj1 (Forall_lookup _ _) Hall _ _ E).
  - unfold is_byte; lia.
Qed.

Lemma inv_set_pos (s : rstate) (p : Z) :
  inv s -> 0 <= p <= buffer_length s -> inv (set_pos p s).
Proof.
  unfold inv, buffer_length. simpl. intros (_ & _ & Hl & Hb) Hp.
  split; [lia|]. split; [lia|]. split; assumption.
Qed.

(** The varint loop reads at least one byte, stays inside the bytes it
    is given and never runs out of fuel. *)
Lemma varint_loop_reads (bytes : list Z) :
  forall avail value shift n,
    match varint_loop bytes avail value shift n with
    | Done (v, n') => n < n' <= n + Z.of_nat (length bytes) /\ 0 <= v
    | Throw _ => True
    | OutOfFuel => False
    end.
Proof.
  induction bytes as [|b r IH]; intros avail value shift n; cbn [varint_loop]; [exact I|].
  destruct (negb (JS.band b 128 =? 0)).
  - specialize (IH 0 (JS.bor value (JS.shl (JS.band b 127) shift)) (shift + 7) (n + 1)).
    destruct (varint_loop r 0 _ _ (n + 1)) as [[v n']| |]; [|exact I|exact IH].
    cbn [length]. lia.
  - cbn [length]. split; [lia|]. unfold JS.to_uint32.
    pose proof (Z.mod_pos_bound (JS.bor value (JS.shl (JS.band b 127) shift)) 4294967296). lia.
Qed.

Section Prims.
Variable k : nat.

Lemma p_readU8 : triple k true readU8 is_byte.
Proof.
  intros s Hs. unfold readU8, bind, ensureBytes.
  destruct (Z.ltb_spec (buffer_length s) (rpos s + 1)) as [Hlt|Hge]; [exact I|].
  pose proof Hs as (Hp & _ & Hl & Hb).
  split; [apply inv_set_pos; [exact Hs|lia]|].
  split; [|apply byte_is_byte; exact Hb].
  split; [reflexivity|]. simpl. lia.
Qed.

Lemma p_getInt8 : triple k true getInt8 any.
Proof.
  intros s Hs. unfold getInt8.
  destruct (Z.ltb_spec (rpos s) 0) as [Hn|Hn]; [exact I|].
  destruct (Z.leb_spec (buffer_length s) (rpos s)) as [Hlt|Hge]; [exact I|]. simpl.
  split; [apply inv_set_pos; [exact Hs|lia]|].
  split; [|exact I]. split; [reflexivity|]. simpl. lia.
Qed.

Lemma p_readVarint : triple k true readVarint (fun v => 0 <= v).
Proof.
  intros s Hs. unfold readVarint.
  set (rest := if rpos s <? 0 then [] else drop (Z.to_nat (rpos s)) (buffer s)).
  pose proof (varint_loop_reads rest (buffer_length s - rpos s) 0 0 0) as Hv.
  destruct (varint_loop rest _ 0 0 0) as [[v n]| |]; [|exact I|contradiction].
  destruct Hv as [Hn Hv0].
  assert (Hlen : Z.of_nat (length rest) <= Z.max 0 (buffer_length s - rpos s) /\ 0 <= rpos s).
  { unfold rest, buffer_length. destruct Hs as ((Hp & _) & _).
    destruct (Z.ltb_spec (rpos s) 0); [lia|]. rewrite length_drop. lia. }
  split; [apply inv_set_pos; [exact Hs|lia]|].
  split; [|exact Hv0]. split; [reflexivity|]. simpl. lia.
Qed.

(** The alignments the reader asks for. *)
Definition alignment (al : Z) : Prop := al = 1 \/ al = 2 \/ al = 4 \/ al = 8.

Lemma alignPos_spec (al : Z) (s : rstate) :
  alignment al -> inv s ->
  exists a, alignPos al s = Done (tt, set_pos a s) /\ rpos s <= a < rpos s + al
            /\ a mod al = 0.
Proof.
  intros Hal (Hp & _ & Hl & _).
  assert (Hj : exists j, 0 <= j <= 3 /\ al = 2 ^ j).
  { destruct Hal as [-> | [-> | [-> | ->]]];
      [exists 0|exists 1|exists 2|exists 3]; (split; [lia|reflexivity]). }
  destruct Hj as (j & Hj & ->).
  unfold alignPos, modify. eexists. split; [reflexivity|].
  cbv zeta. rewrite align_value by (change (2 ^ 30) with 1073741824 in Hl; lia).
  pose proof (align_bounds (rpos s) j ltac:(lia) ltac:(lia)) as [Hm Hb].
  split; [exact Hb|exact Hm].
Qed.

Lemma t_ensure_take {B} (n : Z) (f : list Z -> R B) (post : B -> Prop) :
  0 <= n ->
  (forall bs, triple k false (f bs) post) ->
  triple k false (bind (ensureBytes n) (fun _ => bind (take_bytes n) f)) post.
Proof.
  intros Hn Hf s Hs. unfold bind at 1. unfold ensureBytes.
  destruct (Z.ltb_spec (buffer_length s) (rpos s + n)) as [Hlt|Hge]; [exact I|].
  unfold bind, take_bytes.
  assert (Hi : inv (set_pos (rpos s + n) s)).
  { apply inv_set_pos; [exact Hs|]. destruct Hs as ((Hp & _) & _). lia. }
  specialize (Hf (bytes_at s (rpos s) n) _ Hi).
  destruct (f _ _) as [[b s2]| |]; [|exact I|].
  - destruct Hf as (Hi2 & [Eb Hst] & Hp). split; [exact Hi2|]. split; [|exact Hp].
    split; [exact Eb|]. simpl in *. lia.
  - unfold left, buffer_length in *. simpl in Hf. lia.
Qed.

Lemma t_align_ensure_take {B} (b : bool) (al n : Z) (f : list Z -> R B) (post : B -> Prop) :
  alignment al -> 0 <= n -> (b = true -> 0 < n) ->
  (forall bs, triple k false (f bs) post) ->
  triple k b (bind (alignPos al)
                (fun _ => bind (ensureBytes n) (fun _ => bind (take_bytes n) f))) post.
Proof.
  intros Hal Hn Hb Hf s Hs. unfold bind at 1.
  destruct (alignPos_spec al s Hal Hs) as (a & -> & Ha & _).
  unfold bind at 1. unfold ensureBytes.
  change (rpos (set_pos a s)) with a. change (buffer_length (set_pos a s)) with (buffer_length s).
  destruct (Z.ltb_spec (buffer_length s) (a + n)) as [Hlt|Hge]; [exact I|].
  unfold bind, take_bytes.
  change (rpos (set_pos a s)) with a.
  assert (Hi : inv (set_pos (a + n) (set_pos a s))).
  { apply inv_set_pos; [apply inv_set_pos; [exact Hs|]|].
    - destruct Hs as ((Hp & _) & _). lia.
    - change (buffer_length (set_pos a s)) with (buffer_length s).
      destruct Hs as ((Hp & _) & _). lia. }
  specialize (Hf (bytes_at (set_pos a s) a n) _ Hi).
  destruct (f _ _) as [[r s2]| |]; [|exact I|].
  - destruct Hf as (Hi2 & [Eb Hst] & Hp). split; [exact Hi2|]. split; [|exact Hp].
    split; [exact Eb|]. simpl in Hst.
    destruct b; [specialize (Hb eq_refl)|]; lia.
  - unfold left, buffer_length in *. simpl in Hf. lia.
Qed.

Lemma t_align_ensure {B} (al n : Z) (f : unit -> R B) (post : B -> Prop) :
  alignment al -> 0 <= n ->
  triple k false (f tt) post ->
  triple k false (bind (alignPos al) (fun _ => bind (ensureBytes n) f)) post.
Proof.
  intros Hal Hn Hf s Hs. unfold bind at 1.
  destruct (alignPos_spec al s Hal Hs) as (a & -> & Ha & _).
  unfold bind. unfold ensureBytes.
  change (rpos (set_pos a s)) with a. change (buffer_length (set_pos a s)) with (buffer_length s).
  destruct (Z.ltb_spec (buffer_length s) (a + n)) as [Hlt|Hge]; [exact I|].
  assert (Hi : inv (set_pos a s)).
  { apply inv_set_pos; [exact Hs|]. destruct Hs as ((Hp & _) & _). lia. }
  specialize (Hf _ Hi).
  destruct (f tt _) as [[r s2]| |]; [|exact I|].
  - destruct Hf as (Hi2 & [Eb Hst] & Hp). split; [exact Hi2|]. split; [|exact Hp].
    split; [exact Eb|]. simpl in Hst. simpl. lia.
  - unfold left, buffer_length in *. simpl in Hf. lia.
Qed.

Lemma p_read_le (n : Z) : n = 2 \/ n = 4 \/ n = 8 -> triple k true (read_le n) any.
Proof.
  intros Hn. unfold read_le.
  apply t_align_ensure_take; [unfold alignment; tauto|lia|lia|].
  intros bs. apply t_ret. exact I.
Qed.

Lemma p_read_le_then {A} (n : Z) (f : Z -> A) :
  n = 2 \/ n = 4 \/ n = 8 -> triple k true (bind (read_le n) (fun u => ret (f u))) any.
Proof.
  intros Hn. eapply t_bind_strict; [apply p_read_le; exact Hn|].
  intros u _. apply t_ret. exact I.
Qed.

Lemma p_readI16 : triple k true readI16 any.
Proof. apply p_read_le_then. lia. Qed.

Lemma p_readU16 : triple k true readU16 any.
Proof. apply p_read_le. lia. Qed.

Lemma p_readI32 : triple k true readI32 any.
Proof. apply p_read_le_then. lia. Qed.

Lemma p_readU32 : triple k true readU32 any.
Proof. apply p_read_le. lia. Qed.

Lemma p_readF32 : triple k true readF32 any.
Proof. apply p_read_le_then. lia. Qed.

Lemma p_readF64 : triple k true readF64 any.
Proof. apply p_read_le_then. lia. Qed.

Lemma p_readBigInt64 : triple k true readBigInt64 any.
Proof. apply p_read_le_then. lia. Qed.

End Prims.

(** *** The parts that leave the cursor alone *)

Lemma quiet_ret {A} (a : A) : quiet (ret a).
Proof. intros s. split; reflexivity. Qed.

Lemma quiet_throw {A} (e : error) : quiet (throw (A := A) e).
Proof. intros s. exact I. Qed.

Lemma quiet_bind {A B} (c : R A) (f : A -> R B) :
  quiet c -> (forall a, quiet (f a)) -> quiet (bind c f).
Proof.
  intros Hc Hf s. unfold bind. specialize (Hc s).
  destruct (c s) as [[a s1]| |]; [|exact I|contradiction].
  specialize (Hf a s1). destruct (f a s1) as [[b s2]| |]; [|exact I|contradiction].
  destruct Hc, Hf. split; congruence.
Qed.

Lemma quiet_alloc (o : Heap.obj) : quiet (alloc o).
Proof. intros s. split; reflexivity. Qed.

Lemma quiet_update (l : Heap.loc) (f : Heap.obj -> Heap.obj) : quiet (update l f).
Proof. intros s. split; reflexivity. Qed.

Lemma quiet_next_id : quiet next_id.
Proof. intros s. split; reflexivity. Qed.

Lemma quiet_push_ref (v : Heap.value) : quiet (push_ref v).
Proof. intros s. split; reflexivity. Qed.

Lemma quiet_push_string (v : Heap.value) : quiet (push_string v).
Proof. intros s. split; reflexivity. Qed.

Lemma quiet_push_buffer (l : Heap.loc) : quiet (push_buffer l).
Proof. intros s. split; reflexivity. Qed.

Ltac quiet_cases :=
  intros s; cbv beta;
  repeat match goal with
         | |- context [match ?x with _ => _ end] =>
             lazymatch x with
             | context [match _ with _ => _ end] => fail
             | _ => destruct x; cbv beta iota
             end
         end;
  first [exact I | split; reflexivity].

Section Quiet.
Context (H : Heap.Host).

Lemma quiet_to_pkey (key : Heap.value) : quiet (to_pkey H key).
Proof. unfold to_pkey. quiet_cases. Qed.

Lemma quiet_to_string (v : Heap.value) : quiet (to_string H v).
Proof. unfold to_string. quiet_cases. Qed.

Lemma quiet_assign (l : Heap.loc) (key v : Heap.value) : quiet (assign H l key v).
Proof.
  unfold assign. apply quiet_bind; [apply quiet_to_pkey|]. intros k'.
  destruct (bool_decide _); [apply quiet_ret|]. quiet_cases.
Qed.

Lemma quiet_defineProperty (l : Heap.loc) (key : Heap.value) (d : Heap.prop) :
  quiet (defineProperty H l key d).
Proof.
  unfold defineProperty. apply quiet_bind; [apply quiet_to_pkey|]. intros k'.
  cbv zeta. quiet_cases.
Qed.

Lemma quiet_new_symbol (description : Heap.value) : quiet (new_symbol H description).
Proof.
  unfold new_symbol.
  destruct description;
    repeat first [ apply quiet_ret | apply quiet_next_id | apply quiet_to_string
                 | apply quiet_bind; [|intros ?] ].
Qed.

End Quiet.

Lemma quiet_createTypedArray (type : Z) (buffer : Heap.loc) (byteOffset length : Z) :
  quiet (createTypedArray type buffer byteOffset length).
Proof.
  unfold createTypedArray. destruct (view_element_size type); [|apply quiet_throw].
  intros s. cbv zeta. destruct (_ || _); [exact I|]. split; reflexivity.
Qed.

Create HintDb quiet.

#[local] Hint Resolve quiet_ret quiet_throw quiet_alloc quiet_update quiet_next_id
  quiet_push_ref quiet_push_string quiet_push_buffer quiet_to_pkey quiet_to_string
  quiet_assign quiet_defineProperty quiet_new_symbol quiet_createTypedArray : quiet.

(** *** The readers of the leaves *)

Lemma bytes_per_element_cases (t : Z) :
  BYTES_PER_ELEMENT t = 0 \/ alignment (BYTES_PER_ELEMENT t).
Proof.
  unfold BYTES_PER_ELEMENT, alignment.
  repeat match goal with |- context [if ?c then _ else _] => destruct c end; tauto.
Qed.

(** One step of a proof that a part of the reader is a [triple]: the
    structure of the code, then the byte readers. *)
Ltac t_prim k :=
  lazymatch goal with
  | |- triple _ _ readU8 _ => apply t_weaken; apply p_readU8
  | |- triple _ _ readVarint _ => apply t_weaken; apply p_readVarint
  | |- triple _ _ getInt8 _ => apply t_weaken; apply p_getInt8
  | |- triple _ _ (read_le _) _ => apply t_weaken; apply p_read_le; lia
  | |- triple _ _ readI16 _ => apply t_weaken; apply p_readI16
  | |- triple _ _ readU16 _ => apply t_weaken; apply p_readU16
  | |- triple _ _ readI32 _ => apply t_weaken; apply p_readI32
  | |- triple _ _ readU32 _ => apply t_weaken; apply p_readU32
  | |- triple _ _ readF32 _ => apply t_weaken; apply p_readF32
  | |- triple _ _ readF64 _ => apply t_weaken; apply p_readF64
  | |- triple _ _ readBigInt64 _ => apply t_weaken; apply p_readBigInt64
  | |- triple _ _ _ _ => apply t_quiet; solve [auto with quiet]
  end.

Ltac t_step k :=
  cbv beta zeta;
  lazymatch goal with
  | |- triple _ _ (ret _) _ => apply t_ret; exact I
  | |- triple _ _ (throw _) _ => apply t_throw
  | |- triple _ _ (bind get _) _ => apply t_get; intros ?
  | |- triple _ _ (bind _ _) _ => eapply t_bind; [t_prim k|intros ? ?]
  | |- triple _ _ (if ?c then _ else _) _ => destruct c
  | |- triple _ _ (match ?c with _ => _ end) _ => destruct c
  | |- triple _ _ _ _ => t_prim k
  end.

Ltac t_auto k := repeat (t_step k).

Section Leaves.
Context (H : Heap.Host).
Variable k : nat.

Lemma l_readPrimitive (type : Z) : triple k false (readPrimitive type) any.
Proof. unfold readPrimitive. t_auto k. Qed.

Lemma l_readNumber (type : Z) : triple k false (readNumber type) any.
Proof.
  unfold readNumber. t_auto k.
Qed.

Lemma l_readLargeBigInt (isNegative : bool) : triple k false (readLargeBigInt isNegative) any.
Proof.
  unfold readLargeBigInt.
  eapply t_bind; [apply t_weaken; apply p_readVarint|]. intros byteLength Hlen.
  apply t_ensure_take; [exact Hlen|]. intros bs. t_auto k.
Qed.

Lemma l_readBigInt (type : Z) : triple k false (readBigInt type) any.
Proof.
  unfold readBigInt.
  destruct (_ || _); [t_auto k|].
  destruct (_ || _); [apply l_readLargeBigInt|apply t_throw].
Qed.

Lemma l_readString (type : Z) : triple k false (readString H type) any.
Proof.
  unfold readString. destruct (type =? TYPE.STRING_EMPTY); [t_auto k|].
  eapply (t_bind _ _ _ (fun v => 0 <= v)).
  - destruct (_ || _).
    + eapply t_post; [apply t_weaken; apply p_readU8|]. unfold is_byte. intros; lia.
    + apply t_weaken. apply p_readVarint.
  - intros len Hlen. apply t_ensure_take; [exact Hlen|]. intros bs. t_auto k.
Qed.

Lemma l_readPackedArrayData (type : Z) : triple k false (readPackedArrayData type) any.
Proof.
  unfold readPackedArrayData.
  eapply t_bind; [apply t_weaken; apply p_readVarint|]. intros len Hlen. cbv zeta.
  destruct (Z.eqb_spec (BYTES_PER_ELEMENT type) 0) as [E|E]; [apply t_throw|].
  destruct (bytes_per_element_cases type) as [E0|Hal]; [contradiction|].
  assert (Hmin : alignment (Z.min (BYTES_PER_ELEMENT type) 8)).
  { unfold alignment in *. lia. }
  assert (Hn : 0 <= len * BYTES_PER_ELEMENT type).
  { cbv beta in Hlen. destruct Hal as [E1|[E1|[E1|E1]]]; rewrite E1; lia. }
  destruct (_ || _).
  - apply t_align_ensure_take; [exact Hmin|exact Hn|discriminate|]. intros bs. t_auto k.
  - apply t_align_ensure; [exact Hmin|exact Hn|]. t_auto k.
Qed.

Lemma l_readArrayBuffer (type : Z) : triple k false (readArrayBuffer type) any.
Proof.
  unfold readArrayBuffer.
  eapply t_bind; [apply t_weaken; apply p_readVarint|]. intros len Hlen.
  apply t_ensure_take; [exact Hlen|]. intros bs. t_auto k.
Qed.

Lemma l_readDate (type : Z) : triple k false (readDate type) any.
Proof. unfold readDate. t_auto k. Qed.

Lemma l_readBinary (type : Z) : triple k false (readBinary type) any.
Proof. unfold readBinary. t_auto k. Qed.

Lemma l_readExtension (type : Z) : triple k false (readExtension type) any.
Proof. unfold readExtension. t_auto k. Qed.

End Leaves.

Lemma l_readTypedArray (k : nat) (type : Z) : triple k false (readTypedArray type) any.
Proof.
  unfold readTypedArray.
  eapply t_bind; [apply t_weaken; apply p_readU8|]. intros isShared _.
  destruct (negb (isShared =? 0)); [t_auto k|].
  eapply t_bind; [apply t_weaken; apply p_readVarint|]. intros byteOffset _.
  eapply t_bind; [apply t_weaken; apply p_readVarint|]. intros len Hlen.
  cbv beta zeta in Hlen |- *.
  destruct (_ || _).
  - intros s Hs. unfold bind at 1.
    destruct (alignPos_spec 8 s ltac:(unfold alignment; tauto) Hs) as (a & -> & Ha & Hm).
    cbv beta iota delta [bind get take_bytes alloc ret].
    change (rpos (set_pos a s)) with a.
    change (buffer_length (set_pos a s)) with (buffer_length s).
    destruct (Z.ltb_spec (Z.max 0 ((buffer_length s - a) / 8)) len) as [Hlt|Hge]; [exact I|].
    destruct Hs as (Hp & Hal & Hl & Hb).
    assert (Hend : a + 8 * len <= buffer_length s
                   \/ (len = 0 /\ a <= buffer_length s + 7)).
    { destruct (Z_lt_le_dec (buffer_length s - a) 0) as [Hneg|Hpos].
      - right. assert (Hq : (buffer_length s - a) / 8 < 0) by (apply Z.div_lt_upper_bound; lia).
        split; [lia|].
        destruct (Z_lt_le_dec (buffer_length s) (rpos s)) as [Hout|Hin]; [|lia].
        specialize (Hal Hout).
        pose proof (Z.div_mod a 8 ltac:(lia)). pose proof (Z.div_mod (rpos s) 8 ltac:(lia)). lia.
      - left. pose proof (Z.mul_div_le (buffer_length s - a) 8 ltac:(lia)). lia. }
    assert (Hmod : (a + 8 * len) mod 8 = 0).
    { rewrite Z.mul_comm, Z_mod_plus_full. exact Hm. }
    split; [|split; [|exact I]].
    + unfold inv, buffer_length in *. simpl. split; [lia|]. split; [intros _; exact Hmod|].
      split; assumption.
    + split; [reflexivity|]. simpl. lia.
  - assert (Hal : alignment (if BYTES_PER_ELEMENT type =? 0 then 1 else BYTES_PER_ELEMENT type)).
    { destruct (Z.eqb_spec (BYTES_PER_ELEMENT type) 0) as [E|E]; [left; reflexivity|].
      destruct (bytes_per_element_cases type); [contradiction|assumption]. }
    apply t_align_ensure_take; [exact Hal| |discriminate|intros bs; t_auto k].
    destruct Hal as [E1|[E1|[E1|E1]]]; rewrite E1; lia.
Qed.

(** *** The readers that call [readValue] back *)

Section Bodies.
Context (H : Heap.Host) (opts : options) (k : nat) (rv : R Heap.value).
Hypothesis Hrv : triple k true rv any.
Hypothesis Hsf : serializeFunctions opts = false.

(** The head of a loop body: the read that moves the cursor. *)
Ltac t_head :=
  cbv beta zeta;
  lazymatch goal with
  | |- triple _ true (bind readVarint _) _ =>
      eapply t_bind_strict; [apply p_readVarint|intros ? ?]
  | |- triple _ true (bind _ _) _ =>
      eapply t_bind_strict; [exact Hrv|intros ? ?]
  end.

Ltac r_step :=
  cbv beta zeta;
  lazymatch goal with
  | |- triple _ false rv _ => apply t_weaken; exact Hrv
  | |- triple _ _ (for_count _ _ _ _) _ => apply t_for; intros ?; t_head
  | |- triple _ _ (ret _) _ => apply t_ret; exact I
  | |- triple _ _ (throw _) _ => apply t_throw
  | |- triple _ _ (bind get _) _ => apply t_get; intros ?
  | |- triple _ _ (bind rv _) _ => eapply t_bind; [apply t_weaken; exact Hrv|intros ? ?]
  | |- triple _ _ (bind _ _) _ =>
      first [ eapply t_bind; [t_prim k|intros ? ?]
            | eapply (t_bind _ _ _ any); [|intros ? ?] ]
  | |- triple _ _ (if ?c then _ else _) _ => destruct c
  | |- triple _ _ (match ?c with _ => _ end) _ => destruct c
  | |- triple _ _ _ _ => t_prim k
  end.

Ltac r_auto := repeat r_step.

Lemma l_fillArray (array : Heap.loc) (type : Z) : triple k false (fillArray rv k array type) any.
Proof.
  unfold fillArray.
  destruct (type =? TYPE.ARRAY_EMPTY); [r_auto|].
  destruct (type =? TYPE.ARRAY_DENSE); [r_auto|].
  destruct (type =? TYPE.ARRAY_SPARSE); [r_auto|].
  destruct (_ || _); [|r_auto].
  eapply (t_bind _ _ _ any); [apply l_readPackedArrayData|]. intros packed _. r_auto.
Qed.

Lemma l_fillSimpleObject (obj : Heap.loc) : triple k false (fillSimpleObject H rv k obj) any.
Proof. unfold fillSimpleObject. r_auto. Qed.

Lemma l_fillObjectWithDescriptors (obj : Heap.loc) :
  triple k false (fillObjectWithDescriptors H rv k obj) any.
Proof. unfold fillObjectWithDescriptors. r_auto. Qed.

Lemma l_fillObjectWithMethods (obj : Heap.loc) :
  triple k false (fillObjectWithMethods H opts rv k obj) any.
Proof. unfold fillObjectWithMethods. rewrite Hsf. r_auto. Qed.

Lemma l_fillConstructorObject (obj : Heap.loc) :
  triple k false (fillConstructorObject H rv k obj) any.
Proof. unfold fillConstructorObject. r_auto. Qed.

Lemma l_fillObject (obj : Heap.loc) (type : Z) :
  triple k false (fillObject H opts rv k obj type) any.
Proof.
  unfold fillObject.
  repeat match goal with |- triple _ _ (if ?c then _ else _) _ => destruct c end;
    first [ apply l_fillSimpleObject | apply l_fillObjectWithDescriptors
          | apply l_fillObjectWithMethods | apply l_fillConstructorObject
          | apply t_ret; exact I ].
Qed.

Lemma l_fillCollection (collection : option Heap.loc) (type : Z) :
  triple k false (fillCollection rv k collection type) any.
Proof. unfold fillCollection. r_auto. Qed.

Lemma l_readError (type : Z) : triple k false (readError H rv k type) any.
Proof. unfold readError. r_auto. Qed.

Lemma l_readRegExp : triple k false (readRegExp H rv) any.
Proof. unfold readRegExp. r_auto. Qed.

Lemma l_readSpecial (type : Z) : triple k false (readSpecial H rv type) any.
Proof. unfold readSpecial. r_auto. Qed.

(** The tag: [readValue] checks that a byte is left, reads it, and
    what follows runs with one byte less. *)
Lemma t_tag {A} (f : Z -> R A) :
  (forall type, triple k false (f type) any) ->
  triple (S k) true
    (bind get (fun s => if buffer_length s <=? rpos s then throw UnexpectedEnd
                        else bind readU8 f)) any.
Proof.
  intros Hf s Hs. cbv beta iota delta [bind get readU8 ensureBytes throw].
  destruct (Z.leb_spec (buffer_length s) (rpos s)) as [Hend|Hin]; [exact I|].
  destruct (Z.ltb_spec (buffer_length s) (rpos s + 1)) as [Hlt|Hge]; [exact I|].
  assert (Hi : inv (set_pos (rpos s + 1) s)).
  { apply inv_set_pos; [exact Hs|]. destruct Hs as ((Hp & _) & _). lia. }
  specialize (Hf (byte s (rpos s)) _ Hi).
  destruct (f _ _) as [[a s2]| |]; [|exact I|].
  - destruct Hf as (Hi2 & [Eb Hst] & _). split; [exact Hi2|]. split; [|exact I].
    split; [exact Eb|]. simpl in Hst. lia.
  - unfold left, buffer_length in *. simpl in Hf. lia.
Qed.

Lemma l_readValue_body : triple (S k) true (readValue_body H opts rv k) any.
Proof.
  unfold readValue_body. apply t_tag. intros type.
  destruct (_ || _); [r_auto|].
  destruct (type =? TYPE.STRING_REF); [r_auto|].
  destruct (type =? TYPE.BUFFER_REF); [r_auto|].
  cbv zeta.
  destruct (_ =? TYPE_GROUP.ARRAY).
  { eapply t_bind; [t_prim k|intros l _]. eapply t_bind; [t_prim k|intros _ _].
    eapply (t_bind _ _ _ any); [apply l_fillArray|intros _ _]. r_auto. }
  destruct (_ =? TYPE_GROUP.OBJECT).
  { eapply t_bind; [t_prim k|intros l _]. eapply t_bind; [t_prim k|intros _ _].
    eapply (t_bind _ _ _ any); [apply l_fillObject|intros _ _]. r_auto. }
  destruct (_ =? TYPE_GROUP.COLLECTION).
  { destruct (type =? TYPE.MAP); [|destruct (type =? TYPE.SET)].
    - eapply t_bind; [t_prim k|intros l _]. eapply t_bind; [t_prim k|intros _ _].
      eapply (t_bind _ _ _ any); [apply l_fillCollection|intros _ _]. r_auto.
    - eapply t_bind; [t_prim k|intros l _]. eapply t_bind; [t_prim k|intros _ _].
      eapply (t_bind _ _ _ any); [apply l_fillCollection|intros _ _]. r_auto.
    - eapply (t_bind _ _ _ any); [apply l_fillCollection|intros _ _]. r_auto. }
  eapply (t_bind _ _ _ any); [|intros value _; r_auto].
  repeat match goal with |- triple _ _ (if ?c then _ else _) _ => destruct c end;
    first [ apply l_readPrimitive | apply l_readNumber | apply l_readBigInt
          | apply l_readString | apply l_readTypedArray | apply l_readArrayBuffer
          | apply l_readDate | apply l_readError | apply l_readRegExp
          | apply l_readBinary | apply l_readSpecial | apply l_readExtension
          | apply t_throw ].
Qed.

End Bodies.

(** With function reconstruction off, [readValue] with [n] units of
    fuel runs out of fuel only where at least [n] bytes are left; and a
    call that returns has read at least its tag. *)
Lemma readValue_progress (H : Heap.Host) (opts : options) :
  serializeFunctions opts = false ->
  forall n, triple n true (readValue H opts n) any.
Proof.
  intros Hsf. induction n as [|n IH].
  - intros s Hs. cbn [readValue]. lia.
  - cbn [readValue]. apply l_readValue_body; assumption.
Qed.

Lemma deserialize_fuel (H : Heap.Host) (opts : options) (fuel : nat)
    (h0 : Heap.heap) (input : list Z) :
  serializeFunctions opts = false ->
  Forall is_byte input ->
  Z.of_nat (length input) < 2 ^ 30 ->
  (length input < fuel)%nat ->
  deserialize H opts fuel h0 input <> OutOfFuel.
Proof.
  intros Hsf Hbytes Hlen Hfuel. unfold deserialize. cbv zeta.
  assert (Hrun : triple fuel false
            (bind readU32 (fun magic =>
               if negb (magic =? 1413632565) then throw InvalidData
               else bind readU8 (fun version =>
                      if negb (version =? 5) then throw (UnsupportedVersion version)
                      else readValue H opts fuel))) any).
  { eapply t_bind; [apply t_weaken; apply p_readU32|]. intros magic _.
    destruct (negb _); [apply t_throw|].
    eapply t_bind; [apply t_weaken; apply p_readU8|]. intros version _.
    destruct (negb _); [apply t_throw|].
    apply t_weaken. apply readValue_progress. exact Hsf. }
  assert (Hi : inv (mkR input 0 [] [] [] h0 0)).
  { unfold inv, buffer_length. simpl. split; [lia|]. split; [lia|]. split; assumption. }
  specialize (Hrun _ Hi).
  destruct (bind readU32 _ _) as [[v s]| |]; [discriminate|discriminate|].
  unfold left, buffer_length in Hrun. simpl in Hrun. lia.
Qed.

(** *** More fuel, same result *)

(** [c'] does what [c] does wherever [c] does not run out of fuel. *)
Definition sub {A} (c c' : R A) : Prop :=
  forall s, c s <> OutOfFuel -> c' s = c s.

Lemma sub_refl {A} (c : R A) : sub c c.
Proof. intros s _. reflexivity. Qed.

Lemma sub_trans {A} (c1 c2 c3 : R A) : sub c1 c2 -> sub c2 c3 -> sub c1 c3.
Proof.
  intros H12 H23 s Hne. rewrite <- (H12 s Hne). apply H23. rewrite (H12 s Hne). exact Hne.
Qed.

Lemma sub_bind {A B} (c c' : R A) (f f' : A -> R B) :
  sub c c' -> (forall a, sub (f a) (f' a)) -> sub (bind c f) (bind c' f').
Proof.
  intros Hc Hf s Hne. unfold bind in *.
  destruct (c s) as [[a s1]|e|] eqn:E.
  - rewrite (Hc s) by (rewrite E; discriminate). rewrite E. apply Hf. exact Hne.
  - rewrite (Hc s) by (rewrite E; discriminate). rewrite E. reflexivity.
  - contradiction.
Qed.

Lemma sub_for (body body' : Z -> R unit) (count : Z) :
  (forall i, sub (body i) (body' i)) ->
  forall n n' i, (n <= n')%nat -> sub (for_count n body i count) (for_count n' body' i count).
Proof.
  intros Hbody. induction n as [|n IH]; intros n' i Hn s Hne.
  - cbn [for_count] in Hne |- *. destruct n'; cbn [for_count];
      destruct (count <=? i); first [reflexivity|contradiction].
  - destruct n' as [|n']; [lia|]. cbn [for_count] in Hne |- *.
    destruct (count <=? i); [reflexivity|].
    revert s Hne. apply sub_bind; [apply Hbody|]. intros _. apply IH. lia.
Qed.

Section FuelBodies.
Context (H : Heap.Host) (opts : options) (k k' : nat) (rv rv' : R Heap.value).
Hypothesis Hrv : sub rv rv'.
Hypothesis Hk : (k <= k')%nat.
Hypothesis Hsf : serializeFunctions opts = false.

Ltac s_step :=
  cbv beta zeta;
  lazymatch goal with
  | |- sub rv rv' => exact Hrv
  | |- sub (for_count _ _ _ _) (for_count _ _ _ _) => apply sub_for; [intros ?|exact Hk]
  | |- sub (bind _ _) (bind _ _) => apply sub_bind; [|intros ?]
  | |- sub (if ?c then _ else _) (if ?c then _ else _) => destruct c
  | |- sub (match ?c with _ => _ end) (match ?c with _ => _ end) => destruct c
  | |- sub _ _ => apply sub_refl
  end.

Ltac s_auto := repeat s_step.

Lemma s_fillArray (array : Heap.loc) (type : Z) :
  sub (fillArray rv k array type) (fillArray rv' k' array type).
Proof. unfold fillArray. s_auto. Qed.

Lemma s_fillSimpleObject (obj : Heap.loc) :
  sub (fillSimpleObject H rv k obj) (fillSimpleObject H rv' k' obj).
Proof. unfold fillSimpleObject. s_auto. Qed.

Lemma s_fillObjectWithDescriptors (obj : Heap.loc) :
  sub (fillObjectWithDescriptors H rv k obj) (fillObjectWithDescriptors H rv' k' obj).
Proof. unfold fillObjectWithDescriptors. s_auto. Qed.

Lemma s_fillObjectWithMethods (obj : Heap.loc) :
  sub (fillObjectWithMethods H opts rv k obj) (fillObjectWithMethods H opts rv' k' obj).
Proof. unfold fillObjectWithMethods. rewrite Hsf. s_auto. Qed.

Lemma s_fillConstructorObject (obj : Heap.loc) :
  sub (fillConstructorObject H rv k obj) (fillConstructorObject H rv' k' obj).
Proof. unfold fillConstructorObject. s_auto. Qed.

Lemma s_fillObject (obj : Heap.loc) (type : Z) :
  sub (fillObject H opts rv k obj type) (fillObject H opts rv' k' obj type).
Proof.
  unfold fillObject.
  repeat match goal with |- sub (if ?c then _ else _) _ => destruct c end;
    first [ apply s_fillSimpleObject | apply s_fillObjectWithDescriptors
          | apply s_fillObjectWithMethods | apply s_fillConstructorObject
          | apply sub_refl ].
Qed.

Lemma s_fillCollection (collection : option Heap.loc) (type : Z) :
  sub (fillCollection rv k collection type) (fillCollection rv' k' collection type).
Proof. unfold fillCollection. s_auto. Qed.

Lemma s_readError (type : Z) : sub (readError H rv k type) (readError H rv' k' type).
Proof. unfold readError. s_auto. Qed.

Lemma s_readRegExp : sub (readRegExp H rv) (readRegExp H rv').
Proof. unfold readRegExp. s_auto. Qed.

Lemma s_readSpecial (type : Z) : sub (readSpecial H rv type) (readSpecial H rv' type).
Proof. unfold readSpecial. s_auto. Qed.

Lemma s_readValue_body : sub (readValue_body H opts rv k) (readValue_body H opts rv' k').
Proof.
  unfold readValue_body.
  apply sub_bind; [apply sub_refl|]. intros s0.
  destruct (_ <=? _); [apply sub_refl|].
  apply sub_bind; [apply sub_refl|]. intros type.
  destruct (_ || _); [apply sub_refl|].
  destruct (type =? TYPE.STRING_REF); [apply sub_refl|].
  destruct (type =? TYPE.BUFFER_REF); [apply sub_refl|].
  cbv zeta.
  destruct (_ =? TYPE_GROUP.ARRAY).
  { repeat (apply sub_bind; [first [apply s_fillArray|apply sub_refl]|intros ?]).
    apply sub_refl. }
  destruct (_ =? TYPE_GROUP.OBJECT).
  { repeat (apply sub_bind; [first [apply s_fillObject|apply sub_refl]|intros ?]).
    apply sub_refl. }
  destruct (_ =? TYPE_GROUP.COLLECTION).
  { destruct (type =? TYPE.MAP); [|destruct (type =? TYPE.SET)];
      repeat (apply sub_bind; [first [apply s_fillCollection|apply sub_refl]|intros ?]);
      apply sub_refl. }
  apply sub_bind; [|intros value; apply sub_refl].
  repeat match goal with |- sub (if ?c then _ else _) _ => destruct c end;
    first [ apply s_readError | apply s_readRegExp | apply s_readSpecial | apply sub_refl ].
Qed.

End FuelBodies.

Lemma readValue_more_fuel (H : Heap.Host) (opts : options) :
  serializeFunctions opts = false ->
  forall n m, (n <= m)%nat -> sub (readValue H opts n) (readValue H opts m).
Proof.
  intros Hsf. induction n as [|n IH]; intros m Hm.
  - intros s Hne. cbn [readValue] in Hne. contradiction.
  - destruct m as [|m]; [lia|]. cbn [readValue].
    apply s_readValue_body; [apply IH; lia|lia|exact Hsf].
Qed.

Lemma deserialize_more_fuel (H : Heap.Host) (opts : options) (n m : nat)
    (h0 : Heap.heap) (input : list Z) :
  serializeFunctions opts = false -> (n <= m)%nat ->
  deserialize H opts n h0 input <> OutOfFuel ->
  deserialize H opts m h0 input = deserialize H opts n h0 input.
Proof.
  intros Hsf Hnm Hne. unfold deserialize in *. cbv zeta in *.
  assert (Hsub : sub
            (bind readU32 (fun magic =>
               if negb (magic =? 1413632565) then throw InvalidData
               else bind readU8 (fun version =>
                      if negb (version =? 5) then throw (UnsupportedVersion version)
                      else readValue H opts n)))
            (bind readU32 (fun magic =>
               if negb (magic =? 1413632565) then throw InvalidData
               else bind readU8 (fun version =>
                      if negb (version =? 5) then throw (UnsupportedVersion version)
                      else readValue H opts m)))).
  { apply sub_bind; [apply sub_refl|]. intros magic.
    destruct (negb _); [apply sub_refl|].
    apply sub_bind; [apply sub_refl|]. intros version.
    destruct (negb _); [apply sub_refl|].
    apply readValue_more_fuel; assumption. }
  rewrite (Hsub (mkR input 0 [] [] [] h0 0)); [reflexivity|].
  intros E. apply Hne. rewrite E. reflexivity.
Qed.

End ReaderFacts.

(** ** What the pool holds after a sequence of writes *)

(** The pool [p] holds exactly the bytes [l] below its cursor. *)
Definition blob (p : UltraMemoryPool.pool) (l : list Z) : Prop :=
  PoolFacts.ok p
  /\ UltraMemoryPool.pos p = Z.of_nat (length l)
  /\ UltraMemoryPool.pos p <= UltraMemoryPool.size p
  /\ forall i b, l !! i = Some b ->
                 UltraMemoryPool.byte_at (UltraMemoryPool.u8 p) (Z.of_nat i) = b.

Definition byte_of (v : Z) : Z := v mod 256.

Lemma blob_getResult (p : UltraMemoryPool.pool) (l : list Z) :
  blob p l -> UltraMemoryPool.getResult p = l.
Proof. intros (_ & Hp & Hs & Hb). apply getResult_is; assumption. Qed.

(** Appending: [p'] keeps [p] and holds [bs] from the old cursor on. *)
Lemma blob_app (p p' : UltraMemoryPool.pool) (l bs : list Z) :
  blob p l -> PoolFacts.ok p' ->
  (forall i, 0 <= i < UltraMemoryPool.pos p ->
             UltraMemoryPool.byte_at (UltraMemoryPool.u8 p') i
             = UltraMemoryPool.byte_at (UltraMemoryPool.u8 p) i) ->
  UltraMemoryPool.pos p' = UltraMemoryPool.pos p + Z.of_nat (length bs) ->
  UltraMemoryPool.pos p' <= UltraMemoryPool.size p' ->
  (forall i b, bs !! i = Some b ->
               UltraMemoryPool.byte_at (UltraMemoryPool.u8 p') (UltraMemoryPool.pos p + Z.of_nat i) = b) ->
  blob p' (l ++ bs).
Proof.
  intros (Hok & Hp & Hs & Hb) Hok' Hk Hp' Hs' Hb'.
  split; [exact Hok'|]. split; [rewrite length_app; lia|]. split; [exact Hs'|].
  intros i b Hi. destruct (lookup_app_Some l bs i b) as [Hcases _].
  destruct (Hcases Hi) as [Hl|[Hge Hr]].
  - pose proof (lookup_lt_Some _ _ _ Hl). rewrite Hk by lia. apply Hb. exact Hl.
  - specialize (Hb' _ _ Hr). rewrite Hp in Hb'.
    replace (Z.of_nat i) with (Z.of_nat (length l) + Z.of_nat (i - length l)) by lia.
    exact Hb'.
Qed.

Lemma band_FF_mod (v : Z) : JS.band v 0xFF = v mod 256.
Proof.
  unfold JS.band. rewrite (to_int32_small 255) by lia.
  change 255 with (Z.ones 8). rewrite Z.land_ones by lia.
  unfold JS.to_int32. change (2 ^ 8) with 256.
  pose proof (Z.div_mod (v + 2147483648) 4294967296 ltac:(lia)) as Hd.
  replace ((v + 2147483648) mod 4294967296 - 2147483648)
    with (v + (- 16777216 * ((v + 2147483648) / 4294967296)) * 256) by lia.
  apply Z_mod_plus_full.
Qed.

Lemma blob_writeU8 (v : Z) (p : UltraMemoryPool.pool) (l : list Z) :
  blob p l -> Z.of_nat (length l) + 512 < 2147483648 ->
  blob (UltraMemoryPool.writeU8 v p) (l ++ [byte_of v]).
Proof.
  intros Hbl Hroom. pose proof Hbl as (Hok & Hp & Hs & Hb).
  destruct (pool_writeU8 v p Hok ltac:(lia)) as (Hp1 & (_ & Hs1 & Hh1) & Hk1 & Hok1).
  cbv zeta in Hp1, Hs1, Hh1, Hk1, Hok1.
  apply (blob_app p _ l [byte_of v] Hbl Hok1 Hk1).
  - cbn [length]. lia.
  - cbn [length] in Hs1. lia.
  - intros i b Hi. destruct i as [|i]; [|discriminate Hi]. inversion Hi; subst b.
    rewrite (Hh1 0%nat _ eq_refl). rewrite band_FF_mod. unfold byte_of.
    apply Z.mod_mod. lia.
Qed.

Lemma varint_groups_bytes (u : Z) (i : nat) (b : Z) :
  0 <= u -> varint_groups u !! i = Some b -> 0 <= b < 256.
Proof. intros Hu Hi. exact (leb128_bytes 5 u i b Hu Hi). Qed.

Lemma blob_writeVarint (u : Z) (p : UltraMemoryPool.pool) (l : list Z) :
  blob p l -> Z.of_nat (length l) + 512 < 2147483648 ->
  0 <= u <= 4294967295 ->
  blob (UltraMemoryPool.writeVarint u p) (l ++ varint_groups u).
Proof.
  intros Hbl Hroom Hu. pose proof Hbl as (Hok & Hp & Hs & Hb).
  destruct (pool_writeVarint u p Hok ltac:(lia) Hu)
    as (_ & _ & _ & _ & Hp1 & (_ & Hs1 & Hh1) & Hk1 & Hok1).
  cbv zeta in Hp1, Hs1, Hh1, Hk1, Hok1.
  apply (blob_app p _ l (varint_groups u) Hbl Hok1 Hk1 Hp1).
  - lia.
  - intros i b Hi. rewrite (Hh1 i b Hi). apply Z.mod_small.
    apply (varint_groups_bytes u i b); [lia|exact Hi].
Qed.

(** An aligned typed write: padding up to the next multiple of [2^j],
    whose bytes are what the pool held there, then the bytes. *)
Lemma blob_put_aligned (j : Z) (bs : list Z) (p : UltraMemoryPool.pool) (l : list Z) :
  0 <= j <= 3 -> blob p l ->
  Z.of_nat (length l) + Z.of_nat (length bs) + 512 < 2147483648 ->
  exists pad,
    blob (UltraMemoryPool.put bs
            (UltraMemoryPool.ensure (Z.of_nat (length bs)) (UltraMemoryPool.alignPos (2 ^ j) p)))
         (l ++ pad ++ map byte_of bs)
    /\ (Z.of_nat (length l) + Z.of_nat (length pad)) mod 2 ^ j = 0
    /\ Z.of_nat (length pad) < 2 ^ j
    /\ forall i b, pad !! i = Some b ->
         b = UltraMemoryPool.byte_at (UltraMemoryPool.u8 p) (Z.of_nat (length l) + Z.of_nat i).
Proof.
  intros Hj Hbl Hroom. pose proof Hbl as ((Hpos & Hsize) & Hp & Hs & Hb).
  assert (H2 : 1 <= 2 ^ j <= 8).
  { split; [pose proof (Z.pow_pos_nonneg 2 j); lia|].
    change 8 with (2 ^ 3). apply Z.pow_le_mono_r; lia. }
  destruct (pool_alignPos j p Hj ltac:(lia)) as (Ha & Hsa & Hua).
  destruct (align_bounds (UltraMemoryPool.pos p) j ltac:(lia) Hpos) as [Hmod Hrange].
  set (p1 := UltraMemoryPool.alignPos (2 ^ j) p) in *.
  set (o := (UltraMemoryPool.pos p + 2 ^ j - 1) / 2 ^ j * 2 ^ j) in *.
  assert (Hok1 : PoolFacts.ok p1) by (split; lia).
  destruct (pool_ensure (Z.of_nat (length bs)) p1 Hok1 ltac:(lia) ltac:(lia))
    as (He & Hcap & Hok2 & Hk2).
  set (p2 := UltraMemoryPool.ensure (Z.of_nat (length bs)) p1) in *.
  destruct (pool_put bs p2 Hok2 ltac:(lia) ltac:(lia)) as (Hp3 & Hok3 & Hk3 & (_ & Hs3 & Hh3)).
  set (p3 := UltraMemoryPool.put bs p2) in *.
  assert (Hbelow : forall i, 0 <= i < o ->
             UltraMemoryPool.byte_at (UltraMemoryPool.u8 p3) i
             = UltraMemoryPool.byte_at (UltraMemoryPool.u8 p) i).
  { intros i Hi. rewrite Hk3 by lia. rewrite Hk2 by lia. rewrite Hua. reflexivity. }
  set (pad := map (UltraMemoryPool.byte_at (UltraMemoryPool.u8 p))
                  (seqZ (UltraMemoryPool.pos p) (o - UltraMemoryPool.pos p))).
  assert (Hlpad : Z.of_nat (length pad) = o - UltraMemoryPool.pos p).
  { unfold pad. rewrite length_map, length_seqZ. lia. }
  exists pad. split; [|split; [|split]].
  - apply (blob_app p p3 l (pad ++ map byte_of bs) Hbl Hok3).
    + intros i Hi. apply Hbelow. lia.
    + rewrite length_app, length_map. lia.
    + lia.
    + intros i b Hi. destruct (lookup_app_Some pad (map byte_of bs) i b) as [Hcases _].
      destruct (Hcases Hi) as [Hl|[Hge Hr]].
      * pose proof (lookup_lt_Some _ _ _ Hl) as Hlt.
        rewrite Hbelow by lia. unfold pad in Hl.
        rewrite list_lookup_fmap in Hl.
        destruct (seqZ (UltraMemoryPool.pos p) (o - UltraMemoryPool.pos p) !! i) as [z|] eqn:Ez;
          [|discriminate Hl].
        apply lookup_seqZ in Ez. destruct Ez as [-> _]. inversion Hl. reflexivity.
      * rewrite list_lookup_fmap in Hr.
        destruct (bs !! (i - length pad)%nat) as [x|] eqn:Ex; [|discriminate Hr].
        inversion Hr; subst b. specialize (Hh3 _ _ Ex).
        replace (UltraMemoryPool.pos p + Z.of_nat i)
          with (UltraMemoryPool.pos p2 + Z.of_nat (i - length pad)) by lia.
        exact Hh3.
  - rewrite <- Hp, Hlpad. replace (UltraMemoryPool.pos p + (o - UltraMemoryPool.pos p)) with o by lia.
    exact Hmod.
  - lia.
  - intros i b Hi. unfold pad in Hi. rewrite list_lookup_fmap in Hi.
    destruct (seqZ (UltraMemoryPool.pos p) (o - UltraMemoryPool.pos p) !! i) as [z|] eqn:Ez;
      [|discriminate Hi].
    apply lookup_seqZ in Ez. destruct Ez as [-> _]. inversion Hi. rewrite Hp. reflexivity.
Qed.

Lemma blob_header (p : UltraMemoryPool.pool) :
  PoolFacts.ok p -> blob (header_pool p) [0x35; 0x52; 0x42; 0x54; 0x05].
Proof.
  intros Hok. destruct (header_pool_spec p Hok) as (Hp & Hokq & (_ & Hs & Hb)).
  cbv zeta in Hp, Hokq, Hs, Hb. cbn [length] in Hs.
  split; [exact Hokq|]. split; [exact Hp|]. split; [lia|].
  intros i b Hi. specialize (Hb i b Hi). rewrite Z.add_0_l in Hb. rewrite Hb.
  destruct i as [|[|[|[|[|i]]]]]; simpl in Hi; inversion Hi; subst; reflexivity.
Qed.

(** [ensure] on a pool that has the room. *)
Lemma ensure_fits (n : Z) (p : UltraMemoryPool.pool) :
  PoolFacts.ok p -> 0 <= n ->
  UltraMemoryPool.pos p + n <= UltraMemoryPool.size p ->
  UltraMemoryPool.pos p + n < 2147483648 ->
  UltraMemoryPool.ensure n p = p.
Proof.
  intros [Hp Hs] Hn Hfit Hsmall. unfold UltraMemoryPool.ensure. cbv zeta.
  rewrite (to_int32_small n) by lia. rewrite to_int32_small by lia.
  destruct (Z.ltb_spec (UltraMemoryPool.size p) (UltraMemoryPool.pos p + n)); [lia|reflexivity].
Qed.

(** The bytes of the pool that the header and the tag do not reach, on
    a pool that does not have to grow. *)
Lemma tag_pool_beyond (p : UltraMemoryPool.pool) (t : Z) (j : Z) :
  PoolFacts.ok p -> 6 <= UltraMemoryPool.size p -> 6 <= j ->
  UltraMemoryPool.byte_at (UltraMemoryPool.u8 (UltraMemoryPool.writeU8 t (header_pool p))) j
  = UltraMemoryPool.byte_at (UltraMemoryPool.u8 p) j.
Proof.
  intros [Hp Hs] Hsize Hj. unfold header_pool.
  set (p0 := UltraMemoryPool.reset p).
  assert (Hok0 : PoolFacts.ok p0) by (split; simpl; lia).
  assert (E1 : UltraMemoryPool.writeU32 0x54425235 p0
               = UltraMemoryPool.put (JS.le_bytes 4 (JS.to_uint32 0x54425235)) p0).
  { unfold UltraMemoryPool.writeU32.
    assert (Ea : UltraMemoryPool.alignPos 4 p0 = p0) by reflexivity.
    rewrite Ea. rewrite ensure_fits; [reflexivity|exact Hok0|lia|simpl; lia|simpl; lia]. }
  rewrite E1.
  set (p1 := UltraMemoryPool.put _ p0).
  assert (Hp1 : UltraMemoryPool.pos p1 = 4 /\ UltraMemoryPool.size p1 = UltraMemoryPool.size p)
    by (split; reflexivity).
  assert (Hok1 : PoolFacts.ok p1) by (destruct Hp1 as [E2 E3]; split; rewrite ?E2, ?E3; lia).
  assert (Hb1 : UltraMemoryPool.byte_at (UltraMemoryPool.u8 p1) j
                = UltraMemoryPool.byte_at (UltraMemoryPool.u8 p) j).
  { unfold p1, UltraMemoryPool.put. cbn [UltraMemoryPool.u8].
    rewrite byte_at_store_bytes by (simpl; lia).
    change (UltraMemoryPool.pos p0) with 0.
    destruct (Z.leb_spec 0 j); [|lia].
    rewrite (proj2 (lookup_ge_None _ _)); [reflexivity|]. simpl. lia. }
  assert (Hw : forall v q, PoolFacts.ok q -> UltraMemoryPool.pos q + 1 <= UltraMemoryPool.size q ->
                 UltraMemoryPool.pos q < 6 -> UltraMemoryPool.pos q < j ->
                 UltraMemoryPool.byte_at (UltraMemoryPool.u8 (UltraMemoryPool.writeU8 v q)) j
                 = UltraMemoryPool.byte_at (UltraMemoryPool.u8 q) j
                 /\ UltraMemoryPool.pos (UltraMemoryPool.writeU8 v q) = UltraMemoryPool.pos q + 1
                 /\ UltraMemoryPool.size (UltraMemoryPool.writeU8 v q) = UltraMemoryPool.size q).
  { intros v q Hokq Hfit Hsix Hlt. unfold UltraMemoryPool.writeU8. cbv zeta.
    rewrite ensure_fits by (first [exact Hokq|lia]).
    cbn [UltraMemoryPool.u8 UltraMemoryPool.pos UltraMemoryPool.size].
    rewrite byte_at_store.
    destruct (Z.eqb_spec (UltraMemoryPool.pos q) j); [lia|].
    rewrite andb_false_r. repeat split. }
  destruct Hp1 as [E2 E3].
  destruct (Hw 5 p1 Hok1 ltac:(lia) ltac:(lia) ltac:(lia)) as (Hb2 & Hp2 & Hs2).
  set (p2 := UltraMemoryPool.writeU8 5 p1) in *.
  assert (Hok2 : PoolFacts.ok p2) by (split; lia).
  destruct (Hw t p2 Hok2 ltac:(lia) ltac:(lia) ltac:(lia)) as (Hb3 & _ & _).
  rewrite Hb3, Hb2, Hb1. reflexivity.
Qed.

(** ** Reading back what the pool wrote *)

Lemma set_pos_set_pos (a b : Z) (s : TurboSerial.rstate) :
  TurboSerial.set_pos b (TurboSerial.set_pos a s) = TurboSerial.set_pos b s.
Proof. reflexivity. Qed.

Lemma rd_readU8 (s : TurboSerial.rstate) (b : Z) :
  0 <= TurboSerial.rpos s ->
  TurboSerial.buffer s !! Z.to_nat (TurboSerial.rpos s) = Some b ->
  TurboSerial.readU8 s = Done (b, TurboSerial.set_pos (TurboSerial.rpos s + 1) s).
Proof.
  intros Hp Hb. pose proof (lookup_lt_Some _ _ _ Hb) as Hlt.
  unfold TurboSerial.readU8, bind, TurboSerial.ensureBytes, TurboSerial.buffer_length.
  destruct (Z.ltb_spec (Z.of_nat (length (TurboSerial.buffer s))) (TurboSerial.rpos s + 1));
    [lia|].
  unfold TurboSerial.byte. destruct (Z.ltb_spec (TurboSerial.rpos s) 0); [lia|].
  rewrite Hb. reflexivity.
Qed.

(** The unsigned view of the 32-bit operators. *)
Lemma to_uint32_to_int32 (z : Z) : JS.to_uint32 (JS.to_int32 z) = JS.to_uint32 z.
Proof.
  unfold JS.to_uint32, JS.to_int32.
  pose proof (Z.div_mod (z + 2147483648) 4294967296 ltac:(lia)) as Hd.
  replace ((z + 2147483648) mod 4294967296 - 2147483648)
    with (z + (- ((z + 2147483648) / 4294967296)) * 4294967296) by lia.
  apply Z_mod_plus_full.
Qed.

Lemma to_uint32_lor (a b : Z) :
  JS.to_uint32 (Z.lor a b) = Z.lor (JS.to_uint32 a) (JS.to_uint32 b).
Proof.
  unfold JS.to_uint32. change 4294967296 with (2 ^ 32).
  rewrite <- !Z.land_ones by lia. apply Z.land_lor_distr_l.
Qed.

Lemma to_uint32_bor (a b : Z) :
  JS.to_uint32 (JS.bor a b) = Z.lor (JS.to_uint32 a) (JS.to_uint32 b).
Proof. unfold JS.bor. rewrite to_uint32_lor, !to_uint32_to_int32. reflexivity. Qed.

Lemma lor_disjoint (a g sh : Z) :
  0 <= sh -> 0 <= a < 2 ^ sh -> 0 <= g -> Z.lor a (g * 2 ^ sh) = a + g * 2 ^ sh.
Proof.
  intros Hsh Ha Hg.
  assert (Hland : Z.land a (g * 2 ^ sh) = 0).
  { apply Z.bits_inj'. intros n Hn. rewrite Z.land_spec, Z.bits_0.
    destruct (Z_lt_le_dec n sh) as [Hlt|Hge].
    - rewrite Z.mul_pow2_bits_low by lia. apply andb_false_r.
    - destruct (Z.eq_dec a 0) as [->|Hne]; [rewrite Z.bits_0; reflexivity|].
      rewrite (Z.bits_above_log2 a n); [reflexivity|lia|].
      apply Z.lt_le_trans with sh; [|exact Hge]. apply Z.log2_lt_pow2; lia. }
  rewrite <- Z.lxor_lor by exact Hland. symmetry. apply Z.add_nocarry_lxor. exact Hland.
Qed.

Lemma byte_group (b : Z) :
  0 <= b < 256 ->
  JS.band b 0x7F = b mod 128
  /\ JS.band b 0x80 = (if b <? 128 then 0 else 128).
Proof.
  intros Hb.
  assert (Hall : forallb (fun b => (JS.band b 0x7F =? b mod 128)
                            && (JS.band b 0x80 =? (if b <? 128 then 0 else 128)))
                         (seqZ 0 256) = true) by (vm_compute; reflexivity).
  rewrite forallb_forall in Hall.
  specialize (Hall b ltac:(apply list_elem_of_In, elem_of_seqZ; lia)).
  apply andb_true_iff in Hall. destruct Hall as [H1 H2].
  split; apply Z.eqb_eq; assumption.
Qed.

(** One turn of the reader's varint loop adds its group above the bits
    it has. *)
Lemma varint_turn (acc g sh : Z) :
  0 <= sh <= 28 -> 0 <= JS.to_uint32 acc < 2 ^ sh -> 0 <= g < 128 ->
  g * 2 ^ sh < 4294967296 ->
  JS.to_uint32 (JS.bor acc (JS.shl g sh)) = JS.to_uint32 acc + g * 2 ^ sh.
Proof.
  intros Hsh Ha Hg Hfit.
  rewrite to_uint32_bor. unfold JS.shl. rewrite to_uint32_to_int32.
  rewrite (to_int32_small g) by lia. rewrite (Z.mod_small sh 32) by lia.
  rewrite Z.shiftl_mul_pow2 by lia.
  assert (H0 : 0 <= g * 2 ^ sh) by (pose proof (Z.pow_pos_nonneg 2 sh); nia).
  rewrite (to_uint32_small (g * 2 ^ sh)) by lia.
  apply lor_disjoint; lia.
Qed.

Lemma read_groups (k : nat) :
  forall (u acc sh n avail : Z) (rest : list Z),
    0 <= u < 128 ^ Z.of_nat (S k) ->
    0 <= sh -> sh + 7 * Z.of_nat (S k) <= 35 ->
    0 <= JS.to_uint32 acc < 2 ^ sh ->
    JS.to_uint32 acc + u * 2 ^ sh < 4294967296 ->
    TurboSerial.varint_loop (leb128 (S k) u ++ rest) avail acc sh n
    = Done (JS.to_uint32 acc + u * 2 ^ sh, n + Z.of_nat (length (leb128 (S k) u))).
Proof.
  induction k as [|k IH]; intros u acc sh n avail rest Hu Hsh Hlim Ha Hfit;
    rewrite leb128_S.
  - change (128 ^ Z.of_nat 1) with 128 in Hu.
    destruct (Z.ltb_spec u 128) as [Hlt|Hge]; [|lia].
    cbn [app TurboSerial.varint_loop length].
    destruct (byte_group u ltac:(lia)) as [E7 E8]. rewrite E7, E8.
    destruct (Z.ltb_spec u 128); [|lia]. cbn [Z.eqb negb].
    rewrite Z.mod_small by lia.
    assert (Hp : 0 < 2 ^ sh) by (apply Z.pow_pos_nonneg; lia).
    rewrite varint_turn by (first [lia|nia]). reflexivity.
  - destruct (Z.ltb_spec u 128) as [Hlt|Hge].
    + cbn [app TurboSerial.varint_loop length].
      destruct (byte_group u ltac:(lia)) as [E7 E8]. rewrite E7, E8.
      destruct (Z.ltb_spec u 128); [|lia]. cbn [Z.eqb negb].
      rewrite Z.mod_small by lia.
      assert (Hp : 0 < 2 ^ sh) by (apply Z.pow_pos_nonneg; lia).
      rewrite varint_turn by (first [lia|nia]). reflexivity.
    + cbn [app TurboSerial.varint_loop length].
      pose proof (Z.mod_pos_bound u 128 ltac:(lia)) as Hm.
      pose proof (Z.div_mod u 128 ltac:(lia)) as Hd.
      assert (Hp : 0 < 2 ^ sh) by (apply Z.pow_pos_nonneg; lia).
      assert (Hq : 0 <= u / 128) by (apply Z.div_pos; lia).
      assert (Hpow : 2 ^ (sh + 7) = 128 * 2 ^ sh) by (rewrite Z.pow_add_r by lia; lia).
      destruct (byte_group (u mod 128 + 128) ltac:(lia)) as [E7 E8]. rewrite E7, E8.
      destruct (Z.ltb_spec (u mod 128 + 128) 128); [lia|]. cbn [Z.eqb negb].
      assert (Hmm : (u mod 128 + 128) mod 128 = u mod 128).
      { replace (u mod 128 + 128) with (u mod 128 + 1 * 128) by lia.
        rewrite Z_mod_plus_full. apply Z.mod_mod. lia. }
      rewrite Hmm.
      assert (Hturn : JS.to_uint32 (JS.bor acc (JS.shl (u mod 128) sh))
                      = JS.to_uint32 acc + (u mod 128) * 2 ^ sh).
      { apply varint_turn; first [lia|nia]. }
      rewrite (IH (u / 128) _ (sh + 7) (n + 1) 0 rest).
      * rewrite Hturn, Hpow. f_equal. f_equal; [nia|lia].
      * split; [exact Hq|]. apply Z.div_lt_upper_bound; [lia|].
        replace (Z.of_nat (S (S k))) with (Z.succ (Z.of_nat (S k))) in Hu by lia.
        rewrite Z.pow_succ_r in Hu by lia. lia.
      * lia.
      * lia.
      * rewrite Hturn, Hpow. nia.
      * rewrite Hturn, Hpow. nia.
Qed.

(** The reader's varint loop on the groups the pool writes for [u]. *)
Lemma read_varint_groups (u avail : Z) (rest : list Z) :
  0 <= u <= 4294967295 ->
  TurboSerial.varint_loop (varint_groups u ++ rest) avail 0 0 0
  = Done (u, Z.of_nat (length (varint_groups u))).
Proof.
  intros Hu. unfold varint_groups.
  rewrite (read_groups 4 u 0 0 0 avail rest).
  - f_equal. f_equal. change (JS.to_uint32 0) with 0. change (2 ^ 0) with 1. lia.
  - change (128 ^ Z.of_nat 5) with 34359738368. lia.
  - lia.
  - simpl. lia.
  - change (JS.to_uint32 0) with 0. change (2 ^ 0) with 1. split; lia.
  - change (JS.to_uint32 0) with 0. change (2 ^ 0) with 1. lia.
Qed.

Lemma rd_readVarint (s : TurboSerial.rstate) (u : Z) (pre rest : list Z) :
  0 <= u <= 4294967295 ->
  TurboSerial.buffer s = pre ++ varint_groups u ++ rest ->
  TurboSerial.rpos s = Z.of_nat (length pre) ->
  TurboSerial.readVarint s
  = Done (u, TurboSerial.set_pos (TurboSerial.rpos s + Z.of_nat (length (varint_groups u))) s).
Proof.
  intros Hu Hbuf Hpos. unfold TurboSerial.readVarint.
  destruct (Z.ltb_spec (TurboSerial.rpos s) 0); [lia|].
  rewrite Hbuf, Hpos, Nat2Z.id, drop_app_length.
  rewrite read_varint_groups by exact Hu. reflexivity.
Qed.

(** Little-endian bytes and back. *)
Lemma of_le_bytes_le_bytes (n : nat) :
  forall z, JS.of_le_bytes (JS.le_bytes n z) = z mod 256 ^ Z.of_nat n.
Proof.
  induction n as [|n IH]; intros z.
  - simpl. rewrite Z.mod_1_r. reflexivity.
  - cbn [JS.le_bytes JS.of_le_bytes]. rewrite IH.
    replace (Z.of_nat (S n)) with (Z.succ (Z.of_nat n)) by lia.
    rewrite Z.pow_succ_r by lia.
    rewrite Z.rem_mul_r; [reflexivity|lia|]. apply Z.pow_pos_nonneg; lia.
Qed.

Lemma map_byte_of_le_bytes (n : nat) :
  forall z, map byte_of (JS.le_bytes n z) = JS.le_bytes n z.
Proof.
  induction n as [|n IH]; intros z; [reflexivity|].
  cbn [JS.le_bytes map]. rewrite IH. unfold byte_of. rewrite Z.mod_mod by lia. reflexivity.
Qed.

Lemma aligned_unique (a o x m : Z) :
  0 < m -> a mod m = 0 -> o mod m = 0 -> x <= a < x + m -> x <= o < x + m -> a = o.
Proof.
  intros Hm Ha Ho Hra Hro.
  pose proof (Z.div_mod a m ltac:(lia)) as Ea. pose proof (Z.div_mod o m ltac:(lia)) as Eo.
  rewrite Ha in Ea. rewrite Ho in Eo.
  destruct (Z.lt_trichotomy (a / m) (o / m)) as [Hlt|[Heq|Hgt]].
  - assert (m * (a / m) + m <= m * (o / m)) by nia. lia.
  - rewrite Ea, Eo, Heq. reflexivity.
  - assert (m * (o / m) + m <= m * (a / m)) by nia. lia.
Qed.

(** An aligned read of [2^j] bytes that sit at the next multiple of
    [2^j]. *)
Lemma rd_read_le (j : Z) (s : TurboSerial.rstate) (pre bs rest : list Z) :
  0 <= j <= 3 ->
  TurboSerial.buffer s = pre ++ bs ++ rest ->
  Z.of_nat (length bs) = 2 ^ j ->
  0 <= TurboSerial.rpos s <= Z.of_nat (length pre) ->
  Z.of_nat (length pre) < TurboSerial.rpos s + 2 ^ j ->
  Z.of_nat (length pre) mod 2 ^ j = 0 ->
  Z.of_nat (length pre) < 2147483648 - 512 ->
  TurboSerial.read_le (2 ^ j) s
  = Done (JS.of_le_bytes bs, TurboSerial.set_pos (Z.of_nat (length pre) + 2 ^ j) s).
Proof.
  intros Hj Hbuf Hlen Hpos Hnear Hmod Hsmall.
  assert (H2 : 1 <= 2 ^ j <= 8).
  { split; [pose proof (Z.pow_pos_nonneg 2 j); lia|].
    change 8 with (2 ^ 3). apply Z.pow_le_mono_r; lia. }
  unfold TurboSerial.read_le. unfold bind at 1. unfold TurboSerial.alignPos, modify.
  cbv zeta. rewrite align_value by lia.
  destruct (align_bounds (TurboSerial.rpos s) j ltac:(lia) ltac:(lia)) as [Hm Hr].
  rewrite (aligned_unique _ (Z.of_nat (length pre)) (TurboSerial.rpos s) (2 ^ j)
             ltac:(lia) Hm Hmod Hr ltac:(lia)).
  unfold bind, TurboSerial.ensureBytes, TurboSerial.take_bytes, ret,
    TurboSerial.buffer_length, TurboSerial.bytes_at.
  cbv beta iota.
  change (TurboSerial.rpos (TurboSerial.set_pos (Z.of_nat (length pre)) s))
    with (Z.of_nat (length pre)).
  change (TurboSerial.buffer (TurboSerial.set_pos (Z.of_nat (length pre)) s))
    with (TurboSerial.buffer s).
  rewrite Hbuf, !length_app.
  destruct (Z.ltb_spec (Z.of_nat (length pre + (length bs + length rest)))
                       (Z.of_nat (length pre) + 2 ^ j)); [lia|].
  cbv beta iota.
  change (TurboSerial.rpos (TurboSerial.set_pos (Z.of_nat (length pre)) s))
    with (Z.of_nat (length pre)).
  change (TurboSerial.buffer (TurboSerial.set_pos (Z.of_nat (length pre)) s))
    with (TurboSerial.buffer s).
  rewrite ?Hbuf, Nat2Z.id, drop_app_length.
  replace (Z.to_nat (2 ^ j)) with (length bs) by lia.
  rewrite take_app_length. reflexivity.
Qed.

Lemma bind_Done {S A B} (c : M S A) (f : A -> M S B) (s s' : S) (a : A) :
  c s = Done (a, s') -> bind c f s = f a s'.
Proof. intros E. unfold bind. rewrite E. reflexivity. Qed.

(** [deserialize] on an input that starts with the header: the value
    is read at offset 5. *)
Lemma deserialize_header (H : Heap.Host) (opts : TurboSerial.options) (fuel : nat)
    (h0 : Heap.heap) (body : list Z) :
  Z.of_nat (length body) < 2147483648 - 1024 ->
  TurboSerial.deserialize H opts fuel h0 ([0x35; 0x52; 0x42; 0x54; 0x05] ++ body)
  = match TurboSerial.readValue H opts fuel
            (TurboSerial.mkR ([0x35; 0x52; 0x42; 0x54; 0x05] ++ body) 5 [] [] [] h0 0) with
    | Done (v, s) => Done (v, TurboSerial.rheap s)
    | Throw e => Throw e
    | OutOfFuel => OutOfFuel
    end.
Proof.
  intros Hlen. unfold TurboSerial.deserialize. cbv zeta.
  set (input := [53; 82; 66; 84; 5] ++ body).
  set (s0 := TurboSerial.mkR input 0 [] [] [] h0 0).
  assert (E1 : TurboSerial.readU32 s0 = Done (0x54425235, TurboSerial.set_pos 4 s0)).
  { unfold TurboSerial.readU32. change 4 with (2 ^ 2) at 1.
    rewrite (rd_read_le 2 s0 [] [53; 82; 66; 84] (5 :: body));
      [reflexivity|lia|reflexivity|reflexivity|simpl; lia|simpl; lia|reflexivity|simpl; lia]. }
  rewrite (bind_Done _ _ _ _ _ E1). cbn [Z.eqb Pos.eqb negb].
  assert (E2 : TurboSerial.readU8 (TurboSerial.set_pos 4 s0)
               = Done (5, TurboSerial.set_pos 5 s0)).
  { rewrite (rd_readU8 _ 5); [reflexivity|simpl; lia|reflexivity]. }
  rewrite (bind_Done _ _ _ _ _ E2). cbn [Z.eqb Pos.eqb negb].
  reflexivity.
Qed.

(** The start of [readValue]: the bounds check and the tag. *)
Lemma readValue_tag (H : Heap.Host) (opts : TurboSerial.options) (k : nat)
    (s : TurboSerial.rstate) (t : Z) :
  0 <= TurboSerial.rpos s ->
  TurboSerial.buffer s !! Z.to_nat (TurboSerial.rpos s) = Some t ->
  (TurboSerial.buffer_length s <=? TurboSerial.rpos s) = false
  /\ TurboSerial.readU8 s = Done (t, TurboSerial.set_pos (TurboSerial.rpos s + 1) s).
Proof.
  intros Hp Hb. split; [|apply rd_readU8; assumption].
  pose proof (lookup_lt_Some _ _ _ Hb). apply Z.leb_gt. unfold TurboSerial.buffer_length. lia.
Qed.

Ltac group_excludes Hg :=
  match goal with
  | |- (?t =? ?c) = false =>
      destruct (Z.eqb_spec t c) as [->|]; [vm_compute in Hg; discriminate Hg|reflexivity]
  end.

Lemma readValue_number_run (H : Heap.Host) (opts : TurboSerial.options) (k : nat)
    (s : TurboSerial.rstate) (t : Z) :
  0 <= TurboSerial.rpos s ->
  TurboSerial.buffer s !! Z.to_nat (TurboSerial.rpos s) = Some t ->
  JS.band t TYPE_MASK.GROUP = TYPE_GROUP.NUMBER ->
  TurboSerial.readValue H opts (S k) s
  = bind (TurboSerial.readNumber t)
         (fun value => bind (if Heap.is_object value then TurboSerial.push_ref value else ret tt)
                            (fun _ => ret value))
         (TurboSerial.set_pos (TurboSerial.rpos s + 1) s).
Proof.
  intros Hp Hb Hg. destruct (readValue_tag H opts k s t Hp Hb) as [Hin Hu8].
  cbn [TurboSerial.readValue]. unfold TurboSerial.readValue_body.
  rewrite (bind_Done get _ s s s eq_refl). cbv beta. rewrite Hin.
  rewrite (bind_Done _ _ _ _ _ Hu8). cbv beta zeta.
  assert (E1 : (t =? TYPE.REFERENCE) = false) by group_excludes Hg.
  assert (E2 : (t =? TYPE.CIRCULAR_REF) = false) by group_excludes Hg.
  assert (E3 : (t =? TYPE.STRING_REF) = false) by group_excludes Hg.
  assert (E4 : (t =? TYPE.BUFFER_REF) = false) by group_excludes Hg.
  rewrite E1, E2, E3, E4, Hg. reflexivity.
Qed.

Lemma signed32_to_uint32 (z : Z) : JS.signed 32 (z mod 4294967296) = JS.to_int32 z.
Proof.
  unfold JS.signed, JS.to_int32. change (2 ^ (32 - 1)) with 2147483648.
  change (2 ^ 32) with 4294967296.
  pose proof (Z.mod_pos_bound z 4294967296 ltac:(lia)) as Hm.
  pose proof (Z.div_mod z 4294967296 ltac:(lia)) as Hd.
  destruct (Z.ltb_spec (z mod 4294967296) 2147483648) as [Hlt|Hge].
  - symmetry. replace (z + 2147483648)
      with ((z mod 4294967296 + 2147483648) + (z / 4294967296) * 4294967296) by lia.
    rewrite Z_mod_plus_full, Z.mod_small by lia. lia.
  - symmetry. replace (z + 2147483648)
      with ((z mod 4294967296 - 2147483648) + (z / 4294967296 + 1) * 4294967296) by lia.
    rewrite Z_mod_plus_full, Z.mod_small by lia. lia.
Qed.

Lemma to_int32_twice (n : Z) :
  -2147483648 <= n < 2147483648 -> JS.to_int32 (JS.to_int32 n) = n.
Proof. intros Hn. rewrite (to_int32_small n) by lia. apply to_int32_small. lia. Qed.

(** The blob of a pool whose last write holds [bs] from [o] on. *)
Lemma getResult_holds (p : UltraMemoryPool.pool) (o : Z) (bs : list Z) :
  PoolFacts.holds p o bs ->
  UltraMemoryPool.pos p = o + Z.of_nat (length bs) ->
  (forall i b, bs !! i = Some b -> 0 <= b < 256) ->
  UltraMemoryPool.getResult p
  = map (UltraMemoryPool.byte_at (UltraMemoryPool.u8 p)) (seqZ 0 o) ++ bs.
Proof.
  intros (Ho & Hs & Hb) Hp Hbytes. unfold UltraMemoryPool.getResult.
  rewrite Z.min_l by lia. rewrite Hp, seqZ_app, map_app by lia. f_equal.
  rewrite Z.add_0_l. apply list_eq. intros i. rewrite list_lookup_fmap.
  destruct (bs !! i) as [b|] eqn:E.
  - pose proof (lookup_lt_Some _ _ _ E) as Hlt.
    rewrite lookup_seqZ_lt by lia. cbn [fmap option_fmap option_map].
    rewrite (Hb i b E). f_equal. apply Z.mod_small. exact (Hbytes i b E).
  - apply lookup_ge_None in E. rewrite lookup_seqZ_ge by lia. reflexivity.
Qed.

(** The varint loop on bytes that all carry the continuation bit. *)
Lemma varint_loop_truncated (bytes : list Z) :
  Forall (fun b => 128 <= b < 256) bytes ->
  forall avail value shift n,
    TurboSerial.varint_loop bytes avail value shift n
    = Throw (BufferUnderflow 1 (match bytes with [] => avail | _ => 0 end)).
Proof.
  induction 1 as [|b r Hb Hr IH]; intros avail value shift n; [reflexivity|].
  cbn [TurboSerial.varint_loop].
  destruct (byte_group b ltac:(lia)) as [_ E8]. rewrite E8.
  destruct (Z.ltb_spec b 128); [lia|]. cbn [Z.eqb negb].
  rewrite IH. destruct r; reflexivity.
Qed.

(** ** [serialize] on a number *)

Lemma serialize_number_run (H : Heap.Host) (opts : TurboSerial.options) (h : Heap.heap)
    (k : nat) (s0 : TurboSerial.wstate) (x : Num.number) :
  TurboSerial.serialize H opts h (S k) s0 (Heap.VNum x)
  = match TurboSerial.writePayload H opts h (TurboSerial.writeValue H opts h k)
            (Heap.VNum x) (UltraTypeDetector.detectNumber x)
            (TurboSerial.mkW
               (UltraMemoryPool.writeU8 (UltraTypeDetector.detectNumber x)
                  (header_pool (TurboSerial.pool s0))) ∅ ∅ ∅ ∅) with
    | Done (_, s') => Done (UltraMemoryPool.getResult (TurboSerial.pool s'), s')
    | Throw e => Throw e
    | OutOfFuel => OutOfFuel
    end.
Proof.
  unfold TurboSerial.serialize.
  rewrite prewalk_primitive by reflexivity.
  destruct (TurboSerial.detectCircular opts); rewrite writeValue_number; reflexivity.
Qed.

(** The tag byte after the header. *)
Lemma blob_tag (p : UltraMemoryPool.pool) (t : Z) :
  PoolFacts.ok p -> 0 <= t < 256 ->
  blob (UltraMemoryPool.writeU8 t (header_pool p)) [0x35; 0x52; 0x42; 0x54; 0x05; t].
Proof.
  intros Hok Ht.
  pose proof (blob_writeU8 t _ _ (blob_header p Hok) ltac:(simpl; lia)) as Hb.
  unfold byte_of in Hb. rewrite Z.mod_small in Hb by lia. exact Hb.
Qed.

(** ** The eligibility gate of the numeric-array analyzer *)

Lemma canOptimize_good_size (len : Z) (elems : gmap Z Heap.value) :
  SIMDProcessor.canOptimize len elems = true ->
  (len = 8 \/ 16 <= len)
  /\ Heap.typeof (Heap.array_get elems 0) = Heap.TNumber.
Proof.
  unfold SIMDProcessor.canOptimize. cbv zeta.
  destruct (Z.leb_spec 8 len) as [H8|H8]; [|intros E; vm_compute in E; discriminate E].
  destruct (Z.leb_spec 16 len) as [H16|H16].
  - rewrite orb_true_r. change (JS.band (SIMDProcessor.b2z true) (SIMDProcessor.b2z true) =? 0)
      with false. cbv iota.
    destruct (bool_decide (Heap.typeof (Heap.array_get elems 0) = Heap.TNumber)) eqn:E;
      [|intros X; discriminate X].
    intros _. split; [right; exact H16|]. apply bool_decide_eq_true in E. exact E.
  - rewrite orb_false_r.
    assert (Hcases : len = 8 \/ len = 9 \/ len = 10 \/ len = 11 \/ len = 12 \/ len = 13
                     \/ len = 14 \/ len = 15) by lia.
    destruct Hcases as [->|[->|[->|[->|[->|[->|[->| ->]]]]]]];
      try (intros E; vm_compute in E; discriminate E).
    change (JS.band (SIMDProcessor.b2z true) (SIMDProcessor.b2z (JS.band 8 (8 - 1) =? 0)) =? 0)
      with false. cbv iota.
    destruct (bool_decide (Heap.typeof (Heap.array_get elems 0) = Heap.TNumber)) eqn:E;
      [|intros X; discriminate X].
    intros _. split; [left; reflexivity|]. apply bool_decide_eq_true in E. exact E.
Qed.

Lemma forallb_agree {A} (f g : A -> bool) (l : list A) :
  (forall x, In x l -> f x = g x) -> forallb f l = forallb g l.
Proof.
  induction l as [|x l IH]; intros Hfg; [reflexivity|].
  cbn [forallb]. rewrite (Hfg x (or_introl eq_refl)), IH; [reflexivity|].
  intros y Hy. apply Hfg. right. exact Hy.
Qed.

(** ** Values without parts, through the writer and the reader *)

(** The values [writeValue] writes as a tag and a payload of their own:
    no table of the instance is consulted for them. *)
Definition atom (v : Heap.value) : bool :=
  match v with
  | Heap.VNull | Heap.VUndefined | Heap.VBool _ | Heap.VNum _ | Heap.VBigInt _
  | Heap.VFun _ => true
  | _ => false
  end.

Lemma writeValue_atom (H : Heap.Host) (opts : TurboSerial.options) (h : Heap.heap)
    (k : nat) (v : Heap.value) (t : Z) (s : TurboSerial.wstate) :
  atom v = true -> UltraTypeDetector.detect H h v = Done t ->
  TurboSerial.writeValue H opts h (S k) v s
  = bind (TurboSerial.writeU8 t)
         (fun _ => TurboSerial.writePayload H opts h (TurboSerial.writeValue H opts h k) v t) s.
Proof.
  intros Ha Hd.
  destruct opts as [c d sab simd dc sf ppd mps].
  destruct s as [p r cr st bf].
  destruct v; try discriminate Ha; unfold UltraTypeDetector.detect in Hd;
    injection Hd as <-; destruct d, dc; reflexivity.
Qed.

Lemma serialize_atom_run (H : Heap.Host) (opts : TurboSerial.options) (h : Heap.heap)
    (k : nat) (s0 : TurboSerial.wstate) (v : Heap.value) (t : Z) :
  atom v = true -> UltraTypeDetector.detect H h v = Done t ->
  TurboSerial.serialize H opts h (S k) s0 v
  = match TurboSerial.writePayload H opts h (TurboSerial.writeValue H opts h k) v t
            (TurboSerial.mkW (UltraMemoryPool.writeU8 t (header_pool (TurboSerial.pool s0)))
               ∅ ∅ ∅ ∅) with
    | Done (_, s') => Done (UltraMemoryPool.getResult (TurboSerial.pool s'), s')
    | Throw e => Throw e
    | OutOfFuel => OutOfFuel
    end.
Proof.
  intros Ha Hd. unfold TurboSerial.serialize.
  rewrite prewalk_primitive by (destruct v; try discriminate Ha; reflexivity).
  destruct (TurboSerial.detectCircular opts); rewrite (writeValue_atom H opts h k v t _ Ha Hd);
    reflexivity.
Qed.

(** [serialize] on a string: the string table is empty at the first
    value, so the string is written out, tag and payload. *)
Lemma serialize_string_run (H : Heap.Host) (opts : TurboSerial.options) (h : Heap.heap)
    (k : nat) (s0 : TurboSerial.wstate) (v : JS.jsstring) :
  exists st,
    TurboSerial.serialize H opts h (S k) s0 (Heap.VStr v)
    = match TurboSerial.writePayload H opts h (TurboSerial.writeValue H opts h k) (Heap.VStr v)
              (UltraTypeDetector.detectString H v)
              (TurboSerial.mkW
                 (UltraMemoryPool.writeU8 (UltraTypeDetector.detectString H v)
                    (header_pool (TurboSerial.pool s0))) ∅ ∅ st ∅) with
      | Done (_, s') => Done (UltraMemoryPool.getResult (TurboSerial.pool s'), s')
      | Throw e => Throw e
      | OutOfFuel => OutOfFuel
      end.
Proof.
  unfold TurboSerial.serialize.
  rewrite prewalk_primitive by reflexivity.
  destruct opts as [c d sab simd dc sf ppd mps].
  destruct s0 as [p r cr st bf].
  cbn [TurboSerial.writeValue]. unfold TurboSerial.writeValue_body.
  cbn [TurboSerial.deduplication TurboSerial.detectCircular TurboSerial.shareArrayBuffers
       Heap.is_object andb].
  destruct d; cbn [andb].
  - destruct (3 <? Z.of_nat (length v)) eqn:E.
    + exists (<[v := TurboSerial.msize (∅ : gmap JS.jsstring Z)]> ∅).
      destruct dc; unfold bind at 1; unfold get; cbv beta iota; cbn [andb];
        unfold bind at 1; unfold get; cbv beta iota;
        unfold TurboSerial.resetState; cbn [TurboSerial.strings TurboSerial.pool
          TurboSerial.refs TurboSerial.circularRefs TurboSerial.buffers];
        rewrite lookup_empty; reflexivity.
    + exists ∅. destruct dc; reflexivity.
  - exists ∅. destruct dc; reflexivity.
Qed.

(** [for (..) writeU8(b)] appends the bytes. *)
Lemma blob_for_each_writeU8 (bs : list Z) :
  forall (p : UltraMemoryPool.pool) (l : list Z) r c st b,
    blob p l -> Z.of_nat (length l) + Z.of_nat (length bs) + 512 < 2147483648 ->
    exists p', for_each TurboSerial.writeU8 bs (TurboSerial.mkW p r c st b)
               = Done (tt, TurboSerial.mkW p' r c st b)
               /\ blob p' (l ++ map byte_of bs).
Proof.
  induction bs as [|x bs IH]; intros p l r c st b Hb Hroom.
  - exists p. split; [reflexivity|]. rewrite app_nil_r. exact Hb.
  - cbn [length] in Hroom.
    pose proof (blob_writeU8 x p l Hb ltac:(lia)) as Hb1.
    destruct (IH (UltraMemoryPool.writeU8 x p) (l ++ [byte_of x]) r c st b Hb1
                ltac:(rewrite length_app; cbn [length]; lia)) as (p' & Hrun & Hb').
    exists p'. split.
    + cbn [for_each]. unfold bind at 1.
      unfold TurboSerial.writeU8 at 1, TurboSerial.on_pool, modify.
      cbn [TurboSerial.pool TurboSerial.refs TurboSerial.circularRefs TurboSerial.strings
           TurboSerial.buffers]. exact Hrun.
    + rewrite <- app_assoc in Hb'. exact Hb'.
Qed.

(** The reader between the tag and the payload. *)
Ltac leaf_run Hp Hb Hg :=
  match goal with
  | |- TurboSerial.readValue ?H ?opts (S ?k) ?s = _ =>
      let Hin := fresh "Hin" in
      let Hu8 := fresh "Hu8" in
      match type of Hb with
      | _ = Some ?t =>
          destruct (readValue_tag H opts k s t Hp Hb) as [Hin Hu8];
          cbn [TurboSerial.readValue]; unfold TurboSerial.readValue_body;
          rewrite (bind_Done get _ s s s eq_refl); cbv beta; rewrite Hin;
          rewrite (bind_Done _ _ _ _ _ Hu8); cbv beta zeta;
          let E1 := fresh "E" in
          let E2 := fresh "E" in
          let E3 := fresh "E" in
          let E4 := fresh "E" in
          assert (E1 : (t =? TYPE.REFERENCE) = false) by group_excludes Hg;
          assert (E2 : (t =? TYPE.CIRCULAR_REF) = false) by group_excludes Hg;
          assert (E3 : (t =? TYPE.STRING_REF) = false) by group_excludes Hg;
          assert (E4 : (t =? TYPE.BUFFER_REF) = false) by group_excludes Hg;
          rewrite E1, E2, E3, E4, Hg; reflexivity
      end
  end.

Lemma readValue_primitive_run (H : Heap.Host) (opts : TurboSerial.options) (k : nat)
    (s : TurboSerial.rstate) (t : Z) :
  0 <= TurboSerial.rpos s ->
  TurboSerial.buffer s !! Z.to_nat (TurboSerial.rpos s) = Some t ->
  JS.band t TYPE_MASK.GROUP = TYPE_GROUP.PRIMITIVE ->
  TurboSerial.readValue H opts (S k) s
  = bind (TurboSerial.readPrimitive t)
         (fun value => bind (if Heap.is_object value then TurboSerial.push_ref value else ret tt)
                            (fun _ => ret value))
         (TurboSerial.set_pos (TurboSerial.rpos s + 1) s).
Proof. intros Hp Hb Hg. leaf_run Hp Hb Hg. Qed.

Lemma readValue_bigint_run (H : Heap.Host) (opts : TurboSerial.options) (k : nat)
    (s : TurboSerial.rstate) (t : Z) :
  0 <= TurboSerial.rpos s ->
  TurboSerial.buffer s !! Z.to_nat (TurboSerial.rpos s) = Some t ->
  JS.band t TYPE_MASK.GROUP = TYPE_GROUP.BIGINT ->
  TurboSerial.readValue H opts (S k) s
  = bind (TurboSerial.readBigInt t)
         (fun value => bind (if Heap.is_object value then TurboSerial.push_ref value else ret tt)
                            (fun _ => ret value))
         (TurboSerial.set_pos (TurboSerial.rpos s + 1) s).
Proof. intros Hp Hb Hg. leaf_run Hp Hb Hg. Qed.

Lemma readValue_string_run (H : Heap.Host) (opts : TurboSerial.options) (k : nat)
    (s : TurboSerial.rstate) (t : Z) :
  0 <= TurboSerial.rpos s ->
  TurboSerial.buffer s !! Z.to_nat (TurboSerial.rpos s) = Some t ->
  JS.band t TYPE_MASK.GROUP = TYPE_GROUP.STRING -> t <> TYPE.STRING_REF ->
  TurboSerial.readValue H opts (S k) s
  = bind (TurboSerial.readString H t)
         (fun value => bind (if Heap.is_object value then TurboSerial.push_ref value else ret tt)
                            (fun _ => ret value))
         (TurboSerial.set_pos (TurboSerial.rpos s + 1) s).
Proof.
  intros Hp Hb Hg Hne.
  destruct (readValue_tag H opts k s t Hp Hb) as [Hin Hu8].
  cbn [TurboSerial.readValue]. unfold TurboSerial.readValue_body.
  rewrite (bind_Done get _ s s s eq_refl). cbv beta. rewrite Hin.
  rewrite (bind_Done _ _ _ _ _ Hu8). cbv beta zeta.
  assert (E1 : (t =? TYPE.REFERENCE) = false) by group_excludes Hg.
  assert (E2 : (t =? TYPE.CIRCULAR_REF) = false) by group_excludes Hg.
  assert (E3 : (t =? TYPE.STRING_REF) = false) by (apply Z.eqb_neq; exact Hne).
  assert (E4 : (t =? TYPE.BUFFER_REF) = false) by group_excludes Hg.
  rewrite E1, E2, E3, E4, Hg. reflexivity.
Qed.

Lemma readValue_buffer_run (H : Heap.Host) (opts : TurboSerial.options) (k : nat)
    (s : TurboSerial.rstate) (t : Z) :
  0 <= TurboSerial.rpos s ->
  TurboSerial.buffer s !! Z.to_nat (TurboSerial.rpos s) = Some t ->
  JS.band t TYPE_MASK.GROUP = TYPE_GROUP.BUFFER -> t <> TYPE.BUFFER_REF ->
  TurboSerial.readValue H opts (S k) s
  = bind (TurboSerial.readArrayBuffer t)
         (fun value => bind (if Heap.is_object value then TurboSerial.push_ref value else ret tt)
                            (fun _ => ret value))
         (TurboSerial.set_pos (TurboSerial.rpos s + 1) s).
Proof.
  intros Hp Hb Hg Hne.
  destruct (readValue_tag H opts k s t Hp Hb) as [Hin Hu8].
  cbn [TurboSerial.readValue]. unfold TurboSerial.readValue_body.
  rewrite (bind_Done get _ s s s eq_refl). cbv beta. rewrite Hin.
  rewrite (bind_Done _ _ _ _ _ Hu8). cbv beta zeta.
  assert (E1 : (t =? TYPE.REFERENCE) = false) by group_excludes Hg.
  assert (E2 : (t =? TYPE.CIRCULAR_REF) = false) by group_excludes Hg.
  assert (E3 : (t =? TYPE.STRING_REF) = false) by group_excludes Hg.
  assert (E4 : (t =? TYPE.BUFFER_REF) = false) by (apply Z.eqb_neq; exact Hne).
  rewrite E1, E2, E3, E4, Hg. reflexivity.
Qed.

(** [ensureBytes(n)] and the bytes taken, on an input that holds [bs]
    at the cursor. *)
Lemma rd_take (s : TurboSerial.rstate) (pre bs rest : list Z) :
  TurboSerial.buffer s = pre ++ bs ++ rest ->
  TurboSerial.rpos s = Z.of_nat (length pre) ->
  TurboSerial.ensureBytes (Z.of_nat (length bs)) s = Done (tt, s)
  /\ TurboSerial.take_bytes (Z.of_nat (length bs)) s
     = Done (bs, TurboSerial.set_pos (TurboSerial.rpos s + Z.of_nat (length bs)) s).
Proof.
  intros Hbuf Hpos. split.
  - unfold TurboSerial.ensureBytes, TurboSerial.buffer_length.
    rewrite Hbuf, !length_app, Hpos.
    destruct (Z.ltb_spec (Z.of_nat (length pre + (length bs + length rest)))
                         (Z.of_nat (length pre) + Z.of_nat (length bs))); [lia|reflexivity].
  - unfold TurboSerial.take_bytes, TurboSerial.bytes_at.
    rewrite Hbuf, Hpos, !Nat2Z.id, drop_app_length, take_app_length. reflexivity.
Qed.

Lemma varint_groups_length (u : Z) :
  0 <= u <= 4294967295 -> (1 <= length (varint_groups u) <= 5)%nat.
Proof.
  intros Hu. apply (leb128_length 4 u). change (128 ^ Z.of_nat 5) with 34359738368. lia.
Qed.

(** [writeValue] on an object met for the first time, with no cycle
    recorded: the tables take note of it, then tag and payload. *)
Lemma writeValue_ref_fresh (H : Heap.Host) (opts : TurboSerial.options) (h : Heap.heap)
    (k : nat) (l : Heap.loc) (p : UltraMemoryPool.pool) :
  exists r bf,
    TurboSerial.writeValue H opts h (S k) (Heap.VRef l) (TurboSerial.mkW p ∅ ∅ ∅ ∅)
    = bind (lift (UltraTypeDetector.detect H h (Heap.VRef l)))
           (fun type => bind (TurboSerial.writeU8 type)
              (fun _ => TurboSerial.writePayload H opts h (TurboSerial.writeValue H opts h k)
                          (Heap.VRef l) type))
           (TurboSerial.mkW p r ∅ ∅ bf).
Proof.
  destruct opts as [c d sab simd dc sf ppd mps].
  cbn [TurboSerial.writeValue]. unfold TurboSerial.writeValue_body.
  unfold bind at 1. unfold get at 1. cbv beta iota.
  cbn [TurboSerial.deduplication TurboSerial.detectCircular TurboSerial.shareArrayBuffers
       Heap.is_object TurboSerial.circularRefs TurboSerial.refs andb].
  rewrite bool_decide_eq_false_2 by set_solver.
  rewrite lookup_empty. cbn [negb andb]. rewrite !andb_false_r. rewrite andb_true_r.
  destruct (h !! l) as [[| | | | | | |[|] bs| |]|]; destruct d, sab; cbn [andb];
    eexists; eexists; unfold bind, get, modify, ret;
    cbn [TurboSerial.buffers TurboSerial.pool TurboSerial.refs TurboSerial.circularRefs
         TurboSerial.strings];
    rewrite ?lookup_empty; reflexivity.
Qed.

(** The objects the cycle walk does not enter. *)
Definition leaf_object (o : Heap.obj) : bool :=
  match o with
  | Heap.OArray _ _ | Heap.OObject _ _ | Heap.OMap _ | Heap.OSet _ => false
  | _ => true
  end.

Lemma prewalk_leaf (h : Heap.heap) (k : nat) (l : Heap.loc) (o : Heap.obj)
    (circ : gset Heap.loc) :
  h !! l = Some o -> leaf_object o = true ->
  TurboSerial.detectCircularReferences h (S k) (Heap.VRef l) ∅ circ = Done circ.
Proof.
  intros Hl Ho. cbn [TurboSerial.detectCircularReferences].
  rewrite bool_decide_eq_false_2 by set_solver. rewrite Hl.
  destruct o; try discriminate Ho; reflexivity.
Qed.

(** [serialize] on an object whose walk finds no cycle. *)
Lemma serialize_ref_run (H : Heap.Host) (opts : TurboSerial.options) (h : Heap.heap)
    (k : nat) (s0 : TurboSerial.wstate) (l : Heap.loc) (t : Z) :
  TurboSerial.detectCircularReferences h (S k) (Heap.VRef l) ∅ ∅ = Done ∅ ->
  UltraTypeDetector.detect H h (Heap.VRef l) = Done t ->
  exists r bf,
    TurboSerial.serialize H opts h (S k) s0 (Heap.VRef l)
    = match TurboSerial.writePayload H opts h (TurboSerial.writeValue H opts h k)
              (Heap.VRef l) t
              (TurboSerial.mkW (UltraMemoryPool.writeU8 t (header_pool (TurboSerial.pool s0)))
                 r ∅ ∅ bf) with
      | Done (_, s') => Done (UltraMemoryPool.getResult (TurboSerial.pool s'), s')
      | Throw e => Throw e
      | OutOfFuel => OutOfFuel
      end.
Proof.
  intros Hwalk Hd.
  destruct (writeValue_ref_fresh H opts h k l (header_pool (TurboSerial.pool s0)))
    as (r & bf & Hw).
  exists r, bf. unfold TurboSerial.serialize. cbv zeta.
  unfold TurboSerial.resetState.
  cbn [TurboSerial.pool TurboSerial.refs TurboSerial.circularRefs TurboSerial.strings
       TurboSerial.buffers].
  rewrite Hwalk. fold (header_pool (TurboSerial.pool s0)).
  destruct (TurboSerial.detectCircular opts); rewrite Hw, Hd; reflexivity.
Qed.

(** ** Doubles and their bit patterns *)

Lemma digits2_pos_size (p : positive) : digits2_pos p = Pos.size p.
Proof. induction p as [p IH|p IH|]; simpl; rewrite ?IH; reflexivity. Qed.

Lemma size_bounds (p : positive) :
  2 ^ (Z.pos (Pos.size p) - 1) <= Z.pos p < 2 ^ Z.pos (Pos.size p).
Proof.
  induction p as [p IH|p IH|].
  - cbn [Pos.size]. rewrite Pos2Z.inj_succ.
    replace (Z.succ (Z.pos (Pos.size p)) - 1) with (Z.succ (Z.pos (Pos.size p) - 1)) by lia.
    rewrite !Z.pow_succ_r by lia. lia.
  - cbn [Pos.size]. rewrite Pos2Z.inj_succ.
    replace (Z.succ (Z.pos (Pos.size p)) - 1) with (Z.succ (Z.pos (Pos.size p) - 1)) by lia.
    rewrite !Z.pow_succ_r by lia. lia.
  - simpl. lia.
Qed.

(** A finite double in canonical form: a normal one has a 53-bit
    mantissa, a subnormal one the least exponent. *)
Lemma valid_finite (s : bool) (m : positive) (e : Z) :
  Num.valid (S754_finite s m e) = true ->
  e <= 971
  /\ ((2 ^ 52 <= Z.pos m < 2 ^ 53 /\ -1074 <= e)
      \/ (Z.pos m < 2 ^ 52 /\ e = -1074)).
Proof.
  unfold Num.valid, valid_binary, bounded, canonical_mantissa, fexp, emin.
  rewrite digits2_pos_size. intros Hv. apply andb_prop in Hv. destruct Hv as [Hc He].
  apply Z.leb_le in He. apply Z.eqb_eq in Hc.
  pose proof (size_bounds m) as Hb. split; [lia|].
  change (3 - 1024 - 53) with (-1074) in Hc.
  destruct (Z_le_dec (-1074) (Z.pos (Pos.size m) + e - 53)) as [Hn|Hn].
  - left. rewrite Z.max_l in Hc by lia.
    assert (Es : Z.pos (Pos.size m) = 53) by lia. rewrite Es in Hb.
    change (53 - 1) with 52 in Hb. split; lia.
  - rewrite Z.max_r in Hc by lia.
    destruct (Z_lt_dec (Z.pos m) (2 ^ 52)) as [Hlt|Hge].
    + right. split; lia.
    + left. split; [|lia]. split; [lia|].
      assert (Z.pos (Pos.size m) <= 53) by lia.
      destruct Hb as [_ Hb]. eapply Z.lt_le_trans; [exact Hb|].
      apply Z.pow_le_mono_r; lia.
Qed.

Lemma testbit_sign (s : bool) (r : Z) :
  0 <= r < 2 ^ 63 -> Z.testbit ((if s then 2 ^ 63 else 0) + r) 63 = s.
Proof.
  intros Hr. destruct s.
  - apply Z.testbit_true; [lia|].
    rewrite Z.add_comm. replace (r + 2 ^ 63) with (r + 1 * 2 ^ 63) by lia.
    rewrite Z.div_add by lia. rewrite Z.div_small by lia. reflexivity.
  - apply Z.testbit_false; [lia|]. rewrite Z.add_0_l, Z.div_small by lia. reflexivity.
Qed.

Lemma bits64_fields (s : bool) (ex mx : Z) :
  0 <= ex < 2 ^ 11 -> 0 <= mx < 2 ^ 52 ->
  let b := (if s then 2 ^ 63 else 0) + ex * 2 ^ 52 + mx in
  Z.testbit b 63 = s /\ (b / 2 ^ 52) mod 2 ^ 11 = ex /\ b mod 2 ^ 52 = mx.
Proof.
  intros Hex Hmx b.
  change (2 ^ 11) with 2048 in *. change (2 ^ 52) with 4503599627370496 in *.
  assert (H63 : 2 ^ 63 = 2048 * 4503599627370496) by reflexivity.
  split; [|split].
  - unfold b. rewrite <- Z.add_assoc. apply testbit_sign. rewrite H63. nia.
  - unfold b. destruct s.
    + replace (2 ^ 63 + ex * 4503599627370496 + mx)
        with (mx + (2048 + ex) * 4503599627370496) by (rewrite H63; ring).
      rewrite Z.div_add by lia. rewrite Z.div_small by lia.
      replace (0 + (2048 + ex)) with (ex + 1 * 2048) by ring.
      rewrite Z.mod_add by lia. apply Z.mod_small. lia.
    + replace (0 + ex * 4503599627370496 + mx) with (mx + ex * 4503599627370496) by ring.
      rewrite Z.div_add by lia. rewrite Z.div_small by lia. apply Z.mod_small. lia.
  - unfold b. destruct s.
    + replace (2 ^ 63 + ex * 4503599627370496 + mx)
        with (mx + (2048 + ex) * 4503599627370496) by (rewrite H63; ring).
      rewrite Z.mod_add by lia. apply Z.mod_small. lia.
    + replace (0 + ex * 4503599627370496 + mx) with (mx + ex * 4503599627370496) by ring.
      rewrite Z.mod_add by lia. apply Z.mod_small. lia.
Qed.

(** The bit pattern of a double holds the double. *)
Lemma of_bits64_bits64 (x : Num.number) :
  Num.valid x = true -> Num.of_bits64 (Num.bits64 x) = x.
Proof.
  intros Hv. destruct x as [s|s| |s m e].
  - destruct s; reflexivity.
  - destruct s; reflexivity.
  - reflexivity.
  - destruct (valid_finite s m e Hv) as [He Hm].
    unfold Num.of_bits64, Num.bits64, Num.bits, Num.of_bits. cbv zeta.
    change (3 - 2 ^ (11 - 1) - (52 + 1)) with (-1074). change (52 + 11) with 63.
    destruct (Z.leb_spec (2 ^ 52) (Z.pos m)) as [Hn|Hn].
    + destruct Hm as [(Hm & Hemin)|(Hm & _)]; [|lia].
      destruct (bits64_fields s (e - -1074 + 1) (Z.pos m - 2 ^ 52)) as (E1 & E2 & E3);
        [change (2 ^ 11) with 2048; lia|lia|].
      cbv zeta in E1, E2, E3. rewrite E1, E2, E3.
      destruct (Z.eqb_spec (e - -1074 + 1) 0); [lia|].
      destruct (Z.eqb_spec (e - -1074 + 1) (2 ^ 11 - 1));
        [change (2 ^ 11 - 1) with 2047 in *; lia|].
      replace (Z.pos m - 2 ^ 52 + 2 ^ 52) with (Z.pos m) by lia.
      f_equal. lia.
    + destruct Hm as [(Hm & _)|(Hm & ->)]; [lia|].
      destruct (bits64_fields s 0 (Z.pos m)) as (E1 & E2 & E3);
        [change (2 ^ 11) with 2048; lia|lia|].
      cbv zeta in E1, E2, E3. rewrite Z.mul_0_l, Z.add_0_r in E1, E2, E3.
      rewrite E1, E2, E3. reflexivity.
Qed.

Lemma bits64_range (x : Num.number) :
  Num.valid x = true -> 0 <= Num.bits64 x < 2 ^ 64.
Proof.
  intros Hv. change (2 ^ 64) with 18446744073709551616.
  destruct x as [s|s| |s m e].
  - destruct s; vm_compute; split; first [discriminate|reflexivity].
  - destruct s; vm_compute; split; first [discriminate|reflexivity].
  - vm_compute; split; first [discriminate|reflexivity].
  - destruct (valid_finite s m e Hv) as [He Hm].
    unfold Num.bits64, Num.bits. cbv zeta.
    change (3 - 2 ^ (11 - 1) - (52 + 1)) with (-1074). change (52 + 11) with 63.
    change (2 ^ 63) with 9223372036854775808.
    change (2 ^ 52) with 4503599627370496 in *.
    change (2 ^ 53) with 9007199254740992 in *.
    destruct (Z.leb_spec 4503599627370496 (Z.pos m)); destruct s; lia.
Qed.

(** The double of an integer below 2^53 is in canonical form. *)
Lemma valid_of_int (n : Z) : Z.abs n < 2 ^ 53 -> Num.valid (Num.of_int n) = true.
Proof.
  intros Hb. destruct (Z.eq_dec n 0) as [->|Hn]; [reflexivity|].
  rewrite of_int_nonzero by assumption.
  destruct (mant_range (Z.abs n) ltac:(lia)) as [Hl Hm].
  unfold Num.valid, valid_binary, bounded, canonical_mantissa, fexp, emin.
  rewrite digits2_pos_size.
  pose proof (size_bounds (Z.to_pos (mant (Z.abs n)))) as Hs.
  rewrite Z2Pos.id in Hs by lia.
  set (sz := Z.pos (Pos.size (Z.to_pos (mant (Z.abs n))))) in *.
  assert (Esz : sz = 53).
  { assert (H1 : 52 < sz).
    { apply (Z.pow_lt_mono_r_iff 2); [lia|unfold sz; lia|lia]. }
    assert (H2 : sz - 1 < 53).
    { apply (Z.pow_lt_mono_r_iff 2); [lia|lia|lia]. }
    lia. }
  rewrite Esz. apply andb_true_intro. split.
  - apply Z.eqb_eq. change (3 - 1024 - 53) with (-1074). lia.
  - apply Z.leb_le. lia.
Qed.

Lemma readValue_date_run (H : Heap.Host) (opts : TurboSerial.options) (k : nat)
    (s : TurboSerial.rstate) (t : Z) :
  0 <= TurboSerial.rpos s ->
  TurboSerial.buffer s !! Z.to_nat (TurboSerial.rpos s) = Some t ->
  JS.band t TYPE_MASK.GROUP = TYPE_GROUP.DATE ->
  TurboSerial.readValue H opts (S k) s
  = bind (TurboSerial.readDate t)
         (fun value => bind (if Heap.is_object value then TurboSerial.push_ref value else ret tt)
                            (fun _ => ret value))
         (TurboSerial.set_pos (TurboSerial.rpos s + 1) s).
Proof. intros Hp Hb Hg. leaf_run Hp Hb Hg. Qed.

(** An aligned 64-bit word after a tag at offset 5: two bytes of
    padding, then the word. *)
Lemma blob_word64 (p : UltraMemoryPool.pool) (t w : Z) :
  PoolFacts.ok p -> 0 <= t < 256 ->
  exists b0 b1,
    blob (UltraMemoryPool.put (JS.le_bytes 8 w)
            (UltraMemoryPool.ensure 8
               (UltraMemoryPool.alignPos 8 (UltraMemoryPool.writeU8 t (header_pool p)))))
         ([0x35; 0x52; 0x42; 0x54; 0x05; t] ++ [b0; b1] ++ JS.le_bytes 8 w).
Proof.
  intros Hok Ht. pose proof (blob_tag p t Hok Ht) as B6.
  destruct (blob_put_aligned 3 (JS.le_bytes 8 w) _ _ ltac:(lia) B6
              ltac:(rewrite le_bytes_length; simpl; lia))
    as (pad & B & Hmod & Hpad & _).
  rewrite le_bytes_length in B. change (Z.of_nat 8) with 8 in B. change (2 ^ 3) with 8 in *.
  rewrite map_byte_of_le_bytes in B.
  assert (Hlen : length pad = 2%nat).
  { cbn [length] in Hmod.
    destruct pad as [|b0 [|b1 [|b2 [|b3 [|b4 [|b5 [|b6 [|b7 pad]]]]]]]]; cbn [length] in *;
      first [reflexivity|vm_compute in Hmod; discriminate Hmod|lia]. }
  destruct pad as [|b0 [|b1 [|b2 pad]]]; try discriminate Hlen.
  exists b0, b1. exact B.
Qed.

(** Reading that word back. *)
Lemma rd_word64 (h0 : Heap.heap) (t b0 b1 w : Z) (rest : list Z) :
  0 <= w < 2 ^ 64 -> Z.of_nat (length rest) < 2 ^ 30 ->
  TurboSerial.read_le 8
    (TurboSerial.set_pos 6
       (TurboSerial.mkR ([0x35; 0x52; 0x42; 0x54; 0x05] ++ [t; b0; b1] ++ JS.le_bytes 8 w ++ rest)
          5 [] [] [] h0 0))
  = Done (w, TurboSerial.set_pos 16
               (TurboSerial.set_pos 6
                  (TurboSerial.mkR
                     ([0x35; 0x52; 0x42; 0x54; 0x05] ++ [t; b0; b1] ++ JS.le_bytes 8 w ++ rest)
                     5 [] [] [] h0 0))).
Proof.
  intros Hw Hrest. change (2 ^ 30) with 1073741824 in Hrest.
  change 8 with (2 ^ 3) at 1.
  rewrite (rd_read_le 3 _ [53; 82; 66; 84; 5; t; b0; b1] (JS.le_bytes 8 w) rest);
    [|lia|reflexivity|rewrite le_bytes_length; reflexivity
     |simpl; lia|simpl; lia|reflexivity|simpl; lia].
  rewrite of_le_bytes_le_bytes. change (256 ^ Z.of_nat 8) with (2 ^ 64).
  rewrite Z.mod_small by exact Hw. reflexivity.
Qed.

(** ** Arrays without holes *)

Lemma zip_seqZ_lookup {A} (vs : list A) :
  forall (s i : Z),
    (list_to_map (zip (seqZ s (Z.of_nat (length vs))) vs) : gmap Z A) !! i
    = if s <=? i then vs !! Z.to_nat (i - s) else None.
Proof.
  induction vs as [|v vs IH]; intros s i.
  - change (list_to_map (zip (seqZ s (Z.of_nat (length (@nil A)))) []) : gmap Z A)
      with (∅ : gmap Z A).
    rewrite lookup_empty. destruct (s <=? i); [rewrite lookup_nil|]; reflexivity.
  - cbn [length]. rewrite Nat2Z.inj_succ, seqZ_cons by lia.
    rewrite Z.pred_succ. cbn [zip zip_with]. rewrite list_to_map_cons.
    destruct (Z.eq_dec s i) as [->|Hne].
    + rewrite lookup_insert. rewrite Z.leb_refl, Z.sub_diag.
      destruct (decide (i = i)); [reflexivity|contradiction].
    + rewrite lookup_insert_ne by exact Hne. rewrite IH.
      destruct (Z.leb_spec (Z.succ s) i), (Z.leb_spec s i); try lia; [|reflexivity].
      replace (Z.to_nat (i - s)) with (S (Z.to_nat (i - Z.succ s))) by lia. reflexivity.
Qed.

Lemma array_of_lookup (vs : list Heap.value) (i : Z) :
  0 <= i ->
  (list_to_map (zip (seqZ 0 (Z.of_nat (length vs))) vs) : gmap Z Heap.value) !! i
  = vs !! Z.to_nat i.
Proof.
  intros Hi. rewrite zip_seqZ_lookup. destruct (Z.leb_spec 0 i); [|lia].
  rewrite Z.sub_0_r. reflexivity.
Qed.

(** [array[0] .. array[len-1]] of an array without holes. *)
Lemma array_values_of (vs : list Heap.value) :
  TurboSerial.array_values (Z.of_nat (length vs))
    (list_to_map (zip (seqZ 0 (Z.of_nat (length vs))) vs)) = vs.
Proof.
  unfold TurboSerial.array_values. apply list_eq. intros i.
  rewrite list_lookup_fmap.
  destruct (vs !! i) as [v|] eqn:E.
  - pose proof (lookup_lt_Some _ _ _ E) as Hlt.
    rewrite lookup_seqZ_lt by lia. cbn [fmap option_fmap option_map].
    unfold Heap.array_get. rewrite array_of_lookup by lia.
    rewrite Z.add_0_l, Nat2Z.id, E. reflexivity.
  - apply lookup_ge_None in E. rewrite lookup_seqZ_ge by lia. reflexivity.
Qed.

Lemma array_has_of (vs : list Heap.value) (i : Z) :
  0 <= i < Z.of_nat (length vs) ->
  Heap.array_has (list_to_map (zip (seqZ 0 (Z.of_nat (length vs))) vs)) i = true.
Proof.
  intros Hi. unfold Heap.array_has. apply bool_decide_eq_true.
  rewrite array_of_lookup by lia. apply lookup_lt_is_Some. lia.
Qed.

(** The eligibility gate on an array whose sampled elements are
    numbers. *)
Lemma canOptimize_numbers (len : Z) (elems : gmap Z Heap.value) :
  len = 8 \/ 16 <= len -> len < 2 ^ 30 ->
  (forall i, 0 <= i < len -> Heap.typeof (Heap.array_get elems i) = Heap.TNumber) ->
  SIMDProcessor.canOptimize len elems = true.
Proof.
  intros Hsize Hlen Hnum. change (2 ^ 30) with 1073741824 in Hlen.
  unfold SIMDProcessor.canOptimize. cbv zeta.
  assert (Hgood : JS.band (SIMDProcessor.b2z (8 <=? len))
                    (SIMDProcessor.b2z ((JS.band len (len - 1) =? 0) || (16 <=? len))) = 1).
  { destruct Hsize as [->|H16]; [reflexivity|].
    destruct (Z.leb_spec 8 len); [|lia]. destruct (Z.leb_spec 16 len); [|lia].
    rewrite orb_true_r. reflexivity. }
  rewrite Hgood. cbn [Z.eqb].
  rewrite (Hnum 0) by lia. rewrite bool_decide_eq_true_2 by reflexivity. cbn [negb].
  set (iv := Z.max 1 (JS.to_int32 (JS.ushr len 5))).
  assert (Hiv : 1 <= iv) by (unfold iv; lia).
  apply forallb_forall. intros k Hk. apply list_elem_of_In, elem_of_seqZ in Hk.
  apply bool_decide_eq_true.
  apply Hnum. split; [nia|].
  assert (k * iv <= len - 1); [|lia].
  pose proof (Z.mul_div_le (len - 1) iv ltac:(lia)).
  assert (k <= (len - 1) / iv) by lia. nia.
Qed.

(** Packed elements: the chunks of the concatenated groups. *)
Lemma chunks_flat_map {A} (n : nat) (f : A -> list Z) (xs : list A) :
  (forall x, length (f x) = n) ->
  TurboSerial.chunks (length xs) n (flat_map f xs) = map f xs.
Proof.
  intros Hf. induction xs as [|x xs IH]; [reflexivity|].
  cbn [length TurboSerial.chunks flat_map map]. rewrite <- IH.
  replace (take n (f x ++ flat_map f xs)) with (f x)
    by (rewrite <- (Hf x); symmetry; apply take_app_length).
  replace (drop n (f x ++ flat_map f xs)) with (flat_map f xs)
    by (rewrite <- (Hf x); symmetry; apply drop_app_length).
  reflexivity.
Qed.

Lemma flat_map_length_groups {A} (n : nat) (f : A -> list Z) (xs : list A) :
  (forall x, length (f x) = n) -> length (flat_map f xs) = (length xs * n)%nat.
Proof.
  intros Hf. induction xs as [|x xs IH]; [reflexivity|].
  cbn [flat_map length]. rewrite length_app, Hf, IH. lia.
Qed.

(** Two's complement on [w] bits. *)
Lemma signed_mod (w z : Z) :
  0 < w -> - 2 ^ (w - 1) <= z < 2 ^ (w - 1) -> JS.signed w (z mod 2 ^ w) = z.
Proof.
  intros Hw Hz. unfold JS.signed.
  assert (E : 2 ^ w = 2 * 2 ^ (w - 1)).
  { replace w with (Z.succ (w - 1)) at 1 by lia. apply Z.pow_succ_r. lia. }
  assert (Hp : 0 < 2 ^ (w - 1)) by (apply Z.pow_pos_nonneg; lia).
  destruct (Z_lt_dec z 0) as [Hn|Hn].
  - replace (z mod 2 ^ w) with (z + 2 ^ w) by (apply Z.mod_unique with (-1); lia).
    destruct (Z.ltb_spec (z + 2 ^ w) (2 ^ (w - 1))); lia.
  - rewrite Z.mod_small by lia.
    destruct (Z.ltb_spec z (2 ^ (w - 1))); lia.
Qed.

(** The reader's [alignPos] in front of data that sits at the next
    multiple of [2^j]. *)
Lemma rd_alignPos (j : Z) (s : TurboSerial.rstate) (a : Z) :
  0 <= j <= 3 ->
  0 <= TurboSerial.rpos s <= a -> a < TurboSerial.rpos s + 2 ^ j ->
  a mod 2 ^ j = 0 -> a < 2147483648 - 512 ->
  TurboSerial.alignPos (2 ^ j) s = Done (tt, TurboSerial.set_pos a s).
Proof.
  intros Hj Hpos Hnear Hmod Hsmall.
  assert (H2 : 1 <= 2 ^ j <= 8).
  { split; [pose proof (Z.pow_pos_nonneg 2 j); lia|].
    change 8 with (2 ^ 3). apply Z.pow_le_mono_r; lia. }
  unfold TurboSerial.alignPos, modify. cbv zeta. rewrite align_value by lia.
  destruct (align_bounds (TurboSerial.rpos s) j ltac:(lia) ltac:(lia)) as [Hm Hr].
  rewrite (aligned_unique _ a (TurboSerial.rpos s) (2 ^ j) ltac:(lia) Hm Hmod Hr ltac:(lia)).
  reflexivity.
Qed.

(** The heap after the reader fills the cell it has just made. *)
Lemma alter_last (h : Heap.heap) (o : Heap.obj) (f : Heap.obj -> Heap.obj) :
  alter f (length h) (h ++ [o]) = h ++ [f o].
Proof.
  induction h as [|x h IH]; [reflexivity|].
  cbn [length app]. change (alter f (S (length h)) (x :: (h ++ [o])))
    with (x :: alter f (length h) (h ++ [o])). rewrite IH. reflexivity.
Qed.

(** The cycle walk over values that are not objects. *)
Lemma prewalk_flat_array (h : Heap.heap) (k : nat) (l : Heap.loc) (len : Z)
    (elems : gmap Z Heap.value) :
  h !! l = Some (Heap.OArray len elems) ->
  (forall i v, elems !! i = Some v -> Heap.is_object v = false) ->
  TurboSerial.detectCircularReferences h (S (S k)) (Heap.VRef l) ∅ ∅ = Done ∅.
Proof.
  intros Hl Hflat. cbn [TurboSerial.detectCircularReferences].
  rewrite bool_decide_eq_false_2 by set_solver. rewrite Hl.
  assert (Hall : Forall (fun v => Heap.is_object v = false)
                   (omap (fun i => elems !! i) (seqZ 0 len))).
  { apply Forall_forall. intros v Hv. apply list_elem_of_omap in Hv.
    destruct Hv as (i & _ & Hi). exact (Hflat i v Hi). }
  induction Hall as [|v vs Hv _ IH]; [reflexivity|].
  destruct v; try discriminate Hv; exact IH.
Qed.

(** The reader on a tag of the array group: an empty array is
    registered, then filled. *)
Lemma readValue_array_run (H : Heap.Host) (opts : TurboSerial.options) (k : nat)
    (s : TurboSerial.rstate) (t : Z) :
  0 <= TurboSerial.rpos s ->
  TurboSerial.buffer s !! Z.to_nat (TurboSerial.rpos s) = Some t ->
  JS.band t TYPE_MASK.GROUP = TYPE_GROUP.ARRAY ->
  TurboSerial.readValue H opts (S k) s
  = bind (TurboSerial.alloc (Heap.OArray 0 ∅))
         (fun l => bind (TurboSerial.push_ref (Heap.VRef l))
            (fun _ => bind (TurboSerial.fillArray (TurboSerial.readValue H opts k) k l t)
               (fun _ => ret (Heap.VRef l))))
         (TurboSerial.set_pos (TurboSerial.rpos s + 1) s).
Proof. intros Hp Hb Hg. leaf_run Hp Hb Hg. Qed.

Lemma map_byte_of_flat_le_bytes (k : nat) (zs : list Z) :
  map byte_of (flat_map (JS.le_bytes k) zs) = flat_map (JS.le_bytes k) zs.
Proof.
  induction zs as [|z zs IH]; [reflexivity|].
  cbn [flat_map]. rewrite map_app, map_byte_of_le_bytes, IH. reflexivity.
Qed.

(** The coercion of the elements in [writePackedArray], on numbers. *)
Lemma writePackedArray_numbers (H : Heap.Host) (h : Heap.heap) (xs : list Num.number)
    (t : Z) (s : TurboSerial.wstate) :
  TurboSerial.writePackedArray H h (map Heap.VNum xs) t s
  = match UltraMemoryPool.writePackedArray xs t (TurboSerial.pool s) with
    | Done p => Done (tt, TurboSerial.mkW p (TurboSerial.refs s) (TurboSerial.circularRefs s)
                            (TurboSerial.strings s) (TurboSerial.buffers s))
    | Throw e => Throw e
    | OutOfFuel => OutOfFuel
    end.
Proof.
  unfold TurboSerial.writePackedArray.
  match goal with
  | |- match ?c with Done _ => _ | Throw _ => _ | OutOfFuel => _ end = _ =>
      assert (Hc : c = Done xs)
  end.
  { induction xs as [|x xs IH]; [reflexivity|].
    cbn [map Coerce.to_number]. rewrite IH. reflexivity. }
  rewrite Hc. reflexivity.
Qed.

(** ** A run of values without parts, in the blob *)

(** The values whose encoding is their tag. *)
Definition plain_tags : list (Heap.value * Z) :=
  [ (Heap.VNull, TYPE.NULL); (Heap.VUndefined, TYPE.UNDEFINED);
    (Heap.VBool false, TYPE.FALSE); (Heap.VBool true, TYPE.TRUE);
    (Heap.VNum Num.NaN, TYPE.NAN); (Heap.VNum Num.Infinity, TYPE.INFINITY);
    (Heap.VNum Num.NegInfinity, TYPE.NEG_INFINITY); (Heap.VNum Num.NegZero, TYPE.NEG_ZERO) ].

(** Those, and the integers written under the INT32 tag. *)
Inductive plain : Heap.value -> Prop :=
| plain_tag (v : Heap.value) (t : Z) : In (v, t) plain_tags -> plain v
| plain_int (z : Z) : -2147483648 < z < 2147483648 -> plain (Heap.VNum (Num.of_int z)).

(** [enc_in buf pos vs e]: the encodings of [vs] sit in [buf] from
    offset [pos] to offset [e], each int32 at the next multiple of 4
    after its tag. *)
Inductive enc_in (buf : list Z) : Z -> list Heap.value -> Z -> Prop :=
| enc_nil (pos : Z) : enc_in buf pos [] pos
| enc_tag (pos : Z) (v : Heap.value) (t : Z) (vs : list Heap.value) (e : Z) :
    In (v, t) plain_tags -> 0 <= pos -> buf !! Z.to_nat pos = Some t ->
    enc_in buf (pos + 1) vs e -> enc_in buf pos (v :: vs) e
| enc_int (pos z a : Z) (vs : list Heap.value) (e : Z) :
    -2147483648 < z < 2147483648 -> 0 <= pos ->
    buf !! Z.to_nat pos = Some TYPE.INT32 ->
    a mod 4 = 0 -> pos + 1 <= a < pos + 5 ->
    take 4 (drop (Z.to_nat a) buf) = JS.le_bytes 4 z ->
    enc_in buf (a + 4) vs e -> enc_in buf pos (Heap.VNum (Num.of_int z) :: vs) e.

Lemma plain_tags_facts (v : Heap.value) (t : Z) :
  In (v, t) plain_tags ->
  atom v = true /\ 0 <= t < 256
  /\ (forall H h, UltraTypeDetector.detect H h v = Done t)
  /\ (forall H opts h wv,
        TurboSerial.writePayload H opts h wv v t = @ret TurboSerial.wstate unit tt)
  /\ ((JS.band t TYPE_MASK.GROUP = TYPE_GROUP.PRIMITIVE
       /\ TurboSerial.readPrimitive t = ret v)
      \/ (JS.band t TYPE_MASK.GROUP = TYPE_GROUP.NUMBER
          /\ TurboSerial.readNumber t = ret v)).
Proof.
  unfold plain_tags. cbn [In].
  intros [E|[E|[E|[E|[E|[E|[E|[E|[]]]]]]]]]; injection E as <- <-;
    (split; [reflexivity|]);
    (split; [vm_compute; split; [discriminate|reflexivity]|]);
    (split; [reflexivity|]); (split; [reflexivity|]);
    first [left; split; reflexivity|right; split; reflexivity].
Qed.

Lemma plain_not_object (v : Heap.value) : plain v -> Heap.is_object v = false.
Proof.
  intros [v0 t Hin|z Hz]; [|reflexivity].
  destruct (plain_tags_facts v0 t Hin) as (Ha & _). destruct v0; try discriminate Ha; reflexivity.
Qed.

(** The writer on such a run. *)
Lemma stream_write (H : Heap.Host) (opts : TurboSerial.options) (h : Heap.heap) (k : nat)
    (vs : list Heap.value) :
  Forall plain vs ->
  forall (p : UltraMemoryPool.pool) (l : list Z) r c st b,
    blob p l ->
    Z.of_nat (length l) + 8 * Z.of_nat (length vs) + 1024 < 2147483648 ->
    exists p' bytes,
      for_each (TurboSerial.writeValue H opts h (S k)) vs (TurboSerial.mkW p r c st b)
      = Done (tt, TurboSerial.mkW p' r c st b)
      /\ blob p' (l ++ bytes)
      /\ Z.of_nat (length bytes) <= 8 * Z.of_nat (length vs)
      /\ forall rest,
           enc_in (l ++ bytes ++ rest) (Z.of_nat (length l)) vs
                  (Z.of_nat (length l) + Z.of_nat (length bytes)).
Proof.
  induction 1 as [|v vs Hv Hvs IH]; intros p l r c st b Hb Hroom.
  - exists p, []. split; [reflexivity|]. split; [rewrite app_nil_r; exact Hb|].
    split; [simpl; lia|]. intros rest. rewrite Z.add_0_r. constructor.
  - cbn [length] in Hroom. cbn [for_each]. unfold bind at 1.
    destruct Hv as [v t Hin|z Hz].
    + destruct (plain_tags_facts v t Hin) as (Ha & Ht & Hd & Hw & _).
      rewrite (writeValue_atom H opts h k v t _ Ha (Hd H h)).
      unfold bind at 1. unfold TurboSerial.writeU8 at 1, TurboSerial.on_pool, modify.
      cbn [TurboSerial.pool TurboSerial.refs TurboSerial.circularRefs TurboSerial.strings
           TurboSerial.buffers].
      rewrite Hw. unfold ret at 1.
      pose proof (blob_writeU8 t p l Hb ltac:(lia)) as B1.
      unfold byte_of in B1. rewrite Z.mod_small in B1 by lia.
      destruct (IH (UltraMemoryPool.writeU8 t p) (l ++ [t]) r c st b B1
                  ltac:(rewrite length_app; cbn [length]; lia))
        as (p' & bytes & Hrun & B' & Hlen & Henc).
      exists p', (t :: bytes). split; [exact Hrun|].
      split; [rewrite <- app_assoc in B'; exact B'|].
      split; [cbn [length]; lia|]. intros rest.
      specialize (Henc rest). rewrite <- app_assoc in Henc. cbn [app] in Henc.
      rewrite length_app in Henc. cbn [length] in Henc.
      apply (enc_tag _ _ v t); [exact Hin|lia| |].
      * rewrite Nat2Z.id. rewrite lookup_app_r by lia. rewrite Nat.sub_diag. reflexivity.
      * cbn [length app].
        replace (Z.of_nat (length l) + Z.of_nat (S (length bytes)))
          with (Z.of_nat (length l + 1) + Z.of_nat (length bytes)) by lia.
        replace (Z.of_nat (length l) + 1) with (Z.of_nat (length l + 1)) by lia.
        exact Henc.
    + rewrite (writeValue_atom H opts h k (Heap.VNum (Num.of_int z)) TYPE.INT32 _ eq_refl)
        by (unfold UltraTypeDetector.detect; rewrite detectNumber_int32 by exact Hz;
            reflexivity).
      unfold bind at 1. unfold TurboSerial.writeU8 at 1, TurboSerial.on_pool, modify.
      cbn [TurboSerial.pool TurboSerial.refs TurboSerial.circularRefs TurboSerial.strings
           TurboSerial.buffers].
      change (TurboSerial.writePayload H opts h (TurboSerial.writeValue H opts h k)
                (Heap.VNum (Num.of_int z)) TYPE.INT32)
        with (TurboSerial.on_pool (UltraMemoryPool.writeI32 (Num.trunc (Num.of_int z)))).
      unfold TurboSerial.on_pool, modify.
      cbn [TurboSerial.pool TurboSerial.refs TurboSerial.circularRefs TurboSerial.strings
           TurboSerial.buffers].
      rewrite trunc_of_int by (change (2 ^ 53) with 9007199254740992; lia).
      unfold UltraMemoryPool.writeI32. rewrite (to_int32_small z) by lia.
      pose proof (blob_writeU8 TYPE.INT32 p l Hb ltac:(lia)) as B1.
      change (byte_of TYPE.INT32) with TYPE.INT32 in B1.
      destruct (blob_put_aligned 2 (JS.le_bytes 4 z) _ _ ltac:(lia) B1
                  ltac:(rewrite length_app, le_bytes_length; cbn [length]; lia))
        as (pad & B2 & Hmod & Hpad & _).
      rewrite le_bytes_length in B2. change (Z.of_nat 4) with 4 in B2.
      change (2 ^ 2) with 4 in *. rewrite map_byte_of_le_bytes in B2.
      rewrite length_app in Hmod. cbn [length] in Hmod.
      destruct (IH _ ((l ++ [TYPE.INT32]) ++ pad ++ JS.le_bytes 4 z) r c st b B2
                  ltac:(rewrite !length_app, le_bytes_length; cbn [length]; lia))
        as (p' & bytes & Hrun & B' & Hlen & Henc).
      exists p', (TYPE.INT32 :: pad ++ JS.le_bytes 4 z ++ bytes).
      split; [exact Hrun|].
      assert (Eshape : forall rest,
                ((l ++ [TYPE.INT32]) ++ pad ++ JS.le_bytes 4 z) ++ bytes ++ rest
                = l ++ (TYPE.INT32 :: pad ++ JS.le_bytes 4 z ++ bytes) ++ rest).
      { intros rest. rewrite <- !app_assoc. cbn [app]. rewrite <- !app_assoc. reflexivity. }
      split.
      { specialize (Eshape []). rewrite !app_nil_r in Eshape. rewrite <- Eshape. exact B'. }
      split; [cbn [length]; rewrite !length_app, le_bytes_length; lia|].
      intros rest. specialize (Henc rest). rewrite Eshape in Henc.
      rewrite !length_app, le_bytes_length in Henc. cbn [length] in Henc.
      apply (enc_int _ _ z (Z.of_nat (length l) + 1 + Z.of_nat (length pad)));
        [exact Hz|lia| | |lia| |].
      * rewrite Nat2Z.id. rewrite lookup_app_r by lia. rewrite Nat.sub_diag. reflexivity.
      * replace (Z.of_nat (length l) + 1 + Z.of_nat (length pad))
          with (Z.of_nat (length l + 1) + Z.of_nat (length pad)) by lia. exact Hmod.
      * rewrite <- Eshape. rewrite <- !app_assoc.
        rewrite (app_assoc l), (app_assoc (l ++ [TYPE.INT32])).
        replace (Z.to_nat (Z.of_nat (length l) + 1 + Z.of_nat (length pad)))
          with (length ((l ++ [TYPE.INT32]) ++ pad))
          by (rewrite !length_app; cbn [length]; lia).
        rewrite drop_app_length.
        replace 4%nat with (length (JS.le_bytes 4 z)) at 1 by apply le_bytes_length.
        rewrite take_app_length. reflexivity.
      * cbn [length]. rewrite !length_app, le_bytes_length.
        replace (Z.of_nat (length l) + 1 + Z.of_nat (length pad) + 4)
          with (Z.of_nat (length l + 1 + (length pad + 4))) by lia.
        replace (Z.of_nat (length l)
                 + Z.of_nat (S (length pad + (4 + length bytes))))
          with (Z.of_nat (length l + 1 + (length pad + 4)) + Z.of_nat (length bytes)) by lia.
        exact Henc.
Qed.

(** The reader on the first value of such a run. *)
Lemma stream_read_one (H : Heap.Host) (opts : TurboSerial.options) (k : nat)
    (s : TurboSerial.rstate) (v : Heap.value) (vs : list Heap.value) (e : Z) :
  enc_in (TurboSerial.buffer s) (TurboSerial.rpos s) (v :: vs) e ->
  Z.of_nat (length (TurboSerial.buffer s)) < 2147483648 - 1024 ->
  exists pos',
    TurboSerial.readValue H opts (S k) s = Done (v, TurboSerial.set_pos pos' s)
    /\ enc_in (TurboSerial.buffer s) pos' vs e.
Proof.
  intros Henc Hsmall. inversion Henc as [|pos v0 t vs0 e0 Hin Hpos Hb Hrest
                                         |pos z a vs0 e0 Hz Hpos Hb Hmod Ha Hbytes Hrest]; subst.
  - exists (TurboSerial.rpos s + 1). split; [|exact Hrest].
    destruct (plain_tags_facts v t Hin) as (_ & _ & _ & _ & [(Hg & Hr)|(Hg & Hr)]).
    + rewrite (readValue_primitive_run H opts k s t Hpos Hb Hg). rewrite Hr.
      unfold bind at 1. unfold ret at 1. cbv beta iota.
      rewrite (plain_not_object v (plain_tag v t Hin)). reflexivity.
    + rewrite (readValue_number_run H opts k s t Hpos Hb Hg). rewrite Hr.
      unfold bind at 1. unfold ret at 1. cbv beta iota.
      rewrite (plain_not_object v (plain_tag v t Hin)). reflexivity.
  - exists (a + 4). split; [|exact Hrest].
    rewrite (readValue_number_run H opts k s TYPE.INT32 Hpos Hb eq_refl).
    change (TurboSerial.readNumber TYPE.INT32)
      with (bind TurboSerial.readI32 (fun v => ret (Heap.VNum (Num.of_int v)))).
    unfold TurboSerial.readI32.
    set (s1 := TurboSerial.set_pos (TurboSerial.rpos s + 1) s).
    set (buf := TurboSerial.buffer s) in *.
    assert (Hlen4 : length (take 4 (drop (Z.to_nat a) buf)) = 4%nat)
      by (rewrite Hbytes; apply le_bytes_length).
    rewrite length_take, length_drop in Hlen4.
    assert (E : TurboSerial.read_le 4 s1
                = Done (JS.of_le_bytes (JS.le_bytes 4 z), TurboSerial.set_pos (a + 4) s1)).
    { change 4 with (2 ^ 2) at 1.
      rewrite (rd_read_le 2 s1 (take (Z.to_nat a) buf) (JS.le_bytes 4 z)
                 (drop 4 (drop (Z.to_nat a) buf))).
      - rewrite length_take. rewrite Nat.min_l by lia. rewrite Z2Nat.id by lia. reflexivity.
      - lia.
      - rewrite <- Hbytes. rewrite take_drop. rewrite take_drop. reflexivity.
      - rewrite le_bytes_length. reflexivity.
      - rewrite length_take. rewrite Nat.min_l by lia. unfold s1.
        cbn [TurboSerial.rpos TurboSerial.set_pos]. lia.
      - rewrite length_take. rewrite Nat.min_l by lia. unfold s1.
        cbn [TurboSerial.rpos TurboSerial.set_pos]. change (2 ^ 2) with 4. lia.
      - rewrite length_take. rewrite Nat.min_l by lia. rewrite Z2Nat.id by lia. exact Hmod.
      - rewrite length_take. rewrite Nat.min_l by lia. fold buf in Hsmall. lia. }
    unfold bind at 1. unfold bind at 1. unfold bind at 1. rewrite E.
    rewrite of_le_bytes_le_bytes. change (256 ^ Z.of_nat 4) with 4294967296.
    rewrite signed32_to_uint32, to_int32_small by lia.
    reflexivity.
Qed.

(** [array[i] = v] for the values of a list, from index [i] on. *)
Fixpoint store_all (l : Heap.loc) (i : Z) (vs : list Heap.value) (h : Heap.heap) : Heap.heap :=
  match vs with
  | [] => h
  | v :: r => store_all l (i + 1) r (alter (TurboSerial.array_store i v) l h)
  end.

(** The loop of [fillArray] for a dense array over such a run. *)
Lemma dense_loop (H : Heap.Host) (opts : TurboSerial.options) (k : nat) (l : Heap.loc)
    (vs : list Heap.value) :
  forall (fuel : nat) (i : Z) (s : TurboSerial.rstate) (e : Z),
    enc_in (TurboSerial.buffer s) (TurboSerial.rpos s) vs e ->
    Z.of_nat (length (TurboSerial.buffer s)) < 2147483648 - 1024 ->
    (length vs <= fuel)%nat ->
    for_count fuel
      (fun i => bind (TurboSerial.readValue H opts (S k))
                  (fun v => TurboSerial.update l (TurboSerial.array_store i v)))
      i (i + Z.of_nat (length vs)) s
    = Done (tt, TurboSerial.set_pos e
                  (TurboSerial.set_heap (store_all l i vs (TurboSerial.rheap s)) s)).
Proof.
  induction vs as [|v vs IH]; intros fuel i s e Henc Hsmall Hfuel.
  - inversion Henc; subst. cbn [length]. rewrite Z.add_0_r.
    destruct fuel; cbn [for_count]; rewrite Z.leb_refl; destruct s; reflexivity.
  - destruct fuel as [|fuel]; [cbn [length] in Hfuel; lia|].
    cbn [for_count length].
    destruct (Z.leb_spec (i + Z.of_nat (S (length vs))) i); [lia|].
    destruct (stream_read_one H opts k s v vs e Henc Hsmall) as (pos' & Hrd & Hrest).
    unfold bind at 1. unfold bind at 1. rewrite Hrd.
    unfold TurboSerial.update at 1, modify at 1.
    replace (i + Z.of_nat (S (length vs))) with (i + 1 + Z.of_nat (length vs)) by lia.
    rewrite (IH fuel (i + 1) _ e); [reflexivity| | |cbn [length] in Hfuel; lia].
    + exact Hrest.
    + exact Hsmall.
Qed.

Fixpoint stores (i : Z) (vs : list Heap.value) (m : gmap Z Heap.value) : gmap Z Heap.value :=
  match vs with
  | [] => m
  | v :: r => stores (i + 1) r (<[i := v]> m)
  end.

Lemma stores_lookup (vs : list Heap.value) :
  forall (i : Z) (m : gmap Z Heap.value) (j : Z),
    stores i vs m !! j
    = if (i <=? j) && (j <? i + Z.of_nat (length vs)) then vs !! Z.to_nat (j - i) else m !! j.
Proof.
  induction vs as [|v vs IH]; intros i m j.
  - cbn [stores length]. destruct (Z.leb_spec i j), (Z.ltb_spec j (i + Z.of_nat 0));
      try reflexivity; lia.
  - cbn [stores length]. rewrite IH.
    destruct (Z.leb_spec (i + 1) j), (Z.ltb_spec j (i + 1 + Z.of_nat (length vs)));
      destruct (Z.leb_spec i j), (Z.ltb_spec j (i + Z.of_nat (S (length vs))));
      cbn [andb]; try lia;
      first [ rewrite lookup_insert_ne by lia; reflexivity
            | replace (Z.to_nat (j - i)) with (S (Z.to_nat (j - (i + 1)))) by lia; reflexivity
            | idtac ].
    assert (j = i) by lia. subst j. rewrite lookup_insert.
    rewrite Z.sub_diag. destruct (decide (i = i)); [reflexivity|contradiction].
Qed.

(** The array the loop leaves in the cell it fills. *)
Lemma store_all_array (h0 : Heap.heap) (vs : list Heap.value) :
  forall (i : Z) (m : gmap Z Heap.value),
    0 <= i -> i + Z.of_nat (length vs) < 4294967295 ->
    store_all (length h0) i vs (h0 ++ [Heap.OArray i m])
    = h0 ++ [Heap.OArray (i + Z.of_nat (length vs)) (stores i vs m)].
Proof.
  induction vs as [|v vs IH]; intros i m Hi Hn.
  - cbn [store_all stores length]. rewrite Z.add_0_r. reflexivity.
  - cbn [store_all stores length] in *. rewrite alter_last.
    cbn [TurboSerial.array_store].
    destruct (Z.ltb_spec i 4294967295); [|lia].
    rewrite Z.max_r by lia. rewrite IH by lia. do 3 f_equal. lia.
Qed.

Lemma stores_array_of (vs : list Heap.value) :
  stores 0 vs ∅ = list_to_map (zip (seqZ 0 (Z.of_nat (length vs))) vs).
Proof.
  apply map_eq. intros j. rewrite stores_lookup, zip_seqZ_lookup, lookup_empty.
  rewrite Z.sub_0_r.
  destruct (Z.leb_spec 0 j); cbn [andb]; [|reflexivity].
  destruct (Z.ltb_spec j (0 + Z.of_nat (length vs))); [reflexivity|].
  symmetry. apply lookup_ge_None. lia.
Qed.

(** ** Typed arrays *)

(** [writeValue] on an object that is not an [ArrayBuffer], met for
    the first time: the buffer table stays empty. *)
Lemma writeValue_ref_fresh_view (H : Heap.Host) (opts : TurboSerial.options) (h : Heap.heap)
    (k : nat) (l : Heap.loc) (p : UltraMemoryPool.pool) (t : Z) (buffer : Heap.loc)
    (byteOffset length : Z) :
  h !! l = Some (Heap.OView t buffer byteOffset length) ->
  exists r,
    TurboSerial.writeValue H opts h (S k) (Heap.VRef l) (TurboSerial.mkW p ∅ ∅ ∅ ∅)
    = bind (TurboSerial.writeU8 t)
           (fun _ => TurboSerial.writeTypedArray opts h buffer byteOffset length t)
           (TurboSerial.mkW p r ∅ ∅ ∅).
Proof.
  intros Hl.
  destruct opts as [c d sab simd dc sf ppd mps].
  cbn [TurboSerial.writeValue]. unfold TurboSerial.writeValue_body.
  unfold bind at 1. unfold get at 1. cbv beta iota.
  cbn [TurboSerial.deduplication TurboSerial.detectCircular TurboSerial.shareArrayBuffers
       Heap.is_object TurboSerial.circularRefs TurboSerial.refs andb].
  rewrite bool_decide_eq_false_2 by set_solver.
  rewrite lookup_empty. cbn [negb andb]. rewrite !andb_false_r. rewrite andb_true_r.
  unfold TurboSerial.writePayload, UltraTypeDetector.detect, UltraTypeDetector.detectObject.
  rewrite Hl.
  destruct d; cbn [andb]; eexists; unfold bind, get, modify, ret, lift;
    cbn [TurboSerial.buffers TurboSerial.pool TurboSerial.refs TurboSerial.circularRefs
         TurboSerial.strings]; reflexivity.
Qed.

(** The typed array tags with the exponent of their element size. *)
Definition view_sizes : list (Z * Z) :=
  [ (TYPE.UINT8ARRAY, 0); (TYPE.INT8ARRAY, 0); (TYPE.UINT8CLAMPEDARRAY, 0);
    (TYPE.UINT16ARRAY, 1); (TYPE.INT16ARRAY, 1);
    (TYPE.UINT32ARRAY, 2); (TYPE.INT32ARRAY, 2); (TYPE.FLOAT32ARRAY, 2);
    (TYPE.FLOAT64ARRAY, 3) ].

Lemma view_sizes_facts (t j : Z) :
  In (t, j) view_sizes ->
  0 <= j <= 3 /\ 0 <= t < 256
  /\ BYTES_PER_ELEMENT t = 2 ^ j
  /\ (t =? TYPE.DATAVIEW) = false
  /\ (t =? TYPE.BIGINT64ARRAY) || (t =? TYPE.BIGUINT64ARRAY) = false
  /\ JS.band t TYPE_MASK.GROUP = TYPE_GROUP.TYPED
  /\ TurboSerial.view_element_size t = Some (2 ^ j).
Proof.
  unfold view_sizes. cbn [In].
  intros [E|[E|[E|[E|[E|[E|[E|[E|[E|[]]]]]]]]]]; injection E as <- <-;
    (split; [lia|]); (split; [vm_compute; split; [discriminate|reflexivity]|]);
    repeat split; reflexivity.
Qed.

Lemma readValue_typed_run (H : Heap.Host) (opts : TurboSerial.options) (k : nat)
    (s : TurboSerial.rstate) (t : Z) :
  0 <= TurboSerial.rpos s ->
  TurboSerial.buffer s !! Z.to_nat (TurboSerial.rpos s) = Some t ->
  JS.band t TYPE_MASK.GROUP = TYPE_GROUP.TYPED ->
  TurboSerial.readValue H opts (S k) s
  = bind (TurboSerial.readTypedArray t)
         (fun value => bind (if Heap.is_object value then TurboSerial.push_ref value else ret tt)
                            (fun _ => ret value))
         (TurboSerial.set_pos (TurboSerial.rpos s + 1) s).
Proof. intros Hp Hb Hg. leaf_run Hp Hb Hg. Qed.

(** ** Object literals: keys and values in the blob *)

(** [writeValue] on a string that the string table does not hold. *)
Lemma writeValue_string_fresh (H : Heap.Host) (opts : TurboSerial.options) (h : Heap.heap)
    (k : nat) (v : JS.jsstring) (p : UltraMemoryPool.pool) (r : gmap Heap.loc Z)
    (c : gset Heap.loc) (st : gmap JS.jsstring Z) (b : gmap Heap.loc Z) :
  st !! v = None ->
  exists st',
    TurboSerial.writeValue H opts h (S k) (Heap.VStr v) (TurboSerial.mkW p r c st b)
    = bind (TurboSerial.writeU8 (UltraTypeDetector.detectString H v))
           (fun _ => TurboSerial.writePayload H opts h (TurboSerial.writeValue H opts h k)
                       (Heap.VStr v) (UltraTypeDetector.detectString H v))
           (TurboSerial.mkW p r c st' b)
    /\ forall v', st' !! v' <> None -> st !! v' <> None \/ v' = v.
Proof.
  intros Hfresh.
  destruct opts as [cm d sab simd dc sf ppd mps].
  cbn [TurboSerial.writeValue]. unfold TurboSerial.writeValue_body.
  cbn [TurboSerial.deduplication TurboSerial.detectCircular TurboSerial.shareArrayBuffers
       Heap.is_object andb].
  destruct d; cbn [andb].
  - destruct (3 <? Z.of_nat (length v)) eqn:E.
    + exists (<[v := TurboSerial.msize st]> st). split.
      * destruct dc; rewrite ?andb_false_r; unfold bind at 1; unfold get at 1; cbv beta iota;
          unfold bind at 1; unfold get at 1; cbv beta iota;
          cbn [TurboSerial.strings]; rewrite Hfresh; reflexivity.
      * intros v' Hv'. destruct (decide (v' = v)) as [->|Hne]; [right; reflexivity|].
        left. rewrite lookup_insert_ne in Hv' by congruence. exact Hv'.
    + exists st. split; [|intros v' Hv'; left; exact Hv'].
      destruct dc; reflexivity.
  - exists st. split; [|intros v' Hv'; left; exact Hv'].
    destruct dc; reflexivity.
Qed.

(** The payload of a string is [writeString]'s. *)
Lemma writePayload_string (H : Heap.Host) (opts : TurboSerial.options) (h : Heap.heap)
    (wv : Heap.value -> TurboSerial.W) (v : JS.jsstring) :
  TurboSerial.writePayload H opts h wv (Heap.VStr v) (UltraTypeDetector.detectString H v)
  = TurboSerial.writeString H v (UltraTypeDetector.detectString H v).
Proof.
  assert (Hg : JS.band (UltraTypeDetector.detectString H v) TYPE_MASK.GROUP = TYPE_GROUP.STRING).
  { unfold UltraTypeDetector.detectString. cbv zeta.
    repeat match goal with |- context [if ?c then _ else _] => destruct c end; reflexivity. }
  unfold TurboSerial.writePayload. rewrite Hg. reflexivity.
Qed.

(** Keys made of code units 0 to 0x7F, fewer than 256 of them. *)
Definition ascii_key (key : JS.jsstring) : Prop :=
  Forall (fun c => 0 <= c <= 0x7F) key /\ Z.of_nat (length key) < 256.

(** [str_at buf pos key e]: the encoding of [key] sits in [buf] from
    [pos] to [e]. *)
Inductive str_at (buf : list Z) (pos : Z) (key : JS.jsstring) : Z -> Prop :=
| str_empty :
    key = [] -> 0 <= pos -> buf !! Z.to_nat pos = Some TYPE.STRING_EMPTY ->
    str_at buf pos key (pos + 1)
| str_bytes (t : Z) :
    key <> [] -> t = TYPE.STRING_ASCII_TINY \/ t = TYPE.STRING_ASCII_SHORT ->
    0 <= pos -> buf !! Z.to_nat pos = Some t ->
    buf !! Z.to_nat (pos + 1) = Some (Z.of_nat (length key)) ->
    take (length key) (drop (Z.to_nat (pos + 2)) buf) = key ->
    str_at buf pos key (pos + 2 + Z.of_nat (length key)).

Lemma ascii_key_bytes (key : JS.jsstring) :
  Forall (fun c => 0 <= c <= 0x7F) key -> map byte_of key = key.
Proof.
  induction 1 as [|c r Hc _ IH]; [reflexivity|].
  cbn [map]. rewrite IH. unfold byte_of. rewrite Z.mod_small by lia. reflexivity.
Qed.

Lemma detectString_key (H : Heap.Host) (key : JS.jsstring) :
  ascii_key key ->
  UltraTypeDetector.detectString H key
  = if Z.of_nat (length key) =? 0 then TYPE.STRING_EMPTY
    else if Z.of_nat (length key) <? 16 then TYPE.STRING_ASCII_TINY
    else TYPE.STRING_ASCII_SHORT.
Proof.
  intros [Hascii Hlen]. unfold UltraTypeDetector.detectString. cbv zeta.
  assert (Hall : forallb (fun c => c <=? 0x7F) key = true).
  { apply forallb_forall. intros c Hc. rewrite Forall_forall in Hascii.
    apply Z.leb_le. apply list_elem_of_In in Hc. apply Hascii in Hc. lia. }
  rewrite Hall. destruct (Z.ltb_spec (Z.of_nat (length key)) 256); [reflexivity|lia].
Qed.

(** The writer on a key. *)
Lemma key_write (H : Heap.Host) (opts : TurboSerial.options) (h : Heap.heap) (k : nat)
    (key : JS.jsstring) (p : UltraMemoryPool.pool) (l : list Z) (r : gmap Heap.loc Z)
    (c : gset Heap.loc) (st : gmap JS.jsstring Z) (b : gmap Heap.loc Z) :
  ascii_key key -> st !! key = None -> blob p l ->
  Z.of_nat (length l) + 2048 < 2147483648 ->
  exists p' bytes st',
    TurboSerial.writeValue H opts h (S k) (Heap.VStr key) (TurboSerial.mkW p r c st b)
    = Done (tt, TurboSerial.mkW p' r c st' b)
    /\ blob p' (l ++ bytes)
    /\ Z.of_nat (length bytes) <= 2 + Z.of_nat (length key)
    /\ (forall rest,
          str_at (l ++ bytes ++ rest) (Z.of_nat (length l)) key
                 (Z.of_nat (length l) + Z.of_nat (length bytes)))
    /\ forall v', st' !! v' <> None -> st !! v' <> None \/ v' = key.
Proof.
  intros Hkey Hfresh Hb Hroom. pose proof Hkey as [Hascii Hlen].
  destruct (writeValue_string_fresh H opts h k key p r c st b Hfresh) as (st' & Hw & Hst).
  rewrite Hw. clear Hw. rewrite (detectString_key H key Hkey).
  destruct (Z.eqb_spec (Z.of_nat (length key)) 0) as [E0|Hne].
  - assert (Ek : key = []) by (destruct key; [reflexivity|cbn [length] in E0; lia]).
    subst key.
    pose proof (blob_writeU8 TYPE.STRING_EMPTY p l Hb ltac:(lia)) as B1.
    change (byte_of TYPE.STRING_EMPTY) with TYPE.STRING_EMPTY in B1.
    exists (UltraMemoryPool.writeU8 TYPE.STRING_EMPTY p), [TYPE.STRING_EMPTY], st'.
    split; [reflexivity|]. split; [exact B1|]. split; [cbn [length]; lia|].
    split; [|exact Hst]. intros rest. cbn [length].
    replace (Z.of_nat (length l) + Z.of_nat 1) with (Z.of_nat (length l) + 1) by lia.
    apply str_empty; [reflexivity|lia|].
    rewrite Nat2Z.id. rewrite lookup_app_r by lia. rewrite Nat.sub_diag. reflexivity.
  - set (len := Z.of_nat (length key)) in *.
    set (t := if len <? 16 then TYPE.STRING_ASCII_TINY else TYPE.STRING_ASCII_SHORT).
    assert (Ht : (t = TYPE.STRING_ASCII_TINY \/ t = TYPE.STRING_ASCII_SHORT) /\ 0 <= t < 256).
    { unfold t. destruct (len <? 16); (split; [auto|vm_compute; split; [discriminate|reflexivity]]). }
    destruct Ht as [Ht Ht256].
    pose proof (blob_writeU8 t p l Hb ltac:(lia)) as B1.
    unfold byte_of in B1. rewrite Z.mod_small in B1 by lia.
    pose proof (blob_writeU8 len _ _ B1 ltac:(rewrite length_app; cbn [length]; lia)) as B2.
    unfold byte_of in B2. rewrite Z.mod_small in B2 by (unfold len in *; lia).
    destruct (blob_for_each_writeU8 key _ _ r c st' b B2) as (p' & Hrun & B3).
    { rewrite !length_app. cbn [length]. unfold len in *. lia. }
    rewrite (ascii_key_bytes key Hascii) in B3.
    exists p', (t :: len :: key), st'.
    assert (Eshape : forall rest, ((l ++ [t]) ++ [len]) ++ key ++ rest
                                  = l ++ (t :: len :: key) ++ rest).
    { intros rest. rewrite <- !app_assoc. reflexivity. }
    split.
    { unfold bind at 1. unfold TurboSerial.writeU8 at 1, TurboSerial.on_pool, modify.
      cbn [TurboSerial.pool TurboSerial.refs TurboSerial.circularRefs TurboSerial.strings
           TurboSerial.buffers].
      assert (Ep : TurboSerial.writePayload H opts h (TurboSerial.writeValue H opts h k)
                     (Heap.VStr key) t
                   = bind (TurboSerial.writeU8 len) (fun _ => for_each TurboSerial.writeU8 key)).
      { destruct Ht as [E|E]; rewrite E; reflexivity. }
      rewrite Ep. unfold bind at 1.
      unfold TurboSerial.writeU8 at 1, TurboSerial.on_pool, modify.
      cbn [TurboSerial.pool TurboSerial.refs TurboSerial.circularRefs TurboSerial.strings
           TurboSerial.buffers].
      exact Hrun. }
    split.
    { specialize (Eshape []). rewrite !app_nil_r in Eshape. rewrite <- Eshape. exact B3. }
    split; [cbn [length]; lia|]. split; [|exact Hst].
    intros rest. cbn [length].
    replace (Z.of_nat (length l) + Z.of_nat (S (S (length key))))
      with (Z.of_nat (length l) + 2 + Z.of_nat (length key)) by lia.
    apply (str_bytes _ _ _ t).
    + intros Ek. apply Hne. unfold len. rewrite Ek. reflexivity.
    + exact Ht.
    + lia.
    + rewrite Nat2Z.id. rewrite lookup_app_r by lia. rewrite Nat.sub_diag. reflexivity.
    + replace (Z.to_nat (Z.of_nat (length l) + 1)) with (length l + 1)%nat by lia.
      rewrite lookup_app_r by lia.
      replace (length l + 1 - length l)%nat with 1%nat by lia. reflexivity.
    + rewrite <- Eshape.
      replace (Z.to_nat (Z.of_nat (length l) + 2)) with (length ((l ++ [t]) ++ [len]))
        by (rewrite !length_app; cbn [length]; lia).
      rewrite drop_app_length. rewrite take_app_length. reflexivity.
Qed.

(** The reader on a key. *)
Lemma key_read (H : Heap.Host) (opts : TurboSerial.options) (k : nat)
    (s : TurboSerial.rstate) (key : JS.jsstring) (e : Z) :
  str_at (TurboSerial.buffer s) (TurboSerial.rpos s) key e ->
  exists s',
    TurboSerial.readValue H opts (S k) s = Done (Heap.VStr key, s')
    /\ TurboSerial.buffer s' = TurboSerial.buffer s
    /\ TurboSerial.rpos s' = e
    /\ TurboSerial.rheap s' = TurboSerial.rheap s.
Proof.
  intros Hat. inversion Hat as [Ek Hpos Hb|t Hne Ht Hpos Hb Hlenb Hbytes]; subst.
  - eexists. split.
    + rewrite (readValue_string_run H opts k s TYPE.STRING_EMPTY Hpos Hb eq_refl
                 ltac:(discriminate)).
      reflexivity.
    + repeat split.
  - set (len := Z.of_nat (length key)) in *.
    set (s1 := TurboSerial.set_pos (TurboSerial.rpos s + 1) s).
    pose proof (rd_readU8 s1 len ltac:(unfold s1; simpl; lia) Hlenb) as E1.
    set (s2 := TurboSerial.set_pos (TurboSerial.rpos s1 + 1) s1) in *.
    assert (Hlk : length (take (length key) (drop (Z.to_nat (TurboSerial.rpos s + 2))
                                               (TurboSerial.buffer s))) = length key)
      by (rewrite Hbytes; reflexivity).
    rewrite length_take, length_drop in Hlk.
    destruct (rd_take s2 (take (Z.to_nat (TurboSerial.rpos s + 2)) (TurboSerial.buffer s)) key
                (drop (length key) (drop (Z.to_nat (TurboSerial.rpos s + 2))
                                      (TurboSerial.buffer s)))) as [E2 E3].
    { unfold s2, s1. cbn [TurboSerial.buffer TurboSerial.set_pos].
      rewrite <- (take_drop (Z.to_nat (TurboSerial.rpos s + 2)) (TurboSerial.buffer s)) at 1.
      f_equal.
      rewrite <- (take_drop (length key) (drop (Z.to_nat (TurboSerial.rpos s + 2))
                                               (TurboSerial.buffer s))) at 1.
      rewrite Hbytes. reflexivity. }
    { unfold s2, s1. cbn [TurboSerial.rpos TurboSerial.set_pos].
      rewrite length_take.
      destruct key as [|c0 key0]; [contradiction|]. cbn [length] in Hlk. lia. }
    fold len in E2, E3.
    eexists. split.
    + rewrite (readValue_string_run H opts k s t Hpos Hb
                 ltac:(destruct Ht as [-> | ->]; reflexivity)
                 ltac:(destruct Ht as [-> | ->]; discriminate)).
      assert (Er : TurboSerial.readString H t
                   = bind TurboSerial.readU8 (fun length =>
                       bind (TurboSerial.ensureBytes length) (fun _ =>
                         bind (TurboSerial.take_bytes length) (fun bytes =>
                           bind (TurboSerial.push_string (Heap.VStr bytes))
                                (fun _ => ret (Heap.VStr bytes))))))
        by (destruct Ht as [-> | ->]; reflexivity).
      rewrite Er. fold s1. unfold bind at 1. unfold bind at 1. rewrite E1.
      unfold bind at 1. rewrite E2. unfold bind at 1. rewrite E3.
      unfold bind, TurboSerial.push_string, modify, ret. cbn [Heap.is_object]. reflexivity.
    + cbn [TurboSerial.buffer TurboSerial.rpos TurboSerial.rheap TurboSerial.set_pos].
      unfold s2, s1. cbn [TurboSerial.buffer TurboSerial.rpos TurboSerial.rheap
                          TurboSerial.set_pos].
      repeat split. unfold len. lia.
Qed.

(** ** Object literals *)



Definition props_of (kvs : list (JS.jsstring * Heap.value)) : list (Heap.pkey * Heap.prop) :=
  map (fun kv => (Heap.PKStr (fst kv), Heap.mkProp (snd kv) true true true)) kvs.


Lemma props_get_literal (kvs : list (JS.jsstring * Heap.value)) (key : JS.jsstring) :
  Heap.props_get (props_of kvs) (Heap.PKStr key)
  = match list_find (fun kv => fst kv = key) kvs with
    | Some (_, kv) => Some (Heap.mkProp (snd kv) true true true)
    | None => None
    end.
Proof.
  induction kvs as [|[key' v] kvs IH]; [reflexivity|].
  cbn [props_of map Heap.props_get fst snd list_find].
  destruct (decide (key' = key)) as [->|Hne].
  - rewrite bool_decide_eq_true_2 by reflexivity. reflexivity.
  - rewrite bool_decide_eq_false_2 by congruence. fold (props_of kvs). rewrite IH.
    destruct (list_find (fun kv => fst kv = key) kvs) as [[i kv]|]; reflexivity.
Qed.











Lemma heap_insert_twice (h : Heap.heap) (l : Heap.loc) (a b : Heap.obj) :
  <[l := a]> (<[l := b]> h) = <[l := a]> h.
Proof.
  pose proof (list_insert_insert h l l a b) as E.
  match type of E with
  | context [@decide ?P ?d] => destruct (@decide P d) as [_|Hn]
  end; [exact E|contradiction].
Qed.

Lemma heap_lookup_inserted (h : Heap.heap) (l : Heap.loc) (a o : Heap.obj) :
  h !! l = Some o -> <[l := a]> h !! l = Some a.
Proof.
  intros Hl. pose proof (lookup_lt_Some _ _ _ Hl) as Hlt.
  pose proof (list_lookup_insert h l l a) as E.
  match type of E with
  | context [@decide ?P ?d] => destruct (@decide P d) as [_|Hn]
  end; [exact E|exfalso; apply Hn; split; [reflexivity|exact Hlt]].
Qed.

Lemma heap_insert_last (h0 : Heap.heap) (a o : Heap.obj) :
  <[length h0 := a]> (h0 ++ [o]) = h0 ++ [a].
Proof.
  pose proof (insert_app_r_alt h0 [o] (length h0) a ltac:(lia)) as E.
  rewrite Nat.sub_diag in E. exact E.
Qed.



(** ** Sets and maps *)

(** Away from [-0], SameValueZero is equality. *)
Lemma same_value_zero_eq (a b : Heap.value) :
  a <> Heap.VNum Num.NegZero -> b <> Heap.VNum Num.NegZero ->
  Heap.same_value_zero a b = bool_decide (a = b).
Proof.
  intros Ha Hb. unfold Heap.same_value_zero.
  destruct a as [| | |[[|]| | |]| | | | |]; try reflexivity;
    destruct b as [| | |[[|]| | |]| | | | |]; try reflexivity;
    try (exfalso; apply Ha; reflexivity); try (exfalso; apply Hb; reflexivity).
Qed.

Lemma set_add_new (xs : list Heap.value) (v : Heap.value) :
  v <> Heap.VNum Num.NegZero -> Forall (fun x => x <> Heap.VNum Num.NegZero) xs ->
  v ∉ xs -> Heap.set_add xs v = xs ++ [v].
Proof.
  intros Hv Hxs Hnotin. unfold Heap.set_add.
  assert (E : existsb (Heap.same_value_zero v) xs = false).
  { induction Hxs as [|x xs Hx _ IH]; [reflexivity|].
    cbn [existsb]. rewrite (same_value_zero_eq v x Hv Hx).
    rewrite bool_decide_eq_false_2 by (intros ->; apply Hnotin; left).
    apply IH. intros Hin. apply Hnotin. right. exact Hin. }
  rewrite E. reflexivity.
Qed.

Lemma map_set_new (es : list (Heap.value * Heap.value)) (k v : Heap.value) :
  k <> Heap.VNum Num.NegZero -> Forall (fun x => x <> Heap.VNum Num.NegZero) (map fst es) ->
  k ∉ map fst es -> Heap.map_set es k v = es ++ [(k, v)].
Proof.
  intros Hk. induction es as [|[k' v'] es IH]; intros Hes Hnotin; [reflexivity|].
  cbn [map fst] in Hes, Hnotin. apply Forall_cons in Hes as [Hk' Hes].
  cbn [Heap.map_set app]. rewrite (same_value_zero_eq k' k Hk' Hk).
  rewrite bool_decide_eq_false_2 by (intros ->; apply Hnotin; left).
  rewrite IH; [reflexivity|exact Hes|]. intros Hin. apply Hnotin. right. exact Hin.
Qed.

Lemma alter_at (h : Heap.heap) (l : Heap.loc) (o : Heap.obj) (f : Heap.obj -> Heap.obj) :
  h !! l = Some o -> alter f l h = <[l := f o]> h.
Proof.
  revert l. induction h as [|x h IH]; intros l Hl; [discriminate Hl|].
  destruct l as [|l].
  - injection Hl as ->. reflexivity.
  - change (alter f (S l) (x :: h)) with (x :: alter f l h).
    change (<[S l := f o]> (x :: h)) with (x :: <[l := f o]> h).
    f_equal. apply IH. exact Hl.
Qed.

(** The loop of [fillCollection] for a set. *)
Lemma set_loop (H : Heap.Host) (opts : TurboSerial.options) (k : nat) (l : Heap.loc)
    (vs : list Heap.value) :
  forall (fuel : nat) (i : Z) (s : TurboSerial.rstate) (e : Z) (xs0 : list Heap.value),
    enc_in (TurboSerial.buffer s) (TurboSerial.rpos s) vs e ->
    Z.of_nat (length (TurboSerial.buffer s)) < 2147483648 - 1024 ->
    (length vs <= fuel)%nat ->
    TurboSerial.rheap s !! l = Some (Heap.OSet xs0) ->
    NoDup (xs0 ++ vs) ->
    Forall (fun x => x <> Heap.VNum Num.NegZero) (xs0 ++ vs) ->
    exists s',
      for_count fuel
        (fun _ => bind (TurboSerial.readValue H opts (S k))
                    (fun v => TurboSerial.update l
                                (fun o => match o with
                                          | Heap.OSet xs => Heap.OSet (Heap.set_add xs v)
                                          | _ => o
                                          end)))
        i (i + Z.of_nat (length vs)) s
      = Done (tt, s')
      /\ TurboSerial.rheap s' = <[l := Heap.OSet (xs0 ++ vs)]> (TurboSerial.rheap s).
Proof.
  induction vs as [|v vs IH]; intros fuel i s e xs0 Henc Hsmall Hfuel Hl Hnd Hnz.
  - exists s. cbn [length]. rewrite Z.add_0_r. split.
    + destruct fuel; cbn [for_count]; rewrite Z.leb_refl; reflexivity.
    + rewrite app_nil_r. symmetry. exact (list_insert_id _ _ _ Hl).
  - destruct fuel as [|fuel]; [cbn [length] in Hfuel; lia|].
    cbn [for_count length].
    destruct (Z.leb_spec (i + Z.of_nat (S (length vs))) i); [lia|].
    destruct (stream_read_one H opts k s v vs e Henc Hsmall) as (pos' & Hrd & Hrest).
    set (s2 := TurboSerial.set_pos pos' s) in *.
    set (s3 := TurboSerial.set_heap
                 (<[l := Heap.OSet (app xs0 [v])]> (TurboSerial.rheap s2)) s2).
    assert (Hv : v <> Heap.VNum Num.NegZero /\ (v ∉ xs0)
                 /\ Forall (fun x => x <> Heap.VNum Num.NegZero) xs0).
    { apply Forall_app in Hnz as [Hnz0 Hnzv]. apply Forall_cons in Hnzv as [Hv _].
      apply NoDup_app in Hnd as (_ & Hdis & _).
      split; [exact Hv|]. split; [|exact Hnz0].
      intros Hin. apply (Hdis v Hin). left. }
    destruct Hv as (Hv & Hnotin & Hnz0).
    destruct (IH fuel (i + 1) s3 e (xs0 ++ [v])) as (s' & Hloop & Hheap).
    + exact Hrest.
    + exact Hsmall.
    + cbn [length] in Hfuel. lia.
    + unfold s3, s2. cbn [TurboSerial.rheap TurboSerial.set_heap TurboSerial.set_pos].
      apply (heap_lookup_inserted _ _ _ _ Hl).
    + rewrite <- app_assoc. exact Hnd.
    + rewrite <- app_assoc. exact Hnz.
    + exists s'. split.
      * unfold bind at 1. unfold bind at 1. rewrite Hrd. cbv beta iota.
        unfold TurboSerial.update at 1, modify at 1.
        fold s2. cbn [TurboSerial.rheap TurboSerial.set_pos] in *.
        rewrite (alter_at _ _ _ _ Hl). rewrite (set_add_new xs0 v Hv Hnz0 Hnotin).
        replace (i + Z.of_nat (S (length vs))) with (i + 1 + Z.of_nat (length vs)) by lia.
        exact Hloop.
      * rewrite Hheap. unfold s3, s2.
        cbn [TurboSerial.rheap TurboSerial.set_heap TurboSerial.set_pos].
        rewrite heap_insert_twice. rewrite <- app_assoc. reflexivity.
Qed.

Definition flat_entries (es : list (Heap.value * Heap.value)) : list Heap.value :=
  flat_map (fun kv => [fst kv; snd kv]) es.

(** The loop of [fillCollection] for a map. *)
Lemma map_loop (H : Heap.Host) (opts : TurboSerial.options) (k : nat) (l : Heap.loc)
    (es : list (Heap.value * Heap.value)) :
  forall (fuel : nat) (i : Z) (s : TurboSerial.rstate) (e : Z)
         (es0 : list (Heap.value * Heap.value)),
    enc_in (TurboSerial.buffer s) (TurboSerial.rpos s) (flat_entries es) e ->
    Z.of_nat (length (TurboSerial.buffer s)) < 2147483648 - 1024 ->
    (length es <= fuel)%nat ->
    TurboSerial.rheap s !! l = Some (Heap.OMap es0) ->
    NoDup (map fst (es0 ++ es)) ->
    Forall (fun x => x <> Heap.VNum Num.NegZero) (map fst (es0 ++ es)) ->
    exists s',
      for_count fuel
        (fun _ => bind (TurboSerial.readValue H opts (S k))
                    (fun key => bind (TurboSerial.readValue H opts (S k))
                       (fun v => TurboSerial.update l
                                   (fun o => match o with
                                             | Heap.OMap es => Heap.OMap (Heap.map_set es key v)
                                             | _ => o
                                             end))))
        i (i + Z.of_nat (length es)) s
      = Done (tt, s')
      /\ TurboSerial.rheap s' = <[l := Heap.OMap (es0 ++ es)]> (TurboSerial.rheap s).
Proof.
  induction es as [|[key v] es IH]; intros fuel i s e es0 Henc Hsmall Hfuel Hl Hnd Hnz.
  - exists s. cbn [length]. rewrite Z.add_0_r. split.
    + destruct fuel; cbn [for_count]; rewrite Z.leb_refl; reflexivity.
    + rewrite app_nil_r. symmetry. exact (list_insert_id _ _ _ Hl).
  - destruct fuel as [|fuel]; [cbn [length] in Hfuel; lia|].
    cbn [for_count length].
    destruct (Z.leb_spec (i + Z.of_nat (S (length es))) i); [lia|].
    cbn [flat_entries flat_map fst snd app] in Henc. fold (flat_entries es) in Henc.
    destruct (stream_read_one H opts k s key _ e Henc Hsmall) as (pos1 & Hrd1 & Hrest1).
    set (s1 := TurboSerial.set_pos pos1 s) in *.
    destruct (stream_read_one H opts k s1 v _ e Hrest1 Hsmall) as (pos2 & Hrd2 & Hrest2).
    set (s2 := TurboSerial.set_pos pos2 s1) in *.
    set (s3 := TurboSerial.set_heap
                 (<[l := Heap.OMap (app es0 [(key, v)])]> (TurboSerial.rheap s2)) s2).
    rewrite map_app in Hnd, Hnz. cbn [map fst] in Hnd, Hnz.
    assert (Hv : key <> Heap.VNum Num.NegZero /\ (key ∉ map fst es0)
                 /\ Forall (fun x => x <> Heap.VNum Num.NegZero) (map fst es0)).
    { apply Forall_app in Hnz as [Hnz0 Hnzv]. apply Forall_cons in Hnzv as [Hv _].
      apply NoDup_app in Hnd as (_ & Hdis & _).
      split; [exact Hv|]. split; [|exact Hnz0].
      intros Hin. apply (Hdis key Hin). left. }
    destruct Hv as (Hv & Hnotin & Hnz0).
    destruct (IH fuel (i + 1) s3 e (es0 ++ [(key, v)])) as (s' & Hloop & Hheap).
    + exact Hrest2.
    + exact Hsmall.
    + cbn [length] in Hfuel. lia.
    + unfold s3, s2, s1. cbn [TurboSerial.rheap TurboSerial.set_heap TurboSerial.set_pos].
      apply (heap_lookup_inserted _ _ _ _ Hl).
    + rewrite !map_app. cbn [map fst]. rewrite <- app_assoc. exact Hnd.
    + rewrite !map_app. cbn [map fst]. rewrite <- app_assoc. exact Hnz.
    + exists s'. split.
      * unfold bind at 1. unfold bind at 1. rewrite Hrd1. cbv beta iota.
        unfold bind at 1. fold s1. rewrite Hrd2. cbv beta iota.
        unfold TurboSerial.update at 1, modify at 1.
        fold s2. cbn [TurboSerial.rheap TurboSerial.set_pos] in *.
        rewrite (alter_at _ _ _ _ Hl). rewrite (map_set_new es0 key v Hv Hnz0 Hnotin).
        replace (i + Z.of_nat (S (length es))) with (i + 1 + Z.of_nat (length es)) by lia.
        exact Hloop.
      * rewrite Hheap. unfold s3, s2, s1.
        cbn [TurboSerial.rheap TurboSerial.set_heap TurboSerial.set_pos].
        rewrite heap_insert_twice. rewrite <- app_assoc. reflexivity.
Qed.

(** Writing the entries of a map pair by pair is writing keys and
    values in turn. *)
Lemma for_each_entries {S} (g : Heap.value -> M S unit)
    (es : list (Heap.value * Heap.value)) :
  forall s,
    for_each (fun kv => bind (g (fst kv)) (fun _ => g (snd kv))) es s
    = for_each g (flat_entries es) s.
Proof.
  induction es as [|[key v] es IH]; intros s; [reflexivity|].
  cbn [for_each flat_entries flat_map fst snd app]. fold (flat_entries es).
  unfold bind at 1 2 4. destruct (g key s) as [[[] s1]|err|]; try reflexivity.
  unfold bind at 1 2. destruct (g v s1) as [[[] s2]|err|]; try reflexivity.
  apply IH.
Qed.

(** The cycle walk over a set or a map whose members are not objects. *)
Lemma prewalk_flat_set (h : Heap.heap) (k : nat) (l : Heap.loc) (items : list Heap.value) :
  h !! l = Some (Heap.OSet items) ->
  Forall (fun v => Heap.is_object v = false) items ->
  TurboSerial.detectCircularReferences h (S (S k)) (Heap.VRef l) ∅ ∅ = Done ∅.
Proof.
  intros Hl Hflat. cbn [TurboSerial.detectCircularReferences].
  rewrite bool_decide_eq_false_2 by set_solver. rewrite Hl. clear Hl.
  induction Hflat as [|v vs Hv _ IH]; [reflexivity|].
  destruct v; try discriminate Hv; exact IH.
Qed.

Lemma prewalk_flat_map (h : Heap.heap) (k : nat) (l : Heap.loc)
    (es : list (Heap.value * Heap.value)) :
  h !! l = Some (Heap.OMap es) ->
  Forall (fun v => Heap.is_object v = false) (flat_entries es) ->
  TurboSerial.detectCircularReferences h (S (S k)) (Heap.VRef l) ∅ ∅ = Done ∅.
Proof.
  intros Hl Hflat. cbn [TurboSerial.detectCircularReferences].
  rewrite bool_decide_eq_false_2 by set_solver. rewrite Hl.
  fold (flat_entries es). clear Hl.
  induction Hflat as [|v vs Hv _ IH]; [reflexivity|].
  destruct v; try discriminate Hv; exact IH.
Qed.

(** The reader on a tag of the collection group. *)
Lemma readValue_collection_run (H : Heap.Host) (opts : TurboSerial.options) (k : nat)
    (s : TurboSerial.rstate) (t : Z) :
  0 <= TurboSerial.rpos s ->
  TurboSerial.buffer s !! Z.to_nat (TurboSerial.rpos s) = Some t ->
  JS.band t TYPE_MASK.GROUP = TYPE_GROUP.COLLECTION ->
  TurboSerial.readValue H opts (S k) s
  = (if t =? TYPE.MAP then
       bind (TurboSerial.alloc (Heap.OMap []))
         (fun l => bind (TurboSerial.push_ref (Heap.VRef l))
            (fun _ => bind (TurboSerial.fillCollection (TurboSerial.readValue H opts k) k
                              (Some l) t)
               (fun _ => ret (Heap.VRef l))))
     else if t =? TYPE.SET then
       bind (TurboSerial.alloc (Heap.OSet []))
         (fun l => bind (TurboSerial.push_ref (Heap.VRef l))
            (fun _ => bind (TurboSerial.fillCollection (TurboSerial.readValue H opts k) k
                              (Some l) t)
               (fun _ => ret (Heap.VRef l))))
     else
       bind (TurboSerial.fillCollection (TurboSerial.readValue H opts k) k None t)
            (fun _ => ret Heap.VUndefined))
      (TurboSerial.set_pos (TurboSerial.rpos s + 1) s).
Proof. intros Hp Hb Hg. leaf_run Hp Hb Hg. Qed.

(** ** Arrays with holes *)

(** The writer on one value without parts. *)
Lemma plain_write (H : Heap.Host) (opts : TurboSerial.options) (h : Heap.heap) (k : nat)
    (v : Heap.value) (p : UltraMemoryPool.pool) (l : list Z) (r : gmap Heap.loc Z)
    (c : gset Heap.loc) (st : gmap JS.jsstring Z) (b : gmap Heap.loc Z) :
  plain v -> blob p l ->
  Z.of_nat (length l) + 1032 < 2147483648 ->
  exists p' bytes,
    TurboSerial.writeValue H opts h (S k) v (TurboSerial.mkW p r c st b)
    = Done (tt, TurboSerial.mkW p' r c st b)
    /\ blob p' (l ++ bytes)
    /\ Z.of_nat (length bytes) <= 8
    /\ forall rest,
         enc_in (l ++ bytes ++ rest) (Z.of_nat (length l)) [v]
                (Z.of_nat (length l) + Z.of_nat (length bytes)).
Proof.
  intros Hv Hb Hroom.
  destruct (stream_write H opts h k [v] ltac:(constructor; [exact Hv|constructor])
              p l r c st b Hb ltac:(cbn [length]; lia)) as (p' & bytes & Hw & B & Hlen & Henc).
  exists p', bytes. cbn [length] in Hlen.
  split; [|split; [exact B|split; [lia|exact Henc]]].
  cbn [for_each] in Hw. unfold bind at 1 in Hw.
  destruct (TurboSerial.writeValue H opts h (S k) v (TurboSerial.mkW p r c st b))
    as [[[] s2]|err|]; try discriminate Hw.
  unfold ret in Hw. injection Hw as ->. reflexivity.
Qed.

(** [sparse_at buf pos ivs e]: indices and values in turn, in [buf]
    from [pos] to [e]. *)
Inductive sparse_at (buf : list Z) : Z -> list (Z * Heap.value) -> Z -> Prop :=
| sparse_nil (pos : Z) : sparse_at buf pos [] pos
| sparse_cons (pos i : Z) (v : Heap.value) (ivs : list (Z * Heap.value)) (e1 e : Z)
    (pre post : list Z) :
    0 <= i <= 4294967295 ->
    buf = pre ++ varint_groups i ++ post -> pos = Z.of_nat (length pre) ->
    enc_in buf (pos + Z.of_nat (length (varint_groups i))) [v] e1 ->
    sparse_at buf e1 ivs e -> sparse_at buf pos ((i, v) :: ivs) e.

(** The loop of [writeSparseArray]. *)
Lemma sparse_write (H : Heap.Host) (opts : TurboSerial.options) (h : Heap.heap) (k : nat)
    (g : Z -> Heap.value) (ixs : list Z) :
  Forall (fun i => 0 <= i <= 4294967295) ixs -> Forall (fun i => plain (g i)) ixs ->
  forall (p : UltraMemoryPool.pool) (l : list Z) r c (st : gmap JS.jsstring Z) b,
    blob p l ->
    Z.of_nat (length l) + 13 * Z.of_nat (length ixs) + 2048 < 2147483648 ->
    exists p' bytes,
      for_each (fun i => bind (TurboSerial.writeVarint i)
                           (fun _ => TurboSerial.writeValue H opts h (S k) (g i)))
               ixs (TurboSerial.mkW p r c st b)
      = Done (tt, TurboSerial.mkW p' r c st b)
      /\ blob p' (l ++ bytes)
      /\ Z.of_nat (length bytes) <= 13 * Z.of_nat (length ixs)
      /\ forall rest,
           sparse_at (l ++ bytes ++ rest) (Z.of_nat (length l))
                     (map (fun i => (i, g i)) ixs)
                     (Z.of_nat (length l) + Z.of_nat (length bytes)).
Proof.
  intros Hix Hvals. revert Hvals.
  induction Hix as [|i ixs Hi _ IH]; intros Hvals p l r c st b Hb Hroom.
  - exists p, []. split; [reflexivity|]. split; [rewrite app_nil_r; exact Hb|].
    split; [simpl; lia|]. intros rest. rewrite Z.add_0_r. constructor.
  - apply Forall_cons in Hvals as [Hval Hvals]. cbn [length] in Hroom.
    pose proof (blob_writeVarint i p l Hb ltac:(lia) Hi) as B1.
    pose proof (varint_groups_length i Hi) as Hvl.
    destruct (plain_write H opts h k (g i) (UltraMemoryPool.writeVarint i p)
                (l ++ varint_groups i) r c st b Hval B1)
      as (p2 & bytes2 & Hw2 & B2 & Hlen2 & Henc2).
    { rewrite length_app. lia. }
    destruct (IH Hvals p2 ((l ++ varint_groups i) ++ bytes2) r c st b B2)
      as (p3 & bytes3 & Hw3 & B3 & Hlen3 & Hat3).
    { rewrite !length_app. lia. }
    exists p3, (varint_groups i ++ bytes2 ++ bytes3).
    assert (Eshape : forall rest, ((l ++ varint_groups i) ++ bytes2) ++ bytes3 ++ rest
                                  = l ++ (varint_groups i ++ bytes2 ++ bytes3) ++ rest).
    { intros rest. rewrite <- !app_assoc. reflexivity. }
    split.
    { cbn [for_each]. unfold bind at 1. unfold bind at 1.
      unfold TurboSerial.writeVarint at 1, TurboSerial.on_pool, modify.
      cbn [TurboSerial.pool TurboSerial.refs TurboSerial.circularRefs TurboSerial.strings
           TurboSerial.buffers].
      rewrite Hw2. exact Hw3. }
    split.
    { specialize (Eshape []). rewrite !app_nil_r in Eshape. rewrite <- Eshape. exact B3. }
    split; [rewrite !length_app; cbn [length]; lia|].
    intros rest. cbn [map].
    apply (sparse_cons _ _ i (g i) _
             (Z.of_nat (length (l ++ varint_groups i)) + Z.of_nat (length bytes2)) _
             l (bytes2 ++ bytes3 ++ rest)).
    + exact Hi.
    + rewrite <- !app_assoc. reflexivity.
    + reflexivity.
    + specialize (Henc2 (bytes3 ++ rest)).
      rewrite <- !app_assoc in Henc2. rewrite <- !app_assoc.
      rewrite length_app, Nat2Z.inj_add in Henc2. rewrite length_app, Nat2Z.inj_add.
      exact Henc2.
    + specialize (Hat3 rest). rewrite Eshape in Hat3.
      rewrite !length_app, !Nat2Z.inj_add in Hat3.
      rewrite !length_app, !Nat2Z.inj_add.
      replace (Z.of_nat (length l) + (Z.of_nat (length (varint_groups i))
                 + (Z.of_nat (length bytes2) + Z.of_nat (length bytes3))))
        with (Z.of_nat (length l) + Z.of_nat (length (varint_groups i))
              + Z.of_nat (length bytes2) + Z.of_nat (length bytes3)) by lia.
      exact Hat3.
Qed.

(** [array[i] = v] for a list of indices and values, in turn. *)
Definition store_pairs (m : gmap Z Heap.value) (ivs : list (Z * Heap.value))
    : gmap Z Heap.value :=
  foldl (fun m iv => <[fst iv := snd iv]> m) m ivs.

Lemma store_pairs_lookup (g : Z -> Heap.value) (ixs : list Z) :
  forall (m : gmap Z Heap.value) (j : Z),
    store_pairs m (map (fun i => (i, g i)) ixs) !! j
    = if bool_decide (j ∈ ixs) then Some (g j) else m !! j.
Proof.
  induction ixs as [|i ixs IH]; intros m j.
  - cbn [store_pairs foldl map]. rewrite bool_decide_eq_false_2 by (apply not_elem_of_nil).
    reflexivity.
  - cbn [map]. unfold store_pairs. cbn [foldl fst snd]. fold (store_pairs (<[i := g i]> m)
                                                                (map (fun i => (i, g i)) ixs)).
    rewrite IH. destruct (decide (j ∈ ixs)) as [Hin|Hnotin].
    + rewrite !bool_decide_eq_true_2; [reflexivity|right; exact Hin|exact Hin].
    + rewrite (bool_decide_eq_false_2 (j ∈ ixs)) by exact Hnotin.
      destruct (decide (j = i)) as [->|Hne].
      * rewrite bool_decide_eq_true_2 by left. rewrite lookup_insert.
        destruct (decide (i = i)); [reflexivity|contradiction].
      * rewrite bool_decide_eq_false_2.
        -- apply lookup_insert_ne. congruence.
        -- intros Hin. apply elem_of_cons in Hin as [E|Hin]; contradiction.
Qed.

(** The loop of [fillArray] for an array with holes. *)
Lemma sparse_loop (H : Heap.Host) (opts : TurboSerial.options) (k : nat) (l : Heap.loc)
    (len : Z) (ivs : list (Z * Heap.value)) :
  forall (fuel : nat) (i : Z) (s : TurboSerial.rstate) (e : Z) (m : gmap Z Heap.value),
    sparse_at (TurboSerial.buffer s) (TurboSerial.rpos s) ivs e ->
    Z.of_nat (length (TurboSerial.buffer s)) < 2147483648 - 1024 ->
    (length ivs <= fuel)%nat ->
    TurboSerial.rheap s !! l = Some (Heap.OArray len m) ->
    Forall (fun iv => 0 <= fst iv < len) ivs -> len <= 4294967295 ->
    exists s',
      for_count fuel
        (fun _ => bind TurboSerial.readVarint
                    (fun index => bind (TurboSerial.readValue H opts (S k))
                                    (fun v => TurboSerial.update l
                                                (TurboSerial.array_store index v))))
        i (i + Z.of_nat (length ivs)) s
      = Done (tt, s')
      /\ TurboSerial.rheap s' = <[l := Heap.OArray len (store_pairs m ivs)]> (TurboSerial.rheap s).
Proof.
  induction ivs as [|[ix v] ivs IH]; intros fuel i s e m Hat Hsmall Hfuel Hl Hix Hlen.
  - exists s. cbn [length]. rewrite Z.add_0_r. split.
    + destruct fuel; cbn [for_count]; rewrite Z.leb_refl; reflexivity.
    + cbn [store_pairs foldl]. symmetry. exact (list_insert_id _ _ _ Hl).
  - destruct fuel as [|fuel]; [cbn [length] in Hfuel; lia|].
    cbn [for_count length].
    destruct (Z.leb_spec (i + Z.of_nat (S (length ivs))) i); [lia|].
    inversion Hat as [|pos ix0 v0 ivs0 e1 e0 pre post Hi Hbuf Hpos Henc Hrest]; subst.
    apply Forall_cons in Hix as [Hix0 Hix]. cbn [fst] in Hix0.
    pose proof (rd_readVarint s ix pre post Hi Hbuf Hpos) as E1.
    set (s1 := TurboSerial.set_pos
                 (TurboSerial.rpos s + Z.of_nat (length (varint_groups ix))) s) in *.
    destruct (stream_read_one H opts k s1 v [] e1 Henc Hsmall) as (pos' & Hr2 & Hend).
    assert (Epos : pos' = e1) by (inversion Hend; congruence).
    subst pos'. clear Hend.
    set (s2 := TurboSerial.set_pos e1 s1) in *.
    set (s3 := TurboSerial.set_heap
                 (<[l := Heap.OArray len (<[ix := v]> m)]> (TurboSerial.rheap s2)) s2).
    destruct (IH fuel (i + 1) s3 e (<[ix := v]> m)) as (s' & Hloop & Hheap).
    + exact Hrest.
    + exact Hsmall.
    + cbn [length] in Hfuel. lia.
    + unfold s3, s2, s1. cbn [TurboSerial.rheap TurboSerial.set_heap TurboSerial.set_pos].
      apply (heap_lookup_inserted _ _ _ _ Hl).
    + exact Hix.
    + exact Hlen.
    + exists s'. split.
      * unfold bind at 1. unfold bind at 1. rewrite E1. cbv beta iota.
        unfold bind at 1. rewrite Hr2. cbv beta iota.
        unfold TurboSerial.update at 1, modify at 1.
        fold s2. cbn [TurboSerial.rheap TurboSerial.set_pos] in *.
        rewrite (alter_at _ _ _ _ Hl). cbn [TurboSerial.array_store].
        destruct (Z.ltb_spec ix 4294967295); [|lia].
        rewrite Z.max_l by lia.
        replace (i + Z.of_nat (S (length ivs))) with (i + 1 + Z.of_nat (length ivs)) by lia.
        exact Hloop.
      * rewrite Hheap. unfold s3, s2, s1.
        cbn [TurboSerial.rheap TurboSerial.set_heap TurboSerial.set_pos].
        rewrite heap_insert_twice. reflexivity.
Qed.

(** [detectArray] on an array with a hole. *)
Lemma detectArray_hole (H : Heap.Host) (h : Heap.heap) (len : Z) (elems : gmap Z Heap.value)
    (i : Z) :
  0 <= i < len -> elems !! i = None ->
  UltraTypeDetector.detectArray H h len elems = Done TYPE.ARRAY_SPARSE.
Proof.
  intros Hi Hnone. unfold UltraTypeDetector.detectArray. cbv zeta.
  destruct (Z.eqb_spec len 0) as [?|_]; [lia|].
  assert (Hholes : forallb (Heap.array_has elems) (seqZ 0 len) = false).
  { destruct (forallb (Heap.array_has elems) (seqZ 0 len)) eqn:E; [|reflexivity].
    rewrite forallb_forall in E.
    specialize (E i ltac:(apply list_elem_of_In, elem_of_seqZ; lia)).
    unfold Heap.array_has in E. apply bool_decide_eq_true in E.
    rewrite Hnone in E. destruct E as [? E]. discriminate E. }
  rewrite Hholes. reflexivity.
Qed.

(** ** The specification on the writer pool *)

(** The bytes [bs] of a write that took the pool from [p] to [p'] start
    at an offset that is a multiple of [k], at or after the old cursor,
    and end at the new cursor. *)
Definition aligned_at (k : Z) (bs : list Z) (p p' : UltraMemoryPool.pool) : Prop :=
  exists o,
    o mod k = 0
    /\ UltraMemoryPool.pos p <= o
    /\ UltraMemoryPool.pos p' = o + Z.of_nat (length bs)
    /\ PoolFacts.holds p' o bs
    /\ PoolFacts.keeps p p'.

Lemma aligned_put_at (j : Z) (bs : list Z) (p : UltraMemoryPool.pool) :
  0 <= j <= 3 -> PoolFacts.ok p ->
  UltraMemoryPool.pos p + Z.of_nat (length bs) + 512 < 2147483648 ->
  aligned_at (2 ^ j) bs p
    (UltraMemoryPool.put bs
       (UltraMemoryPool.ensure (Z.of_nat (length bs)) (UltraMemoryPool.alignPos (2 ^ j) p))).
Proof.
  intros Hj Hok Hroom.
  destruct (pool_aligned_put j bs p Hj Hok Hroom) as (o & Hm & Hr & Hp & Hh & Hk & _).
  exists o. split; [exact Hm|]. split; [lia|]. split; [exact Hp|]. split; assumption.
Qed.

(** The element block of a packed array or of a typed array: [n]
    elements of [k] bytes each from offset [o] on, every one of them at
    a multiple of [k]. *)
Definition block_at (k : Z) (n : nat) (bs : list Z) (p p' : UltraMemoryPool.pool) : Prop :=
  exists o,
    (forall i, (i < n)%nat -> (o + k * Z.of_nat i) mod k = 0)
    /\ UltraMemoryPool.pos p <= o
    /\ Z.of_nat (length bs) = k * Z.of_nat n
    /\ UltraMemoryPool.pos p' = o + k * Z.of_nat n
    /\ PoolFacts.holds p' o bs.

Lemma flat_map_length_const {A} (f : A -> list Z) (k : nat) (xs : list A) :
  (forall x, length (f x) = k) -> length (flat_map f xs) = (k * length xs)%nat.
Proof.
  intros Hf. induction xs as [|x r IH]; simpl; [lia|].
  rewrite length_app, Hf, IH. lia.
Qed.

Lemma packed_block (j : Z) (f : Num.number -> list Z) (array : list Num.number)
    (p : UltraMemoryPool.pool) :
  0 <= j <= 3 -> (forall x, length (f x) = Z.to_nat (2 ^ j)) ->
  PoolFacts.ok p ->
  UltraMemoryPool.pos p + 8 * Z.of_nat (length array) + 1024 < 2147483648 ->
  let len := JS.to_int32 (Z.of_nat (length array)) in
  block_at (2 ^ j) (length array) (flat_map f array) p
    (UltraMemoryPool.put (flat_map f array)
       (UltraMemoryPool.ensure (len * 2 ^ j)
          (UltraMemoryPool.alignPos (2 ^ j) (UltraMemoryPool.writeVarint len p)))).
Proof.
  intros Hj Hf Hok Hroom len.
  assert (H2 : 1 <= 2 ^ j <= 8).
  { split; [pose proof (Z.pow_pos_nonneg 2 j); lia|].
    change 8 with (2 ^ 3). apply Z.pow_le_mono_r; lia. }
  assert (Hlen : len = Z.of_nat (length array)).
  { unfold len. apply to_int32_small. destruct Hok. lia. }
  assert (Hbs : Z.of_nat (length (flat_map f array)) = 2 ^ j * Z.of_nat (length array)).
  { rewrite (flat_map_length_const f (Z.to_nat (2 ^ j))) by exact Hf. lia. }
  destruct (pool_writeVarint len p Hok ltac:(destruct Hok; lia) ltac:(destruct Hok; lia))
    as (_ & _ & _ & Hg & Hpos & _ & Hk & Hok1).
  set (p1 := UltraMemoryPool.writeVarint len p) in *.
  replace (len * 2 ^ j) with (Z.of_nat (length (flat_map f array))) by lia.
  destruct (pool_aligned_put j (flat_map f array) p1 Hj Hok1 ltac:(destruct Hok; nia))
    as (o & Hm & Hr & Hp & Hh & _ & _).
  exists o. split; [intros i _; rewrite Z.mul_comm, Z.mod_add by lia; exact Hm|].
  split; [lia|]. split; [exact Hbs|]. split; [lia|exact Hh].
Qed.

(** C9: [writeVarint] reserves five bytes before it looks at the value,
    and for every [u] of at most 32 bits it stores the one to five
    groups of [u] from the cursor on: all of them inside the reserved
    capacity, none dropped. *)
Theorem writeVarint_stays_in_reserved_capacity (p : UltraMemoryPool.pool) (u : Z) :
  PoolFacts.ok p -> UltraMemoryPool.pos p + 512 < 2147483648 ->
  0 <= u <= 4294967295 ->
  let reserved := UltraMemoryPool.ensure 5 p in
  let p' := UltraMemoryPool.writeVarint u p in
  UltraMemoryPool.pos reserved = UltraMemoryPool.pos p
  /\ UltraMemoryPool.pos p + 5 <= UltraMemoryPool.size reserved
  /\ UltraMemoryPool.size p' = UltraMemoryPool.size reserved
  /\ (1 <= length (varint_groups u) <= 5)%nat
  /\ UltraMemoryPool.pos p' = UltraMemoryPool.pos p + Z.of_nat (length (varint_groups u))
  /\ PoolFacts.holds p' (UltraMemoryPool.pos p) (varint_groups u).
Proof.
  intros Hok Hroom Hu.
  destruct (pool_writeVarint u p Hok Hroom Hu) as (H1 & H2 & H3 & H4 & H5 & H6 & _).
  split; [exact H1|]. split; [exact H2|]. split; [exact H3|].
  split; [exact H4|]. split; [exact H5|exact H6].
Qed.

Lemma writeVarint_stays_in_reserved_capacity_witness :
  let p := UltraMemoryPool.mkPool 128 ∅ 126 in
  let p' := UltraMemoryPool.writeVarint 4294967295 p in
  UltraMemoryPool.pos (UltraMemoryPool.ensure 5 p) = 126
  /\ 126 + 5 <= UltraMemoryPool.size (UltraMemoryPool.ensure 5 p)
  /\ UltraMemoryPool.size p' = UltraMemoryPool.size (UltraMemoryPool.ensure 5 p)
  /\ (1 <= length (varint_groups 4294967295) <= 5)%nat
  /\ UltraMemoryPool.pos p' = 126 + Z.of_nat (length (varint_groups 4294967295))
  /\ PoolFacts.holds p' 126 (varint_groups 4294967295).
Proof.
  apply (writeVarint_stays_in_reserved_capacity (UltraMemoryPool.mkPool 128 ∅ 126) 4294967295).
  - unfold PoolFacts.ok. simpl. lia.
  - simpl. lia.
  - lia.
Defined.

(** C7: every multi-byte scalar write of the pool stores its [k] bytes
    at an offset that is a multiple of [k], for [k] in 2, 4, 8: the
    16-, 32- and 64-bit integers and floats, and every element of a
    packed-array or typed-array block.  [serialize] writes such scalars
    through these operations only, and the blob it returns is the pool
    read from offset 0, so pool offsets are wire offsets. *)
Theorem scalar_writes_are_aligned (p : UltraMemoryPool.pool) :
  PoolFacts.ok p -> UltraMemoryPool.pos p + 1024 < 2147483648 ->
  (forall v : Z,
      aligned_at 2 (JS.le_bytes 2 (JS.band v 0xFFFF)) p (UltraMemoryPool.writeU16 v p)
      /\ aligned_at 2 (JS.le_bytes 2 v) p (UltraMemoryPool.writeI16 v p)
      /\ aligned_at 4 (JS.le_bytes 4 (JS.to_uint32 v)) p (UltraMemoryPool.writeU32 v p)
      /\ aligned_at 4 (JS.le_bytes 4 (JS.to_int32 v)) p (UltraMemoryPool.writeI32 v p)
      /\ aligned_at 8 (JS.le_bytes 8 v) p (UltraMemoryPool.writeBigInt64 v p))
  /\ (forall x : Num.number,
      aligned_at 4 (JS.le_bytes 4 (Num.bits32 x)) p (UltraMemoryPool.writeF32 x p)
      /\ aligned_at 8 (JS.le_bytes 8 (Num.bits64 x)) p (UltraMemoryPool.writeF64 x p))
  /\ (forall (array : list Num.number) (t k : Z),
      In (t, k) [ (TYPE.ARRAY_PACKED_I16, 2); (TYPE.ARRAY_PACKED_I32, 4);
                  (TYPE.ARRAY_PACKED_F32, 4); (TYPE.ARRAY_PACKED_F64, 8) ] ->
      UltraMemoryPool.pos p + 8 * Z.of_nat (length array) + 1024 < 2147483648 ->
      exists p' bs,
        UltraMemoryPool.writePackedArray array t p = Done p'
        /\ block_at k (length array) bs p p')
  /\ (forall (data : list Z) (k : Z) (n : nat),
      In k [2; 4; 8] -> Z.of_nat (length data) = k * Z.of_nat n ->
      UltraMemoryPool.pos p + Z.of_nat (length data) + 1024 < 2147483648 ->
      block_at k n data p (UltraMemoryPool.writeBulkAligned data k p)).
Proof.
  intros Hok Hroom.
  split; [|split; [|split]].
  - intros v. repeat split.
    + exact (aligned_put_at 1 (JS.le_bytes 2 (JS.band v 0xFFFF)) p ltac:(lia) Hok
               ltac:(rewrite le_bytes_length; lia)).
    + exact (aligned_put_at 1 (JS.le_bytes 2 v) p ltac:(lia) Hok
               ltac:(rewrite le_bytes_length; lia)).
    + exact (aligned_put_at 2 (JS.le_bytes 4 (JS.to_uint32 v)) p ltac:(lia) Hok
               ltac:(rewrite le_bytes_length; lia)).
    + exact (aligned_put_at 2 (JS.le_bytes 4 (JS.to_int32 v)) p ltac:(lia) Hok
               ltac:(rewrite le_bytes_length; lia)).
    + exact (aligned_put_at 3 (JS.le_bytes 8 v) p ltac:(lia) Hok
               ltac:(rewrite le_bytes_length; lia)).
  - intros x. split.
    + exact (aligned_put_at 2 (JS.le_bytes 4 (Num.bits32 x)) p ltac:(lia) Hok
               ltac:(rewrite le_bytes_length; lia)).
    + exact (aligned_put_at 3 (JS.le_bytes 8 (Num.bits64 x)) p ltac:(lia) Hok
               ltac:(rewrite le_bytes_length; lia)).
  - intros array t k Hin Hfit.
    simpl in Hin. destruct Hin as [E|[E|[E|[E|[]]]]]; inversion E; subst t k.
    + eexists _, _. split; [reflexivity|].
      exact (packed_block 1 (fun x => JS.le_bytes 2 (Num.to_int32 x)) array p
               ltac:(lia) ltac:(intros; apply le_bytes_length) Hok Hfit).
    + eexists _, _. split; [reflexivity|].
      exact (packed_block 2 (fun x => JS.le_bytes 4 (Num.to_int32 x)) array p
               ltac:(lia) ltac:(intros; apply le_bytes_length) Hok Hfit).
    + eexists _, _. split; [reflexivity|].
      exact (packed_block 2 (fun x => JS.le_bytes 4 (Num.bits32 x)) array p
               ltac:(lia) ltac:(intros; apply le_bytes_length) Hok Hfit).
    + eexists _, _. split; [reflexivity|].
      exact (packed_block 3 (fun x => JS.le_bytes 8 (Num.bits64 x)) array p
               ltac:(lia) ltac:(intros; apply le_bytes_length) Hok Hfit).
  - intros data k n Hin Hlen Hfit.
    assert (Hj : exists j, 0 <= j <= 3 /\ k = 2 ^ j /\ Z.min k SIMD_ALIGNMENT = 2 ^ j).
    { simpl in Hin. destruct Hin as [<-|[<-|[<-|[]]]];
        [exists 1|exists 2|exists 3]; repeat split; lia. }
    destruct Hj as (j & Hj & -> & Hmin).
    unfold UltraMemoryPool.writeBulkAligned. rewrite Hmin.
    destruct (pool_aligned_put j data p Hj Hok ltac:(lia)) as (o & Hm & Hr & Hp & Hh & _ & _).
    assert (H2 : 0 < 2 ^ j) by (apply Z.pow_pos_nonneg; lia).
    exists o. split; [intros i _; rewrite Z.mul_comm, Z.mod_add by lia; exact Hm|].
    split; [lia|]. split; [exact Hlen|]. split; [|exact Hh].
    unfold UltraMemoryPool.put in Hp. simpl in Hp. simpl. lia.
Qed.

Lemma scalar_writes_are_aligned_witness :
  aligned_at 4 (JS.le_bytes 4 (JS.to_int32 1000)) (UltraMemoryPool.mkPool 128 ∅ 6)
    (UltraMemoryPool.writeI32 1000 (UltraMemoryPool.mkPool 128 ∅ 6)).
Proof.
  refine (proj1 (proj2 (proj2 (proj2
    (proj1 (scalar_writes_are_aligned (UltraMemoryPool.mkPool 128 ∅ 6) _ _) 1000))))).
  - unfold PoolFacts.ok. simpl. lia.
  - simpl. lia.
Defined.

(** ** The specification on the header and the number tags *)

(** A runtime that offers none of its services: it encodes and decodes
    no text, coerces nothing, accepts every regular expression and
    throws on source text.  The concrete runs below call none of
    them. *)
Definition bare_host : Heap.Host :=
  Heap.mkHost (fun _ => []) (fun _ => []) (fun _ _ => None) (fun _ _ => None)
              (fun _ _ _ => true) (fun _ _ => Some None).

(** C5, as the specification states it, fails: the second byte of the
    little-endian magic [0x54425235] is [0x52], not [0x32], so no
    instance returns [35 32 42 54 05 00] for [null]. *)
Lemma serialize_null_is_not_35_32 :
  ~ exists (H : Heap.Host) (fuel : nat) (s' : TurboSerial.wstate),
      TurboSerial.serialize H TurboSerial.default_options [] fuel
        (TurboSerial.new TurboSerial.default_options) Heap.VNull
      = Done ([0x35; 0x32; 0x42; 0x54; 0x05; 0x00], s').
Proof. intros (H & fuel & s' & E). destruct fuel; vm_compute in E; discriminate E. Qed.

(** C5, amended: [serialize(null)] returns exactly the six bytes
    [35 52 42 54 05 00], the little-endian magic [0x54425235], the
    version byte and the NULL tag; on every instance, whatever its
    options and whatever an earlier call left in its pool. *)
Theorem serialize_null_bytes (H : Heap.Host) (opts : TurboSerial.options) (h : Heap.heap)
    (k : nat) (s0 : TurboSerial.wstate) :
  PoolFacts.ok (TurboSerial.pool s0) ->
  exists s',
    TurboSerial.serialize H opts h (S k) s0 Heap.VNull
    = Done ([0x35; 0x52; 0x42; 0x54; 0x05; 0x00], s').
Proof.
  intros Hok.
  destruct (header_pool_spec (TurboSerial.pool s0) Hok) as (Hp & Hokq & Hh).
  destruct (pool_writeU8 TYPE.NULL (header_pool (TurboSerial.pool s0)) Hokq ltac:(lia))
    as (Hp1 & Hh1 & Hk1 & Hok1).
  unfold TurboSerial.serialize.
  rewrite prewalk_primitive by reflexivity.
  assert (E : forall s, TurboSerial.writeValue H opts h (S k) Heap.VNull s
                        = TurboSerial.writeU8 TYPE.NULL s) by (intros; apply writeValue_null).
  destruct (TurboSerial.detectCircular opts); rewrite E;
    (eexists; unfold TurboSerial.writeU8, TurboSerial.on_pool, modify;
     cbn [TurboSerial.pool TurboSerial.resetState];
     fold (header_pool (TurboSerial.pool s0));
     f_equal; f_equal;
     apply getResult_is;
     [ rewrite Hp1, Hp; reflexivity
     | destruct Hh1 as (_ & Hs & _); simpl length in Hs; lia
     | intros i b Hi;
       destruct (Nat.eq_dec i 5%nat) as [->|Hne];
       [ simpl in Hi; inversion Hi; subst b;
         destruct Hh1 as (_ & _ & Hb); pose proof (Hb 0%nat _ eq_refl) as Hx;
         rewrite Hp in Hx; exact Hx
       | assert (Hlt : (i < 5)%nat) by (apply lookup_lt_Some in Hi; simpl in Hi; lia);
         rewrite Hk1 by lia;
         destruct Hh as (_ & _ & Hb);
         rewrite <- (Z.mod_small b 256);
         [ apply (Hb i b); destruct i as [|[|[|[|[|i]]]]]; try exact Hi; lia
         | destruct i as [|[|[|[|[|i]]]]]; simpl in Hi; try (inversion Hi; subst b; lia); lia ] ] ]).
Qed.

Lemma serialize_null_bytes_witness :
  PoolFacts.ok (TurboSerial.pool (TurboSerial.new TurboSerial.default_options))
  /\ exists s',
       TurboSerial.serialize bare_host TurboSerial.default_options [] 1
         (TurboSerial.new TurboSerial.default_options) Heap.VNull
       = Done ([0x35; 0x52; 0x42; 0x54; 0x05; 0x00], s').
Proof.
  assert (Hok : PoolFacts.ok (TurboSerial.pool (TurboSerial.new TurboSerial.default_options)))
    by (unfold PoolFacts.ok; vm_compute; repeat split; discriminate).
  split; [exact Hok|].
  exact (serialize_null_bytes bare_host TurboSerial.default_options [] 0
           (TurboSerial.new TurboSerial.default_options) Hok).
Defined.

(** C3, as the specification states it, fails: [serialize(1000)] does
    not return [35 42 42 54 05 11 E8 03].  The header alone differs (the
    magic [0x54425235] reads [35 52 42 54] in little-endian order). *)
Lemma serialize_1000_is_not_35_42 :
  ~ exists (H : Heap.Host) (fuel : nat) (s' : TurboSerial.wstate),
      TurboSerial.serialize H TurboSerial.default_options [] fuel
        (TurboSerial.new TurboSerial.default_options) (Heap.VNum (Num.of_int 1000))
      = Done ([0x35; 0x42; 0x42; 0x54; 0x05; 0x11; 0xE8; 0x03], s').
Proof. intros (H & fuel & s' & E). destruct fuel; vm_compute in E; discriminate E. Qed.

(** The signed integer tags with their widths in bits. *)
Definition integer_tags : list (Z * Z) :=
  [ (TYPE.INT8, 8); (TYPE.INT16, 16); (TYPE.INT32, 32) ].

(** C3, amended: the classifier assigns every integer-valued number [n]
    with [|n| <= 2^31 - 1] a tag among INT8, INT16, INT32 whose range
    contains it; and [serialize(1000)] returns the header
    [35 52 42 54 05], the tag of 1000 at offset 5 and, at the next offset
    that is a multiple of the tag's width, the little-endian bytes
    [E8 03 ..] of 1000. *)
Theorem integer_tag_contains_value (n : Z) :
  -2147483648 < n < 2147483648 ->
  (exists t w,
      UltraTypeDetector.detectNumber (Num.of_int n) = t
      /\ In (t, w) integer_tags
      /\ - 2 ^ (w - 1) <= n < 2 ^ (w - 1))
  /\ (forall (H : Heap.Host) (k : nat),
      exists t w pad s',
        In (t, w) integer_tags
        /\ UltraTypeDetector.detectNumber (Num.of_int 1000) = t
        /\ TurboSerial.serialize H TurboSerial.default_options [] (S k)
             (TurboSerial.new TurboSerial.default_options) (Heap.VNum (Num.of_int 1000))
           = Done ([0x35; 0x52; 0x42; 0x54; 0x05; t] ++ pad
                     ++ JS.le_bytes (Z.to_nat (w / 8)) 1000, s')
        /\ (6 + Z.of_nat (length pad)) mod (w / 8) = 0).
Proof.
  intros Hn. split.
  - exists TYPE.INT32, 32. split; [apply detectNumber_int32; exact Hn|].
    split; [right; right; left; reflexivity|]. change (2 ^ (32 - 1)) with 2147483648. lia.
  - intros H k. exists TYPE.INT32, 32, [0; 0]. eexists.
    split; [right; right; left; reflexivity|].
    split; [reflexivity|]. split; [vm_compute; reflexivity|reflexivity].
Qed.

Lemma integer_tag_contains_value_witness :
  -2147483648 < 1000 < 2147483648
  /\ exists t w,
       UltraTypeDetector.detectNumber (Num.of_int 1000) = t
       /\ In (t, w) integer_tags
       /\ - 2 ^ (w - 1) <= 1000 < 2 ^ (w - 1).
Proof.
  assert (Hr : -2147483648 < 1000 < 2147483648) by lia.
  split; [exact Hr|]. exact (proj1 (integer_tag_contains_value 1000 Hr)).
Defined.

(** A number that holds a non-negative integer. *)
Definition nonneg_integer (x : Num.number) : Prop :=
  exists n : Z, 0 <= n /\ x = Num.of_int n.

(** C8, as the specification states it, fails: [serialize(-2147483648)]
    carries the tag [0x1A] at offset 5, and [-2147483648] is
    negative. *)
Lemma varint_tag_on_a_negative_number :
  ~ (forall (H : Heap.Host) (fuel : nat) (x : Num.number) (bytes : list Z)
            (s' : TurboSerial.wstate),
        TurboSerial.serialize H TurboSerial.default_options [] fuel
          (TurboSerial.new TurboSerial.default_options) (Heap.VNum x) = Done (bytes, s') ->
        bytes !! 5%nat = Some TYPE.VARINT ->
        nonneg_integer x).
Proof.
  intros Hc.
  destruct (TurboSerial.serialize bare_host TurboSerial.default_options [] 1
              (TurboSerial.new TurboSerial.default_options)
              (Heap.VNum (Num.of_int (-2147483648)))) as [[bytes s']| |] eqn:E;
    [|vm_compute in E; discriminate E|vm_compute in E; discriminate E].
  specialize (Hc bare_host 1%nat (Num.of_int (-2147483648)) bytes s' E).
  vm_compute in E. inversion E; subst bytes. clear E.
  destruct (Hc eq_refl) as (n & Hn & Hx).
  destruct n as [|p|p]; [discriminate Hx|discriminate Hx|lia].
Qed.

(** C8, amended: the encoder uses the VARINT tag for an integer whose
    sign travels in the payload: whenever [writeValue] emits tag [0x1A]
    for a number [x], [x] is the integer [-2^31]; its magnitude is written
    as a varint and followed by the sign byte 1. *)
Theorem varint_tag_only_for_min_int32 (H : Heap.Host) (opts : TurboSerial.options)
    (h : Heap.heap) (k : nat) (x : Num.number) (s : TurboSerial.wstate) :
  PoolFacts.ok (TurboSerial.pool s) ->
  UltraMemoryPool.pos (TurboSerial.pool s) + 2048 < 2147483648 ->
  (exists s',
      TurboSerial.writeValue H opts h (S k) (Heap.VNum x) s = Done (tt, s')
      /\ (UltraMemoryPool.byte_at (UltraMemoryPool.u8 (TurboSerial.pool s'))
            (UltraMemoryPool.pos (TurboSerial.pool s)) = TYPE.VARINT ->
          x = Num.of_int (-2147483648)))
  /\ (exists s',
      TurboSerial.serialize H TurboSerial.default_options [] (S k)
        (TurboSerial.new TurboSerial.default_options) (Heap.VNum (Num.of_int (-2147483648)))
      = Done ([0x35; 0x52; 0x42; 0x54; 0x05; TYPE.VARINT]
                ++ varint_groups 2147483648 ++ [1], s')).
Proof.
  intros Hok Hroom. split.
  - destruct (writeValue_number_tag H opts h k x s Hok Hroom) as (s' & Hs' & Hb).
    exists s'. split; [exact Hs'|].
    intros Ht. apply detectNumber_varint. rewrite <- Hb. exact Ht.
  - eexists. vm_compute. reflexivity.
Qed.

Lemma varint_tag_only_for_min_int32_witness :
  let s := TurboSerial.new TurboSerial.default_options in
  PoolFacts.ok (TurboSerial.pool s)
  /\ exists s',
       TurboSerial.writeValue bare_host TurboSerial.default_options [] 1
         (Heap.VNum (Num.of_int (-2147483648))) s = Done (tt, s')
       /\ (UltraMemoryPool.byte_at (UltraMemoryPool.u8 (TurboSerial.pool s'))
             (UltraMemoryPool.pos (TurboSerial.pool s)) = TYPE.VARINT ->
           Num.of_int (-2147483648) = Num.of_int (-2147483648)).
Proof.
  intros s.
  assert (Hok : PoolFacts.ok (TurboSerial.pool s)) by (unfold PoolFacts.ok; vm_compute; repeat split; discriminate).
  split; [exact Hok|].
  exact (proj1 (varint_tag_only_for_min_int32 bare_host TurboSerial.default_options [] 0
                  (Num.of_int (-2147483648)) s Hok ltac:(simpl; lia))).
Defined.

(** ** The specification on the round trip and the reference tables *)

(** The value [{a: "hello", b: "hello"}], at address 0 of its heap. *)
Definition two_hellos : Heap.heap :=
  [ Heap.literal [ (JS.str "a", Heap.VStr (JS.str "hello"));
                   (JS.str "b", Heap.VStr (JS.str "hello")) ] ].

(** What comes back: [{a: "hello", b: "a"}]. *)
Definition two_hellos_decoded : Heap.heap :=
  [ Heap.literal [ (JS.str "a", Heap.VStr (JS.str "hello"));
                   (JS.str "b", Heap.VStr (JS.str "a")) ] ].

(** C1: the round trip of [{a: "hello", b: "hello"}] under the default
    options.  The writer gives the second ["hello"] the string
    reference 0, counting only the strings longer than three code units;
    the reader's table holds every non-empty string it has read, the key
    ["a"] first, so the decoded object is [{a: "hello", b: "a"}]. *)
Theorem roundtrip_repeated_string (H : Heap.Host) (k : nat) :
  exists bytes s',
    TurboSerial.serialize H TurboSerial.default_options two_hellos (8 + k)
      (TurboSerial.new TurboSerial.default_options) (Heap.VRef 0%nat)
    = Done (bytes, s')
    /\ drop 20 bytes = [TYPE.STRING_REF; 0]
    /\ TurboSerial.deserialize H TurboSerial.default_options (8 + k) [] bytes
       = Done (Heap.VRef 0%nat, two_hellos_decoded)
    /\ two_hellos_decoded <> two_hellos.
Proof.
  eexists. eexists. split; [vm_compute; reflexivity|].
  split; [reflexivity|]. split; [vm_compute; reflexivity|].
  vm_compute. discriminate.
Qed.

(** The value of scenario S5: at address 0 the array of the two views,
    at 1 and 2 the [Uint8Array] views of bytes 0..15 and 16..31, at 3
    their 32-byte buffer. *)
Definition two_views : Heap.heap :=
  [ Heap.array_of [Heap.VRef 1%nat; Heap.VRef 2%nat];
    Heap.OView TYPE.UINT8ARRAY 3%nat 0 16;
    Heap.OView TYPE.UINT8ARRAY 3%nat 16 16;
    Heap.OArrayBuffer false (seqZ 1 32) ].

(** C4: the second view is written as tag, share flag 1, buffer id 0,
    byte offset 16 and length 16; the reader has registered as buffer 0
    the 16 bytes rebuilt for the first view, so the view of 16 bytes at
    offset 16 is out of its bounds and [deserialize] throws the
    runtime's [RangeError] instead of returning two views. *)
Theorem shared_views_do_not_decode (H : Heap.Host) (k : nat) :
  exists bytes s',
    TurboSerial.serialize H TurboSerial.default_options two_views (8 + k)
      (TurboSerial.new TurboSerial.default_options) (Heap.VRef 0%nat)
    = Done (bytes, s')
    /\ drop 27 bytes = [TYPE.UINT8ARRAY; 1; 0; 16; 16]
    /\ TurboSerial.deserialize H TurboSerial.default_options (8 + k) [] bytes
       = Throw HostRangeError.
Proof.
  eexists. eexists. split; [vm_compute; reflexivity|].
  split; [reflexivity|]. vm_compute. reflexivity.
Qed.

(** C6: when the tag at the cursor is REFERENCE, STRING_REF or
    BUFFER_REF and the varint after it decodes to an id that is at least
    the size of the tag's table, [readValue] throws the invalid-reference
    error of that table and so returns no value. *)
Theorem stale_reference_id_throws (H : Heap.Host) (opts : TurboSerial.options)
    (k : nat) (s s1 s2 : TurboSerial.rstate) (type id : Z) :
  TurboSerial.readU8 s = Done (type, s1) ->
  TurboSerial.readVarint s1 = Done (id, s2) ->
  (type = TYPE.REFERENCE ->
   Z.of_nat (length (TurboSerial.deserializeRefs s)) <= id ->
   TurboSerial.readValue H opts (S k) s = Throw (InvalidReference id))
  /\ (type = TYPE.STRING_REF ->
      Z.of_nat (length (TurboSerial.deserializeStrings s)) <= id ->
      TurboSerial.readValue H opts (S k) s = Throw (InvalidStringReference id))
  /\ (type = TYPE.BUFFER_REF ->
      Z.of_nat (length (TurboSerial.deserializeBuffers s)) <= id ->
      TurboSerial.readValue H opts (S k) s = Throw (InvalidBufferReference id)).
Proof.
  intros Hu8 Hvar.
  assert (Hin : (TurboSerial.buffer_length s <=? TurboSerial.rpos s) = false).
  { apply Z.leb_gt. unfold TurboSerial.readU8, bind, TurboSerial.ensureBytes in Hu8.
    destruct (TurboSerial.buffer_length s <? TurboSerial.rpos s + 1) eqn:E;
      [discriminate Hu8|]. apply Z.ltb_ge in E. lia. }
  assert (Hs1 : TurboSerial.deserializeRefs s1 = TurboSerial.deserializeRefs s
                /\ TurboSerial.deserializeStrings s1 = TurboSerial.deserializeStrings s
                /\ TurboSerial.deserializeBuffers s1 = TurboSerial.deserializeBuffers s).
  { unfold TurboSerial.readU8, bind, TurboSerial.ensureBytes in Hu8.
    destruct (TurboSerial.buffer_length s <? TurboSerial.rpos s + 1);
      [discriminate Hu8|]. inversion Hu8; subst. repeat split. }
  assert (Hs2 : TurboSerial.deserializeRefs s2 = TurboSerial.deserializeRefs s1
                /\ TurboSerial.deserializeStrings s2 = TurboSerial.deserializeStrings s1
                /\ TurboSerial.deserializeBuffers s2 = TurboSerial.deserializeBuffers s1).
  { unfold TurboSerial.readVarint in Hvar.
    destruct (TurboSerial.varint_loop _ _ _ _ _) as [[v n]| |];
      [|discriminate Hvar|discriminate Hvar]. inversion Hvar; subst. repeat split. }
  destruct Hs1 as (Hr1 & Ht1 & Hb1). destruct Hs2 as (Hr2 & Ht2 & Hb2).
  assert (Hrun : forall body : Z -> TurboSerial.R Heap.value,
             bind TurboSerial.readU8 body s = body type s1).
  { intros body. unfold bind at 1. rewrite Hu8. reflexivity. }
  split; [|split]; intros -> Hge; cbn [TurboSerial.readValue];
    unfold TurboSerial.readValue_body; unfold bind at 1, get at 1; rewrite Hin;
    rewrite Hrun; cbn [Z.eqb TYPE.REFERENCE TYPE.STRING_REF TYPE.BUFFER_REF TYPE.CIRCULAR_REF
                         Pos.eqb orb];
    unfold bind at 1; rewrite Hvar; unfold bind, get.
  - rewrite Hr2, Hr1, (proj2 (lookup_ge_None _ _)) by lia. reflexivity.
  - rewrite Ht2, Ht1, (proj2 (lookup_ge_None _ _)) by lia. reflexivity.
  - rewrite Hb2, Hb1, (proj2 (lookup_ge_None _ _)) by lia. reflexivity.
Qed.

(** The header followed by a REFERENCE tag with id 3, the cursor on the
    tag and the tables empty. *)
Definition dangling_reference : TurboSerial.rstate :=
  TurboSerial.mkR [0x35; 0x52; 0x42; 0x54; 0x05; TYPE.REFERENCE; 3] 5 [] [] [] [] 0.

Lemma stale_reference_id_throws_witness :
  TurboSerial.readValue bare_host TurboSerial.default_options 1 dangling_reference
  = Throw (InvalidReference 3).
Proof.
  refine (proj1 (stale_reference_id_throws bare_host TurboSerial.default_options 0
                   dangling_reference
                   (TurboSerial.set_pos 6 dangling_reference)
                   (TurboSerial.set_pos 7 dangling_reference)
                   TYPE.REFERENCE 3 _ _) _ _).
  - reflexivity.
  - reflexivity.
  - reflexivity.
  - simpl. lia.
Defined.

(** ** The specification on the numeric-array analyzer *)

(** Sixteen copies of [2^32]: integers, none of them an int32. *)
Definition wide_integers : list Z := replicate 16 4294967296.

(** C2, as the specification states it, fails: an eligible array of
    sixteen copies of [2^32], integer content that overflows i32, is not
    classified as ARRAY_PACKED_F64 (every element is a binary32 value, and
    the analyzer answers ARRAY_PACKED_F32). *)
Lemma wide_integers_are_not_packed_f64 :
  ~ (forall H : Heap.Host,
        SIMDProcessor.canOptimize 16 (list_to_map (zip (seqZ 0 16) (nums wide_integers))) = true ->
        SIMDProcessor.analyzeNumericArray H [] (nums wide_integers)
        = Done (TYPE.ARRAY_PACKED_F64, 8)).
Proof.
  intros Hc. specialize (Hc bare_host eq_refl). vm_compute in Hc. discriminate Hc.
Qed.

(** The packed signed integer element types with their sizes in bytes. *)
Definition packed_integer_types : list (Z * Z) :=
  [ (TYPE.ARRAY_PACKED_I8, 1); (TYPE.ARRAY_PACKED_I16, 2); (TYPE.ARRAY_PACKED_I32, 4) ].

Lemma is_int32_spec (z : Z) : is_int32 z = true <-> int32 z.
Proof.
  unfold is_int32, int32. rewrite Z.eqb_eq. split.
  - intros ->. apply to_int32_range.
  - intros Hz. symmetry. apply to_int32_small. exact Hz.
Qed.

Lemma forallb_is_int32 (zs : list Z) : forallb is_int32 zs = true <-> Forall int32 zs.
Proof.
  rewrite forallb_forall, List.Forall_forall.
  split; intros Hall z Hz; apply is_int32_spec, Hall, Hz.
Qed.

(** C2, amended: on a non-empty array of integers that a double holds
    exactly, the analyzer
    - when every element is an int32, picks a packed signed integer type
      among i8, i16, i32 whose range contains every element;
    - when some element is beyond the int32 range, applies the rule of
      the fractional arrays: ARRAY_PACKED_F32 when every element is a
      binary32 value, ARRAY_PACKED_F64 otherwise;
    and the array [1..16] passes the eligibility gate and is classified
    with one of the packed signed integer types. *)
Theorem packed_type_of_integers (H : Heap.Host) (h : Heap.heap) (zs : list Z) :
  zs <> [] -> Forall small zs ->
  (Forall int32 zs ->
   exists t k,
     SIMDProcessor.analyzeNumericArray H h (nums zs) = Done (t, k)
     /\ In (t, k) packed_integer_types
     /\ Forall (fun z => - 2 ^ (8 * k - 1) <= z < 2 ^ (8 * k - 1)) zs)
  /\ (~ Forall int32 zs ->
      SIMDProcessor.analyzeNumericArray H h (nums zs)
      = Done (if forallb f32_exact zs then (TYPE.ARRAY_PACKED_F32, 4)
              else (TYPE.ARRAY_PACKED_F64, 8)))
  /\ (exists t k,
         UltraTypeDetector.detectArray H h 16
           (list_to_map (zip (seqZ 0 16) (nums (seqZ 1 16)))) = Done t
         /\ In (t, k) packed_integer_types).
Proof.
  intros Hne Hsmall.
  destruct (scan_loop_flags H h zs Hsmall
              (SIMDProcessor.mkScan 1 Num.Infinity Num.NegInfinity 1) true true
              eq_refl eq_refl) as (a' & Hrun & Hi & Hf).
  rewrite !andb_true_l in *.
  split; [|split].
  - intros Hall.
    rewrite (proj2 (forallb_is_int32 zs) Hall) in Hi.
    destruct zs as [|z0 zs']; [contradiction|].
    inversion Hsmall as [|? ? Hz0 Hzs']; subst.
    inversion Hall as [|? ? Hi0 Hall']; subst.
    pose proof Hrun as Hrun'.
    cbn [nums map SIMDProcessor.scan_loop] in Hrun'.
    rewrite scan_step_int in Hrun' by exact Hz0. fold (nums zs') in Hrun'.
    apply (scan_loop_bounds H h zs' Hzs' _ _ z0 z0) in Hrun';
      [|apply min_infinity|apply max_neg_infinity|exact Hz0|exact Hz0].
    destruct Hrun' as (mn & mx & E1 & E2 & L1 & L2 & Hin & I1 & I2).
    assert (Hmn : int32 mn).
    { destruct I1 as [->|I1]; [exact Hi0|].
      exact (proj1 (List.Forall_forall _ _) Hall' _ I1). }
    assert (Hmx : int32 mx).
    { destruct I2 as [->|I2]; [exact Hi0|].
      exact (proj1 (List.Forall_forall _ _) Hall' _ I2). }
    assert (Hall2 : Forall (fun z => mn <= z <= mx) (z0 :: zs')).
    { constructor; [lia|exact Hin]. }
    unfold SIMDProcessor.analyzeNumericArray. rewrite Hrun, Hi, E1, E2.
    cbn [SIMDProcessor.b2z Z.eqb negb].
    unfold int32 in Hmn, Hmx.
    assert (S1 : small mn) by (apply int32_small; exact Hmn).
    assert (S2 : small mx) by (apply int32_small; exact Hmx).
    assert (S3 : small (Z.abs mn)) by (unfold small in *; lia).
    assert (S4 : small (Z.abs mx)) by (unfold small in *; lia).
    rewrite !abs_of_int by assumption.
    rewrite max_of_int by assumption.
    set (M := Z.max (Z.abs mn) (Z.abs mx)) in *.
    assert (SM : Z.abs M < 2 ^ 53) by (unfold small in *; lia).
    rewrite !leb_of_int by (first [exact SM|reflexivity]).
    destruct (Z.leb_spec M 127) as [B1|B1];
      destruct (Z.leb_spec M 32767) as [B2|B2];
      destruct (Z.leb_spec M 2147483647) as [B3|B3]; try lia;
      match goal with
      | |- context [default ?d ?l] =>
          let r := eval vm_compute in (default d l) in change (default d l) with r
      end.
    + exists TYPE.ARRAY_PACKED_I32, 4. split; [reflexivity|].
      split; [right; right; left; reflexivity|].
      eapply Forall_impl; [exact Hall2|]. intros z Hz. cbv beta in Hz |- *.
      change (2 ^ (8 * 4 - 1)) with 2147483648. lia.
    + exists TYPE.ARRAY_PACKED_I16, 2. split; [reflexivity|].
      split; [right; left; reflexivity|].
      eapply Forall_impl; [exact Hall2|]. intros z Hz. cbv beta in Hz |- *.
      change (2 ^ (8 * 2 - 1)) with 32768. lia.
    + exists TYPE.ARRAY_PACKED_I32, 4. split; [reflexivity|].
      split; [right; right; left; reflexivity|].
      eapply Forall_impl; [exact Hall2|]. intros z Hz. cbv beta in Hz |- *.
      change (2 ^ (8 * 4 - 1)) with 2147483648. lia.
    + exists TYPE.ARRAY_PACKED_I32, 4. split; [reflexivity|].
      split; [right; right; left; reflexivity|].
      eapply Forall_impl; [exact Hall2|]. intros z Hz. cbv beta in Hz |- *.
      change (2 ^ (8 * 4 - 1)) with 2147483648. lia.
  - intros Hnot.
    assert (Hb : forallb is_int32 zs = false).
    { destruct (forallb is_int32 zs) eqn:E; [|reflexivity].
      exfalso. apply Hnot. apply forallb_is_int32. exact E. }
    rewrite Hb in Hi.
    unfold SIMDProcessor.analyzeNumericArray. rewrite Hrun, Hi, Hf.
    destruct (forallb f32_exact zs); reflexivity.
  - exists TYPE.ARRAY_PACKED_I32, 4. split; [vm_compute; reflexivity|].
    right; right; left; reflexivity.
Qed.

Lemma packed_type_of_integers_witness :
  [1; 1000] <> [] /\ Forall small [1; 1000] /\ Forall int32 [1; 1000]
  /\ exists t k,
       SIMDProcessor.analyzeNumericArray bare_host [] (nums [1; 1000]) = Done (t, k)
       /\ In (t, k) packed_integer_types
       /\ Forall (fun z => - 2 ^ (8 * k - 1) <= z < 2 ^ (8 * k - 1)) [1; 1000].
Proof.
  assert (Hne : [1; 1000] <> ([] : list Z)) by discriminate.
  assert (Hs : Forall small [1; 1000]).
  { repeat constructor; unfold small; simpl; lia. }
  assert (Hi : Forall int32 [1; 1000]).
  { repeat constructor; unfold int32; lia. }
  split; [exact Hne|]. split; [exact Hs|]. split; [exact Hi|].
  exact (proj1 (packed_type_of_integers bare_host [] [1; 1000] Hne Hs) Hi).
Defined.

(** ** The specification on termination of the reader *)

(** A source text whose evaluation never returns, a runtime that loops
    on it (and throws on any other text), and the options that turn
    function reconstruction on. *)
Definition looping_source : JS.jsstring := JS.str "(()=>{for(;;);})()".

Definition looping_host : Heap.Host :=
  Heap.mkHost (fun _ => []) (fun _ => []) (fun _ _ => None) (fun _ _ => None)
              (fun _ _ _ => true)
              (fun _ src => if bool_decide (src = Heap.VStr looping_source)
                            then None else Some None).

Definition reconstructing : TurboSerial.options :=
  {| TurboSerial.compression := false; TurboSerial.deduplication := true;
     TurboSerial.shareArrayBuffers := true; TurboSerial.simdOptimization := true;
     TurboSerial.detectCircular := true; TurboSerial.serializeFunctions := true;
     TurboSerial.preservePropertyDescriptors := true;
     TurboSerial.memoryPoolSize := 65536 |}.

(** An object with one method [f] whose source is [looping_source]. *)
Definition looping_input : list Z :=
  [0x35; 0x52; 0x42; 0x54; 0x05; TYPE.OBJECT_WITH_METHODS; 1;
   TYPE.STRING_ASCII_TINY; 1; 102; 1; TYPE.STRING_ASCII_TINY; 18]
  ++ looping_source ++ [TYPE.STRING_ASCII_TINY; 1; 102].

(** C10, as the specification states it, fails: with function
    reconstruction on, [deserialize] evaluates the source text it reads,
    and on [looping_input] no amount of fuel brings it to a result. *)
Lemma deserialize_can_run_forever :
  ~ (forall (H : Heap.Host) (opts : TurboSerial.options) (input : list Z),
        exists fuel : nat, TurboSerial.deserialize H opts fuel [] input <> OutOfFuel).
Proof.
  intros Hc. destruct (Hc looping_host reconstructing looping_input) as [fuel Hf].
  apply Hf. destruct fuel as [|[|fuel]]; vm_compute; reflexivity.
Qed.

(** C10, amended: with function reconstruction off (the default),
    [deserialize] terminates on every input of fewer than [2^30] bytes,
    returning a value or throwing: more fuel than the input has bytes is
    enough, and the result is the same for every such amount.  Every
    [readValue] call that returns has moved the cursor over at least its
    tag byte, every turn of a fill loop contains such a call, and the
    reads are bounds-checked. *)
Theorem deserialize_terminates (H : Heap.Host) (opts : TurboSerial.options)
    (h0 : Heap.heap) (input : list Z) :
  TurboSerial.serializeFunctions opts = false ->
  Forall ReaderFacts.is_byte input ->
  Z.of_nat (length input) < 2 ^ 30 ->
  (exists r,
      ((exists v h, r = Done (v, h)) \/ (exists e, r = Throw e))
      /\ forall fuel, (length input < fuel)%nat ->
                      TurboSerial.deserialize H opts fuel h0 input = r)
  /\ (forall n s v s',
         ReaderFacts.inv s ->
         TurboSerial.readValue H opts n s = Done (v, s') ->
         TurboSerial.buffer s' = TurboSerial.buffer s
         /\ TurboSerial.rpos s < TurboSerial.rpos s').
Proof.
  intros Hsf Hbytes Hlen. split.
  - pose proof (ReaderFacts.deserialize_fuel H opts (S (length input)) h0 input
                  Hsf Hbytes Hlen ltac:(lia)) as Hne.
    exists (TurboSerial.deserialize H opts (S (length input)) h0 input). split.
    + destruct (TurboSerial.deserialize H opts (S (length input)) h0 input) as [[v h]|e|].
      * left. exists v, h. reflexivity.
      * right. exists e. reflexivity.
      * contradiction.
    + intros fuel Hfuel. apply ReaderFacts.deserialize_more_fuel; [exact Hsf|lia|exact Hne].
  - intros n s v s' Hs Hrun.
    pose proof (ReaderFacts.readValue_progress H opts Hsf n s Hs) as Hp.
    rewrite Hrun in Hp. destruct Hp as (_ & [Eb [_ Hlt]] & _). split; assumption.
Qed.

Lemma deserialize_terminates_witness :
  exists r,
    ((exists v h, r = Done (v, h)) \/ (exists e, r = Throw e))
    /\ forall fuel, (6 < fuel)%nat ->
                    TurboSerial.deserialize bare_host TurboSerial.default_options fuel []
                      [0x35; 0x52; 0x42; 0x54; 0x05; 0x00] = r.
Proof.
  refine (proj1 (deserialize_terminates bare_host TurboSerial.default_options []
                   [0x35; 0x52; 0x42; 0x54; 0x05; 0x00] _ _ _)).
  - reflexivity.
  - repeat constructor; unfold ReaderFacts.is_byte; lia.
  - simpl. lia.
Defined.

(** * Further properties of the code *)

(** ** Integers through [serialize] and [deserialize] *)

(** X14: Every integer-valued number of the int32 range goes through
    [serialize] and [deserialize] unchanged: whatever instance, options
    and earlier calls produced the blob, whatever instance reads it, and
    whatever bytes follow the blob in the input. *)
Theorem int32_number_round_trip (H H' : Heap.Host) (opts opts' : TurboSerial.options)
    (h h0 : Heap.heap) (k k' : nat) (s0 : TurboSerial.wstate) (rest : list Z) (n : Z) :
  PoolFacts.ok (TurboSerial.pool s0) ->
  -2147483648 <= n < 2147483648 ->
  Z.of_nat (length rest) < 2 ^ 30 ->
  exists bytes s',
    TurboSerial.serialize H opts h (S k) s0 (Heap.VNum (Num.of_int n)) = Done (bytes, s')
    /\ TurboSerial.deserialize H' opts' (S k') h0 (bytes ++ rest)
       = Done (Heap.VNum (Num.of_int n), h0).
Proof.
  intros Hok Hn Hrest. change (2 ^ 30) with 1073741824 in Hrest.
  rewrite serialize_number_run.
  destruct (Z.eq_dec n (-2147483648)) as [->|Hne].
  - (* the VARINT tag: magnitude, then the sign byte *)
    change (UltraTypeDetector.detectNumber (Num.of_int (-2147483648))) with TYPE.VARINT.
    pose proof (blob_tag (TurboSerial.pool s0) TYPE.VARINT Hok ltac:(vm_compute; split; [discriminate|reflexivity])) as B6.
    set (p6 := UltraMemoryPool.writeU8 TYPE.VARINT (header_pool (TurboSerial.pool s0))) in *.
    pose proof (blob_writeVarint 2147483648 p6 _ B6 ltac:(simpl; lia) ltac:(lia)) as B7.
    pose proof (blob_writeU8 1 _ _ B7 ltac:(rewrite length_app; simpl; lia)) as B8.
    eexists. eexists. split.
    + change (TurboSerial.writePayload H opts h (TurboSerial.writeValue H opts h k)
                (Heap.VNum (Num.of_int (-2147483648))) TYPE.VARINT)
        with (bind (TurboSerial.writeVarint 2147483648) (fun _ => TurboSerial.writeU8 1)).
      unfold bind, TurboSerial.writeVarint, TurboSerial.writeU8, TurboSerial.on_pool, modify.
      cbn [TurboSerial.pool].
      rewrite (blob_getResult _ _ B8). reflexivity.
    + rewrite <- !app_assoc.
      change ([53; 82; 66; 84; 5; TYPE.VARINT] ++ varint_groups 2147483648 ++ [byte_of 1] ++ rest)
        with ([53; 82; 66; 84; 5] ++ [TYPE.VARINT] ++ varint_groups 2147483648 ++ [1] ++ rest).
      rewrite deserialize_header by (rewrite !length_app; simpl; lia).
      rewrite (readValue_number_run H' opts' k' _ TYPE.VARINT);
        [|simpl; lia|reflexivity|reflexivity].
      change (TurboSerial.readNumber TYPE.VARINT)
        with (bind TurboSerial.readVarint (fun value =>
                bind TurboSerial.readU8 (fun isNegative =>
                  ret (Heap.VNum (if negb (isNegative =? 0)
                                  then Num.neg (Num.of_int value) else Num.of_int value))))).
      match goal with |- context [TurboSerial.set_pos ?q ?s] => set (s6 := TurboSerial.set_pos q s) end.
      pose proof (rd_readVarint s6 2147483648 [53; 82; 66; 84; 5; TYPE.VARINT] ([1] ++ rest)
                    ltac:(lia) eq_refl eq_refl) as E1.
      change (TurboSerial.rpos s6 + Z.of_nat (length (varint_groups 2147483648))) with 11 in E1.
      pose proof (rd_readU8 (TurboSerial.set_pos 11 s6) 1 ltac:(simpl; lia) eq_refl) as E2.
      unfold bind at 1. unfold bind at 1. rewrite E1.
      unfold bind at 1. rewrite E2. reflexivity.
  - (* the INT32 tag: padding to a multiple of 4, then four bytes *)
    rewrite detectNumber_int32 by lia.
    pose proof (blob_tag (TurboSerial.pool s0) TYPE.INT32 Hok ltac:(vm_compute; split; [discriminate|reflexivity])) as B6.
    set (p6 := UltraMemoryPool.writeU8 TYPE.INT32 (header_pool (TurboSerial.pool s0))) in *.
    destruct (blob_put_aligned 2 (JS.le_bytes 4 (JS.to_int32 n)) p6 _ ltac:(lia) B6
                ltac:(rewrite le_bytes_length; simpl; lia))
      as (pad & B & Hmod & Hpad & _).
    rewrite le_bytes_length in B. change (Z.of_nat 4) with 4 in B. change (2 ^ 2) with 4 in *.
    rewrite map_byte_of_le_bytes in B.
    assert (Hlen : length pad = 2%nat).
    { cbn [length] in Hmod. destruct pad as [|a [|b [|c [|d pad]]]]; cbn [length] in *;
        first [reflexivity|vm_compute in Hmod; discriminate Hmod|lia]. }
    destruct pad as [|a [|b [|c pad]]]; try discriminate Hlen. clear Hlen Hmod Hpad.
    eexists. eexists. split.
    + change (TurboSerial.writePayload H opts h (TurboSerial.writeValue H opts h k)
                (Heap.VNum (Num.of_int n)) TYPE.INT32)
        with (TurboSerial.on_pool (UltraMemoryPool.writeI32 (Num.trunc (Num.of_int n)))).
      unfold TurboSerial.on_pool, modify. cbn [TurboSerial.pool].
      rewrite trunc_of_int by (change (2 ^ 53) with 9007199254740992; lia).
      unfold UltraMemoryPool.writeI32. rewrite (blob_getResult _ _ B). reflexivity.
    + rewrite <- !app_assoc.
      change ([53; 82; 66; 84; 5; TYPE.INT32] ++ [a; b] ++ JS.le_bytes 4 (JS.to_int32 n) ++ rest)
        with ([53; 82; 66; 84; 5] ++ [TYPE.INT32; a; b] ++ JS.le_bytes 4 (JS.to_int32 n) ++ rest).
      rewrite deserialize_header
        by (rewrite !length_app, le_bytes_length; simpl; lia).
      rewrite (readValue_number_run H' opts' k' _ TYPE.INT32);
        [|simpl; lia|reflexivity|reflexivity].
      change (TurboSerial.readNumber TYPE.INT32)
        with (bind TurboSerial.readI32 (fun v => ret (Heap.VNum (Num.of_int v)))).
      unfold TurboSerial.readI32.
      match goal with |- context [TurboSerial.set_pos ?q ?s] => set (s6 := TurboSerial.set_pos q s) end.
      assert (E : TurboSerial.read_le 4 s6
                  = Done (JS.of_le_bytes (JS.le_bytes 4 (JS.to_int32 n)), TurboSerial.set_pos 12 s6)).
      { change 4 with (2 ^ 2) at 1.
        rewrite (rd_read_le 2 s6 [53; 82; 66; 84; 5; TYPE.INT32; a; b]
                   (JS.le_bytes 4 (JS.to_int32 n)) rest);
          [reflexivity|lia|reflexivity|rewrite le_bytes_length; reflexivity
          |simpl; lia|simpl; lia|reflexivity|simpl; lia]. }
      unfold bind at 1. unfold bind at 1. unfold bind at 1. rewrite E.
      rewrite of_le_bytes_le_bytes. change (256 ^ Z.of_nat 4) with 4294967296.
      rewrite signed32_to_uint32, to_int32_twice by lia.
      reflexivity.
Qed.

Lemma int32_number_round_trip_witness :
  exists bytes s',
    TurboSerial.serialize bare_host TurboSerial.default_options [] 1
      (TurboSerial.new TurboSerial.default_options) (Heap.VNum (Num.of_int 1000))
    = Done (bytes, s')
    /\ TurboSerial.deserialize bare_host TurboSerial.default_options 1 [] (bytes ++ [])
       = Done (Heap.VNum (Num.of_int 1000), []).
Proof.
  apply (int32_number_round_trip bare_host bare_host TurboSerial.default_options
           TurboSerial.default_options [] [] 0 0 (TurboSerial.new TurboSerial.default_options)
           [] 1000).
  - unfold PoolFacts.ok. vm_compute. repeat split; discriminate.
  - lia.
  - simpl. lia.
Defined.

(** ** Padding *)

(** X5: [reset()] leaves the bytes of the pool in place and [alignPos]
    skips bytes without storing any: the two padding bytes of the blob of
    an int32 number, at offsets 6 and 7, are the bytes the pool held
    there before the call.  So a blob can carry bytes of an earlier
    blob of the same instance. *)
Theorem padding_is_not_cleared (H : Heap.Host) (opts : TurboSerial.options) (h : Heap.heap)
    (k : nat) (s0 : TurboSerial.wstate) (n : Z) :
  PoolFacts.ok (TurboSerial.pool s0) ->
  12 <= UltraMemoryPool.size (TurboSerial.pool s0) ->
  -2147483648 < n < 2147483648 ->
  exists bytes s',
    TurboSerial.serialize H opts h (S k) s0 (Heap.VNum (Num.of_int n)) = Done (bytes, s')
    /\ bytes !! 6%nat
       = Some (UltraMemoryPool.byte_at (UltraMemoryPool.u8 (TurboSerial.pool s0)) 6)
    /\ bytes !! 7%nat
       = Some (UltraMemoryPool.byte_at (UltraMemoryPool.u8 (TurboSerial.pool s0)) 7).
Proof.
  intros Hok Hsize Hn.
  rewrite serialize_number_run. rewrite detectNumber_int32 by lia.
  pose proof (blob_tag (TurboSerial.pool s0) TYPE.INT32 Hok
                ltac:(vm_compute; split; [discriminate|reflexivity])) as B6.
  pose proof (tag_pool_beyond (TurboSerial.pool s0) TYPE.INT32 6 Hok ltac:(lia) ltac:(lia)) as K6.
  pose proof (tag_pool_beyond (TurboSerial.pool s0) TYPE.INT32 7 Hok ltac:(lia) ltac:(lia)) as K7.
  set (p6 := UltraMemoryPool.writeU8 TYPE.INT32 (header_pool (TurboSerial.pool s0))) in *.
  destruct (blob_put_aligned 2 (JS.le_bytes 4 (JS.to_int32 n)) p6 _ ltac:(lia) B6
              ltac:(rewrite le_bytes_length; simpl; lia))
    as (pad & B & Hmod & Hpad & Hstale).
  rewrite le_bytes_length in B. change (Z.of_nat 4) with 4 in B. change (2 ^ 2) with 4 in *.
  assert (Hlen : length pad = 2%nat).
  { cbn [length] in Hmod. destruct pad as [|a [|b [|c [|d pad]]]]; cbn [length] in *;
      first [reflexivity|vm_compute in Hmod; discriminate Hmod|lia]. }
  destruct pad as [|a [|b [|c pad]]]; try discriminate Hlen.
  pose proof (Hstale 0%nat a eq_refl) as Ha. pose proof (Hstale 1%nat b eq_refl) as Hb.
  cbn [length] in Ha, Hb. change (Z.of_nat 6 + Z.of_nat 0) with 6 in Ha.
  change (Z.of_nat 6 + Z.of_nat 1) with 7 in Hb. rewrite K6 in Ha. rewrite K7 in Hb.
  eexists. eexists. split.
  - change (TurboSerial.writePayload H opts h (TurboSerial.writeValue H opts h k)
              (Heap.VNum (Num.of_int n)) TYPE.INT32)
      with (TurboSerial.on_pool (UltraMemoryPool.writeI32 (Num.trunc (Num.of_int n)))).
    unfold TurboSerial.on_pool, modify. cbn [TurboSerial.pool].
    rewrite trunc_of_int by (change (2 ^ 53) with 9007199254740992; lia).
    unfold UltraMemoryPool.writeI32. rewrite (blob_getResult _ _ B). reflexivity.
  - subst a b. split; reflexivity.
Qed.

(** An instance whose pool holds [AA BB] at offsets 6 and 7. *)
Definition used_instance : TurboSerial.wstate :=
  TurboSerial.mkW (UltraMemoryPool.mkPool 128 (<[6 := 0xAA]> (<[7 := 0xBB]> ∅)) 40) ∅ ∅ ∅ ∅.

Lemma padding_is_not_cleared_witness :
  exists bytes s',
    TurboSerial.serialize bare_host TurboSerial.default_options [] 1 used_instance
      (Heap.VNum (Num.of_int 1000)) = Done (bytes, s')
    /\ bytes !! 6%nat = Some 0xAA /\ bytes !! 7%nat = Some 0xBB.
Proof.
  apply (padding_is_not_cleared bare_host TurboSerial.default_options [] 0 used_instance 1000).
  - unfold PoolFacts.ok. vm_compute. repeat split; discriminate.
  - vm_compute. discriminate.
  - lia.
Defined.

(** ** The classifiers *)

(** The tags [detectNumber] can return. *)
Definition number_tags : list Z :=
  [ TYPE.NAN; TYPE.INFINITY; TYPE.NEG_INFINITY; TYPE.NEG_ZERO;
    TYPE.INT32; TYPE.VARINT; TYPE.FLOAT32; TYPE.FLOAT64 ].

(** X6: [detectNumber] never returns INT8, INT16 or UINT32: whatever the
    number, its tag is one of NAN, INFINITY, NEG_INFINITY, NEG_ZERO,
    INT32, VARINT, FLOAT32, FLOAT64 (the table lookup
    [types[Math.min(typeIndex, 3)]] reaches only its first and last
    entry). *)
Theorem detectNumber_never_small_tags (x : Num.number) :
  In (UltraTypeDetector.detectNumber x) number_tags
  /\ UltraTypeDetector.detectNumber x <> TYPE.INT8
  /\ UltraTypeDetector.detectNumber x <> TYPE.INT16
  /\ UltraTypeDetector.detectNumber x <> TYPE.UINT32.
Proof.
  assert (Hin : In (UltraTypeDetector.detectNumber x) number_tags).
  { unfold UltraTypeDetector.detectNumber, number_tags.
    destruct (negb (Num.eqb x x)); [left; reflexivity|].
    match goal with |- context [negb (?i =? 0)] => destruct (negb (i =? 0)) end.
    { destruct (negb (JS.ushr _ 31 =? 0)); [right; right; left|right; left]; reflexivity. }
    match goal with |- context [if ?c then TYPE.NEG_ZERO else _] => destruct c end;
      [right; right; right; left; reflexivity|].
    destruct (Num.eqb x (Num.of_int (Num.to_int32 x))) eqn:He.
    - pose proof (to_int32_range (Num.trunc x)) as Hr. fold (Num.to_int32 x) in Hr.
      destruct (eqb_of_int_inv _ _ He) as [Hx|[_ [s Hx]]].
      + remember (Num.to_int32 x) as n eqn:Hn. clear He Hn. subst x.
        assert (Hb53 : Z.abs n < 2 ^ 53) by (change (2 ^ 53) with 9007199254740992; lia).
        rewrite abs_of_int by assumption.
        rewrite !leb_of_int
          by (rewrite ?Z.abs_eq by lia; change (2 ^ 53) with 9007199254740992; lia).
        destruct (Z.leb_spec (Z.abs n) 127) as [A1|A1];
          destruct (Z.leb_spec (Z.abs n) 32767) as [A2|A2];
          destruct (Z.leb_spec (Z.abs n) 2147483647) as [A3|A3]; try lia;
          first [ right; right; right; right; left; reflexivity
                | right; right; right; right; right; left; reflexivity ].
      + subst x. destruct s; right; right; right; right; left; reflexivity.
    - destruct (Num.eqb (Num.fround x) x);
        [right; right; right; right; right; right; left
        |right; right; right; right; right; right; right; left]; reflexivity. }
  split; [exact Hin|].
  unfold number_tags in Hin. cbn [In] in Hin.
  repeat split; intros E; rewrite E in Hin;
    repeat (destruct Hin as [Hin|Hin]; [discriminate Hin|]); exact Hin.
Qed.

(** X7: [canOptimize] answers true exactly when the length is 8 or at
    least 16 and the element at every multiple of [max(1, len >>> 5)]
    below the length, index 0 included, is a number.  So arrays of length
    9 to 15 are never packed, and from length 64 on the elements between
    two samples are not looked at. *)
Theorem canOptimize_exactly (len : Z) (elems : gmap Z Heap.value) :
  0 <= len < 2 ^ 30 ->
  SIMDProcessor.canOptimize len elems = true
  <-> (len = 8 \/ 16 <= len)
      /\ forall k, 0 <= k -> k * Z.max 1 (JS.to_int32 (JS.ushr len 5)) < len ->
            Heap.typeof (Heap.array_get elems (k * Z.max 1 (JS.to_int32 (JS.ushr len 5))))
            = Heap.TNumber.
Proof.
  intros Hlen. change (2 ^ 30) with 1073741824 in Hlen.
  set (iv := Z.max 1 (JS.to_int32 (JS.ushr len 5))).
  assert (Hiv : 1 <= iv) by (unfold iv; lia).
  split.
  - intros Hc. destruct (canOptimize_good_size len elems Hc) as [Hsize H0].
    split; [exact Hsize|]. intros k Hk Hlt.
    destruct (Z.eq_dec k 0) as [->|Hne]; [rewrite Z.mul_0_l; exact H0|].
    unfold SIMDProcessor.canOptimize in Hc. cbv zeta in Hc. fold iv in Hc.
    destruct (_ =? 0); [discriminate Hc|].
    rewrite H0 in Hc. rewrite bool_decide_eq_true_2 in Hc by reflexivity. cbn [negb] in Hc.
    rewrite forallb_forall in Hc.
    assert (Hin : In k (seqZ 1 ((len - 1) / iv))).
    { apply list_elem_of_In, elem_of_seqZ. split; [lia|].
      assert (k <= (len - 1) / iv); [|lia].
      apply Z.div_le_lower_bound; lia. }
    specialize (Hc k Hin). apply bool_decide_eq_true in Hc. exact Hc.
  - intros [Hsize Hnum]. unfold SIMDProcessor.canOptimize. cbv zeta. fold iv.
    assert (Hgood : JS.band (SIMDProcessor.b2z (8 <=? len))
                      (SIMDProcessor.b2z ((JS.band len (len - 1) =? 0) || (16 <=? len))) = 1).
    { destruct Hsize as [->|H16]; [reflexivity|].
      destruct (Z.leb_spec 8 len); [|lia]. destruct (Z.leb_spec 16 len); [|lia].
      rewrite orb_true_r. reflexivity. }
    rewrite Hgood. cbn [Z.eqb].
    pose proof (Hnum 0 ltac:(lia) ltac:(lia)) as H0. rewrite Z.mul_0_l in H0.
    rewrite H0. rewrite bool_decide_eq_true_2 by reflexivity. cbn [negb].
    apply forallb_forall. intros k Hk. apply list_elem_of_In, elem_of_seqZ in Hk.
    apply bool_decide_eq_true. apply Hnum; [lia|].
    assert (k * iv <= len - 1); [|lia].
    pose proof (Z.mul_div_le (len - 1) iv ltac:(lia)).
    assert (k <= (len - 1) / iv) by lia. nia.
Qed.

Lemma canOptimize_exactly_witness :
  SIMDProcessor.canOptimize 8 (list_to_map (zip (seqZ 0 8) (nums (seqZ 1 8)))) = true
  <-> (8 = 8 \/ 16 <= 8)
      /\ forall k, 0 <= k -> k * Z.max 1 (JS.to_int32 (JS.ushr 8 5)) < 8 ->
            Heap.typeof (Heap.array_get (list_to_map (zip (seqZ 0 8) (nums (seqZ 1 8))))
                           (k * Z.max 1 (JS.to_int32 (JS.ushr 8 5))))
            = Heap.TNumber.
Proof.
  apply (canOptimize_exactly 8 (list_to_map (zip (seqZ 0 8) (nums (seqZ 1 8))))).
  change (2 ^ 30) with 1073741824. lia.
Defined.

(** X8: [canOptimize] looks at the sampled indices only, the multiples of
    [max(1, len >>> 5)]: two arrays of one length that agree there get
    the same answer, whatever else they hold.  From length 64 on, an
    element that is not a number can so pass the gate. *)
Theorem canOptimize_reads_samples_only (len : Z) (elems elems' : gmap Z Heap.value) :
  (forall i, 0 <= i -> i mod Z.max 1 (JS.to_int32 (JS.ushr len 5)) = 0 ->
             elems !! i = elems' !! i) ->
  SIMDProcessor.canOptimize len elems = SIMDProcessor.canOptimize len elems'.
Proof.
  intros Hsame. unfold SIMDProcessor.canOptimize. cbv zeta.
  set (m := Z.max 1 (JS.to_int32 (JS.ushr len 5))) in *.
  assert (Hm : 1 <= m) by (unfold m; lia).
  assert (Hget : forall k, 0 <= k -> Heap.array_get elems (k * m) = Heap.array_get elems' (k * m)).
  { intros k Hk. unfold Heap.array_get. rewrite (Hsame (k * m)); [reflexivity|nia|].
    apply Z.mod_mul. lia. }
  pose proof (Hget 0 ltac:(lia)) as H0. rewrite Z.mul_0_l in H0. rewrite H0.
  destruct (_ =? 0); [reflexivity|].
  destruct (negb _); [reflexivity|].
  apply forallb_agree. intros k Hk.
  apply list_elem_of_In, elem_of_seqZ in Hk. rewrite Hget by lia. reflexivity.
Qed.

(** Sixty-four numbers, and the same array with a string at index 1. *)
Definition sixty_four : gmap Z Heap.value :=
  list_to_map (zip (seqZ 0 64) (nums (seqZ 1 64))).

Definition sixty_four_with_a_string : gmap Z Heap.value :=
  <[1 := Heap.VStr (JS.str "x")]> sixty_four.

Lemma canOptimize_reads_samples_only_witness :
  SIMDProcessor.canOptimize 64 sixty_four
  = SIMDProcessor.canOptimize 64 sixty_four_with_a_string
  /\ SIMDProcessor.canOptimize 64 sixty_four_with_a_string = true.
Proof.
  split; [|vm_compute; reflexivity].
  apply (canOptimize_reads_samples_only 64 sixty_four sixty_four_with_a_string).
  intros i Hi Hm. unfold sixty_four_with_a_string.
  change (Z.max 1 (JS.to_int32 (JS.ushr 64 5))) with 2 in Hm.
  rewrite lookup_insert_ne; [reflexivity|].
  intros <-. vm_compute in Hm. discriminate Hm.
Defined.

(** X9: [detectArray]: an array with a hole is ARRAY_SPARSE whatever it
    holds, and an array without holes whose length is neither 8 nor at
    least 16 is ARRAY_DENSE whatever it holds. *)
Theorem detectArray_sparse_or_dense (H : Heap.Host) (h : Heap.heap) (len : Z)
    (elems : gmap Z Heap.value) :
  0 < len < 2 ^ 30 ->
  ((exists i, 0 <= i < len /\ elems !! i = None) ->
   UltraTypeDetector.detectArray H h len elems = Done TYPE.ARRAY_SPARSE)
  /\ ((forall i, 0 <= i < len -> is_Some (elems !! i)) ->
      ~ (len = 8 \/ 16 <= len) ->
      UltraTypeDetector.detectArray H h len elems = Done TYPE.ARRAY_DENSE).
Proof.
  intros Hlen. change (2 ^ 30) with 1073741824 in Hlen.
  unfold UltraTypeDetector.detectArray. cbv zeta.
  destruct (Z.eqb_spec len 0) as [?|_]; [lia|]. split.
  - intros (i & Hi & Hnone).
    assert (Hholes : forallb (Heap.array_has elems) (seqZ 0 len) = false).
    { destruct (forallb (Heap.array_has elems) (seqZ 0 len)) eqn:E; [|reflexivity].
      rewrite forallb_forall in E.
      specialize (E i ltac:(apply list_elem_of_In, elem_of_seqZ; lia)).
      unfold Heap.array_has in E. apply bool_decide_eq_true in E.
      rewrite Hnone in E. destruct E as [? E]. discriminate E. }
    rewrite Hholes. reflexivity.
  - intros Hfull Hsize.
    assert (Hall : forall i, In i (seqZ 0 len) -> Heap.array_has elems i = true).
    { intros i Hi. apply list_elem_of_In, elem_of_seqZ in Hi.
      unfold Heap.array_has. apply bool_decide_eq_true. apply Hfull. lia. }
    rewrite (proj2 (forallb_forall _ _) Hall). cbn [negb orb].
    assert (Hfilter : List.filter (Heap.array_has elems) (seqZ 0 len) = seqZ 0 len).
    { apply forallb_filter_id. apply forallb_forall. exact Hall. }
    rewrite Hfilter, length_seqZ.
    assert (Hthr : JS.ushr (len * 3) 2 <= len).
    { unfold JS.ushr. rewrite to_uint32_small by lia. change (2 mod 32) with 2.
      rewrite Z.shiftr_div_pow2 by lia. change (2 ^ 2) with 4.
      apply Z.lt_succ_r. apply Z.div_lt_upper_bound; lia. }
    destruct (Z.ltb_spec (Z.of_nat (Z.to_nat len)) (JS.ushr (len * 3) 2)); [lia|].
    destruct (SIMDProcessor.canOptimize len elems) eqn:E; [|reflexivity].
    exfalso. apply Hsize. exact (proj1 (canOptimize_good_size len elems E)).
Qed.

Lemma detectArray_sparse_or_dense_witness :
  UltraTypeDetector.detectArray bare_host [] 3
    (list_to_map [(0, Heap.VNull); (2, Heap.VNull)]) = Done TYPE.ARRAY_SPARSE.
Proof.
  refine (proj1 (detectArray_sparse_or_dense bare_host [] 3
                   (list_to_map [(0, Heap.VNull); (2, Heap.VNull)]) _) _).
  - change (2 ^ 30) with 1073741824. lia.
  - exists 1. split; [lia|reflexivity].
Defined.

(** ** Varints *)

(** X3: What [writeVarint] stores, [readVarint] reads back: on an input
    made of the blob of a pool after [writeVarint(u)] (and anything after
    it), with the cursor where that write began, [readVarint] returns [u]
    and leaves the cursor where the write ended. *)
Theorem varint_write_then_read (p : UltraMemoryPool.pool) (u : Z)
    (s : TurboSerial.rstate) (rest : list Z) :
  PoolFacts.ok p -> UltraMemoryPool.pos p + 512 < 2147483648 ->
  0 <= u <= 4294967295 ->
  TurboSerial.buffer s = UltraMemoryPool.getResult (UltraMemoryPool.writeVarint u p) ++ rest ->
  TurboSerial.rpos s = UltraMemoryPool.pos p ->
  TurboSerial.readVarint s
  = Done (u, TurboSerial.set_pos (UltraMemoryPool.pos (UltraMemoryPool.writeVarint u p)) s).
Proof.
  intros Hok Hroom Hu Hbuf Hpos.
  destruct (pool_writeVarint u p Hok Hroom Hu) as (_ & _ & _ & _ & Hp' & Hh & _ & _).
  cbv zeta in Hp', Hh.
  rewrite (getResult_holds _ _ _ Hh Hp') in Hbuf
    by (intros i b; apply varint_groups_bytes; lia).
  rewrite <- app_assoc in Hbuf. destruct Hok as [Hp0 _].
  rewrite (rd_readVarint s u _ rest Hu Hbuf)
    by (rewrite length_map, length_seqZ; lia).
  rewrite Hp', Hpos. reflexivity.
Qed.

Lemma varint_write_then_read_witness :
  TurboSerial.readVarint
    (TurboSerial.mkR (UltraMemoryPool.getResult
                        (UltraMemoryPool.writeVarint 300 (UltraMemoryPool.mkPool 128 ∅ 3)) ++ [7])
                     3 [] [] [] [] 0)
  = Done (300, TurboSerial.mkR (UltraMemoryPool.getResult
                        (UltraMemoryPool.writeVarint 300 (UltraMemoryPool.mkPool 128 ∅ 3)) ++ [7])
                     5 [] [] [] [] 0).
Proof.
  apply (varint_write_then_read (UltraMemoryPool.mkPool 128 ∅ 3) 300
           (TurboSerial.mkR (UltraMemoryPool.getResult
                        (UltraMemoryPool.writeVarint 300 (UltraMemoryPool.mkPool 128 ∅ 3)) ++ [7])
                     3 [] [] [] [] 0) [7]).
  - unfold PoolFacts.ok. simpl. lia.
  - simpl. lia.
  - lia.
  - reflexivity.
  - reflexivity.
Defined.

(** X4: [readVarint] on an input that ends inside a varint: when every
    byte from the cursor on carries the continuation bit (or no byte is
    left), it throws the buffer underflow of [ensureBytes(1)]: it needs 1
    byte and none is available. *)
Theorem readVarint_truncated (s : TurboSerial.rstate) :
  0 <= TurboSerial.rpos s ->
  Forall (fun b => 128 <= b < 256)
         (drop (Z.to_nat (TurboSerial.rpos s)) (TurboSerial.buffer s)) ->
  TurboSerial.readVarint s
  = Throw (BufferUnderflow 1
             (match drop (Z.to_nat (TurboSerial.rpos s)) (TurboSerial.buffer s) with
              | [] => TurboSerial.buffer_length s - TurboSerial.rpos s
              | _ => 0
              end)).
Proof.
  intros Hp Hall. unfold TurboSerial.readVarint.
  destruct (Z.ltb_spec (TurboSerial.rpos s) 0); [lia|].
  rewrite (varint_loop_truncated _ Hall). reflexivity.
Qed.

Lemma readVarint_truncated_witness :
  TurboSerial.readVarint (TurboSerial.mkR [0x1A; 0x80; 0xFF] 1 [] [] [] [] 0)
  = Throw (BufferUnderflow 1 0).
Proof.
  apply (readVarint_truncated (TurboSerial.mkR [0x1A; 0x80; 0xFF] 1 [] [] [] [] 0)).
  - simpl. lia.
  - simpl. repeat constructor; lia.
Defined.

(** ** The header check of [deserialize] *)

(** X10: [deserialize] on an input that is not a blob of this format,
    whatever the host, the options and the fuel:
    - fewer than four bytes: buffer underflow, 4 needed;
    - four bytes that are not the magic: 'Invalid TurboSerial data';
    - the magic and nothing else: buffer underflow, 1 needed, 0 left;
    - the magic and a version byte other than 5: 'Unsupported version';
    - the header and nothing else: 'Unexpected end of buffer'. *)
Theorem deserialize_checks_the_header (H : Heap.Host) (opts : TurboSerial.options)
    (k : nat) (h0 : Heap.heap) :
  (forall input, (length input < 4)%nat ->
     TurboSerial.deserialize H opts k h0 input
     = Throw (BufferUnderflow 4 (Z.of_nat (length input))))
  /\ (forall b0 b1 b2 b3 rest,
        JS.of_le_bytes [b0; b1; b2; b3] <> 0x54425235 ->
        TurboSerial.deserialize H opts k h0 (b0 :: b1 :: b2 :: b3 :: rest) = Throw InvalidData)
  /\ TurboSerial.deserialize H opts k h0 [0x35; 0x52; 0x42; 0x54] = Throw (BufferUnderflow 1 0)
  /\ (forall v rest, v <> 5 ->
        TurboSerial.deserialize H opts k h0 (0x35 :: 0x52 :: 0x42 :: 0x54 :: v :: rest)
        = Throw (UnsupportedVersion v))
  /\ TurboSerial.deserialize H opts (S k) h0 [0x35; 0x52; 0x42; 0x54; 0x05]
     = Throw UnexpectedEnd.
Proof.
  split; [|split; [|split; [|split]]].
  - intros input Hlen. unfold TurboSerial.deserialize. cbv zeta.
    unfold TurboSerial.readU32, TurboSerial.read_le.
    unfold bind at 1. unfold bind at 1.
    change (TurboSerial.alignPos 4 (TurboSerial.mkR input 0 [] [] [] h0 0))
      with (Done (tt, TurboSerial.mkR input 0 [] [] [] h0 0)).
    cbv beta iota. unfold bind at 1. unfold TurboSerial.ensureBytes, TurboSerial.buffer_length.
    cbn [TurboSerial.buffer TurboSerial.rpos].
    destruct (Z.ltb_spec (Z.of_nat (length input)) (0 + 4)); [|lia].
    rewrite Z.sub_0_r. reflexivity.
  - intros b0 b1 b2 b3 rest Hmagic. unfold TurboSerial.deserialize. cbv zeta.
    set (s0 := TurboSerial.mkR (b0 :: b1 :: b2 :: b3 :: rest) 0 [] [] [] h0 0).
    assert (E1 : TurboSerial.readU32 s0
                 = Done (JS.of_le_bytes [b0; b1; b2; b3], TurboSerial.set_pos 4 s0)).
    { unfold TurboSerial.readU32. change 4 with (2 ^ 2) at 1.
      rewrite (rd_read_le 2 s0 [] [b0; b1; b2; b3] rest);
        [reflexivity|lia|reflexivity|reflexivity|simpl; lia|simpl; lia|reflexivity|simpl; lia]. }
    rewrite (bind_Done _ _ _ _ _ E1).
    destruct (Z.eqb_spec (JS.of_le_bytes [b0; b1; b2; b3]) 1413632565) as [E|_];
      [contradiction|]. reflexivity.
  - vm_compute. reflexivity.
  - intros v rest Hv. unfold TurboSerial.deserialize. cbv zeta.
    set (s0 := TurboSerial.mkR (53 :: 82 :: 66 :: 84 :: v :: rest) 0 [] [] [] h0 0).
    assert (E1 : TurboSerial.readU32 s0 = Done (0x54425235, TurboSerial.set_pos 4 s0)).
    { unfold TurboSerial.readU32. change 4 with (2 ^ 2) at 1.
      rewrite (rd_read_le 2 s0 [] [53; 82; 66; 84] (v :: rest));
        [reflexivity|lia|reflexivity|reflexivity|simpl; lia|simpl; lia|reflexivity|simpl; lia]. }
    rewrite (bind_Done _ _ _ _ _ E1). cbn [Z.eqb Pos.eqb negb].
    assert (E2 : TurboSerial.readU8 (TurboSerial.set_pos 4 s0)
                 = Done (v, TurboSerial.set_pos 5 s0)).
    { rewrite (rd_readU8 _ v); [reflexivity|simpl; lia|reflexivity]. }
    rewrite (bind_Done _ _ _ _ _ E2).
    destruct (Z.eqb_spec v 5) as [E|_]; [contradiction|]. reflexivity.
  - vm_compute. reflexivity.
Qed.

(** ** Tags that no writer produces *)

(** X11: [readValue] dispatches on the group of a tag before it looks at
    the tag: a tag of the array group that names no array form (0x48 to
    0x4F) is read as an empty array, and a tag of the object group that
    names no object form (0x56 to 0x5F) as an empty object; [fillArray] and
    [fillObject] have no default case.  Nothing after the tag is read. *)
Theorem unknown_container_tags_are_accepted (H : Heap.Host) (opts : TurboSerial.options)
    (k : nat) (h0 : Heap.heap) (t : Z) (rest : list Z) :
  Z.of_nat (length rest) < 2 ^ 30 ->
  (0x48 <= t <= 0x4F ->
   TurboSerial.deserialize H opts (S k) h0 ([0x35; 0x52; 0x42; 0x54; 0x05] ++ t :: rest)
   = Done (Heap.VRef (length h0), h0 ++ [Heap.OArray 0 ∅]))
  /\ (0x56 <= t <= 0x5F ->
      TurboSerial.deserialize H opts (S k) h0 ([0x35; 0x52; 0x42; 0x54; 0x05] ++ t :: rest)
      = Done (Heap.VRef (length h0), h0 ++ [Heap.OObject None []])).
Proof.
  intros Hlen.
  assert (Hrun : forall r,
    TurboSerial.readValue H opts (S k)
      (TurboSerial.mkR ([0x35; 0x52; 0x42; 0x54; 0x05] ++ t :: rest) 5 [] [] [] h0 0) = r ->
    TurboSerial.deserialize H opts (S k) h0 ([0x35; 0x52; 0x42; 0x54; 0x05] ++ t :: rest)
    = match r with
      | Done (v, s) => Done (v, TurboSerial.rheap s)
      | Throw e => Throw e
      | OutOfFuel => OutOfFuel
      end).
  { intros r <-. apply deserialize_header. cbn [length]. lia. }
  set (s := TurboSerial.mkR ([0x35; 0x52; 0x42; 0x54; 0x05] ++ t :: rest) 5 [] [] [] h0 0) in Hrun.
  destruct (readValue_tag H opts k s t) as [Hin Hu8]; [simpl; lia|reflexivity|].
  assert (Hbody : TurboSerial.readValue H opts (S k) s
                  = (fun type : Z =>
                       TurboSerial.readValue_body H opts (TurboSerial.readValue H opts k) k s
                       ) t) by reflexivity.
  cbv beta in Hbody. unfold TurboSerial.readValue_body in Hbody.
  rewrite (bind_Done get _ s s s eq_refl) in Hbody. cbv beta in Hbody.
  rewrite Hin, (bind_Done _ _ _ _ _ Hu8) in Hbody. cbv beta zeta in Hbody.
  split; intros Ht.
  - assert (Hc : t = 0x48 \/ t = 0x49 \/ t = 0x4A \/ t = 0x4B \/ t = 0x4C \/ t = 0x4D
                 \/ t = 0x4E \/ t = 0x4F) by lia.
    destruct Hc as [E|[E|[E|[E|[E|[E|[E|E]]]]]]];
      rewrite (Hrun _ Hbody); rewrite E; reflexivity.
  - assert (Hc : t = 0x56 \/ t = 0x57 \/ t = 0x58 \/ t = 0x59 \/ t = 0x5A \/ t = 0x5B
                 \/ t = 0x5C \/ t = 0x5D \/ t = 0x5E \/ t = 0x5F) by lia.
    destruct Hc as [E|[E|[E|[E|[E|[E|[E|[E|[E|E]]]]]]]]];
      rewrite (Hrun _ Hbody); rewrite E; reflexivity.
Qed.

Lemma unknown_container_tags_are_accepted_witness :
  TurboSerial.deserialize bare_host TurboSerial.default_options 1 []
    ([0x35; 0x52; 0x42; 0x54; 0x05] ++ [0x4F; 1; 2; 3])
  = Done (Heap.VRef 0%nat, [Heap.OArray 0 ∅]).
Proof.
  apply (unknown_container_tags_are_accepted bare_host TurboSerial.default_options 0 []
           0x4F [1; 2; 3]); [simpl; lia|lia].
Defined.

(** ** Values that are their tag *)

(** The values whose blob is the header and one tag byte. *)
Definition tag_only : list (Heap.value * Z) :=
  [ (Heap.VNull, TYPE.NULL); (Heap.VUndefined, TYPE.UNDEFINED);
    (Heap.VBool false, TYPE.FALSE); (Heap.VBool true, TYPE.TRUE);
    (Heap.VNum Num.NaN, TYPE.NAN); (Heap.VNum Num.Infinity, TYPE.INFINITY);
    (Heap.VNum Num.NegInfinity, TYPE.NEG_INFINITY); (Heap.VNum Num.NegZero, TYPE.NEG_ZERO);
    (Heap.VStr [], TYPE.STRING_EMPTY) ].

(** X12: [null], [undefined], the booleans, [NaN], the infinities, [-0] and
    the empty string are written as the five header bytes and their tag,
    six bytes in all, and [deserialize] gives the value back, whatever
    follows the blob; the sign of [-0] survives. *)
Theorem tag_only_values_round_trip (H H' : Heap.Host) (opts opts' : TurboSerial.options)
    (h h0 : Heap.heap) (k k' : nat) (s0 : TurboSerial.wstate) (rest : list Z)
    (v : Heap.value) (t : Z) :
  In (v, t) tag_only ->
  PoolFacts.ok (TurboSerial.pool s0) ->
  Z.of_nat (length rest) < 2 ^ 30 ->
  exists s',
    TurboSerial.serialize H opts h (S k) s0 v = Done ([0x35; 0x52; 0x42; 0x54; 0x05; t], s')
    /\ TurboSerial.deserialize H' opts' (S k') h0 ([0x35; 0x52; 0x42; 0x54; 0x05; t] ++ rest)
       = Done (v, h0).
Proof.
  intros Hin Hok Hrest. change (2 ^ 30) with 1073741824 in Hrest.
  assert (Hread : forall t0 : Z,
            TurboSerial.deserialize H' opts' (S k') h0 ([53; 82; 66; 84; 5; t0] ++ rest)
            = match TurboSerial.readValue H' opts' (S k')
                      (TurboSerial.mkR ([53; 82; 66; 84; 5] ++ t0 :: rest) 5 [] [] [] h0 0) with
              | Done (v, s) => Done (v, TurboSerial.rheap s)
              | Throw e => Throw e
              | OutOfFuel => OutOfFuel
              end).
  { intros t0. apply (deserialize_header H' opts' (S k') h0 (t0 :: rest)). cbn [length]. lia. }
  assert (Hwrite : forall t0 st, 0 <= t0 < 256 ->
            UltraMemoryPool.getResult
              (TurboSerial.pool
                 (TurboSerial.mkW (UltraMemoryPool.writeU8 t0 (header_pool (TurboSerial.pool s0)))
                    ∅ ∅ st ∅))
            = [53; 82; 66; 84; 5; t0]).
  { intros t0 st Ht0. cbn [TurboSerial.pool]. apply blob_getResult. apply blob_tag; assumption. }
  unfold tag_only in Hin. cbn [In] in Hin.
  destruct Hin as [E|[E|[E|[E|[E|[E|[E|[E|[E|[]]]]]]]]]]; injection E as <- <-.
  1-8: eexists; split;
    [ lazymatch goal with
      | |- TurboSerial.serialize _ _ _ _ _ ?v0 = Done ([_; _; _; _; _; ?t0], _) =>
          rewrite (serialize_atom_run H opts h k s0 v0 t0 eq_refl eq_refl)
      end;
      match goal with
      | |- context [TurboSerial.writePayload ?a ?b ?c ?d ?e ?f] =>
          change (TurboSerial.writePayload a b c d e f) with (@ret TurboSerial.wstate unit tt)
      end;
      unfold ret; rewrite Hwrite by (vm_compute; split; [discriminate|reflexivity]); reflexivity
    | rewrite Hread ].
  1-4: (lazymatch goal with
        | |- context [TurboSerial.readValue _ _ _ ?s] =>
            lazymatch s with
            | context [_ ++ ?t0 :: _] =>
                rewrite (readValue_primitive_run H' opts' k' s t0 ltac:(simpl; lia) eq_refl eq_refl)
            end
        end);
    reflexivity.
  1-4: (lazymatch goal with
        | |- context [TurboSerial.readValue _ _ _ ?s] =>
            lazymatch s with
            | context [_ ++ ?t0 :: _] =>
                rewrite (readValue_number_run H' opts' k' s t0 ltac:(simpl; lia) eq_refl eq_refl)
            end
        end);
    reflexivity.
  destruct (serialize_string_run H opts h k s0 []) as (st & Hrun).
  eexists. split.
  - rewrite Hrun.
    change (UltraTypeDetector.detectString H []) with TYPE.STRING_EMPTY.
    match goal with
    | |- context [TurboSerial.writePayload ?a ?b ?c ?d ?e ?f] =>
        change (TurboSerial.writePayload a b c d e f) with (@ret TurboSerial.wstate unit tt)
    end.
    unfold ret. rewrite Hwrite by (vm_compute; split; [discriminate|reflexivity]). reflexivity.
  - rewrite Hread.
    lazymatch goal with
    | |- context [TurboSerial.readValue _ _ _ ?s] =>
        rewrite (readValue_string_run H' opts' k' s TYPE.STRING_EMPTY ltac:(simpl; lia)
                   eq_refl eq_refl ltac:(discriminate))
    end.
    reflexivity.
Qed.

Lemma tag_only_values_round_trip_witness :
  exists s',
    TurboSerial.serialize bare_host TurboSerial.default_options [] 1
      (TurboSerial.new TurboSerial.default_options) (Heap.VNum Num.NegZero)
    = Done ([0x35; 0x52; 0x42; 0x54; 0x05; TYPE.NEG_ZERO], s')
    /\ TurboSerial.deserialize bare_host TurboSerial.default_options 1 []
         ([0x35; 0x52; 0x42; 0x54; 0x05; TYPE.NEG_ZERO] ++ [])
       = Done (Heap.VNum Num.NegZero, []).
Proof.
  apply (tag_only_values_round_trip bare_host bare_host TurboSerial.default_options
           TurboSerial.default_options [] [] 0 0 (TurboSerial.new TurboSerial.default_options)
           [] (Heap.VNum Num.NegZero) TYPE.NEG_ZERO).
  - unfold tag_only. cbn [In]. do 7 right. left. reflexivity.
  - unfold PoolFacts.ok. vm_compute. repeat split; discriminate.
  - simpl. lia.
Defined.

(** X13: A function passed to [serialize] is not an error and is not
    written as a function: [detect] answers UNDEFINED for it, with
    [serializeFunctions] on as with it off, and [deserialize] returns
    [undefined]. *)
Theorem function_is_written_as_undefined (H H' : Heap.Host) (opts opts' : TurboSerial.options)
    (h h0 : Heap.heap) (k k' : nat) (s0 : TurboSerial.wstate) (rest : list Z)
    (f : Heap.func) :
  PoolFacts.ok (TurboSerial.pool s0) ->
  Z.of_nat (length rest) < 2 ^ 30 ->
  exists s',
    TurboSerial.serialize H opts h (S k) s0 (Heap.VFun f)
    = Done ([0x35; 0x52; 0x42; 0x54; 0x05; TYPE.UNDEFINED], s')
    /\ TurboSerial.deserialize H' opts' (S k') h0
         ([0x35; 0x52; 0x42; 0x54; 0x05; TYPE.UNDEFINED] ++ rest)
       = Done (Heap.VUndefined, h0).
Proof.
  intros Hok Hrest. change (2 ^ 30) with 1073741824 in Hrest.
  eexists. split.
  - rewrite (serialize_atom_run H opts h k s0 (Heap.VFun f) TYPE.UNDEFINED eq_refl eq_refl).
    change (TurboSerial.writePayload H opts h (TurboSerial.writeValue H opts h k)
              (Heap.VFun f) TYPE.UNDEFINED) with (@ret TurboSerial.wstate unit tt).
    unfold ret. cbn [TurboSerial.pool].
    rewrite (blob_getResult _ _ (blob_tag _ TYPE.UNDEFINED Hok ltac:(vm_compute; split; [discriminate|reflexivity]))).
    reflexivity.
  - change ([53; 82; 66; 84; 5; TYPE.UNDEFINED] ++ rest)
      with ([53; 82; 66; 84; 5] ++ TYPE.UNDEFINED :: rest).
    rewrite (deserialize_header H' opts' (S k') h0 (TYPE.UNDEFINED :: rest))
      by (cbn [length]; lia).
    lazymatch goal with
    | |- context [TurboSerial.readValue _ _ _ ?s] =>
        rewrite (readValue_primitive_run H' opts' k' s TYPE.UNDEFINED ltac:(simpl; lia)
                   eq_refl eq_refl)
    end.
    reflexivity.
Qed.

Lemma function_is_written_as_undefined_witness :
  exists s',
    TurboSerial.serialize bare_host
      (TurboSerial.mkOptions true true true true true true false 0) [] 1
      (TurboSerial.new TurboSerial.default_options)
      (Heap.VFun (Heap.mkFunc 0 (JS.str "x => x") []))
    = Done ([0x35; 0x52; 0x42; 0x54; 0x05; TYPE.UNDEFINED], s')
    /\ TurboSerial.deserialize bare_host TurboSerial.default_options 1 []
         ([0x35; 0x52; 0x42; 0x54; 0x05; TYPE.UNDEFINED] ++ [])
       = Done (Heap.VUndefined, []).
Proof.
  apply (function_is_written_as_undefined bare_host bare_host
           (TurboSerial.mkOptions true true true true true true false 0)
           TurboSerial.default_options [] [] 0 0 (TurboSerial.new TurboSerial.default_options)
           [] (Heap.mkFunc 0 (JS.str "x => x") [])).
  - unfold PoolFacts.ok. vm_compute. repeat split; discriminate.
  - simpl. lia.
Defined.

(** ** BigInts through [serialize] and [deserialize] *)

(** X16: Every BigInt goes through [serialize] and [deserialize] unchanged:
    one of at most 63 bits as an aligned 64-bit word, a longer one as its
    magnitude, least significant byte first, with the sign in the tag.
    The bound on the number of bits only keeps the blob below the size a
    pool can have. *)
Theorem bigint_round_trip (H H' : Heap.Host) (opts opts' : TurboSerial.options)
    (h h0 : Heap.heap) (k k' : nat) (s0 : TurboSerial.wstate) (rest : list Z) (z : Z) :
  PoolFacts.ok (TurboSerial.pool s0) ->
  Z.log2 (Z.abs z) < 2 ^ 30 ->
  Z.of_nat (length rest) < 2 ^ 30 ->
  exists bytes s',
    TurboSerial.serialize H opts h (S k) s0 (Heap.VBigInt z) = Done (bytes, s')
    /\ TurboSerial.deserialize H' opts' (S k') h0 (bytes ++ rest)
       = Done (Heap.VBigInt z, h0).
Proof.
  intros Hok Hz Hrest. change (2 ^ 30) with 1073741824 in Hrest, Hz.
  rewrite (serialize_atom_run H opts h k s0 (Heap.VBigInt z) (UltraTypeDetector.detectBigInt z)
             eq_refl eq_refl).
  set (a := Z.abs z).
  assert (Ht : exists t, UltraTypeDetector.detectBigInt z = t
             /\ ((a <= 0x7FFFFFFFFFFFFFFF /\ (t = TYPE.BIGINT_POS_SMALL \/ t = TYPE.BIGINT_NEG_SMALL))
                 \/ (0x7FFFFFFFFFFFFFFF < a /\ 0 <= z /\ t = TYPE.BIGINT_POS_LARGE)
                 \/ (0x7FFFFFFFFFFFFFFF < a /\ z < 0 /\ t = TYPE.BIGINT_NEG_LARGE))).
  { eexists. split; [reflexivity|]. unfold UltraTypeDetector.detectBigInt. cbv zeta.
    destruct (Z.ltb_spec z 0) as [Hneg|Hpos].
    - replace (- z) with a by (unfold a; lia).
      destruct (Z.leb_spec a 0x7FFFFFFFFFFFFFFF);
        [left; split; [lia|right; reflexivity]|right; right; repeat split; lia].
    - assert (Eza : z = a) by (unfold a; lia). rewrite <- Eza.
      destruct (Z.leb_spec z 0x7FFFFFFFFFFFFFFF);
        [left; split; [lia|left; reflexivity]|right; left; repeat split; lia]. }
  destruct Ht as (t & -> & Hcase).
  assert (Ht256 : 0 <= t < 256).
  { destruct Hcase as [(_ & [-> | ->])|[(_ & _ & ->)|(_ & _ & ->)]];
      vm_compute; split; first [discriminate|reflexivity]. }
  pose proof (blob_tag (TurboSerial.pool s0) t Hok Ht256) as B6.
  set (p6 := UltraMemoryPool.writeU8 t (header_pool (TurboSerial.pool s0))) in *.
  destruct Hcase as [(Hsmall & Hts)|Hlarge].
  - (* an aligned 64-bit word *)
    destruct (blob_put_aligned 3 (JS.le_bytes 8 z) p6 _ ltac:(lia) B6
                ltac:(rewrite le_bytes_length; simpl; lia))
      as (pad & B & Hmod & Hpad & _).
    rewrite le_bytes_length in B. change (Z.of_nat 8) with 8 in B. change (2 ^ 3) with 8 in *.
    rewrite map_byte_of_le_bytes in B.
    assert (Hlen : length pad = 2%nat).
    { cbn [length] in Hmod.
      destruct pad as [|b0 [|b1 [|b2 [|b3 [|b4 [|b5 [|b6 [|b7 pad]]]]]]]]; cbn [length] in *;
        first [reflexivity|vm_compute in Hmod; discriminate Hmod|lia]. }
    destruct pad as [|b0 [|b1 [|b2 pad]]]; try discriminate Hlen. clear Hlen Hmod Hpad.
    eexists. eexists. split.
    + assert (Ew : TurboSerial.writePayload H opts h (TurboSerial.writeValue H opts h k)
                     (Heap.VBigInt z) t
                   = TurboSerial.on_pool (UltraMemoryPool.writeBigInt64 z))
        by (destruct Hts as [-> | ->]; reflexivity).
      rewrite Ew. unfold TurboSerial.on_pool, modify. cbn [TurboSerial.pool].
      unfold UltraMemoryPool.writeBigInt64. rewrite (blob_getResult _ _ B). reflexivity.
    + rewrite <- !app_assoc.
      change ([53; 82; 66; 84; 5; t] ++ [b0; b1] ++ JS.le_bytes 8 z ++ rest)
        with ([53; 82; 66; 84; 5] ++ [t; b0; b1] ++ JS.le_bytes 8 z ++ rest).
      rewrite deserialize_header
        by (rewrite !length_app, le_bytes_length; simpl; lia).
      rewrite (readValue_bigint_run H' opts' k' _ t);
        [|simpl; lia|reflexivity|destruct Hts as [-> | ->]; reflexivity].
      assert (Er : TurboSerial.readBigInt t
                   = bind TurboSerial.readBigInt64 (fun v => ret (Heap.VBigInt v)))
        by (destruct Hts as [-> | ->]; reflexivity).
      rewrite Er. unfold TurboSerial.readBigInt64.
      match goal with |- context [TurboSerial.set_pos ?q ?s] => set (s6 := TurboSerial.set_pos q s) end.
      assert (E : TurboSerial.read_le 8 s6
                  = Done (JS.of_le_bytes (JS.le_bytes 8 z), TurboSerial.set_pos 16 s6)).
      { change 8 with (2 ^ 3) at 1.
        rewrite (rd_read_le 3 s6 [53; 82; 66; 84; 5; t; b0; b1] (JS.le_bytes 8 z) rest);
          [reflexivity|lia|reflexivity|rewrite le_bytes_length; reflexivity
          |simpl; lia|simpl; lia|reflexivity|simpl; lia]. }
      unfold bind at 1. unfold bind at 1. unfold bind at 1. rewrite E.
      rewrite of_le_bytes_le_bytes. change (256 ^ Z.of_nat 8) with 18446744073709551616.
      assert (Es : JS.signed 64 (z mod 18446744073709551616) = z).
      { unfold JS.signed. change (2 ^ (64 - 1)) with 9223372036854775808.
        change (2 ^ 64) with 18446744073709551616.
        destruct (Z_lt_dec z 0) as [Hn|Hn].
        - replace (z mod 18446744073709551616) with (z + 18446744073709551616)
            by (apply Z.mod_unique with (-1); lia).
          destruct (Z.ltb_spec (z + 18446744073709551616) 9223372036854775808); lia.
        - rewrite Z.mod_small by lia.
          destruct (Z.ltb_spec z 9223372036854775808); lia. }
      unfold ret. cbv beta iota. rewrite Es. reflexivity.
  - (* the magnitude, byte by byte *)
    assert (Ha : 0x7FFFFFFFFFFFFFFF < a) by (destruct Hlarge as [(? & _)|(? & _)]; assumption).
    set (n := Z.to_nat (Z.log2 a / 8 + 1)).
    assert (Hlog : 63 <= Z.log2 a < 1073741824).
    { split.
      - apply Z.log2_le_pow2; [lia|]. change (2 ^ 63) with 9223372036854775808. lia.
      - exact Hz. }
    assert (Hn : 8 <= Z.of_nat n <= 134217728).
    { unfold n. rewrite Z2Nat.id by (pose proof (Z.div_pos (Z.log2 a) 8); lia).
      pose proof (Z.div_le_mono 63 (Z.log2 a) 8 ltac:(lia) ltac:(lia)) as H1.
      pose proof (Z.div_le_mono (Z.log2 a) 1073741823 8 ltac:(lia) ltac:(lia)) as H2.
      change (63 / 8) with 7 in H1. change (1073741823 / 8) with 134217727 in H2. lia. }
    assert (Hfit : a < 256 ^ Z.of_nat n).
    { unfold n. rewrite Z2Nat.id by (pose proof (Z.div_pos (Z.log2 a) 8); lia).
      change 256 with (2 ^ 8). rewrite <- Z.pow_mul_r by (pose proof (Z.div_pos (Z.log2 a) 8); lia).
      apply Z.log2_lt_pow2; [lia|].
      pose proof (Z.div_mod (Z.log2 a) 8 ltac:(lia)).
      pose proof (Z.mod_pos_bound (Z.log2 a) 8 ltac:(lia)). lia. }
    set (bs := JS.le_bytes n a).
    assert (Hbl : length bs = n) by apply le_bytes_length.
    pose proof (blob_writeVarint (Z.of_nat n) p6 _ B6 ltac:(simpl; lia) ltac:(lia)) as B7.
    destruct (blob_for_each_writeU8 bs (UltraMemoryPool.writeVarint (Z.of_nat n) p6) _
                ∅ ∅ ∅ ∅ B7) as (p8 & Hrun & B8).
    { rewrite length_app, Hbl. pose proof (varint_groups_length (Z.of_nat n) ltac:(lia)).
      cbn [length]. lia. }
    assert (Emb : map byte_of bs = bs) by (unfold bs; apply map_byte_of_le_bytes).
    rewrite Emb in B8.
    eexists. eexists. split.
    + assert (Ew : TurboSerial.writePayload H opts h (TurboSerial.writeValue H opts h k)
                     (Heap.VBigInt z) t
                   = TurboSerial.writeLargeBigInt z)
        by (destruct Hlarge as [(_ & _ & ->)|(_ & _ & ->)]; reflexivity).
      rewrite Ew. unfold TurboSerial.writeLargeBigInt. cbv zeta. fold a. fold n. fold bs.
      rewrite Hbl. unfold bind at 1.
      unfold TurboSerial.writeVarint, TurboSerial.on_pool, modify.
      cbn [TurboSerial.pool TurboSerial.refs TurboSerial.circularRefs TurboSerial.strings
           TurboSerial.buffers].
      fold p6. rewrite Hrun. cbn [TurboSerial.pool].
      rewrite (blob_getResult _ _ B8). reflexivity.
    + rewrite <- !app_assoc.
      change ([53; 82; 66; 84; 5; t] ++ varint_groups (Z.of_nat n) ++ bs ++ rest)
        with ([53; 82; 66; 84; 5] ++ [t] ++ varint_groups (Z.of_nat n) ++ bs ++ rest).
      pose proof (varint_groups_length (Z.of_nat n) ltac:(lia)) as Hvl.
      rewrite deserialize_header by (rewrite !length_app, Hbl; cbn [length]; lia).
      rewrite (readValue_bigint_run H' opts' k' _ t);
        [|simpl; lia|reflexivity
         |destruct Hlarge as [(_ & _ & ->)|(_ & _ & ->)]; reflexivity].
      assert (Er : TurboSerial.readBigInt t = TurboSerial.readLargeBigInt (z <? 0)).
      { destruct Hlarge as [(_ & Hs & ->)|(_ & Hs & ->)].
        - destruct (Z.ltb_spec z 0); [lia|reflexivity].
        - destruct (Z.ltb_spec z 0); [reflexivity|lia]. }
      rewrite Er. unfold TurboSerial.readLargeBigInt.
      match goal with |- context [TurboSerial.set_pos ?q ?s] => set (s6 := TurboSerial.set_pos q s) end.
      pose proof (rd_readVarint s6 (Z.of_nat n) [53; 82; 66; 84; 5; t] (bs ++ rest)
                    ltac:(lia) eq_refl eq_refl) as E1.
      set (s7 := TurboSerial.set_pos _ s6) in E1.
      destruct (rd_take s7 ([53; 82; 66; 84; 5; t] ++ varint_groups (Z.of_nat n)) bs rest)
        as [E2 E3].
      { unfold s7, s6. cbn [TurboSerial.buffer TurboSerial.set_pos].
        rewrite <- !app_assoc. reflexivity. }
      { unfold s7, s6. cbn [TurboSerial.rpos TurboSerial.set_pos].
        rewrite length_app. cbn [length]. lia. }
      rewrite Hbl in E2, E3.
      unfold bind at 1. unfold bind at 1. rewrite E1.
      unfold bind at 1. rewrite E2. unfold bind at 1. rewrite E3.
      assert (Ev : JS.of_le_bytes bs = a).
      { unfold bs. rewrite of_le_bytes_le_bytes. apply Z.mod_small. unfold a in *. lia. }
      destruct bs as [|b0 bs'] eqn:Ebs; [cbn [length] in Hbl; lia|].
      rewrite Ev. unfold ret, bind. cbv beta iota.
      replace (if z <? 0 then - a else a) with z
        by (unfold a; destruct (Z.ltb_spec z 0); lia).
      reflexivity.
Qed.

Lemma bigint_round_trip_witness :
  exists bytes s',
    TurboSerial.serialize bare_host TurboSerial.default_options [] 1
      (TurboSerial.new TurboSerial.default_options) (Heap.VBigInt (- 2 ^ 70)) = Done (bytes, s')
    /\ TurboSerial.deserialize bare_host TurboSerial.default_options 1 [] (bytes ++ [])
       = Done (Heap.VBigInt (- 2 ^ 70), []).
Proof.
  apply (bigint_round_trip bare_host bare_host TurboSerial.default_options
           TurboSerial.default_options [] [] 0 0 (TurboSerial.new TurboSerial.default_options)
           [] (- 2 ^ 70)).
  - unfold PoolFacts.ok. vm_compute. repeat split; discriminate.
  - vm_compute. reflexivity.
  - simpl. lia.
Defined.

(** ** ASCII strings through [serialize] and [deserialize] *)

(** X17: A string of code units 0 to 0x7F goes through [serialize] and
    [deserialize] unchanged, whatever its length class (empty, below 16,
    below 256, longer) and with string deduplication on or off: the
    first occurrence of a string is always written out. *)
Theorem ascii_string_round_trip (H H' : Heap.Host) (opts opts' : TurboSerial.options)
    (h h0 : Heap.heap) (k k' : nat) (s0 : TurboSerial.wstate) (rest : list Z)
    (v : JS.jsstring) :
  PoolFacts.ok (TurboSerial.pool s0) ->
  Forall (fun c => 0 <= c <= 0x7F) v ->
  Z.of_nat (length v) < 2 ^ 29 ->
  Z.of_nat (length rest) < 2 ^ 30 ->
  exists bytes s',
    TurboSerial.serialize H opts h (S k) s0 (Heap.VStr v) = Done (bytes, s')
    /\ TurboSerial.deserialize H' opts' (S k') h0 (bytes ++ rest) = Done (Heap.VStr v, h0).
Proof.
  intros Hok Hascii Hlen Hrest. change (2 ^ 30) with 1073741824 in Hrest.
  change (2 ^ 29) with 536870912 in Hlen.
  destruct (serialize_string_run H opts h k s0 v) as (st & Hrun). rewrite Hrun. clear Hrun.
  set (len := Z.of_nat (length v)) in *.
  assert (Hall : forallb (fun c => c <=? 0x7F) v = true).
  { apply forallb_forall. intros c Hc. rewrite Forall_forall in Hascii.
    apply Z.leb_le. apply list_elem_of_In in Hc. apply Hascii in Hc. lia. }
  assert (Hbytes : map byte_of v = v).
  { clear - Hascii. induction Hascii as [|c r Hc _ IH]; [reflexivity|].
    cbn [map]. rewrite IH. unfold byte_of. rewrite Z.mod_small by lia. reflexivity. }
  assert (Ht : exists t, UltraTypeDetector.detectString H v = t
             /\ ((len = 0 /\ t = TYPE.STRING_EMPTY)
                 \/ (0 < len < 256
                     /\ (t = TYPE.STRING_ASCII_TINY \/ t = TYPE.STRING_ASCII_SHORT))
                 \/ (256 <= len /\ t = TYPE.STRING_ASCII_LONG))).
  { eexists. split; [reflexivity|]. unfold UltraTypeDetector.detectString. cbv zeta.
    fold len. rewrite Hall.
    destruct (Z.eqb_spec len 0); [left; split; [assumption|reflexivity]|].
    destruct (Z.ltb_spec len 16); [right; left; split; [unfold len in *; lia|left; reflexivity]|].
    destruct (Z.ltb_spec len 256); [right; left; split; [lia|right; reflexivity]|].
    right; right; split; [lia|reflexivity]. }
  destruct Ht as (t & -> & Hcase).
  assert (Ht256 : 0 <= t < 256).
  { destruct Hcase as [(_ & ->)|[(_ & [-> | ->])|(_ & ->)]];
      vm_compute; split; first [discriminate|reflexivity]. }
  assert (Hgroup : JS.band t TYPE_MASK.GROUP = TYPE_GROUP.STRING /\ t <> TYPE.STRING_REF).
  { destruct Hcase as [(_ & ->)|[(_ & [-> | ->])|(_ & ->)]]; split;
      first [reflexivity|discriminate]. }
  destruct Hgroup as [Hg Hne].
  pose proof (blob_tag (TurboSerial.pool s0) t Hok Ht256) as B6.
  set (p6 := UltraMemoryPool.writeU8 t (header_pool (TurboSerial.pool s0))) in *.
  assert (Hread : forall body,
            Z.of_nat (length body) < 2147483648 - 2048 ->
            forall r,
            TurboSerial.readString H' t
              (TurboSerial.set_pos 6
                 (TurboSerial.mkR ([53; 82; 66; 84; 5] ++ t :: body) 5 [] [] [] h0 0))
            = Done (Heap.VStr v, r) ->
            TurboSerial.rheap r = h0 ->
            TurboSerial.deserialize H' opts' (S k') h0 (([53; 82; 66; 84; 5; t] ++ body))
            = Done (Heap.VStr v, h0)).
  { intros body Hb r Hr Hh.
    change ([53; 82; 66; 84; 5; t] ++ body) with ([53; 82; 66; 84; 5] ++ t :: body).
    rewrite deserialize_header by (cbn [length]; lia).
    rewrite (readValue_string_run H' opts' k'
               (TurboSerial.mkR ([53; 82; 66; 84; 5] ++ t :: body) 5 [] [] [] h0 0) t
               ltac:(simpl; lia) eq_refl Hg Hne).
    cbn [TurboSerial.rpos]. change (5 + 1) with 6.
    unfold bind at 1. rewrite Hr. cbn [Heap.is_object]. unfold bind, ret. rewrite Hh.
    reflexivity. }
  destruct Hcase as [(H0 & ->)|[(Hshort & Hts)|(Hlong & ->)]].
  - (* the empty string *)
    assert (Ev : v = []) by (destruct v; [reflexivity|unfold len in H0; cbn [length] in H0; lia]).
    subst v. eexists. eexists. split.
    + change (TurboSerial.writePayload H opts h (TurboSerial.writeValue H opts h k)
                (Heap.VStr []) TYPE.STRING_EMPTY) with (@ret TurboSerial.wstate unit tt).
      unfold ret. cbn [TurboSerial.pool]. rewrite (blob_getResult _ _ B6). reflexivity.
    + apply (Hread rest ltac:(lia) _ eq_refl). reflexivity.
  - (* a length byte, then the code units *)
    pose proof (blob_writeU8 len p6 _ B6 ltac:(simpl; lia)) as B7.
    unfold byte_of in B7. rewrite Z.mod_small in B7 by lia.
    destruct (blob_for_each_writeU8 v (UltraMemoryPool.writeU8 len p6) _ ∅ ∅ st ∅ B7)
      as (p8 & Hrun & B8).
    { rewrite length_app. cbn [length]. fold len. lia. }
    rewrite Hbytes in B8.
    eexists. eexists. split.
    + assert (Ew : TurboSerial.writePayload H opts h (TurboSerial.writeValue H opts h k)
                     (Heap.VStr v) t
                   = bind (TurboSerial.writeU8 len)
                          (fun _ => for_each TurboSerial.writeU8 v))
        by (destruct Hts as [-> | ->]; reflexivity).
      rewrite Ew. unfold bind at 1.
      unfold TurboSerial.writeU8 at 1, TurboSerial.on_pool, modify.
      cbn [TurboSerial.pool TurboSerial.refs TurboSerial.circularRefs TurboSerial.strings
           TurboSerial.buffers].
      fold p6. rewrite Hrun. cbn [TurboSerial.pool].
      rewrite (blob_getResult _ _ B8). reflexivity.
    + rewrite <- !app_assoc.
      assert (Er : TurboSerial.readString H' t
                   = bind TurboSerial.readU8 (fun length =>
                       bind (TurboSerial.ensureBytes length) (fun _ =>
                         bind (TurboSerial.take_bytes length) (fun bytes =>
                           bind (TurboSerial.push_string (Heap.VStr bytes))
                                (fun _ => ret (Heap.VStr bytes))))))
        by (destruct Hts as [-> | ->]; reflexivity).
      set (s6 := TurboSerial.set_pos 6
                   (TurboSerial.mkR ([53; 82; 66; 84; 5] ++ t :: [len] ++ v ++ rest)
                      5 [] [] [] h0 0)).
      pose proof (rd_readU8 s6 len ltac:(simpl; lia) eq_refl) as E1.
      set (s7 := TurboSerial.set_pos _ s6) in E1.
      destruct (rd_take s7 [53; 82; 66; 84; 5; t; len] v rest eq_refl eq_refl) as [E2 E3].
      fold len in E2, E3.
      eapply (Hread ([len] ++ v ++ rest)).
      * rewrite !length_app. cbn [length]. fold len. lia.
      * rewrite Er. fold s6. unfold bind at 1. rewrite E1.
        unfold bind at 1. rewrite E2. unfold bind at 1. rewrite E3.
        unfold bind, TurboSerial.push_string, modify, ret. reflexivity.
      * reflexivity.
  - (* a varint length, then the code units *)
    pose proof (blob_writeVarint len p6 _ B6 ltac:(simpl; lia) ltac:(lia)) as B7.
    pose proof (varint_groups_length len ltac:(lia)) as Hvl.
    destruct (blob_for_each_writeU8 v (UltraMemoryPool.writeVarint len p6) _ ∅ ∅ st ∅ B7)
      as (p8 & Hrun & B8).
    { rewrite length_app. cbn [length]. fold len. lia. }
    rewrite Hbytes in B8.
    eexists. eexists. split.
    + change (TurboSerial.writePayload H opts h (TurboSerial.writeValue H opts h k)
                (Heap.VStr v) TYPE.STRING_ASCII_LONG)
        with (bind (TurboSerial.writeVarint len) (fun _ => for_each TurboSerial.writeU8 v)).
      unfold bind at 1.
      unfold TurboSerial.writeVarint at 1, TurboSerial.on_pool, modify.
      cbn [TurboSerial.pool TurboSerial.refs TurboSerial.circularRefs TurboSerial.strings
           TurboSerial.buffers].
      fold p6. rewrite Hrun. cbn [TurboSerial.pool].
      rewrite (blob_getResult _ _ B8). reflexivity.
    + rewrite <- !app_assoc.
      change (TurboSerial.readString H' TYPE.STRING_ASCII_LONG)
        with (bind TurboSerial.readVarint (fun length =>
                bind (TurboSerial.ensureBytes length) (fun _ =>
                  bind (TurboSerial.take_bytes length) (fun bytes =>
                    bind (TurboSerial.push_string (Heap.VStr bytes))
                         (fun _ => ret (Heap.VStr bytes)))))) in Hread.
      set (s6 := TurboSerial.set_pos 6
                   (TurboSerial.mkR ([53; 82; 66; 84; 5] ++ TYPE.STRING_ASCII_LONG
                                       :: varint_groups len ++ v ++ rest)
                      5 [] [] [] h0 0)).
      pose proof (rd_readVarint s6 len [53; 82; 66; 84; 5; TYPE.STRING_ASCII_LONG] (v ++ rest)
                    ltac:(lia) eq_refl eq_refl) as E1.
      set (s7 := TurboSerial.set_pos _ s6) in E1.
      destruct (rd_take s7 ([53; 82; 66; 84; 5; TYPE.STRING_ASCII_LONG] ++ varint_groups len)
                  v rest) as [E2 E3].
      { unfold s7, s6. cbn [TurboSerial.buffer TurboSerial.set_pos].
        rewrite <- !app_assoc. reflexivity. }
      { unfold s7, s6. cbn [TurboSerial.rpos TurboSerial.set_pos].
        rewrite length_app. cbn [length]. lia. }
      fold len in E2, E3.
      eapply (Hread (varint_groups len ++ v ++ rest)).
      * rewrite !length_app. unfold len in *. lia.
      * fold s6. unfold bind at 1. rewrite E1.
        unfold bind at 1. rewrite E2. unfold bind at 1. rewrite E3.
        unfold bind, TurboSerial.push_string, modify, ret. reflexivity.
      * reflexivity.
Qed.

Lemma ascii_string_round_trip_witness :
  exists bytes s',
    TurboSerial.serialize bare_host TurboSerial.default_options [] 1
      (TurboSerial.new TurboSerial.default_options) (Heap.VStr (JS.str "turbo")) = Done (bytes, s')
    /\ TurboSerial.deserialize bare_host TurboSerial.default_options 1 [] (bytes ++ [])
       = Done (Heap.VStr (JS.str "turbo"), []).
Proof.
  apply (ascii_string_round_trip bare_host bare_host TurboSerial.default_options
           TurboSerial.default_options [] [] 0 0 (TurboSerial.new TurboSerial.default_options)
           [] (JS.str "turbo")).
  - unfold PoolFacts.ok. vm_compute. repeat split; discriminate.
  - vm_compute. repeat constructor; discriminate.
  - vm_compute. reflexivity.
  - simpl. lia.
Defined.

(** ** ArrayBuffers through [serialize] and [deserialize] *)

(** X18: An [ArrayBuffer] comes back as a new [ArrayBuffer] with the same
    bytes.  A [SharedArrayBuffer] is written the same way under its own
    tag, and [readArrayBuffer] does not look at the tag: it comes back as
    a plain, unshared [ArrayBuffer] with the same bytes. *)
Theorem arraybuffer_round_trip (H H' : Heap.Host) (opts opts' : TurboSerial.options)
    (h h0 : Heap.heap) (k k' : nat) (s0 : TurboSerial.wstate) (rest : list Z)
    (l : Heap.loc) (shared : bool) (bytes : list Z) :
  PoolFacts.ok (TurboSerial.pool s0) ->
  h !! l = Some (Heap.OArrayBuffer shared bytes) ->
  Forall (fun b => 0 <= b < 256) bytes ->
  Z.of_nat (length bytes) < 2 ^ 29 ->
  Z.of_nat (length rest) < 2 ^ 30 ->
  exists out s',
    TurboSerial.serialize H opts h (S k) s0 (Heap.VRef l) = Done (out, s')
    /\ TurboSerial.deserialize H' opts' (S k') h0 (out ++ rest)
       = Done (Heap.VRef (length h0), h0 ++ [Heap.OArrayBuffer false bytes]).
Proof.
  intros Hok Hl Hall Hlen Hrest. change (2 ^ 30) with 1073741824 in Hrest.
  change (2 ^ 29) with 536870912 in Hlen.
  set (t := if shared then TYPE.SHAREDARRAYBUFFER else TYPE.ARRAYBUFFER).
  assert (Hd : UltraTypeDetector.detect H h (Heap.VRef l) = Done t).
  { unfold UltraTypeDetector.detect, UltraTypeDetector.detectObject. rewrite Hl. reflexivity. }
  destruct (serialize_ref_run H opts h k s0 l t
              (prewalk_leaf h k l _ ∅ Hl eq_refl) Hd) as (r & bf & Hrun).
  rewrite Hrun. clear Hrun.
  assert (Ht256 : 0 <= t < 256)
    by (unfold t; destruct shared; vm_compute; split; first [discriminate|reflexivity]).
  assert (Hg : JS.band t TYPE_MASK.GROUP = TYPE_GROUP.BUFFER /\ t <> TYPE.BUFFER_REF)
    by (unfold t; destruct shared; split; first [reflexivity|discriminate]).
  destruct Hg as [Hg Hne].
  assert (Ew : TurboSerial.writePayload H opts h (TurboSerial.writeValue H opts h k)
                 (Heap.VRef l) t
               = bind (TurboSerial.writeVarint (Z.of_nat (length bytes)))
                      (fun _ => TurboSerial.on_pool
                                  (UltraMemoryPool.put bytes
                                   ∘ UltraMemoryPool.ensure (Z.of_nat (length bytes))
                                   ∘ UltraMemoryPool.alignPos (2 ^ 0)))).
  { unfold TurboSerial.writePayload. rewrite Hl. reflexivity. }
  rewrite Ew. clear Ew.
  assert (Hbytes : map byte_of bytes = bytes).
  { clear - Hall. induction Hall as [|c r0 Hc _ IH]; [reflexivity|].
    cbn [map]. rewrite IH. unfold byte_of. rewrite Z.mod_small by lia. reflexivity. }
  set (len := Z.of_nat (length bytes)) in *.
  pose proof (blob_tag (TurboSerial.pool s0) t Hok Ht256) as B6.
  set (p6 := UltraMemoryPool.writeU8 t (header_pool (TurboSerial.pool s0))) in *.
  pose proof (blob_writeVarint len p6 _ B6 ltac:(simpl; lia) ltac:(unfold len; lia)) as B7.
  pose proof (varint_groups_length len ltac:(unfold len; lia)) as Hvl.
  destruct (blob_put_aligned 0 bytes (UltraMemoryPool.writeVarint len p6) _ ltac:(lia) B7)
    as (pad & B & _ & Hpad & _).
  { rewrite length_app. cbn [length]. unfold len in *. lia. }
  change (2 ^ 0) with 1 in Hpad.
  destruct pad as [|? ?]; [|cbn [length] in Hpad; lia]. clear Hpad.
  rewrite Hbytes, app_nil_l in B. fold len in B.
  eexists. eexists. split.
  - unfold bind at 1. unfold TurboSerial.writeVarint at 1, TurboSerial.on_pool, modify.
    cbn [TurboSerial.pool TurboSerial.refs TurboSerial.circularRefs TurboSerial.strings
         TurboSerial.buffers]. fold p6. unfold compose.
    rewrite (blob_getResult _ _ B). reflexivity.
  - rewrite <- !app_assoc.
    change ([53; 82; 66; 84; 5; t] ++ varint_groups len ++ bytes ++ rest)
      with ([53; 82; 66; 84; 5] ++ t :: varint_groups len ++ bytes ++ rest).
    rewrite deserialize_header
      by (cbn [length]; rewrite !length_app; unfold len in *; lia).
    rewrite (readValue_buffer_run H' opts' k'
               (TurboSerial.mkR ([53; 82; 66; 84; 5] ++ t :: varint_groups len ++ bytes ++ rest)
                  5 [] [] [] h0 0) t ltac:(simpl; lia) eq_refl Hg Hne).
    cbn [TurboSerial.rpos]. change (5 + 1) with 6.
    set (s6 := TurboSerial.set_pos 6 _).
    pose proof (rd_readVarint s6 len [53; 82; 66; 84; 5; t] (bytes ++ rest)
                  ltac:(unfold len; lia) eq_refl eq_refl) as E1.
    set (s7 := TurboSerial.set_pos _ s6) in E1.
    destruct (rd_take s7 ([53; 82; 66; 84; 5; t] ++ varint_groups len) bytes rest)
      as [E2 E3].
    { unfold s7, s6. cbn [TurboSerial.buffer TurboSerial.set_pos].
      rewrite <- !app_assoc. reflexivity. }
    { unfold s7, s6. cbn [TurboSerial.rpos TurboSerial.set_pos].
      rewrite length_app. cbn [length]. lia. }
    fold len in E2, E3.
    unfold TurboSerial.readArrayBuffer.
    unfold bind at 1. unfold bind at 1. rewrite E1.
    unfold bind at 1. rewrite E2. unfold bind at 1. rewrite E3.
    reflexivity.
Qed.

Lemma arraybuffer_round_trip_witness :
  exists out s',
    TurboSerial.serialize bare_host TurboSerial.default_options
      [Heap.OArrayBuffer true [1; 2; 255]] 1
      (TurboSerial.new TurboSerial.default_options) (Heap.VRef 0%nat) = Done (out, s')
    /\ TurboSerial.deserialize bare_host TurboSerial.default_options 1 [] (out ++ [])
       = Done (Heap.VRef 0%nat, [] ++ [Heap.OArrayBuffer false [1; 2; 255]]).
Proof.
  apply (arraybuffer_round_trip bare_host bare_host TurboSerial.default_options
           TurboSerial.default_options [Heap.OArrayBuffer true [1; 2; 255]] [] 0 0
           (TurboSerial.new TurboSerial.default_options) [] 0%nat true [1; 2; 255]).
  - unfold PoolFacts.ok. vm_compute. repeat split; discriminate.
  - reflexivity.
  - repeat constructor; lia.
  - vm_compute. reflexivity.
  - simpl. lia.
Defined.

(** ** Growth of the pool *)

(** X1: [ensure(n)] never moves the cursor, never shrinks the buffer,
    leaves room for [n] more bytes and keeps every byte below the cursor.
    When the request fits it changes nothing.  When it does not, the new
    capacity is a multiple of the cache line, at least twice the old one
    (below 2^30), and every byte from the cursor on is zero: growth copies
    the written prefix only. *)
Theorem ensure_grows_and_keeps (n : Z) (p : UltraMemoryPool.pool) :
  PoolFacts.ok p -> 0 <= n ->
  UltraMemoryPool.pos p + n + 256 < 2147483648 ->
  let p' := UltraMemoryPool.ensure n p in
  UltraMemoryPool.pos p' = UltraMemoryPool.pos p
  /\ UltraMemoryPool.size p <= UltraMemoryPool.size p'
  /\ UltraMemoryPool.pos p + n <= UltraMemoryPool.size p'
  /\ (forall i, 0 <= i < UltraMemoryPool.pos p ->
        UltraMemoryPool.byte_at (UltraMemoryPool.u8 p') i
        = UltraMemoryPool.byte_at (UltraMemoryPool.u8 p) i)
  /\ (UltraMemoryPool.pos p + n <= UltraMemoryPool.size p -> p' = p)
  /\ (UltraMemoryPool.size p < UltraMemoryPool.pos p + n ->
        UltraMemoryPool.size p' mod CACHE_LINE_SIZE = 0
        /\ (UltraMemoryPool.size p < 2 ^ 30 ->
            2 * UltraMemoryPool.size p <= UltraMemoryPool.size p')
        /\ forall i, UltraMemoryPool.pos p <= i ->
             UltraMemoryPool.byte_at (UltraMemoryPool.u8 p') i = 0).
Proof.
  intros [Hpos Hsize] Hn Hroom. cbv zeta. unfold UltraMemoryPool.ensure. cbv zeta.
  rewrite (to_int32_small n) by lia.
  rewrite (to_int32_small (UltraMemoryPool.pos p + n)) by lia.
  destruct (Z.ltb_spec (UltraMemoryPool.size p) (UltraMemoryPool.pos p + n)) as [Hg|Hg].
  - cbn [UltraMemoryPool.pos UltraMemoryPool.size UltraMemoryPool.u8].
    set (d := JS.shl (UltraMemoryPool.size p) 1).
    assert (Hd : -2147483648 <= d < 2147483648).
    { unfold d, JS.shl, JS.to_int32.
      pose proof (Z.mod_pos_bound
        (Z.shiftl ((UltraMemoryPool.size p + 2147483648) mod 4294967296 - 2147483648) (1 mod 32)
         + 2147483648) 4294967296 ltac:(lia)). lia. }
    assert (Hdbl : UltraMemoryPool.size p < 2 ^ 30 -> d = 2 * UltraMemoryPool.size p).
    { intros Hs. change (2 ^ 30) with 1073741824 in Hs. unfold d, JS.shl.
      rewrite (to_int32_small (UltraMemoryPool.size p)) by lia.
      change (1 mod 32) with 1. rewrite Z.shiftl_mul_pow2 by lia.
      change (2 ^ 1) with 2. rewrite to_int32_small by lia. lia. }
    set (newSize := Z.max d (UltraMemoryPool.pos p + n + CACHE_LINE_SIZE)).
    assert (Hns : UltraMemoryPool.pos p + n + 128 <= newSize < 2147483648)
      by (unfold newSize, CACHE_LINE_SIZE; lia).
    assert (Hnd : d <= newSize) by (unfold newSize; lia).
    rewrite (to_int32_small newSize) by lia.
    unfold CACHE_LINE_SIZE.
    pose proof (round_down_mask (newSize + 128 - 1) 7 ltac:(lia) ltac:(lia)) as Ha.
    rewrite (to_int32_small (2 ^ 7 - 1)) in Ha by (simpl; lia).
    change (2 ^ 7 - 1) with (128 - 1) in Ha. change (2 ^ 7) with 128 in Ha.
    rewrite Ha. clear Ha.
    replace (newSize + 128 - 1) with (newSize + (128 - 1)) by lia.
    pose proof (Z.div_mod (newSize + (128 - 1)) 128 ltac:(lia)) as Hdm.
    pose proof (Z.mod_pos_bound (newSize + (128 - 1)) 128 ltac:(lia)) as Hmb.
    split; [reflexivity|]. split; [lia|]. split; [lia|]. split.
    { intros i Hi. apply byte_at_filter. lia. }
    split; [intros; lia|]. intros _. split; [apply Z_mod_mult|]. split.
    { intros Hs. specialize (Hdbl Hs). lia. }
    intros i Hi. unfold UltraMemoryPool.byte_at.
    rewrite (proj2 (map_lookup_filter_None _ _ _)); [reflexivity|].
    right. intros v _. cbn [fst]. lia.
  - split; [reflexivity|]. split; [lia|]. split; [lia|]. split; [reflexivity|].
    split; [reflexivity|]. intros; lia.
Qed.

Lemma ensure_grows_and_keeps_witness :
  let p := UltraMemoryPool.mkPool 128 {[ 0 := 7; 120 := 9 ]} 100 in
  let p' := UltraMemoryPool.ensure 64 p in
  UltraMemoryPool.pos p' = UltraMemoryPool.pos p
  /\ UltraMemoryPool.size p <= UltraMemoryPool.size p'
  /\ UltraMemoryPool.pos p + 64 <= UltraMemoryPool.size p'
  /\ (forall i, 0 <= i < UltraMemoryPool.pos p ->
        UltraMemoryPool.byte_at (UltraMemoryPool.u8 p') i
        = UltraMemoryPool.byte_at (UltraMemoryPool.u8 p) i)
  /\ (UltraMemoryPool.pos p + 64 <= UltraMemoryPool.size p -> p' = p)
  /\ (UltraMemoryPool.size p < UltraMemoryPool.pos p + 64 ->
        UltraMemoryPool.size p' mod CACHE_LINE_SIZE = 0
        /\ (UltraMemoryPool.size p < 2 ^ 30 ->
            2 * UltraMemoryPool.size p <= UltraMemoryPool.size p')
        /\ forall i, UltraMemoryPool.pos p <= i ->
             UltraMemoryPool.byte_at (UltraMemoryPool.u8 p') i = 0).
Proof.
  apply (ensure_grows_and_keeps 64 (UltraMemoryPool.mkPool 128 {[ 0 := 7; 120 := 9 ]} 100)).
  - unfold PoolFacts.ok. simpl. lia.
  - lia.
  - simpl. lia.
Defined.

(** X2: The sum [pos + bytes] is reduced to 32 signed bits before it is
    compared with the capacity: a request that takes the cursor to 2^31
    or beyond wraps to a negative number, and [ensure] does nothing,
    however small the buffer is. *)
Theorem ensure_ignores_a_request_past_int32 (n : Z) (p : UltraMemoryPool.pool) :
  PoolFacts.ok p -> UltraMemoryPool.pos p < 2147483648 ->
  0 <= n < 2147483648 ->
  2147483648 <= UltraMemoryPool.pos p + n ->
  UltraMemoryPool.ensure n p = p.
Proof.
  intros [Hpos Hsize] Hp Hn Hover. unfold UltraMemoryPool.ensure. cbv zeta.
  rewrite (to_int32_small n) by lia.
  assert (E : JS.to_int32 (UltraMemoryPool.pos p + n)
              = UltraMemoryPool.pos p + n - 4294967296).
  { unfold JS.to_int32.
    replace ((UltraMemoryPool.pos p + n + 2147483648) mod 4294967296)
      with (UltraMemoryPool.pos p + n + 2147483648 - 4294967296); [lia|].
    apply Z.mod_unique with 1; lia. }
  rewrite E.
  destruct (Z.ltb_spec (UltraMemoryPool.size p) (UltraMemoryPool.pos p + n - 4294967296));
    [lia|reflexivity].
Qed.

Lemma ensure_ignores_a_request_past_int32_witness :
  UltraMemoryPool.ensure 2147483647 (UltraMemoryPool.mkPool 128 ∅ 100)
  = UltraMemoryPool.mkPool 128 ∅ 100.
Proof.
  apply (ensure_ignores_a_request_past_int32 2147483647 (UltraMemoryPool.mkPool 128 ∅ 100)).
  - unfold PoolFacts.ok. simpl. lia.
  - simpl. lia.
  - lia.
  - simpl. lia.
Defined.

(** ** Doubles through [serialize] and [deserialize] *)

(** X15: A number the classifier tags FLOAT64 is written as the eight
    bytes of its binary64 pattern at the next multiple of 8, and
    [deserialize] returns the same double, bit for bit. *)
Theorem float64_number_round_trip (H H' : Heap.Host) (opts opts' : TurboSerial.options)
    (h h0 : Heap.heap) (k k' : nat) (s0 : TurboSerial.wstate) (rest : list Z)
    (x : Num.number) :
  PoolFacts.ok (TurboSerial.pool s0) ->
  Num.valid x = true ->
  UltraTypeDetector.detectNumber x = TYPE.FLOAT64 ->
  Z.of_nat (length rest) < 2 ^ 30 ->
  exists bytes s',
    TurboSerial.serialize H opts h (S k) s0 (Heap.VNum x) = Done (bytes, s')
    /\ length bytes = 16%nat
    /\ TurboSerial.deserialize H' opts' (S k') h0 (bytes ++ rest) = Done (Heap.VNum x, h0).
Proof.
  intros Hok Hv Ht Hrest.
  rewrite (serialize_atom_run H opts h k s0 (Heap.VNum x) TYPE.FLOAT64 eq_refl)
    by (unfold UltraTypeDetector.detect; rewrite Ht; reflexivity).
  destruct (blob_word64 (TurboSerial.pool s0) TYPE.FLOAT64 (Num.bits64 x) Hok
              ltac:(vm_compute; split; [discriminate|reflexivity])) as (b0 & b1 & B).
  eexists. eexists. split; [|split].
  - change (TurboSerial.writePayload H opts h (TurboSerial.writeValue H opts h k)
              (Heap.VNum x) TYPE.FLOAT64)
      with (TurboSerial.on_pool (UltraMemoryPool.writeF64 x)).
    unfold TurboSerial.on_pool, modify. cbn [TurboSerial.pool].
    unfold UltraMemoryPool.writeF64. rewrite (blob_getResult _ _ B). reflexivity.
  - rewrite !length_app, le_bytes_length. reflexivity.
  - rewrite <- !app_assoc.
    change ([53; 82; 66; 84; 5; TYPE.FLOAT64] ++ [b0; b1] ++ JS.le_bytes 8 (Num.bits64 x) ++ rest)
      with ([53; 82; 66; 84; 5] ++ [TYPE.FLOAT64; b0; b1] ++ JS.le_bytes 8 (Num.bits64 x) ++ rest).
    rewrite deserialize_header
      by (rewrite !length_app, le_bytes_length; change (2 ^ 30) with 1073741824 in Hrest;
          simpl; lia).
    rewrite (readValue_number_run H' opts' k' _ TYPE.FLOAT64);
      [|simpl; lia|reflexivity|reflexivity].
    change (TurboSerial.readNumber TYPE.FLOAT64)
      with (bind (bind (TurboSerial.read_le 8) (fun u => ret (Num.of_bits64 u)))
                 (fun v => ret (Heap.VNum v))).
    cbn [TurboSerial.rpos]. change (5 + 1) with 6.
    unfold bind at 1. unfold bind at 1. unfold bind at 1.
    rewrite (rd_word64 h0 TYPE.FLOAT64 b0 b1 (Num.bits64 x) rest (bits64_range x Hv) Hrest).
    unfold ret. cbv beta iota. rewrite (of_bits64_bits64 x Hv). reflexivity.
Qed.

(** The double nearest to one tenth. *)
Definition one_tenth : Num.number := S754_finite false 7205759403792794 (-56).

Lemma float64_number_round_trip_witness :
  exists bytes s',
    TurboSerial.serialize bare_host TurboSerial.default_options [] 1
      (TurboSerial.new TurboSerial.default_options) (Heap.VNum one_tenth) = Done (bytes, s')
    /\ length bytes = 16%nat
    /\ TurboSerial.deserialize bare_host TurboSerial.default_options 1 [] (bytes ++ [])
       = Done (Heap.VNum one_tenth, []).
Proof.
  apply (float64_number_round_trip bare_host bare_host TurboSerial.default_options
           TurboSerial.default_options [] [] 0 0 (TurboSerial.new TurboSerial.default_options)
           [] one_tenth).
  - unfold PoolFacts.ok. vm_compute. repeat split; discriminate.
  - vm_compute. reflexivity.
  - vm_compute. reflexivity.
  - simpl. lia.
Defined.

(** ** Dates through [serialize] and [deserialize] *)

(** X20: A [Date] comes back as a new [Date] whose time value is
    [TimeClip] of the one written: an invalid date (time NaN) under its
    own tag with no payload, any other as the binary64 pattern of its
    time.  For every time value a [Date] can hold, an integral number of
    milliseconds of magnitude at most 8.64e15, that is the same time. *)
Theorem date_round_trip (H H' : Heap.Host) (opts opts' : TurboSerial.options)
    (h h0 : Heap.heap) (k k' : nat) (s0 : TurboSerial.wstate) (rest : list Z)
    (l : Heap.loc) (time : Num.number) :
  PoolFacts.ok (TurboSerial.pool s0) ->
  h !! l = Some (Heap.ODate time) ->
  Num.valid time = true ->
  Z.of_nat (length rest) < 2 ^ 30 ->
  (exists out s',
     TurboSerial.serialize H opts h (S k) s0 (Heap.VRef l) = Done (out, s')
     /\ TurboSerial.deserialize H' opts' (S k') h0 (out ++ rest)
        = Done (Heap.VRef (length h0), h0 ++ [Heap.ODate (TurboSerial.time_clip time)]))
  /\ (forall ms, Z.abs ms <= 8640000000000000 -> time = Num.of_int ms ->
        TurboSerial.time_clip time = time).
Proof.
  intros Hok Hl Hv Hrest. split.
  - set (t := if Num.eqb time time then TYPE.DATE else TYPE.DATE_INVALID).
    assert (Hd : UltraTypeDetector.detect H h (Heap.VRef l) = Done t).
    { unfold UltraTypeDetector.detect, UltraTypeDetector.detectObject. rewrite Hl. reflexivity. }
    destruct (serialize_ref_run H opts h k s0 l t
                (prewalk_leaf h k l _ ∅ Hl eq_refl) Hd) as (r & bf & Hrun).
    rewrite Hrun. clear Hrun.
    assert (Ew : TurboSerial.writePayload H opts h (TurboSerial.writeValue H opts h k)
                   (Heap.VRef l) t
                 = TurboSerial.writeDate time t).
    { unfold TurboSerial.writePayload. rewrite Hl. reflexivity. }
    rewrite Ew. clear Ew.
    destruct (Num.eqb time time) eqn:Eself; unfold t.
    + (* a time that equals itself: eight bytes *)
      destruct (blob_word64 (TurboSerial.pool s0) TYPE.DATE (Num.bits64 time) Hok
                  ltac:(vm_compute; split; [discriminate|reflexivity])) as (b0 & b1 & B).
      eexists. eexists. split.
      * change (TurboSerial.writeDate time TYPE.DATE)
          with (TurboSerial.on_pool (UltraMemoryPool.writeF64 time)).
        unfold TurboSerial.on_pool, modify. cbn [TurboSerial.pool].
        unfold UltraMemoryPool.writeF64. rewrite (blob_getResult _ _ B). reflexivity.
      * rewrite <- !app_assoc.
        change ([53; 82; 66; 84; 5; TYPE.DATE] ++ [b0; b1]
                ++ JS.le_bytes 8 (Num.bits64 time) ++ rest)
          with ([53; 82; 66; 84; 5] ++ [TYPE.DATE; b0; b1]
                ++ JS.le_bytes 8 (Num.bits64 time) ++ rest).
        rewrite deserialize_header
          by (rewrite !length_app, le_bytes_length; change (2 ^ 30) with 1073741824 in Hrest;
              simpl; lia).
        rewrite (readValue_date_run H' opts' k' _ TYPE.DATE);
          [|simpl; lia|reflexivity|reflexivity].
        change (TurboSerial.readDate TYPE.DATE)
          with (bind (bind (TurboSerial.read_le 8) (fun u => ret (Num.of_bits64 u)))
                     (fun t0 => bind (TurboSerial.alloc (Heap.ODate (TurboSerial.time_clip t0)))
                                     (fun l0 => ret (Heap.VRef l0)))).
        cbn [TurboSerial.rpos]. change (5 + 1) with 6.
        unfold bind at 1. unfold bind at 1. unfold bind at 1.
        rewrite (rd_word64 h0 TYPE.DATE b0 b1 (Num.bits64 time) rest (bits64_range time Hv) Hrest).
        unfold ret at 1. cbv beta iota. rewrite (of_bits64_bits64 time Hv). reflexivity.
    + (* NaN: the tag alone *)
      assert (Enan : time = Num.NaN).
      { destruct time as [s|s| |s m e]; try reflexivity.
        - destruct s; discriminate Eself.
        - destruct s; discriminate Eself.
        - unfold Num.eqb, SFeqb, SFcompare in Eself.
          rewrite Z.compare_refl, Pos.compare_cont_refl in Eself.
          destruct s; discriminate Eself. }
      subst time.
      pose proof (blob_tag (TurboSerial.pool s0) TYPE.DATE_INVALID Hok
                    ltac:(vm_compute; split; [discriminate|reflexivity])) as B6.
      eexists. eexists. split.
      * change (TurboSerial.writeDate Num.NaN TYPE.DATE_INVALID)
          with (@ret TurboSerial.wstate unit tt).
        unfold ret. cbn [TurboSerial.pool]. rewrite (blob_getResult _ _ B6). reflexivity.
      * change ([53; 82; 66; 84; 5; TYPE.DATE_INVALID] ++ rest)
          with ([53; 82; 66; 84; 5] ++ TYPE.DATE_INVALID :: rest).
        rewrite deserialize_header
          by (change (2 ^ 30) with 1073741824 in Hrest; cbn [length]; lia).
        rewrite (readValue_date_run H' opts' k' _ TYPE.DATE_INVALID);
          [|simpl; lia|reflexivity|reflexivity].
        reflexivity.
  - intros ms Hms ->. destruct (Z.eq_dec ms 0) as [->|Hne]; [reflexivity|].
    assert (Hb : Z.abs ms < 2 ^ 53) by (change (2 ^ 53) with 9007199254740992; lia).
    pose proof (of_int_nonzero ms Hne Hb) as Efin.
    unfold TurboSerial.time_clip. rewrite Efin at 1. cbv beta iota.
    rewrite abs_of_int by exact Hb.
    rewrite leb_of_int
      by (change (2 ^ 53) with 9007199254740992 in *;
          first [rewrite !Z.abs_eq by lia; lia|lia]).
    destruct (Z.leb_spec (Z.abs ms) 8640000000000000); [|lia].
    rewrite trunc_of_int by exact Hb. reflexivity.
Qed.

Lemma date_round_trip_witness :
  (exists out s',
     TurboSerial.serialize bare_host TurboSerial.default_options
       [Heap.ODate (Num.of_int 1700000000000)] 1
       (TurboSerial.new TurboSerial.default_options) (Heap.VRef 0%nat) = Done (out, s')
     /\ TurboSerial.deserialize bare_host TurboSerial.default_options 1 [] (out ++ [])
        = Done (Heap.VRef 0%nat,
                [] ++ [Heap.ODate (TurboSerial.time_clip (Num.of_int 1700000000000))]))
  /\ (forall ms, Z.abs ms <= 8640000000000000 -> Num.of_int 1700000000000 = Num.of_int ms ->
        TurboSerial.time_clip (Num.of_int 1700000000000) = Num.of_int 1700000000000).
Proof.
  apply (date_round_trip bare_host bare_host TurboSerial.default_options
           TurboSerial.default_options [Heap.ODate (Num.of_int 1700000000000)] [] 0 0
           (TurboSerial.new TurboSerial.default_options) [] 0%nat (Num.of_int 1700000000000)).
  - unfold PoolFacts.ok. vm_compute. repeat split; discriminate.
  - reflexivity.
  - vm_compute. reflexivity.
  - simpl. lia.
Defined.

(** ** Packed integer arrays through [serialize] and [deserialize] *)

(** The analyzer on int32 values: a packed signed integer type whose
    range holds every element. *)
Lemma analyzeNumericArray_int32 (H : Heap.Host) (h : Heap.heap) (zs : list Z) :
  zs <> [] -> Forall int32 zs ->
  exists t j,
    SIMDProcessor.analyzeNumericArray H h (nums zs) = Done (t, 2 ^ j)
    /\ ((t = TYPE.ARRAY_PACKED_I8 /\ j = 0) \/ (t = TYPE.ARRAY_PACKED_I16 /\ j = 1)
        \/ (t = TYPE.ARRAY_PACKED_I32 /\ j = 2))
    /\ Forall (fun z => - 2 ^ (8 * 2 ^ j - 1) <= z < 2 ^ (8 * 2 ^ j - 1)) zs.
Proof.
  intros Hne Hall.
  assert (Hsmall : Forall small zs).
  { eapply Forall_impl; [exact Hall|]. intros z Hz. apply int32_small. exact Hz. }
  destruct (scan_loop_flags H h zs Hsmall
              (SIMDProcessor.mkScan 1 Num.Infinity Num.NegInfinity 1) true true
              eq_refl eq_refl) as (a' & Hrun & Hi & Hf).
  rewrite !andb_true_l in *.
  rewrite (proj2 (forallb_is_int32 zs) Hall) in Hi.
  destruct zs as [|z0 zs']; [contradiction|].
  inversion Hsmall as [|? ? Hz0 Hzs']; subst.
  inversion Hall as [|? ? Hi0 Hall']; subst.
  pose proof Hrun as Hrun'.
  cbn [nums map SIMDProcessor.scan_loop] in Hrun'.
  rewrite scan_step_int in Hrun' by exact Hz0. fold (nums zs') in Hrun'.
  apply (scan_loop_bounds H h zs' Hzs' _ _ z0 z0) in Hrun';
    [|apply min_infinity|apply max_neg_infinity|exact Hz0|exact Hz0].
  destruct Hrun' as (mn & mx & E1 & E2 & L1 & L2 & Hin & I1 & I2).
  assert (Hmn : int32 mn).
  { destruct I1 as [->|I1]; [exact Hi0|].
    exact (proj1 (List.Forall_forall _ _) Hall' _ I1). }
  assert (Hmx : int32 mx).
  { destruct I2 as [->|I2]; [exact Hi0|].
    exact (proj1 (List.Forall_forall _ _) Hall' _ I2). }
  assert (Hall2 : Forall (fun z => mn <= z <= mx) (z0 :: zs')).
  { constructor; [lia|exact Hin]. }
  unfold SIMDProcessor.analyzeNumericArray. rewrite Hrun, Hi, E1, E2.
  cbn [SIMDProcessor.b2z Z.eqb negb].
  unfold int32 in Hmn, Hmx.
  assert (S1 : small mn) by (apply int32_small; exact Hmn).
  assert (S2 : small mx) by (apply int32_small; exact Hmx).
  assert (S3 : small (Z.abs mn)) by (unfold small in *; lia).
  assert (S4 : small (Z.abs mx)) by (unfold small in *; lia).
  rewrite !abs_of_int by assumption.
  rewrite max_of_int by assumption.
  set (M := Z.max (Z.abs mn) (Z.abs mx)) in *.
  assert (SM : Z.abs M < 2 ^ 53) by (unfold small in *; lia).
  rewrite !leb_of_int by (first [exact SM|reflexivity]).
  destruct (Z.leb_spec M 127) as [B1|B1];
    destruct (Z.leb_spec M 32767) as [B2|B2];
    destruct (Z.leb_spec M 2147483647) as [B3|B3]; try lia;
    match goal with
    | |- context [default ?d ?l] =>
        let r := eval vm_compute in (default d l) in change (default d l) with r
    end.
  - exists TYPE.ARRAY_PACKED_I32, 2. split; [reflexivity|].
    split; [right; right; split; reflexivity|].
    eapply Forall_impl; [exact Hall2|]. intros z Hz. cbv beta in Hz |- *.
    change (2 ^ (8 * 2 ^ 2 - 1)) with 2147483648. lia.
  - exists TYPE.ARRAY_PACKED_I16, 1. split; [reflexivity|].
    split; [right; left; split; reflexivity|].
    eapply Forall_impl; [exact Hall2|]. intros z Hz. cbv beta in Hz |- *.
    change (2 ^ (8 * 2 ^ 1 - 1)) with 32768. lia.
  - exists TYPE.ARRAY_PACKED_I32, 2. split; [reflexivity|].
    split; [right; right; split; reflexivity|].
    eapply Forall_impl; [exact Hall2|]. intros z Hz. cbv beta in Hz |- *.
    change (2 ^ (8 * 2 ^ 2 - 1)) with 2147483648. lia.
  - exists TYPE.ARRAY_PACKED_I32, 2. split; [reflexivity|].
    split; [right; right; split; reflexivity|].
    eapply Forall_impl; [exact Hall2|]. intros z Hz. cbv beta in Hz |- *.
    change (2 ^ (8 * 2 ^ 2 - 1)) with 2147483648. lia.
Qed.

(** [detectArray] on an eligible array of int32 values. *)
Lemma detectArray_int32 (H : Heap.Host) (h : Heap.heap) (zs : list Z) :
  length zs = 8%nat \/ (16 <= length zs)%nat ->
  Z.of_nat (length zs) < 2 ^ 30 ->
  Forall int32 zs ->
  exists t j,
    UltraTypeDetector.detectArray H h (Z.of_nat (length (nums zs)))
      (list_to_map (zip (seqZ 0 (Z.of_nat (length (nums zs)))) (nums zs))) = Done t
    /\ ((t = TYPE.ARRAY_PACKED_I8 /\ j = 0) \/ (t = TYPE.ARRAY_PACKED_I16 /\ j = 1)
        \/ (t = TYPE.ARRAY_PACKED_I32 /\ j = 2))
    /\ Forall (fun z => - 2 ^ (8 * 2 ^ j - 1) <= z < 2 ^ (8 * 2 ^ j - 1)) zs.
Proof.
  intros Hsize Hlen Hall.
  assert (Hne : zs <> []) by (intros ->; cbn [length] in Hsize; lia).
  destruct (analyzeNumericArray_int32 H h zs Hne Hall) as (t & j & Ha & Ht & Hr).
  exists t, j. split; [|split; assumption].
  unfold UltraTypeDetector.detectArray. cbv zeta.
  set (vs := nums zs). set (len := Z.of_nat (length vs)).
  assert (El : len = Z.of_nat (length zs)) by (unfold len, vs, nums; rewrite length_map; reflexivity).
  set (elems := list_to_map (zip (seqZ 0 len) vs) : gmap Z Heap.value).
  change (2 ^ 30) with 1073741824 in Hlen.
  destruct (Z.eqb_spec len 0) as [?|_]; [lia|].
  assert (Hhas : forall i, In i (seqZ 0 len) -> Heap.array_has elems i = true).
  { intros i Hi. apply list_elem_of_In, elem_of_seqZ in Hi.
    apply array_has_of. fold len. lia. }
  rewrite (proj2 (forallb_forall _ _) Hhas). cbn [negb orb].
  assert (Hfilter : List.filter (Heap.array_has elems) (seqZ 0 len) = seqZ 0 len).
  { apply forallb_filter_id. apply forallb_forall. exact Hhas. }
  rewrite Hfilter, length_seqZ.
  assert (Hthr : JS.ushr (len * 3) 2 <= len).
  { unfold JS.ushr. rewrite to_uint32_small by lia. change (2 mod 32) with 2.
    rewrite Z.shiftr_div_pow2 by lia. change (2 ^ 2) with 4.
    apply Z.lt_succ_r. apply Z.div_lt_upper_bound; lia. }
  destruct (Z.ltb_spec (Z.of_nat (Z.to_nat len)) (JS.ushr (len * 3) 2)); [lia|].
  rewrite canOptimize_numbers.
  - replace (map (Heap.array_get elems) (seqZ 0 len)) with vs
      by (symmetry; apply array_values_of).
    unfold vs. rewrite Ha. reflexivity.
  - lia.
  - change (2 ^ 30) with 1073741824. lia.
  - intros i Hi. unfold Heap.array_get, elems, len. rewrite array_of_lookup by lia.
    destruct (lookup_lt_is_Some_2 vs (Z.to_nat i) ltac:(unfold len in Hi; lia)) as [v Hv].
    rewrite Hv. unfold vs, nums in Hv. rewrite list_lookup_fmap in Hv.
    destruct (zs !! Z.to_nat i); [|discriminate Hv]. inversion Hv. reflexivity.
Qed.

(** The three packed signed integer types, by the exponent of their
    element size. *)
Definition packed_int (t j : Z) : Prop :=
  (t = TYPE.ARRAY_PACKED_I8 /\ j = 0) \/ (t = TYPE.ARRAY_PACKED_I16 /\ j = 1)
  \/ (t = TYPE.ARRAY_PACKED_I32 /\ j = 2).

(** [pool.writePackedArray] on int32 values: the count, padding to the
    element size, then the elements in two's complement. *)
Lemma writePackedArray_int32 (t j : Z) (zs : list Z) (p : UltraMemoryPool.pool) :
  packed_int t j -> Forall int32 zs -> Z.of_nat (length zs) < 2 ^ 30 ->
  UltraMemoryPool.writePackedArray (map Num.of_int zs) t p
  = Done (UltraMemoryPool.put (flat_map (JS.le_bytes (Z.to_nat (2 ^ j))) zs)
            (UltraMemoryPool.ensure (Z.of_nat (length zs) * 2 ^ j)
               (UltraMemoryPool.alignPos (2 ^ j)
                  (UltraMemoryPool.writeVarint (Z.of_nat (length zs)) p)))).
Proof.
  intros Ht Hall Hlen. change (2 ^ 30) with 1073741824 in Hlen.
  assert (Htr : forall z, int32 z -> Num.trunc (Num.of_int z) = z).
  { intros z Hz. apply trunc_of_int. apply int32_small. exact Hz. }
  assert (H32 : forall z, int32 z -> Num.to_int32 (Num.of_int z) = z).
  { intros z Hz. unfold Num.to_int32. rewrite (Htr z Hz). apply to_int32_small. exact Hz. }
  assert (Hfm : forall (g : Num.number -> Z) (k : nat),
            (forall z, int32 z -> g (Num.of_int z) = z) ->
            flat_map (fun x => JS.le_bytes k (g x)) (map Num.of_int zs)
            = flat_map (JS.le_bytes k) zs).
  { intros g k Hg. clear Hlen. induction Hall as [|z zs' Hz _ IH]; [reflexivity|].
    cbn [map flat_map]. rewrite (Hg z Hz), IH. reflexivity. }
  unfold UltraMemoryPool.writePackedArray. cbv zeta. rewrite length_map.
  rewrite (to_int32_small (Z.of_nat (length zs))) by lia.
  destruct Ht as [(-> & ->)|[(-> & ->)|(-> & ->)]].
  - change (JS.to_int32 (BYTES_PER_ELEMENT TYPE.ARRAY_PACKED_I8)) with (2 ^ 0).
    change (2 ^ 0 =? 0) with false. change (Z.min (2 ^ 0) 8) with (2 ^ 0).
    change (TYPE.ARRAY_PACKED_I8 =? TYPE.ARRAY_PACKED_I8) with true. cbv iota.
    rewrite (Hfm Num.trunc 1%nat Htr). reflexivity.
  - change (JS.to_int32 (BYTES_PER_ELEMENT TYPE.ARRAY_PACKED_I16)) with (2 ^ 1).
    change (2 ^ 1 =? 0) with false. change (Z.min (2 ^ 1) 8) with (2 ^ 1).
    change (TYPE.ARRAY_PACKED_I16 =? TYPE.ARRAY_PACKED_I8) with false.
    change (TYPE.ARRAY_PACKED_I16 =? TYPE.ARRAY_PACKED_I16) with true. cbv iota.
    rewrite (Hfm Num.to_int32 2%nat H32). reflexivity.
  - change (JS.to_int32 (BYTES_PER_ELEMENT TYPE.ARRAY_PACKED_I32)) with (2 ^ 2).
    change (2 ^ 2 =? 0) with false. change (Z.min (2 ^ 2) 8) with (2 ^ 2).
    change (TYPE.ARRAY_PACKED_I32 =? TYPE.ARRAY_PACKED_I8) with false.
    change (TYPE.ARRAY_PACKED_I32 =? TYPE.ARRAY_PACKED_I16) with false.
    change (TYPE.ARRAY_PACKED_I32 =? TYPE.ARRAY_PACKED_I32) with true. cbv iota.
    rewrite (Hfm Num.to_int32 4%nat H32). reflexivity.
Qed.

(** The elements [readPackedArrayData] makes of those bytes. *)
Lemma packed_decode (t j : Z) (zs : list Z) :
  packed_int t j ->
  Forall (fun z => - 2 ^ (8 * 2 ^ j - 1) <= z < 2 ^ (8 * 2 ^ j - 1)) zs ->
  map (fun b : list Z =>
         let u := JS.of_le_bytes b in
         if t =? TYPE.ARRAY_PACKED_I8 then Heap.VNum (Num.of_int (JS.signed 8 u))
         else if t =? TYPE.ARRAY_PACKED_I16 then Heap.VNum (Num.of_int (JS.signed 16 u))
         else if t =? TYPE.ARRAY_PACKED_I32 then Heap.VNum (Num.of_int (JS.signed 32 u))
         else if t =? TYPE.ARRAY_PACKED_F32 then Heap.VNum (Num.of_bits32 u)
         else Heap.VNum (Num.of_bits64 u))
      (TurboSerial.chunks (length zs) (Z.to_nat (2 ^ j))
         (flat_map (JS.le_bytes (Z.to_nat (2 ^ j))) zs))
  = nums zs.
Proof.
  intros Ht Hr.
  rewrite chunks_flat_map by (intros z; apply le_bytes_length).
  rewrite map_map. unfold nums. apply map_ext_in. intros z Hz.
  apply (proj1 (List.Forall_forall _ _) Hr) in Hz. cbv zeta.
  rewrite of_le_bytes_le_bytes.
  destruct Ht as [(-> & ->)|[(-> & ->)|(-> & ->)]].
  - change (TYPE.ARRAY_PACKED_I8 =? TYPE.ARRAY_PACKED_I8) with true. cbv iota.
    change (256 ^ Z.of_nat (Z.to_nat (2 ^ 0))) with (2 ^ 8).
    rewrite signed_mod by (first [lia|exact Hz]). reflexivity.
  - change (TYPE.ARRAY_PACKED_I16 =? TYPE.ARRAY_PACKED_I8) with false.
    change (TYPE.ARRAY_PACKED_I16 =? TYPE.ARRAY_PACKED_I16) with true. cbv iota.
    change (256 ^ Z.of_nat (Z.to_nat (2 ^ 1))) with (2 ^ 16).
    rewrite signed_mod by (first [lia|exact Hz]). reflexivity.
  - change (TYPE.ARRAY_PACKED_I32 =? TYPE.ARRAY_PACKED_I8) with false.
    change (TYPE.ARRAY_PACKED_I32 =? TYPE.ARRAY_PACKED_I16) with false.
    change (TYPE.ARRAY_PACKED_I32 =? TYPE.ARRAY_PACKED_I32) with true. cbv iota.
    change (256 ^ Z.of_nat (Z.to_nat (2 ^ 2))) with (2 ^ 32).
    rewrite signed_mod by (first [lia|exact Hz]). reflexivity.
Qed.

(** X21: An array of 8, or of 16 and more, int32 numbers without holes is
    written under one of the packed signed integer tags (the count, then
    padding to the element size, then the elements in two's complement)
    and [deserialize] returns a new array with the same numbers. *)
Theorem packed_int_array_round_trip (H H' : Heap.Host) (opts opts' : TurboSerial.options)
    (h h0 : Heap.heap) (k k' : nat) (s0 : TurboSerial.wstate) (rest : list Z)
    (l : Heap.loc) (zs : list Z) :
  PoolFacts.ok (TurboSerial.pool s0) ->
  h !! l = Some (Heap.array_of (nums zs)) ->
  length zs = 8%nat \/ (16 <= length zs)%nat ->
  Z.of_nat (length zs) < 2 ^ 15 ->
  Forall int32 zs ->
  Z.of_nat (length rest) < 2 ^ 30 ->
  exists out s' t,
    TurboSerial.serialize H opts h (S (S k)) s0 (Heap.VRef l) = Done (out, s')
    /\ out !! 5%nat = Some t
    /\ In t [TYPE.ARRAY_PACKED_I8; TYPE.ARRAY_PACKED_I16; TYPE.ARRAY_PACKED_I32]
    /\ TurboSerial.deserialize H' opts' (S k') h0 (out ++ rest)
       = Done (Heap.VRef (length h0), h0 ++ [Heap.array_of (nums zs)]).
Proof.
  intros Hok Hl Hsize Hlen Hall Hrest.
  change (2 ^ 30) with 1073741824 in Hrest. change (2 ^ 15) with 32768 in Hlen.
  destruct (detectArray_int32 H h zs Hsize ltac:(change (2 ^ 30) with 1073741824; lia) Hall)
    as (t & j & Hdet & Ht & Hrange).
  fold (packed_int t j) in Ht.
  assert (Hj : 0 <= j <= 2) by (destruct Ht as [(_ & ->)|[(_ & ->)|(_ & ->)]]; lia).
  assert (Hk : 1 <= 2 ^ j <= 4).
  { destruct Ht as [(_ & ->)|[(_ & ->)|(_ & ->)]]; simpl; lia. }
  assert (Ht256 : 0 <= t < 256 /\ JS.band t TYPE_MASK.GROUP = TYPE_GROUP.ARRAY
                  /\ In t [TYPE.ARRAY_PACKED_I8; TYPE.ARRAY_PACKED_I16; TYPE.ARRAY_PACKED_I32]).
  { destruct Ht as [(-> & _)|[(-> & _)|(-> & _)]];
      (split; [vm_compute; split; [discriminate|reflexivity]|]);
      (split; [reflexivity|]); cbn [In]; auto. }
  destruct Ht256 as (Ht256 & Hgroup & Hin).
  unfold Heap.array_of in Hl.
  set (vs := nums zs) in *.
  assert (Evs : length vs = length zs) by (unfold vs, nums; apply length_map).
  set (len := Z.of_nat (length vs)) in *.
  set (elems := list_to_map (zip (seqZ 0 len) vs) : gmap Z Heap.value) in *.
  assert (Hd : UltraTypeDetector.detect H h (Heap.VRef l) = Done t).
  { unfold UltraTypeDetector.detect, UltraTypeDetector.detectObject. rewrite Hl. exact Hdet. }
  assert (Hflat : forall i v, elems !! i = Some v -> Heap.is_object v = false).
  { intros i v Hv. unfold elems, len in Hv. rewrite zip_seqZ_lookup in Hv.
    destruct (0 <=? i); [|discriminate Hv].
    unfold vs, nums in Hv. rewrite list_lookup_fmap in Hv.
    destruct (zs !! Z.to_nat (i - 0)); [|discriminate Hv]. inversion Hv. reflexivity. }
  destruct (serialize_ref_run H opts h (S k) s0 l t
              (prewalk_flat_array h k l len elems Hl Hflat) Hd) as (r & bf & Hrun).
  rewrite Hrun. clear Hrun.
  set (bs := flat_map (JS.le_bytes (Z.to_nat (2 ^ j))) zs).
  assert (Hbs : Z.of_nat (length bs) = Z.of_nat (length zs) * 2 ^ j).
  { unfold bs. rewrite (flat_map_length_groups (Z.to_nat (2 ^ j)))
      by (intros z; apply le_bytes_length). lia. }
  assert (Ew : forall s1,
            TurboSerial.writePayload H opts h (TurboSerial.writeValue H opts h (S k))
              (Heap.VRef l) t s1
            = Done (tt, TurboSerial.mkW
                          (UltraMemoryPool.put bs
                             (UltraMemoryPool.ensure (Z.of_nat (length bs))
                                (UltraMemoryPool.alignPos (2 ^ j)
                                   (UltraMemoryPool.writeVarint (Z.of_nat (length zs))
                                      (TurboSerial.pool s1)))))
                          (TurboSerial.refs s1) (TurboSerial.circularRefs s1)
                          (TurboSerial.strings s1) (TurboSerial.buffers s1))).
  { intros s1. unfold TurboSerial.writePayload. rewrite Hl.
    assert (Ea : TurboSerial.writeArray H h (TurboSerial.writeValue H opts h (S k)) len elems t
                 = TurboSerial.writePackedArray H h (TurboSerial.array_values len elems) t)
      by (destruct Ht as [(-> & _)|[(-> & _)|(-> & _)]]; reflexivity).
    rewrite Ea. unfold elems, len. rewrite array_values_of.
    unfold vs, nums. rewrite <- (map_map Num.of_int Heap.VNum).
    rewrite writePackedArray_numbers.
    rewrite (writePackedArray_int32 t j zs _ Ht Hall)
      by (change (2 ^ 30) with 1073741824; lia).
    fold bs. rewrite <- Hbs. reflexivity. }
  rewrite Ew. clear Ew. cbn [TurboSerial.pool].
  pose proof (blob_tag (TurboSerial.pool s0) t Hok Ht256) as B6.
  set (p6 := UltraMemoryPool.writeU8 t (header_pool (TurboSerial.pool s0))) in *.
  set (n := Z.of_nat (length zs)) in *.
  pose proof (blob_writeVarint n p6 _ B6 ltac:(simpl; lia) ltac:(unfold n; lia)) as B7.
  pose proof (varint_groups_length n ltac:(unfold n; lia)) as Hvl.
  destruct (blob_put_aligned j bs (UltraMemoryPool.writeVarint n p6) _ ltac:(lia) B7)
    as (pad & B & Hmod & Hpad & _).
  { rewrite length_app. cbn [length]. rewrite Hbs. unfold n in *. nia. }
  assert (Emb : map byte_of bs = bs) by (unfold bs; apply map_byte_of_flat_le_bytes).
  rewrite Emb in B.
  exists ((([53; 82; 66; 84; 5; t] ++ varint_groups n) ++ pad ++ bs)). eexists. exists t.
  split; [rewrite (blob_getResult _ _ B); reflexivity|].
  split; [reflexivity|]. split; [exact Hin|].
  (* reading it back *)
  rewrite <- !app_assoc.
  change ([53; 82; 66; 84; 5; t] ++ varint_groups n ++ pad ++ bs ++ rest)
    with ([53; 82; 66; 84; 5] ++ t :: varint_groups n ++ pad ++ bs ++ rest).
  rewrite deserialize_header
    by (cbn [length]; rewrite !length_app; unfold n in *; nia).
  rewrite (readValue_array_run H' opts' k'
             (TurboSerial.mkR ([53; 82; 66; 84; 5] ++ t :: varint_groups n ++ pad ++ bs ++ rest)
                5 [] [] [] h0 0) t ltac:(simpl; lia) eq_refl Hgroup).
  cbn [TurboSerial.rpos]. change (5 + 1) with 6.
  unfold bind at 1. unfold TurboSerial.alloc at 1.
  cbn [TurboSerial.rheap TurboSerial.set_pos].
  unfold bind at 1. unfold TurboSerial.push_ref at 1, modify at 1.
  cbn [TurboSerial.buffer TurboSerial.rpos TurboSerial.deserializeRefs
       TurboSerial.deserializeStrings TurboSerial.deserializeBuffers TurboSerial.rheap
       TurboSerial.fresh TurboSerial.set_heap].
  set (buf := [53; 82; 66; 84; 5] ++ t :: varint_groups n ++ pad ++ bs ++ rest).
  pose (s6 := TurboSerial.mkR buf 6 [Heap.VRef (length h0)] [] []
                 (h0 ++ [Heap.OArray 0 ∅]) 0).
  match goal with
  | |- context [bind (TurboSerial.fillArray _ _ _ _) _ ?s] => change s with s6
  end.
  assert (Ef : TurboSerial.fillArray (TurboSerial.readValue H' opts' k') k' (length h0) t
               = bind (TurboSerial.readPackedArrayData t)
                      (fun packedArray =>
                         TurboSerial.update (length h0) (TurboSerial.array_push packedArray)))
    by (destruct Ht as [(-> & _)|[(-> & _)|(-> & _)]]; reflexivity).
  rewrite Ef. clear Ef.
  assert (Er : TurboSerial.readPackedArrayData t s6
               = Done (vs, TurboSerial.set_pos
                             (6 + Z.of_nat (length (varint_groups n)) + Z.of_nat (length pad)
                              + Z.of_nat (length bs)) s6)).
  { unfold TurboSerial.readPackedArrayData.
    pose proof (rd_readVarint s6 n [53; 82; 66; 84; 5; t] (pad ++ bs ++ rest)
                  ltac:(unfold n; lia) eq_refl eq_refl) as E1.
    unfold bind at 1. rewrite E1. cbv zeta.
    assert (Eb : BYTES_PER_ELEMENT t = 2 ^ j)
      by (destruct Ht as [(-> & ->)|[(-> & ->)|(-> & ->)]]; reflexivity).
    rewrite Eb. destruct (Z.eqb_spec (2 ^ j) 0); [lia|].
    rewrite Z.min_l by lia.
    set (s7 := TurboSerial.set_pos _ s6).
    assert (Ea : TurboSerial.alignPos (2 ^ j) s7
                 = Done (tt, TurboSerial.set_pos
                               (6 + Z.of_nat (length (varint_groups n)) + Z.of_nat (length pad))
                               s7)).
    { apply rd_alignPos.
      - lia.
      - unfold s7. cbn [TurboSerial.rpos TurboSerial.set_pos]. unfold s6.
        cbn [TurboSerial.rpos]. lia.
      - unfold s7. cbn [TurboSerial.rpos TurboSerial.set_pos]. unfold s6.
        cbn [TurboSerial.rpos]. lia.
      - rewrite length_app in Hmod. cbn [length] in Hmod.
        replace (6 + Z.of_nat (length (varint_groups n)) + Z.of_nat (length pad))
          with (Z.of_nat (6 + length (varint_groups n)) + Z.of_nat (length pad)) by lia.
        exact Hmod.
      - lia. }
    unfold bind at 1. rewrite Ea.
    set (s8 := TurboSerial.set_pos _ s7).
    destruct (rd_take s8 (([53; 82; 66; 84; 5; t] ++ varint_groups n) ++ pad) bs rest)
      as [E2 E3].
    { unfold s8, s7, s6. cbn [TurboSerial.buffer TurboSerial.set_pos]. unfold buf.
      rewrite <- !app_assoc. reflexivity. }
    { unfold s8. cbn [TurboSerial.rpos TurboSerial.set_pos].
      rewrite !length_app. cbn [length]. lia. }
    rewrite Hbs in E2, E3. fold n in E2, E3.
    unfold bind at 1. rewrite E2.
    assert (Ep : (t =? TYPE.ARRAY_PACKED_I8) || (t =? TYPE.ARRAY_PACKED_I16)
                 || (t =? TYPE.ARRAY_PACKED_I32) || (t =? TYPE.ARRAY_PACKED_F32)
                 || (t =? TYPE.ARRAY_PACKED_F64) = true)
      by (destruct Ht as [(-> & _)|[(-> & _)|(-> & _)]]; reflexivity).
    rewrite Ep. unfold bind at 1. rewrite E3. unfold ret.
    unfold n. rewrite Nat2Z.id.
    pose proof (packed_decode t j zs Ht Hrange) as Edec. cbv zeta in Edec.
    fold bs in Edec. rewrite Edec. fold vs. f_equal. f_equal.
    unfold s8, s7, s6. cbn [TurboSerial.rpos TurboSerial.set_pos].
    unfold TurboSerial.set_pos. cbn [TurboSerial.buffer TurboSerial.deserializeRefs
       TurboSerial.deserializeStrings TurboSerial.deserializeBuffers TurboSerial.rheap
       TurboSerial.fresh]. f_equal. rewrite Hbs. fold n. lia. }
  unfold bind at 1. unfold bind at 1. rewrite Er.
  unfold TurboSerial.update, modify, bind, ret.
  cbn [TurboSerial.rheap TurboSerial.set_pos TurboSerial.set_heap].
  unfold s6. cbn [TurboSerial.rheap].
  rewrite alter_last. unfold TurboSerial.array_push, Heap.array_of.
  fold len. rewrite Z.add_0_l. rewrite (right_id_L ∅ (∪)). reflexivity.
Qed.

Lemma packed_int_array_round_trip_witness :
  exists out s' t,
    TurboSerial.serialize bare_host TurboSerial.default_options
      [Heap.array_of (nums [1; -2; 3; -4; 5; -6; 7; 1000])] 2
      (TurboSerial.new TurboSerial.default_options) (Heap.VRef 0%nat) = Done (out, s')
    /\ out !! 5%nat = Some t
    /\ In t [TYPE.ARRAY_PACKED_I8; TYPE.ARRAY_PACKED_I16; TYPE.ARRAY_PACKED_I32]
    /\ TurboSerial.deserialize bare_host TurboSerial.default_options 1 [] (out ++ [])
       = Done (Heap.VRef (length (@nil Heap.obj)),
               [] ++ [Heap.array_of (nums [1; -2; 3; -4; 5; -6; 7; 1000])]).
Proof.
  apply (packed_int_array_round_trip bare_host bare_host TurboSerial.default_options
           TurboSerial.default_options
           [Heap.array_of (nums [1; -2; 3; -4; 5; -6; 7; 1000])] [] 0 0
           (TurboSerial.new TurboSerial.default_options) [] 0%nat
           [1; -2; 3; -4; 5; -6; 7; 1000]).
  - unfold PoolFacts.ok. vm_compute. repeat split; discriminate.
  - reflexivity.
  - left. reflexivity.
  - vm_compute. reflexivity.
  - repeat constructor; unfold int32; lia.
  - simpl. lia.
Defined.

(** ** Short arrays through [serialize] and [deserialize] *)

(** [detectArray] on an array without holes that is too short for the
    numeric analysis. *)
Lemma detectArray_short (H : Heap.Host) (h : Heap.heap) (vs : list Heap.value) :
  (length vs < 16)%nat -> length vs <> 8%nat ->
  UltraTypeDetector.detectArray H h (Z.of_nat (length vs))
    (list_to_map (zip (seqZ 0 (Z.of_nat (length vs))) vs))
  = Done (if Z.of_nat (length vs) =? 0 then TYPE.ARRAY_EMPTY else TYPE.ARRAY_DENSE).
Proof.
  intros H16 H8. unfold UltraTypeDetector.detectArray. cbv zeta.
  set (len := Z.of_nat (length vs)).
  set (elems := list_to_map (zip (seqZ 0 len) vs) : gmap Z Heap.value).
  destruct (Z.eqb_spec len 0) as [?|Hne]; [reflexivity|].
  assert (Hhas : forall i, In i (seqZ 0 len) -> Heap.array_has elems i = true).
  { intros i Hi. apply list_elem_of_In, elem_of_seqZ in Hi.
    apply array_has_of. fold len. lia. }
  rewrite (proj2 (forallb_forall _ _) Hhas). cbn [negb orb].
  assert (Hfilter : List.filter (Heap.array_has elems) (seqZ 0 len) = seqZ 0 len).
  { apply forallb_filter_id. apply forallb_forall. exact Hhas. }
  rewrite Hfilter, length_seqZ.
  assert (Hthr : JS.ushr (len * 3) 2 <= len).
  { unfold JS.ushr. rewrite to_uint32_small by (unfold len; lia). change (2 mod 32) with 2.
    rewrite Z.shiftr_div_pow2 by lia. change (2 ^ 2) with 4.
    apply Z.lt_succ_r. apply Z.div_lt_upper_bound; unfold len; lia. }
  destruct (Z.ltb_spec (Z.of_nat (Z.to_nat len)) (JS.ushr (len * 3) 2)); [lia|].
  destruct (SIMDProcessor.canOptimize len elems) eqn:E; [|reflexivity].
  exfalso. destruct (canOptimize_good_size len elems E) as [[E8|E16] _]; unfold len in *; lia.
Qed.

(** X22: An array without holes, shorter than 16 and not of length 8, whose
    elements are [null], [undefined], booleans, [NaN], infinities, [-0]
    or int32 integers above -2^31, is written element by element and
    [deserialize] returns a new array with the same elements in the same
    order.  The empty array is its tag alone. *)
Theorem short_array_round_trip (H H' : Heap.Host) (opts opts' : TurboSerial.options)
    (h h0 : Heap.heap) (k k' : nat) (s0 : TurboSerial.wstate) (rest : list Z)
    (l : Heap.loc) (vs : list Heap.value) :
  PoolFacts.ok (TurboSerial.pool s0) ->
  h !! l = Some (Heap.array_of vs) ->
  Forall plain vs ->
  (length vs < 16)%nat -> length vs <> 8%nat ->
  Z.of_nat (length rest) < 2 ^ 30 ->
  exists out s',
    TurboSerial.serialize H opts h (S (S k)) s0 (Heap.VRef l) = Done (out, s')
    /\ TurboSerial.deserialize H' opts' (S (S (length vs + k'))) h0 (out ++ rest)
       = Done (Heap.VRef (length h0), h0 ++ [Heap.array_of vs]).
Proof.
  intros Hok Hl Hplain H16 H8 Hrest. change (2 ^ 30) with 1073741824 in Hrest.
  pose proof (detectArray_short H h vs H16 H8) as Hdet.
  unfold Heap.array_of in Hl |- *.
  set (len := Z.of_nat (length vs)) in *.
  set (elems := list_to_map (zip (seqZ 0 len) vs) : gmap Z Heap.value) in *.
  set (t := if len =? 0 then TYPE.ARRAY_EMPTY else TYPE.ARRAY_DENSE) in *.
  assert (Hd : UltraTypeDetector.detect H h (Heap.VRef l) = Done t).
  { unfold UltraTypeDetector.detect, UltraTypeDetector.detectObject. rewrite Hl. exact Hdet. }
  assert (Hflat : forall i v, elems !! i = Some v -> Heap.is_object v = false).
  { intros i v Hv. unfold elems, len in Hv. rewrite zip_seqZ_lookup in Hv.
    destruct (0 <=? i); [|discriminate Hv].
    apply plain_not_object. rewrite Forall_forall in Hplain. apply Hplain.
    apply (list_elem_of_lookup_2 _ _ _ Hv). }
  destruct (serialize_ref_run H opts h (S k) s0 l t
              (prewalk_flat_array h k l len elems Hl Hflat) Hd) as (r & bf & Hrun).
  rewrite Hrun. clear Hrun.
  assert (Ht256 : 0 <= t < 256 /\ JS.band t TYPE_MASK.GROUP = TYPE_GROUP.ARRAY).
  { unfold t. destruct (len =? 0); split;
      first [reflexivity|vm_compute; split; [discriminate|reflexivity]]. }
  destruct Ht256 as [Ht256 Hgroup].
  pose proof (blob_tag (TurboSerial.pool s0) t Hok Ht256) as B6.
  set (p6 := UltraMemoryPool.writeU8 t (header_pool (TurboSerial.pool s0))) in *.
  assert (Hhead : forall body,
            Z.of_nat (length body) < 2147483648 - 2048 ->
            TurboSerial.deserialize H' opts' (S (S (length vs + k'))) h0
              ([53; 82; 66; 84; 5; t] ++ body)
            = match bind (TurboSerial.fillArray
                            (TurboSerial.readValue H' opts' (S (length vs + k')))
                            (S (length vs + k')) (length h0) t)
                         (fun _ => ret (Heap.VRef (length h0)))
                         (TurboSerial.mkR ([53; 82; 66; 84; 5] ++ t :: body) 6
                            [Heap.VRef (length h0)] [] [] (h0 ++ [Heap.OArray 0 ∅]) 0) with
              | Done (v, s) => Done (v, TurboSerial.rheap s)
              | Throw e => Throw e
              | OutOfFuel => OutOfFuel
              end).
  { intros body Hbody.
    change ([53; 82; 66; 84; 5; t] ++ body) with ([53; 82; 66; 84; 5] ++ t :: body).
    rewrite deserialize_header by (cbn [length]; lia).
    rewrite (readValue_array_run H' opts' (S (length vs + k'))
               (TurboSerial.mkR ([53; 82; 66; 84; 5] ++ t :: body) 5 [] [] [] h0 0) t
               ltac:(simpl; lia) eq_refl Hgroup).
    reflexivity. }
  destruct (Z.eqb_spec len 0) as [E0|Hne].
  - (* the empty array *)
    assert (Ev : vs = []) by (destruct vs; [reflexivity|unfold len in E0; cbn [length] in E0; lia]).
    subst vs. eexists. eexists. split.
    + assert (Ew : TurboSerial.writePayload H opts h (TurboSerial.writeValue H opts h (S k))
                     (Heap.VRef l) t = @ret TurboSerial.wstate unit tt).
      { unfold TurboSerial.writePayload. rewrite Hl. reflexivity. }
      rewrite Ew. unfold ret. cbn [TurboSerial.pool]. rewrite (blob_getResult _ _ B6).
      reflexivity.
    + rewrite (Hhead rest ltac:(lia)). reflexivity.
  - (* the count, then the elements *)
    assert (Hlen : 0 < len < 16) by (unfold len in *; lia).
    pose proof (blob_writeVarint len p6 _ B6 ltac:(simpl; lia) ltac:(lia)) as B7.
    assert (Evg : varint_groups len = [len]).
    { unfold varint_groups. cbn [leb128]. destruct (Z.ltb_spec len 128); [reflexivity|lia]. }
    rewrite Evg in B7.
    destruct (stream_write H opts h k vs Hplain (UltraMemoryPool.writeVarint len p6)
                ([53; 82; 66; 84; 5; t] ++ [len]) r ∅ ∅ bf B7)
      as (p' & bytes & Hw & B8 & Hbl & Henc).
    { rewrite length_app. cbn [length]. lia. }
    eexists. eexists. split.
    + assert (Ew : TurboSerial.writePayload H opts h (TurboSerial.writeValue H opts h (S k))
                     (Heap.VRef l) t
                   = bind (TurboSerial.writeVarint len)
                          (fun _ => for_each (TurboSerial.writeValue H opts h (S k))
                                      (TurboSerial.array_values len elems))).
      { unfold TurboSerial.writePayload. rewrite Hl. reflexivity. }
      rewrite Ew. unfold elems, len. rewrite array_values_of. fold len.
      unfold bind at 1. unfold TurboSerial.writeVarint at 1, TurboSerial.on_pool, modify.
      cbn [TurboSerial.pool TurboSerial.refs TurboSerial.circularRefs TurboSerial.strings
           TurboSerial.buffers]. fold p6.
      rewrite Hw. cbn [TurboSerial.pool]. rewrite (blob_getResult _ _ B8). reflexivity.
    + rewrite <- !app_assoc.
      rewrite (Hhead ([len] ++ bytes ++ rest))
        by (rewrite !length_app; cbn [length]; lia).
      set (buf := [53; 82; 66; 84; 5] ++ t :: [len] ++ bytes ++ rest).
      set (s6 := TurboSerial.mkR buf 6 [Heap.VRef (length h0)] [] []
                   (h0 ++ [Heap.OArray 0 ∅]) 0).
      assert (Ef : TurboSerial.fillArray
                     (TurboSerial.readValue H' opts' (S (length vs + k')))
                     (S (length vs + k')) (length h0) t
                   = bind TurboSerial.readVarint
                       (fun length =>
                          for_count (S (Datatypes.length vs + k'))
                            (fun i => bind (TurboSerial.readValue H' opts'
                                              (S (Datatypes.length vs + k')))
                                        (fun v => TurboSerial.update (Datatypes.length h0)
                                                    (TurboSerial.array_store i v)))
                            0 length)).
      { unfold t. destruct (Z.eqb_spec len 0); [contradiction|]. reflexivity. }
      rewrite Ef. clear Ef.
      pose proof (rd_readVarint s6 len [53; 82; 66; 84; 5; t] (bytes ++ rest)
                    ltac:(lia) ltac:(rewrite Evg; reflexivity) eq_refl) as E1.
      rewrite Evg in E1. cbn [length] in E1.
      unfold bind at 1. unfold bind at 1. rewrite E1.
      specialize (Henc rest).
      change (([53; 82; 66; 84; 5; t] ++ [len]) ++ bytes ++ rest) with buf in Henc.
      rewrite length_app in Henc. cbn [length] in Henc.
      pose proof (dense_loop H' opts' (length vs + k') (length h0) vs
                    (S (length vs + k')) 0
                    (TurboSerial.set_pos (TurboSerial.rpos s6 + Z.of_nat 1) s6)
                    (Z.of_nat (6 + 1) + Z.of_nat (length bytes))) as Hloop.
      rewrite Z.add_0_l in Hloop. fold len in Hloop.
      rewrite Hloop; [| exact Henc
                      | unfold s6, buf; cbn [TurboSerial.buffer TurboSerial.set_pos];
                        rewrite length_app; cbn [length]; rewrite !length_app;
                        cbn [length]; lia
                      | lia].
      unfold ret. cbn [TurboSerial.rheap TurboSerial.set_pos TurboSerial.set_heap s6].
      rewrite (store_all_array h0 vs 0 ∅) by (fold len; lia).
      rewrite Z.add_0_l, stores_array_of. reflexivity.
Qed.

Lemma short_array_round_trip_witness :
  exists out s',
    TurboSerial.serialize bare_host TurboSerial.default_options
      [Heap.array_of [Heap.VNum (Num.of_int 7); Heap.VNull; Heap.VNum (Num.of_int (-70000))]] 2
      (TurboSerial.new TurboSerial.default_options) (Heap.VRef 0%nat) = Done (out, s')
    /\ TurboSerial.deserialize bare_host TurboSerial.default_options
         (S (S (length [Heap.VNum (Num.of_int 7); Heap.VNull;
                        Heap.VNum (Num.of_int (-70000))] + 0))) [] (out ++ [])
       = Done (Heap.VRef (length (@nil Heap.obj)),
               [] ++ [Heap.array_of [Heap.VNum (Num.of_int 7); Heap.VNull;
                                     Heap.VNum (Num.of_int (-70000))]]).
Proof.
  apply (short_array_round_trip bare_host bare_host TurboSerial.default_options
           TurboSerial.default_options
           [Heap.array_of [Heap.VNum (Num.of_int 7); Heap.VNull;
                           Heap.VNum (Num.of_int (-70000))]] [] 0 0
           (TurboSerial.new TurboSerial.default_options) [] 0%nat
           [Heap.VNum (Num.of_int 7); Heap.VNull; Heap.VNum (Num.of_int (-70000))]).
  - unfold PoolFacts.ok. vm_compute. repeat split; discriminate.
  - reflexivity.
  - constructor; [apply (plain_int 7); lia|].
    constructor; [apply (plain_tag Heap.VNull TYPE.NULL); left; reflexivity|].
    constructor; [apply (plain_int (-70000)); lia|]. constructor.
  - simpl. lia.
  - simpl. lia.
  - simpl. lia.
Defined.

(** ** Typed arrays through [serialize] and [deserialize] *)

(** X19: A typed array (other than the BigInt ones) over any range of
    any buffer is written as the bytes it covers, after padding to its
    element size.  [deserialize] returns a typed array of the same kind
    and length over a new [ArrayBuffer] that holds those bytes and
    nothing else: the offset into the buffer is written but not used, the
    new view starts at offset 0, and the rest of the buffer is not in the
    blob. *)
Theorem typed_array_round_trip (H H' : Heap.Host) (opts opts' : TurboSerial.options)
    (h h0 : Heap.heap) (k k' : nat) (s0 : TurboSerial.wstate) (rest : list Z)
    (l buffer : Heap.loc) (t j byteOffset len : Z) (shared : bool) (bytes : list Z) :
  PoolFacts.ok (TurboSerial.pool s0) ->
  In (t, j) view_sizes ->
  h !! l = Some (Heap.OView t buffer byteOffset len) ->
  h !! buffer = Some (Heap.OArrayBuffer shared bytes) ->
  Forall (fun b => 0 <= b < 256) bytes ->
  0 <= byteOffset -> 0 <= len ->
  byteOffset + len * 2 ^ j <= Z.of_nat (length bytes) ->
  Z.of_nat (length bytes) < 2 ^ 29 ->
  Z.of_nat (length rest) < 2 ^ 30 ->
  exists out s',
    TurboSerial.serialize H opts h (S k) s0 (Heap.VRef l) = Done (out, s')
    /\ TurboSerial.deserialize H' opts' (S k') h0 (out ++ rest)
       = Done (Heap.VRef (S (length h0)),
               h0 ++ [Heap.OArrayBuffer false
                        (take (Z.to_nat (len * 2 ^ j)) (drop (Z.to_nat byteOffset) bytes));
                      Heap.OView t (length h0) 0 len]).
Proof.
  intros Hok Hin Hl Hbuf Hall Hoff Hlen Hrange Hsize Hrest.
  change (2 ^ 30) with 1073741824 in Hrest. change (2 ^ 29) with 536870912 in Hsize.
  destruct (view_sizes_facts t j Hin) as (Hj & Ht256 & Hbpe & Hdv & Hbig & Hgroup & Hves).
  assert (Hk : 1 <= 2 ^ j <= 8).
  { split; [pose proof (Z.pow_pos_nonneg 2 j); lia|].
    change 8 with (2 ^ 3). apply Z.pow_le_mono_r; lia. }
  set (data := take (Z.to_nat (len * 2 ^ j)) (drop (Z.to_nat byteOffset) bytes)).
  assert (Hdl : Z.of_nat (length data) = len * 2 ^ j).
  { unfold data. rewrite length_take, length_drop. nia. }
  assert (Hdata : map byte_of data = data).
  { assert (Hd : Forall (fun b => 0 <= b < 256) data).
    { unfold data. apply Forall_take, Forall_drop. exact Hall. }
    clear - Hd. induction Hd as [|c r0 Hc _ IH]; [reflexivity|].
    cbn [map]. rewrite IH. unfold byte_of. rewrite Z.mod_small by lia. reflexivity. }
  assert (Hlen' : len <= Z.of_nat (length bytes)) by nia.
  (* the writer *)
  pose proof (blob_tag (TurboSerial.pool s0) t Hok Ht256) as B6.
  set (p6 := UltraMemoryPool.writeU8 t (header_pool (TurboSerial.pool s0))) in *.
  pose proof (blob_writeU8 0 p6 _ B6 ltac:(simpl; lia)) as B7.
  change (byte_of 0) with 0 in B7.
  pose proof (blob_writeVarint byteOffset _ _ B7 ltac:(simpl; lia) ltac:(lia)) as B8.
  pose proof (varint_groups_length byteOffset ltac:(lia)) as Hv1.
  pose proof (blob_writeVarint len _ _ B8
                ltac:(rewrite length_app; simpl; lia) ltac:(lia)) as B9.
  pose proof (varint_groups_length len ltac:(lia)) as Hv2.
  destruct (blob_put_aligned j data _ _ Hj B9) as (pad & B & Hmod & Hpad & _).
  { rewrite !length_app. cbn [length]. lia. }
  rewrite Hdata in B.
  set (pre := (([53; 82; 66; 84; 5; t] ++ [0]) ++ varint_groups byteOffset)
              ++ varint_groups len) in *.
  destruct (writeValue_ref_fresh_view H opts h k l (header_pool (TurboSerial.pool s0))
              t buffer byteOffset len Hl) as (r & Hw).
  exists (pre ++ pad ++ data). eexists. split.
  - unfold TurboSerial.serialize. cbv zeta. unfold TurboSerial.resetState.
    cbn [TurboSerial.pool TurboSerial.refs TurboSerial.circularRefs TurboSerial.strings
         TurboSerial.buffers].
    rewrite (prewalk_leaf h k l _ ∅ Hl eq_refl). fold (header_pool (TurboSerial.pool s0)).
    assert (Ew : TurboSerial.writeTypedArray opts h buffer byteOffset len t
                   (TurboSerial.mkW p6 r ∅ ∅ ∅)
                 = Done (tt, TurboSerial.mkW
                               (UltraMemoryPool.put data
                                  (UltraMemoryPool.ensure (Z.of_nat (length data))
                                     (UltraMemoryPool.alignPos (2 ^ j)
                                        (UltraMemoryPool.writeVarint len
                                           (UltraMemoryPool.writeVarint byteOffset
                                              (UltraMemoryPool.writeU8 0 p6))))))
                               r ∅ ∅
                               (if TurboSerial.shareArrayBuffers opts
                                then <[buffer := 0]> ∅ else ∅))).
    { unfold TurboSerial.writeTypedArray. cbv zeta. rewrite Hdv, Hbig, Hbpe.
      destruct (Z.eqb_spec (2 ^ j) 0); [lia|].
      unfold TurboSerial.buffer_bytes. rewrite Hbuf. fold data.
      unfold bind at 1. unfold get at 1. cbv beta iota. cbn [TurboSerial.buffers].
      rewrite lookup_empty.
      assert (Eb : forall q, UltraMemoryPool.writeBulkAligned data (2 ^ j) q
                             = UltraMemoryPool.put data
                                 (UltraMemoryPool.ensure (Z.of_nat (length data))
                                    (UltraMemoryPool.alignPos (2 ^ j) q))).
      { intros q. unfold UltraMemoryPool.writeBulkAligned. cbv zeta.
        unfold SIMD_ALIGNMENT. rewrite Z.min_l by lia. reflexivity. }
      destruct (TurboSerial.shareArrayBuffers opts);
        unfold TurboSerial.writeU8, TurboSerial.writeVarint, TurboSerial.on_pool;
        unfold bind, modify, ret; cbv beta iota;
        cbn [TurboSerial.pool TurboSerial.refs TurboSerial.circularRefs TurboSerial.strings
             TurboSerial.buffers]; rewrite Eb; reflexivity. }
    destruct (TurboSerial.detectCircular opts); rewrite Hw;
      unfold bind at 1; unfold TurboSerial.writeU8 at 1, TurboSerial.on_pool, modify;
      cbn [TurboSerial.pool TurboSerial.refs TurboSerial.circularRefs TurboSerial.strings
           TurboSerial.buffers]; fold p6; rewrite Ew; cbn [TurboSerial.pool];
      rewrite (blob_getResult _ _ B); reflexivity.
  - (* the reader *)
    assert (Ebuf : (pre ++ pad ++ data) ++ rest
                   = [53; 82; 66; 84; 5]
                     ++ t :: 0 :: varint_groups byteOffset ++ varint_groups len
                        ++ pad ++ data ++ rest).
    { unfold pre. rewrite <- !app_assoc. reflexivity. }
    rewrite Ebuf.
    set (body := t :: 0 :: varint_groups byteOffset ++ varint_groups len ++ pad ++ data ++ rest).
    rewrite (deserialize_header H' opts' (S k') h0 body)
      by (unfold body; cbn [length]; rewrite !length_app; lia).
    set (buf := [53; 82; 66; 84; 5] ++ body).
    rewrite (readValue_typed_run H' opts' k' (TurboSerial.mkR buf 5 [] [] [] h0 0) t
               ltac:(simpl; lia) eq_refl Hgroup).
    cbn [TurboSerial.rpos]. change (5 + 1) with 6.
    set (s6 := TurboSerial.set_pos 6 (TurboSerial.mkR buf 5 [] [] [] h0 0)).
    pose proof (rd_readU8 s6 0 ltac:(simpl; lia) eq_refl) as E1.
    set (s7 := TurboSerial.set_pos (TurboSerial.rpos s6 + 1) s6) in *.
    pose proof (rd_readVarint s7 byteOffset [53; 82; 66; 84; 5; t; 0]
                  (varint_groups len ++ pad ++ data ++ rest)
                  ltac:(lia) eq_refl eq_refl) as E2.
    set (s8 := TurboSerial.set_pos _ s7) in E2.
    pose proof (rd_readVarint s8 len ([53; 82; 66; 84; 5; t; 0] ++ varint_groups byteOffset)
                  (pad ++ data ++ rest) ltac:(lia)) as E3.
    set (s9 := TurboSerial.set_pos (TurboSerial.rpos s8 + Z.of_nat (length (varint_groups len)))
                 s8) in *.
    assert (Hpre : Z.of_nat (length pre)
                   = 7 + Z.of_nat (length (varint_groups byteOffset))
                     + Z.of_nat (length (varint_groups len))).
    { unfold pre. rewrite !length_app. cbn [length]. lia. }
    assert (Ea : TurboSerial.alignPos (2 ^ j) s9
                 = Done (tt, TurboSerial.set_pos
                               (Z.of_nat (length pre) + Z.of_nat (length pad)) s9)).
    { apply rd_alignPos; [exact Hj| | |exact Hmod|lia];
        unfold s9, s8, s7, s6; cbn [TurboSerial.rpos TurboSerial.set_pos]; lia. }
    set (s10 := TurboSerial.set_pos (Z.of_nat (length pre) + Z.of_nat (length pad)) s9) in *.
    destruct (rd_take s10 (pre ++ pad) data rest) as [E4 E5].
    { unfold s10, s9, s8, s7, s6. cbn [TurboSerial.buffer TurboSerial.set_pos].
      unfold buf, body, pre. rewrite <- !app_assoc. reflexivity. }
    { unfold s10. cbn [TurboSerial.rpos TurboSerial.set_pos]. rewrite length_app. lia. }
    rewrite Hdl in E4, E5.
    unfold TurboSerial.readTypedArray. cbv zeta.
    unfold bind at 1. unfold bind at 1. rewrite E1. cbn [Z.eqb negb].
    unfold bind at 1. rewrite E2. unfold bind at 1.
    rewrite E3;
      [|unfold s8, s7, s6; cbn [TurboSerial.buffer TurboSerial.set_pos]; unfold buf, body;
        rewrite <- !app_assoc; reflexivity
       |unfold s8, s7, s6; cbn [TurboSerial.rpos TurboSerial.set_pos];
        rewrite length_app; cbn [length]; lia].
    rewrite Hbig, Hbpe. destruct (Z.eqb_spec (2 ^ j) 0); [lia|].
    unfold bind at 1. rewrite Ea. unfold bind at 1. rewrite E4.
    unfold bind at 1. rewrite E5.
    unfold bind at 1. unfold TurboSerial.alloc at 1.
    unfold bind at 1. unfold TurboSerial.push_buffer at 1, modify at 1.
    unfold TurboSerial.createTypedArray. rewrite Hves.
    cbn [TurboSerial.rheap TurboSerial.set_heap TurboSerial.set_pos TurboSerial.buffer
         TurboSerial.rpos TurboSerial.deserializeRefs TurboSerial.deserializeStrings
         TurboSerial.deserializeBuffers TurboSerial.fresh].
    unfold s10, s9, s8, s7, s6.
    cbn [TurboSerial.rheap TurboSerial.set_heap TurboSerial.set_pos TurboSerial.buffer
         TurboSerial.rpos TurboSerial.deserializeRefs TurboSerial.deserializeStrings
         TurboSerial.deserializeBuffers TurboSerial.fresh].
    unfold TurboSerial.buffer_bytes.
    match goal with
    | |- context [@lookup ?K ?A ?T ?I (length h0) ?x] =>
        replace (@lookup K A T I (length h0) x) with (Some (Heap.OArrayBuffer false data))
          by (symmetry; apply list_lookup_middle; reflexivity)
    end.
    rewrite Z.mod_0_l by lia. cbn [Z.eqb negb orb]. fold data. rewrite Hdl.
    destruct (Z.ltb_spec (len * 2 ^ j) (0 + len * 2 ^ j)); [lia|].
    unfold bind, TurboSerial.alloc, ret, TurboSerial.push_ref, modify.
    cbn [TurboSerial.rheap TurboSerial.set_heap Heap.is_object].
    rewrite length_app, <- app_assoc. cbn [length app].
    replace (length h0 + 1)%nat with (S (length h0)) by lia. reflexivity.
Qed.

Lemma typed_array_round_trip_witness :
  exists out s',
    TurboSerial.serialize bare_host TurboSerial.default_options
      [Heap.OArrayBuffer false [9; 9; 1; 0; 2; 0; 9; 9]; Heap.OView TYPE.UINT16ARRAY 0%nat 2 2] 1
      (TurboSerial.new TurboSerial.default_options) (Heap.VRef 1%nat) = Done (out, s')
    /\ TurboSerial.deserialize bare_host TurboSerial.default_options 1 [] (out ++ [])
       = Done (Heap.VRef (S (length (@nil Heap.obj))),
               [] ++ [Heap.OArrayBuffer false
                        (take (Z.to_nat (2 * 2 ^ 1)) (drop (Z.to_nat 2) [9; 9; 1; 0; 2; 0; 9; 9]));
                      Heap.OView TYPE.UINT16ARRAY (length (@nil Heap.obj)) 0 2]).
Proof.
  apply (typed_array_round_trip bare_host bare_host TurboSerial.default_options
           TurboSerial.default_options
           [Heap.OArrayBuffer false [9; 9; 1; 0; 2; 0; 9; 9];
            Heap.OView TYPE.UINT16ARRAY 0%nat 2 2] [] 0 0
           (TurboSerial.new TurboSerial.default_options) [] 1%nat 0%nat
           TYPE.UINT16ARRAY 1 2 2 false [9; 9; 1; 0; 2; 0; 9; 9]).
  - unfold PoolFacts.ok. vm_compute. repeat split; discriminate.
  - unfold view_sizes. cbn [In]. do 3 right. left. reflexivity.
  - reflexivity.
  - reflexivity.
  - repeat constructor; lia.
  - lia.
  - lia.
  - simpl. lia.
  - vm_compute. reflexivity.
  - simpl. lia.
Defined.

(** ** Object literals, through the writer and the reader *)











(** ** Sets and maps, through the writer and the reader *)

(** X25: A [Set] whose members are [null], [undefined], booleans, [NaN],
    infinities or int32 integers above -2^31 (a set holds no [-0] and no
    member twice) is written as its size and its members in insertion
    order, and [deserialize] returns a new [Set] with the same members
    in the same order. *)
Theorem set_round_trip (H H' : Heap.Host) (opts opts' : TurboSerial.options)
    (h h0 : Heap.heap) (k k' : nat) (s0 : TurboSerial.wstate) (rest : list Z)
    (l : Heap.loc) (items : list Heap.value) :
  PoolFacts.ok (TurboSerial.pool s0) ->
  h !! l = Some (Heap.OSet items) ->
  Forall plain items ->
  NoDup items -> Heap.VNum Num.NegZero ∉ items ->
  Z.of_nat (length items) < 2 ^ 20 ->
  Z.of_nat (length rest) < 2 ^ 30 ->
  exists out s',
    TurboSerial.serialize H opts h (S (S k)) s0 (Heap.VRef l) = Done (out, s')
    /\ TurboSerial.deserialize H' opts' (S (S (length items + k'))) h0 (out ++ rest)
       = Done (Heap.VRef (length h0), h0 ++ [Heap.OSet items]).
Proof.
  intros Hok Hl Hplain Hnd Hnz Hn Hrest.
  change (2 ^ 20) with 1048576 in Hn. change (2 ^ 30) with 1073741824 in Hrest.
  assert (Hd : UltraTypeDetector.detect H h (Heap.VRef l) = Done TYPE.SET).
  { unfold UltraTypeDetector.detect, UltraTypeDetector.detectObject. rewrite Hl. reflexivity. }
  assert (Hflat : Forall (fun v => Heap.is_object v = false) items).
  { apply (Forall_impl _ _ _ Hplain). intros v Hv. apply plain_not_object. exact Hv. }
  destruct (serialize_ref_run H opts h (S k) s0 l TYPE.SET
              (prewalk_flat_set h k l items Hl Hflat) Hd) as (r & bf & Hrun).
  rewrite Hrun. clear Hrun.
  pose proof (blob_tag (TurboSerial.pool s0) TYPE.SET Hok
                ltac:(vm_compute; split; [discriminate|reflexivity])) as B6.
  set (p6 := UltraMemoryPool.writeU8 TYPE.SET (header_pool (TurboSerial.pool s0))) in *.
  set (fuel := S (length items + k')).
  set (n := Z.of_nat (length items)) in *.
  pose proof (blob_writeVarint n p6 _ B6 ltac:(simpl; lia) ltac:(lia)) as B7.
  pose proof (varint_groups_length n ltac:(lia)) as Hvl.
  destruct (stream_write H opts h k items Hplain (UltraMemoryPool.writeVarint n p6)
              ([53; 82; 66; 84; 5; TYPE.SET] ++ varint_groups n) r ∅ ∅ bf B7)
    as (p' & bytes & Hw & B8 & Hbl & Henc).
  { rewrite length_app. cbn [length]. fold n. lia. }
  fold n in Hbl.
  eexists. eexists. split.
  - assert (Ew : TurboSerial.writePayload H opts h (TurboSerial.writeValue H opts h (S k))
                   (Heap.VRef l) TYPE.SET
                 = bind (TurboSerial.writeVarint n)
                        (fun _ => for_each (TurboSerial.writeValue H opts h (S k)) items)).
    { unfold TurboSerial.writePayload. rewrite Hl. reflexivity. }
    rewrite Ew.
    unfold bind at 1. unfold TurboSerial.writeVarint at 1, TurboSerial.on_pool, modify.
    cbn [TurboSerial.pool TurboSerial.refs TurboSerial.circularRefs TurboSerial.strings
         TurboSerial.buffers]. fold p6.
    rewrite Hw. cbn [TurboSerial.pool]. rewrite (blob_getResult _ _ B8). reflexivity.
  - rewrite <- !app_assoc.
    change ([53; 82; 66; 84; 5; TYPE.SET] ++ varint_groups n ++ bytes ++ rest)
      with ([53; 82; 66; 84; 5] ++ TYPE.SET :: varint_groups n ++ bytes ++ rest).
    set (buf := [53; 82; 66; 84; 5] ++ TYPE.SET :: varint_groups n ++ bytes ++ rest).
    pose (s6 := TurboSerial.mkR buf 6 [Heap.VRef (length h0)] [] []
                  (h0 ++ [Heap.OSet []]) 0).
    assert (Hhead : TurboSerial.deserialize H' opts' (S fuel) h0 buf
                    = match bind (TurboSerial.fillCollection
                                    (TurboSerial.readValue H' opts' fuel) fuel
                                    (Some (length h0)) TYPE.SET)
                                 (fun _ => ret (Heap.VRef (length h0))) s6 with
                      | Done (v, s) => Done (v, TurboSerial.rheap s)
                      | Throw e => Throw e
                      | OutOfFuel => OutOfFuel
                      end).
    { unfold buf.
      rewrite deserialize_header by (cbn [length]; rewrite !length_app; lia).
      fold buf.
      rewrite (readValue_collection_run H' opts' fuel
                 (TurboSerial.mkR buf 5 [] [] [] h0 0) TYPE.SET
                 ltac:(simpl; lia) eq_refl eq_refl).
      reflexivity. }
    rewrite Hhead. clear Hhead.
    assert (Ef : TurboSerial.fillCollection (TurboSerial.readValue H' opts' fuel) fuel
                   (Some (length h0)) TYPE.SET
                 = bind TurboSerial.readVarint
                     (fun size =>
                        for_count fuel
                          (fun _ => bind (TurboSerial.readValue H' opts' fuel)
                                      (fun v => TurboSerial.update (length h0)
                                         (fun o => match o with
                                                   | Heap.OSet xs => Heap.OSet (Heap.set_add xs v)
                                                   | _ => o
                                                   end)))
                          0 size)) by reflexivity.
    rewrite Ef. clear Ef.
    pose proof (rd_readVarint s6 n [53; 82; 66; 84; 5; TYPE.SET] (bytes ++ rest)
                  ltac:(lia) eq_refl eq_refl) as E1.
    unfold bind at 1. unfold bind at 1. rewrite E1.
    specialize (Henc rest).
    replace (([53; 82; 66; 84; 5; TYPE.SET] ++ varint_groups n) ++ bytes ++ rest) with buf
      in Henc by (unfold buf; rewrite <- app_assoc; reflexivity).
    set (s7 := TurboSerial.set_pos
                 (TurboSerial.rpos s6 + Z.of_nat (length (varint_groups n))) s6).
    destruct (set_loop H' opts' (length items + k') (length h0) items fuel 0 s7
                (Z.of_nat (length ([53; 82; 66; 84; 5; TYPE.SET] ++ varint_groups n))
                 + Z.of_nat (length bytes)) [])
      as (s8 & Hloop & Hheap).
    + unfold s7, s6. cbn [TurboSerial.buffer TurboSerial.rpos TurboSerial.set_pos].
      rewrite length_app in Henc |- *. cbn [length] in Henc |- *.
      replace (6 + Z.of_nat (length (varint_groups n)))
        with (Z.of_nat (6 + length (varint_groups n))) by lia.
      exact Henc.
    + unfold s7, s6, buf. cbn [TurboSerial.buffer TurboSerial.set_pos].
      cbn [length app]. rewrite !length_app. lia.
    + unfold fuel. lia.
    + unfold s7, s6. cbn [TurboSerial.rheap TurboSerial.set_pos].
      exact (list_lookup_middle h0 [] (Heap.OSet []) (length h0) eq_refl).
    + exact Hnd.
    + apply Forall_forall. intros v Hin ->. exact (Hnz Hin).
    + rewrite Z.add_0_l in Hloop. fold n in Hloop. unfold fuel in Hloop |- *.
      rewrite Hloop. unfold ret. f_equal. f_equal. rewrite Hheap.
      unfold s7, s6. cbn [TurboSerial.rheap TurboSerial.set_pos app].
      apply heap_insert_last.
Qed.

Lemma set_round_trip_witness :
  exists out s',
    TurboSerial.serialize bare_host TurboSerial.default_options
      [Heap.OSet [Heap.VNum (Num.of_int 7); Heap.VNull]] 2
      (TurboSerial.new TurboSerial.default_options) (Heap.VRef 0%nat) = Done (out, s')
    /\ TurboSerial.deserialize bare_host TurboSerial.default_options 4 [] (out ++ [])
       = Done (Heap.VRef 0%nat, [Heap.OSet [Heap.VNum (Num.of_int 7); Heap.VNull]]).
Proof.
  apply (set_round_trip bare_host bare_host TurboSerial.default_options
           TurboSerial.default_options
           [Heap.OSet [Heap.VNum (Num.of_int 7); Heap.VNull]] [] 0 0
           (TurboSerial.new TurboSerial.default_options) [] 0%nat
           [Heap.VNum (Num.of_int 7); Heap.VNull]).
  - unfold PoolFacts.ok. vm_compute. repeat split; discriminate.
  - reflexivity.
  - constructor; [apply (plain_int 7); lia|].
    constructor; [apply (plain_tag Heap.VNull TYPE.NULL); left; reflexivity|constructor].
  - constructor; [|constructor; [|constructor]].
    + intros Hin. apply list_elem_of_singleton in Hin. discriminate Hin.
    + intros Hin. inversion Hin.
  - intros Hin. apply elem_of_cons in Hin as [E|Hin]; [discriminate E|].
    apply list_elem_of_singleton in Hin. discriminate Hin.
  - simpl. lia.
  - simpl. lia.
Defined.

(** X26: A [Map] whose keys and values are [null], [undefined], booleans,
    [NaN], infinities, [-0] (as a value) or int32 integers above -2^31
    (a map holds no [-0] as a key and no key twice) is written as its
    size and its entries in insertion order, key then value, and
    [deserialize] returns a new [Map] with the same entries in the same
    order. *)
Theorem map_round_trip (H H' : Heap.Host) (opts opts' : TurboSerial.options)
    (h h0 : Heap.heap) (k k' : nat) (s0 : TurboSerial.wstate) (rest : list Z)
    (l : Heap.loc) (es : list (Heap.value * Heap.value)) :
  PoolFacts.ok (TurboSerial.pool s0) ->
  h !! l = Some (Heap.OMap es) ->
  Forall plain (map fst es) -> Forall plain (map snd es) ->
  NoDup (map fst es) -> Heap.VNum Num.NegZero ∉ map fst es ->
  Z.of_nat (length es) < 2 ^ 20 ->
  Z.of_nat (length rest) < 2 ^ 30 ->
  exists out s',
    TurboSerial.serialize H opts h (S (S k)) s0 (Heap.VRef l) = Done (out, s')
    /\ TurboSerial.deserialize H' opts' (S (S (length es + k'))) h0 (out ++ rest)
       = Done (Heap.VRef (length h0), h0 ++ [Heap.OMap es]).
Proof.
  intros Hok Hl Hpk Hpv Hnd Hnz Hn Hrest.
  change (2 ^ 20) with 1048576 in Hn. change (2 ^ 30) with 1073741824 in Hrest.
  assert (Hd : UltraTypeDetector.detect H h (Heap.VRef l) = Done TYPE.MAP).
  { unfold UltraTypeDetector.detect, UltraTypeDetector.detectObject. rewrite Hl. reflexivity. }
  assert (Hplain : Forall plain (flat_entries es)).
  { clear -Hpk Hpv. induction es as [|[key v] es IH]; [constructor|].
    cbn [map fst snd] in Hpk, Hpv. apply Forall_cons in Hpk as [Hk Hpk].
    apply Forall_cons in Hpv as [Hv Hpv].
    cbn [flat_entries flat_map fst snd app]. constructor; [exact Hk|].
    constructor; [exact Hv|]. exact (IH Hpk Hpv). }
  assert (Hflen : length (flat_entries es) = (2 * length es)%nat).
  { clear. induction es as [|[key v] es IH]; [reflexivity|].
    cbn [flat_entries flat_map app length]. fold (flat_entries es). rewrite IH. lia. }
  assert (Hflat : Forall (fun v => Heap.is_object v = false) (flat_entries es)).
  { apply (Forall_impl _ _ _ Hplain). intros v Hv. apply plain_not_object. exact Hv. }
  destruct (serialize_ref_run H opts h (S k) s0 l TYPE.MAP
              (prewalk_flat_map h k l es Hl Hflat) Hd) as (r & bf & Hrun).
  rewrite Hrun. clear Hrun.
  pose proof (blob_tag (TurboSerial.pool s0) TYPE.MAP Hok
                ltac:(vm_compute; split; [discriminate|reflexivity])) as B6.
  set (p6 := UltraMemoryPool.writeU8 TYPE.MAP (header_pool (TurboSerial.pool s0))) in *.
  set (fuel := S (length es + k')).
  set (n := Z.of_nat (length es)) in *.
  pose proof (blob_writeVarint n p6 _ B6 ltac:(simpl; lia) ltac:(lia)) as B7.
  pose proof (varint_groups_length n ltac:(lia)) as Hvl.
  destruct (stream_write H opts h k (flat_entries es) Hplain (UltraMemoryPool.writeVarint n p6)
              ([53; 82; 66; 84; 5; TYPE.MAP] ++ varint_groups n) r ∅ ∅ bf B7)
    as (p' & bytes & Hw & B8 & Hbl & Henc).
  { rewrite length_app, Hflen. cbn [length]. lia. }
  rewrite Hflen in Hbl.
  eexists. eexists. split.
  - assert (Ew : TurboSerial.writePayload H opts h (TurboSerial.writeValue H opts h (S k))
                   (Heap.VRef l) TYPE.MAP
                 = bind (TurboSerial.writeVarint n)
                        (fun _ => for_each
                           (fun kv => bind (TurboSerial.writeValue H opts h (S k) (fst kv))
                                        (fun _ => TurboSerial.writeValue H opts h (S k)
                                                    (snd kv)))
                           es)).
    { unfold TurboSerial.writePayload. rewrite Hl. reflexivity. }
    rewrite Ew.
    unfold bind at 1. unfold TurboSerial.writeVarint at 1, TurboSerial.on_pool, modify.
    cbn [TurboSerial.pool TurboSerial.refs TurboSerial.circularRefs TurboSerial.strings
         TurboSerial.buffers]. fold p6.
    rewrite (for_each_entries (TurboSerial.writeValue H opts h (S k)) es).
    rewrite Hw. cbn [TurboSerial.pool]. rewrite (blob_getResult _ _ B8). reflexivity.
  - rewrite <- !app_assoc.
    change ([53; 82; 66; 84; 5; TYPE.MAP] ++ varint_groups n ++ bytes ++ rest)
      with ([53; 82; 66; 84; 5] ++ TYPE.MAP :: varint_groups n ++ bytes ++ rest).
    set (buf := [53; 82; 66; 84; 5] ++ TYPE.MAP :: varint_groups n ++ bytes ++ rest).
    pose (s6 := TurboSerial.mkR buf 6 [Heap.VRef (length h0)] [] []
                  (h0 ++ [Heap.OMap []]) 0).
    assert (Hhead : TurboSerial.deserialize H' opts' (S fuel) h0 buf
                    = match bind (TurboSerial.fillCollection
                                    (TurboSerial.readValue H' opts' fuel) fuel
                                    (Some (length h0)) TYPE.MAP)
                                 (fun _ => ret (Heap.VRef (length h0))) s6 with
                      | Done (v, s) => Done (v, TurboSerial.rheap s)
                      | Throw e => Throw e
                      | OutOfFuel => OutOfFuel
                      end).
    { unfold buf.
      rewrite deserialize_header by (cbn [length]; rewrite !length_app; lia).
      fold buf.
      rewrite (readValue_collection_run H' opts' fuel
                 (TurboSerial.mkR buf 5 [] [] [] h0 0) TYPE.MAP
                 ltac:(simpl; lia) eq_refl eq_refl).
      reflexivity. }
    rewrite Hhead. clear Hhead.
    assert (Ef : TurboSerial.fillCollection (TurboSerial.readValue H' opts' fuel) fuel
                   (Some (length h0)) TYPE.MAP
                 = bind TurboSerial.readVarint
                     (fun size =>
                        for_count fuel
                          (fun _ => bind (TurboSerial.readValue H' opts' fuel)
                             (fun key => bind (TurboSerial.readValue H' opts' fuel)
                                (fun v => TurboSerial.update (length h0)
                                   (fun o => match o with
                                             | Heap.OMap xs => Heap.OMap (Heap.map_set xs key v)
                                             | _ => o
                                             end))))
                          0 size)) by reflexivity.
    rewrite Ef. clear Ef.
    pose proof (rd_readVarint s6 n [53; 82; 66; 84; 5; TYPE.MAP] (bytes ++ rest)
                  ltac:(lia) eq_refl eq_refl) as E1.
    unfold bind at 1. unfold bind at 1. rewrite E1.
    specialize (Henc rest).
    replace (([53; 82; 66; 84; 5; TYPE.MAP] ++ varint_groups n) ++ bytes ++ rest) with buf
      in Henc by (unfold buf; rewrite <- app_assoc; reflexivity).
    set (s7 := TurboSerial.set_pos
                 (TurboSerial.rpos s6 + Z.of_nat (length (varint_groups n))) s6).
    destruct (map_loop H' opts' (length es + k') (length h0) es fuel 0 s7
                (Z.of_nat (length ([53; 82; 66; 84; 5; TYPE.MAP] ++ varint_groups n))
                 + Z.of_nat (length bytes)) [])
      as (s8 & Hloop & Hheap).
    + unfold s7, s6. cbn [TurboSerial.buffer TurboSerial.rpos TurboSerial.set_pos].
      rewrite length_app in Henc |- *. cbn [length] in Henc |- *.
      replace (6 + Z.of_nat (length (varint_groups n)))
        with (Z.of_nat (6 + length (varint_groups n))) by lia.
      exact Henc.
    + unfold s7, s6, buf. cbn [TurboSerial.buffer TurboSerial.set_pos].
      cbn [length app]. rewrite !length_app. lia.
    + unfold fuel. lia.
    + unfold s7, s6. cbn [TurboSerial.rheap TurboSerial.set_pos].
      exact (list_lookup_middle h0 [] (Heap.OMap []) (length h0) eq_refl).
    + exact Hnd.
    + apply Forall_forall. intros v Hin ->. exact (Hnz Hin).
    + rewrite Z.add_0_l in Hloop. fold n in Hloop. unfold fuel in Hloop |- *.
      rewrite Hloop. unfold ret. f_equal. f_equal. rewrite Hheap.
      unfold s7, s6. cbn [TurboSerial.rheap TurboSerial.set_pos app].
      apply heap_insert_last.
Qed.

Lemma map_round_trip_witness :
  exists out s',
    TurboSerial.serialize bare_host TurboSerial.default_options
      [Heap.OMap [(Heap.VNum (Num.of_int 7), Heap.VNum Num.NegZero);
                  (Heap.VNull, Heap.VBool true)]] 2
      (TurboSerial.new TurboSerial.default_options) (Heap.VRef 0%nat) = Done (out, s')
    /\ TurboSerial.deserialize bare_host TurboSerial.default_options 4 [] (out ++ [])
       = Done (Heap.VRef 0%nat,
               [Heap.OMap [(Heap.VNum (Num.of_int 7), Heap.VNum Num.NegZero);
                           (Heap.VNull, Heap.VBool true)]]).
Proof.
  apply (map_round_trip bare_host bare_host TurboSerial.default_options
           TurboSerial.default_options
           [Heap.OMap [(Heap.VNum (Num.of_int 7), Heap.VNum Num.NegZero);
                       (Heap.VNull, Heap.VBool true)]] [] 0 0
           (TurboSerial.new TurboSerial.default_options) [] 0%nat
           [(Heap.VNum (Num.of_int 7), Heap.VNum Num.NegZero); (Heap.VNull, Heap.VBool true)]).
  - unfold PoolFacts.ok. vm_compute. repeat split; discriminate.
  - reflexivity.
  - cbn [map fst]. constructor; [apply (plain_int 7); lia|].
    constructor; [apply (plain_tag Heap.VNull TYPE.NULL); left; reflexivity|constructor].
  - cbn [map snd].
    constructor; [apply (plain_tag (Heap.VNum Num.NegZero) TYPE.NEG_ZERO); cbn; tauto|].
    constructor; [apply (plain_tag (Heap.VBool true) TYPE.TRUE); cbn; tauto|constructor].
  - cbn [map fst]. constructor; [|constructor; [|constructor]].
    + intros Hin. apply list_elem_of_singleton in Hin. discriminate Hin.
    + intros Hin. inversion Hin.
  - cbn [map fst]. intros Hin. apply elem_of_cons in Hin as [E|Hin]; [discriminate E|].
    apply list_elem_of_singleton in Hin. discriminate Hin.
  - simpl. lia.
  - simpl. lia.
Defined.

(** ** Blobs and files *)

Lemma readValue_binary_run (H : Heap.Host) (opts : TurboSerial.options) (k : nat)
    (s : TurboSerial.rstate) (t : Z) :
  0 <= TurboSerial.rpos s ->
  TurboSerial.buffer s !! Z.to_nat (TurboSerial.rpos s) = Some t ->
  JS.band t TYPE_MASK.GROUP = TYPE_GROUP.BINARY ->
  TurboSerial.readValue H opts (S k) s
  = bind (TurboSerial.readBinary t)
         (fun value => bind (if Heap.is_object value then TurboSerial.push_ref value else ret tt)
                            (fun _ => ret value))
         (TurboSerial.set_pos (TurboSerial.rpos s + 1) s).
Proof. intros Hp Hb Hg. leaf_run Hp Hb Hg. Qed.

(** X27: A [Blob] or a [File] is written as its tag and two zero bytes,
    whatever it holds, and [deserialize] returns for it a new object
    literal [{ _type: 'Binary', size: 0, typeStr: 0 }]: neither the
    content nor the kind of value comes back. *)
Theorem blob_content_is_not_written (H H' : Heap.Host) (opts opts' : TurboSerial.options)
    (h h0 : Heap.heap) (k k' : nat) (s0 : TurboSerial.wstate) (rest : list Z)
    (l : Heap.loc) (file : bool) :
  PoolFacts.ok (TurboSerial.pool s0) ->
  h !! l = Some (Heap.OBlob file) ->
  Z.of_nat (length rest) < 2 ^ 30 ->
  exists s',
    TurboSerial.serialize H opts h (S k) s0 (Heap.VRef l)
    = Done ([0x35; 0x52; 0x42; 0x54; 0x05; if file then TYPE.FILE else TYPE.BLOB; 0; 0], s')
    /\ TurboSerial.deserialize H' opts' (S k') h0
         ([0x35; 0x52; 0x42; 0x54; 0x05; if file then TYPE.FILE else TYPE.BLOB; 0; 0] ++ rest)
       = Done (Heap.VRef (length h0),
               h0 ++ [Heap.literal [ (JS.str "_type", Heap.VStr (JS.str "Binary"));
                                     (JS.str "size", Heap.VNum (Num.of_int 0));
                                     (JS.str "typeStr", Heap.VNum (Num.of_int 0)) ]]).
Proof.
  intros Hok Hl Hrest. change (2 ^ 30) with 1073741824 in Hrest.
  set (t := if file then TYPE.FILE else TYPE.BLOB).
  assert (Hd : UltraTypeDetector.detect H h (Heap.VRef l) = Done t).
  { unfold UltraTypeDetector.detect, UltraTypeDetector.detectObject. rewrite Hl. reflexivity. }
  destruct (serialize_ref_run H opts h k s0 l t
              (prewalk_leaf h k l _ ∅ Hl eq_refl) Hd) as (r & bf & Hrun).
  rewrite Hrun. clear Hrun.
  assert (Ht256 : 0 <= t < 256)
    by (unfold t; destruct file; vm_compute; split; first [discriminate|reflexivity]).
  assert (Hg : JS.band t TYPE_MASK.GROUP = TYPE_GROUP.BINARY)
    by (unfold t; destruct file; reflexivity).
  assert (Ew : TurboSerial.writePayload H opts h (TurboSerial.writeValue H opts h k)
                 (Heap.VRef l) t
               = bind (TurboSerial.writeVarint 0) (fun _ => TurboSerial.writeVarint 0)).
  { unfold TurboSerial.writePayload. rewrite Hl. reflexivity. }
  rewrite Ew. clear Ew.
  pose proof (blob_tag (TurboSerial.pool s0) t Hok Ht256) as B6.
  set (p6 := UltraMemoryPool.writeU8 t (header_pool (TurboSerial.pool s0))) in *.
  pose proof (blob_writeVarint 0 p6 _ B6 ltac:(simpl; lia) ltac:(lia)) as B7.
  change (varint_groups 0) with [0] in B7.
  pose proof (blob_writeVarint 0 _ _ B7 ltac:(simpl; lia) ltac:(lia)) as B8.
  change (varint_groups 0) with [0] in B8.
  eexists. split.
  - unfold bind at 1. unfold TurboSerial.writeVarint at 1, TurboSerial.on_pool, modify.
    cbn [TurboSerial.pool TurboSerial.refs TurboSerial.circularRefs TurboSerial.strings
         TurboSerial.buffers]. fold p6.
    unfold TurboSerial.writeVarint, TurboSerial.on_pool, modify.
    cbn [TurboSerial.pool TurboSerial.refs TurboSerial.circularRefs TurboSerial.strings
         TurboSerial.buffers].
    rewrite (blob_getResult _ _ B8). reflexivity.
  - change ([53; 82; 66; 84; 5; t; 0; 0] ++ rest)
      with ([53; 82; 66; 84; 5] ++ t :: 0 :: 0 :: rest).
    rewrite deserialize_header by (cbn [length]; lia).
    set (buf := [53; 82; 66; 84; 5] ++ t :: 0 :: 0 :: rest).
    rewrite (readValue_binary_run H' opts' k' (TurboSerial.mkR buf 5 [] [] [] h0 0) t
               ltac:(simpl; lia) eq_refl Hg).
    cbn [TurboSerial.rpos]. change (5 + 1) with 6.
    set (s6 := TurboSerial.set_pos 6 _).
    pose proof (rd_readVarint s6 0 [53; 82; 66; 84; 5; t] (0 :: rest)
                  ltac:(lia) eq_refl eq_refl) as E1.
    change (varint_groups 0) with [0] in E1. cbn [length] in E1.
    set (s7 := TurboSerial.set_pos _ s6) in E1.
    pose proof (rd_readVarint s7 0 [53; 82; 66; 84; 5; t; 0] rest
                  ltac:(lia) eq_refl eq_refl) as E2.
    change (varint_groups 0) with [0] in E2. cbn [length] in E2.
    unfold TurboSerial.readBinary.
    unfold bind at 1. unfold bind at 1. rewrite E1.
    unfold bind at 1. rewrite E2.
    reflexivity.
Qed.

Lemma blob_content_is_not_written_witness :
  exists s',
    TurboSerial.serialize bare_host TurboSerial.default_options [Heap.OBlob true] 1
      (TurboSerial.new TurboSerial.default_options) (Heap.VRef 0%nat)
    = Done ([0x35; 0x52; 0x42; 0x54; 0x05; TYPE.FILE; 0; 0], s')
    /\ TurboSerial.deserialize bare_host TurboSerial.default_options 1 []
         ([0x35; 0x52; 0x42; 0x54; 0x05; TYPE.FILE; 0; 0] ++ [])
       = Done (Heap.VRef 0%nat,
               [Heap.literal [ (JS.str "_type", Heap.VStr (JS.str "Binary"));
                               (JS.str "size", Heap.VNum (Num.of_int 0));
                               (JS.str "typeStr", Heap.VNum (Num.of_int 0)) ]]).
Proof.
  apply (blob_content_is_not_written bare_host bare_host TurboSerial.default_options
           TurboSerial.default_options [Heap.OBlob true] [] 0 0
           (TurboSerial.new TurboSerial.default_options) [] 0%nat true).
  - unfold PoolFacts.ok. vm_compute. repeat split; discriminate.
  - reflexivity.
  - simpl. lia.
Defined.

(** ** Regular expressions *)

Lemma readValue_regex_run (H : Heap.Host) (opts : TurboSerial.options) (k : nat)
    (s : TurboSerial.rstate) (t : Z) :
  0 <= TurboSerial.rpos s ->
  TurboSerial.buffer s !! Z.to_nat (TurboSerial.rpos s) = Some t ->
  JS.band t TYPE_MASK.GROUP = TYPE_GROUP.REGEX ->
  TurboSerial.readValue H opts (S k) s
  = bind (TurboSerial.readRegExp H (TurboSerial.readValue H opts k))
         (fun value => bind (if Heap.is_object value then TurboSerial.push_ref value else ret tt)
                            (fun _ => ret value))
         (TurboSerial.set_pos (TurboSerial.rpos s + 1) s).
Proof. intros Hp Hb Hg. leaf_run Hp Hb Hg. Qed.

(** X28: A regular expression is written as its source and its flags, two
    strings, and [deserialize] builds a new one from them with
    [new RegExp(source, flags)].  Stated for a source and flags of code
    units 0 to 0x7F, fewer than 256 each and different from each other,
    that the constructor on the reading side accepts. *)
Theorem regexp_round_trip (H H' : Heap.Host) (opts opts' : TurboSerial.options)
    (h h0 : Heap.heap) (k k' : nat) (s0 : TurboSerial.wstate) (rest : list Z)
    (l : Heap.loc) (source flags : JS.jsstring) :
  PoolFacts.ok (TurboSerial.pool s0) ->
  h !! l = Some (Heap.ORegExp (Heap.VStr source) (Heap.VStr flags)) ->
  ascii_key source -> ascii_key flags -> source <> flags ->
  Heap.h_regexp H' h0 (Heap.VStr source) (Heap.VStr flags) = true ->
  Z.of_nat (length rest) < 2 ^ 30 ->
  exists out s',
    TurboSerial.serialize H opts h (S (S k)) s0 (Heap.VRef l) = Done (out, s')
    /\ TurboSerial.deserialize H' opts' (S (S k')) h0 (out ++ rest)
       = Done (Heap.VRef (length h0),
               h0 ++ [Heap.ORegExp (Heap.VStr source) (Heap.VStr flags)]).
Proof.
  intros Hok Hl Hsrc Hfl Hne Hacc Hrest. change (2 ^ 30) with 1073741824 in Hrest.
  assert (Hd : UltraTypeDetector.detect H h (Heap.VRef l) = Done TYPE.REGEXP).
  { unfold UltraTypeDetector.detect, UltraTypeDetector.detectObject. rewrite Hl. reflexivity. }
  destruct (serialize_ref_run H opts h (S k) s0 l TYPE.REGEXP
              (prewalk_leaf h (S k) l _ ∅ Hl eq_refl) Hd) as (r & bf & Hrun).
  rewrite Hrun. clear Hrun.
  assert (Ew : TurboSerial.writePayload H opts h (TurboSerial.writeValue H opts h (S k))
                 (Heap.VRef l) TYPE.REGEXP
               = bind (TurboSerial.writeValue H opts h (S k) (Heap.VStr source))
                      (fun _ => TurboSerial.writeValue H opts h (S k) (Heap.VStr flags))).
  { unfold TurboSerial.writePayload. rewrite Hl. reflexivity. }
  rewrite Ew. clear Ew.
  pose proof (blob_tag (TurboSerial.pool s0) TYPE.REGEXP Hok
                ltac:(vm_compute; split; [discriminate|reflexivity])) as B6.
  set (p6 := UltraMemoryPool.writeU8 TYPE.REGEXP (header_pool (TurboSerial.pool s0))) in *.
  pose proof Hsrc as [_ Hsl]. pose proof Hfl as [_ Hfll].
  destruct (key_write H opts h k source p6 _ r ∅ ∅ bf Hsrc (lookup_empty _) B6
              ltac:(simpl; lia)) as (p1 & bytes1 & st1 & Hw1 & B1 & Hlen1 & Hat1 & Hst1).
  assert (Hfresh : st1 !! flags = None).
  { destruct (st1 !! flags) eqn:E; [|reflexivity].
    destruct (Hst1 flags ltac:(rewrite E; discriminate)) as [Hold|E'].
    - exfalso. apply Hold. apply lookup_empty.
    - exfalso. apply Hne. symmetry. exact E'. }
  destruct (key_write H opts h k flags p1 _ r ∅ st1 bf Hfl Hfresh B1
              ltac:(rewrite length_app; simpl; lia))
    as (p2 & bytes2 & st2 & Hw2 & B2 & Hlen2 & Hat2 & _).
  eexists. eexists. split.
  - unfold bind at 1. rewrite Hw1. rewrite Hw2. cbn [TurboSerial.pool].
    rewrite (blob_getResult _ _ B2). reflexivity.
  - rewrite <- !app_assoc.
    change ([53; 82; 66; 84; 5; TYPE.REGEXP] ++ bytes1 ++ bytes2 ++ rest)
      with ([53; 82; 66; 84; 5] ++ TYPE.REGEXP :: bytes1 ++ bytes2 ++ rest).
    rewrite deserialize_header by (cbn [length]; rewrite !length_app; lia).
    set (buf := [53; 82; 66; 84; 5] ++ TYPE.REGEXP :: bytes1 ++ bytes2 ++ rest).
    rewrite (readValue_regex_run H' opts' (S k') (TurboSerial.mkR buf 5 [] [] [] h0 0)
               TYPE.REGEXP ltac:(simpl; lia) eq_refl eq_refl).
    cbn [TurboSerial.rpos]. change (5 + 1) with 6.
    set (s6 := TurboSerial.set_pos 6 _).
    specialize (Hat1 (bytes2 ++ rest)). specialize (Hat2 rest).
    rewrite <- app_assoc in Hat2. rewrite length_app, Nat2Z.inj_add in Hat2.
    cbn [length] in Hat1, Hat2.
    destruct (key_read H' opts' k' s6 source _ Hat1) as (s7 & Hr1 & Hb7 & Hp7 & Hh7).
    destruct (key_read H' opts' k' s7 flags (Z.of_nat 6 + Z.of_nat (length bytes1)
                                             + Z.of_nat (length bytes2)))
      as (s8 & Hr2 & Hb8 & Hp8 & Hh8).
    { rewrite Hb7, Hp7. exact Hat2. }
    unfold TurboSerial.readRegExp.
    unfold bind at 1. unfold bind at 1. rewrite Hr1. cbv beta iota.
    unfold bind at 1. rewrite Hr2. cbv beta iota.
    unfold bind at 1. unfold get at 1. cbv beta iota.
    rewrite Hh8, Hh7. unfold s6 at 1. cbn [TurboSerial.rheap TurboSerial.set_pos].
    rewrite Hacc.
    unfold bind, TurboSerial.alloc, ret, TurboSerial.push_ref, modify.
    cbn [Heap.is_object TurboSerial.rheap TurboSerial.set_heap].
    rewrite Hh8, Hh7. reflexivity.
Qed.

Lemma regexp_round_trip_witness :
  exists out s',
    TurboSerial.serialize bare_host TurboSerial.default_options
      [Heap.ORegExp (Heap.VStr (JS.str "a+b")) (Heap.VStr (JS.str "gi"))] 2
      (TurboSerial.new TurboSerial.default_options) (Heap.VRef 0%nat) = Done (out, s')
    /\ TurboSerial.deserialize bare_host TurboSerial.default_options 2 [] (out ++ [])
       = Done (Heap.VRef 0%nat,
               [Heap.ORegExp (Heap.VStr (JS.str "a+b")) (Heap.VStr (JS.str "gi"))]).
Proof.
  apply (regexp_round_trip bare_host bare_host TurboSerial.default_options
           TurboSerial.default_options
           [Heap.ORegExp (Heap.VStr (JS.str "a+b")) (Heap.VStr (JS.str "gi"))] [] 0 0
           (TurboSerial.new TurboSerial.default_options) [] 0%nat (JS.str "a+b") (JS.str "gi")).
  - unfold PoolFacts.ok. vm_compute. repeat split; discriminate.
  - reflexivity.
  - split; [repeat constructor; vm_compute; discriminate|reflexivity].
  - split; [repeat constructor; vm_compute; discriminate|reflexivity].
  - discriminate.
  - reflexivity.
  - simpl. lia.
Defined.

(** ** Arrays with holes, through the writer and the reader *)

(** X29: An array with at least one hole whose elements are [null],
    [undefined], booleans, [NaN], infinities, [-0] or int32 integers
    above -2^31 is written as its length, the number of its elements and
    (index, value) pairs; [deserialize] returns a new array of the same
    length with the same elements at the same indices and the same
    holes. *)
Theorem sparse_array_round_trip (H H' : Heap.Host) (opts opts' : TurboSerial.options)
    (h h0 : Heap.heap) (k k' : nat) (s0 : TurboSerial.wstate) (rest : list Z)
    (l : Heap.loc) (len : Z) (elems : gmap Z Heap.value) :
  PoolFacts.ok (TurboSerial.pool s0) ->
  h !! l = Some (Heap.OArray len elems) ->
  (forall i v, elems !! i = Some v -> 0 <= i < len /\ plain v) ->
  (exists i, 0 <= i < len /\ elems !! i = None) ->
  len < 2 ^ 20 ->
  Z.of_nat (length rest) < 2 ^ 30 ->
  exists out s',
    TurboSerial.serialize H opts h (S (S k)) s0 (Heap.VRef l) = Done (out, s')
    /\ TurboSerial.deserialize H' opts' (S (S (Z.to_nat len + k'))) h0 (out ++ rest)
       = Done (Heap.VRef (length h0), h0 ++ [Heap.OArray len elems]).
Proof.
  intros Hok Hl Hwf (i0 & Hi0 & Hhole) Hn Hrest.
  change (2 ^ 20) with 1048576 in Hn. change (2 ^ 30) with 1073741824 in Hrest.
  set (present := List.filter (Heap.array_has elems) (seqZ 0 len)).
  set (count := Z.of_nat (length present)).
  assert (Hpres : forall i, i ∈ present <-> 0 <= i < len /\ is_Some (elems !! i)).
  { intros i. unfold present. rewrite list_elem_of_In, filter_In, <- list_elem_of_In.
    rewrite elem_of_seqZ. unfold Heap.array_has. rewrite bool_decide_eq_true.
    split; intros [Hr Hs]; (split; [lia|exact Hs]). }
  assert (Hcount : 0 <= count <= len).
  { unfold count, present. split; [lia|].
    pose proof (filter_length_le (Heap.array_has elems) (seqZ 0 len)) as Hle.
    rewrite length_seqZ in Hle. lia. }
  assert (Hd : UltraTypeDetector.detect H h (Heap.VRef l) = Done TYPE.ARRAY_SPARSE).
  { unfold UltraTypeDetector.detect, UltraTypeDetector.detectObject. rewrite Hl.
    exact (detectArray_hole H h len elems i0 Hi0 Hhole). }
  assert (Hflat : forall i v, elems !! i = Some v -> Heap.is_object v = false).
  { intros i v Hv. apply plain_not_object. exact (proj2 (Hwf i v Hv)). }
  destruct (serialize_ref_run H opts h (S k) s0 l TYPE.ARRAY_SPARSE
              (prewalk_flat_array h k l len elems Hl Hflat) Hd) as (r & bf & Hrun).
  rewrite Hrun. clear Hrun.
  pose proof (blob_tag (TurboSerial.pool s0) TYPE.ARRAY_SPARSE Hok
                ltac:(vm_compute; split; [discriminate|reflexivity])) as B6.
  set (p6 := UltraMemoryPool.writeU8 TYPE.ARRAY_SPARSE (header_pool (TurboSerial.pool s0)))
    in *.
  pose proof (blob_writeVarint len p6 _ B6 ltac:(simpl; lia) ltac:(lia)) as B7.
  pose proof (varint_groups_length len ltac:(lia)) as Hvl.
  pose proof (blob_writeVarint count _ _ B7 ltac:(rewrite length_app; simpl; lia)
                ltac:(lia)) as B8.
  pose proof (varint_groups_length count ltac:(lia)) as Hvc.
  assert (Hixs : Forall (fun i => 0 <= i <= 4294967295) present).
  { apply Forall_forall. intros i Hi. apply Hpres in Hi. lia. }
  assert (Hvals : Forall (fun i => plain (Heap.array_get elems i)) present).
  { apply Forall_forall. intros i Hi. apply Hpres in Hi as [_ [v Hv]].
    unfold Heap.array_get. rewrite Hv. exact (proj2 (Hwf i v Hv)). }
  destruct (sparse_write H opts h k (Heap.array_get elems) present Hixs Hvals
              (UltraMemoryPool.writeVarint count (UltraMemoryPool.writeVarint len p6))
              (([53; 82; 66; 84; 5; TYPE.ARRAY_SPARSE] ++ varint_groups len)
               ++ varint_groups count) r ∅ ∅ bf B8)
    as (p' & bytes & Hw & B9 & Hbl & Hat).
  { rewrite !length_app. cbn [length]. fold count. lia. }
  fold count in Hbl.
  set (ivs := map (fun i => (i, Heap.array_get elems i)) present) in *.
  assert (Hstored : store_pairs ∅ ivs = elems).
  { apply map_eq. intros j. unfold ivs. rewrite store_pairs_lookup.
    destruct (decide (j ∈ present)) as [Hin|Hnotin].
    - rewrite bool_decide_eq_true_2 by exact Hin. apply Hpres in Hin as [_ [v Hv]].
      unfold Heap.array_get. rewrite Hv. reflexivity.
    - rewrite bool_decide_eq_false_2 by exact Hnotin. rewrite lookup_empty.
      destruct (elems !! j) as [v|] eqn:Hv; [|reflexivity].
      exfalso. apply Hnotin. apply Hpres. split; [exact (proj1 (Hwf j v Hv))|].
      rewrite Hv. eexists. reflexivity. }
  eexists. eexists. split.
  - assert (Ew : TurboSerial.writePayload H opts h (TurboSerial.writeValue H opts h (S k))
                   (Heap.VRef l) TYPE.ARRAY_SPARSE
                 = bind (TurboSerial.writeVarint len)
                     (fun _ => bind (TurboSerial.writeVarint count)
                        (fun _ => for_each
                           (fun i => bind (TurboSerial.writeVarint i)
                                       (fun _ => TurboSerial.writeValue H opts h (S k)
                                                   (Heap.array_get elems i)))
                           present))).
    { unfold TurboSerial.writePayload. rewrite Hl. reflexivity. }
    rewrite Ew.
    unfold bind at 1. unfold TurboSerial.writeVarint at 1, TurboSerial.on_pool, modify.
    cbn [TurboSerial.pool TurboSerial.refs TurboSerial.circularRefs TurboSerial.strings
         TurboSerial.buffers]. fold p6.
    unfold bind at 1. unfold TurboSerial.writeVarint at 1, TurboSerial.on_pool, modify.
    cbn [TurboSerial.pool TurboSerial.refs TurboSerial.circularRefs TurboSerial.strings
         TurboSerial.buffers].
    rewrite Hw. cbn [TurboSerial.pool]. rewrite (blob_getResult _ _ B9). reflexivity.
  - rewrite <- !app_assoc.
    change ([53; 82; 66; 84; 5; TYPE.ARRAY_SPARSE] ++ varint_groups len ++ varint_groups count
            ++ bytes ++ rest)
      with ([53; 82; 66; 84; 5] ++ TYPE.ARRAY_SPARSE :: varint_groups len
            ++ varint_groups count ++ bytes ++ rest).
    set (buf := [53; 82; 66; 84; 5] ++ TYPE.ARRAY_SPARSE :: varint_groups len
                ++ varint_groups count ++ bytes ++ rest).
    set (fuel := S (Z.to_nat len + k')).
    pose (s6 := TurboSerial.mkR buf 6 [Heap.VRef (length h0)] [] []
                  (h0 ++ [Heap.OArray 0 ∅]) 0).
    assert (Hhead : TurboSerial.deserialize H' opts' (S fuel) h0 buf
                    = match bind (TurboSerial.fillArray (TurboSerial.readValue H' opts' fuel)
                                    fuel (length h0) TYPE.ARRAY_SPARSE)
                                 (fun _ => ret (Heap.VRef (length h0))) s6 with
                      | Done (v, s) => Done (v, TurboSerial.rheap s)
                      | Throw e => Throw e
                      | OutOfFuel => OutOfFuel
                      end).
    { unfold buf.
      rewrite deserialize_header by (cbn [length]; rewrite !length_app; lia).
      fold buf.
      rewrite (readValue_array_run H' opts' fuel
                 (TurboSerial.mkR buf 5 [] [] [] h0 0) TYPE.ARRAY_SPARSE
                 ltac:(simpl; lia) eq_refl eq_refl).
      reflexivity. }
    rewrite Hhead. clear Hhead.
    assert (Ef : TurboSerial.fillArray (TurboSerial.readValue H' opts' fuel) fuel
                   (length h0) TYPE.ARRAY_SPARSE
                 = bind TurboSerial.readVarint
                     (fun totalLength => bind TurboSerial.readVarint
                        (fun elementCount =>
                           bind (TurboSerial.update (length h0)
                                   (TurboSerial.array_set_length totalLength))
                             (fun _ =>
                                for_count fuel
                                  (fun _ => bind TurboSerial.readVarint
                                     (fun index => bind (TurboSerial.readValue H' opts' fuel)
                                        (fun v => TurboSerial.update (length h0)
                                                    (TurboSerial.array_store index v))))
                                  0 elementCount)))) by reflexivity.
    rewrite Ef. clear Ef.
    pose proof (rd_readVarint s6 len [53; 82; 66; 84; 5; TYPE.ARRAY_SPARSE]
                  (varint_groups count ++ bytes ++ rest) ltac:(lia) eq_refl eq_refl) as E1.
    set (s7 := TurboSerial.set_pos
                 (TurboSerial.rpos s6 + Z.of_nat (length (varint_groups len))) s6) in *.
    pose proof (rd_readVarint s7 count
                  ([53; 82; 66; 84; 5; TYPE.ARRAY_SPARSE] ++ varint_groups len)
                  (bytes ++ rest) ltac:(lia)
                  ltac:(unfold s7, s6, buf; cbn [TurboSerial.buffer TurboSerial.set_pos];
                        rewrite <- !app_assoc; reflexivity)
                  ltac:(unfold s7, s6; cbn [TurboSerial.rpos TurboSerial.set_pos];
                        rewrite length_app; cbn [length]; lia)) as E2.
    set (s8 := TurboSerial.set_pos
                 (TurboSerial.rpos s7 + Z.of_nat (length (varint_groups count))) s7) in *.
    set (s9 := TurboSerial.set_heap (h0 ++ [Heap.OArray len ∅]) s8).
    assert (E3 : TurboSerial.update (length h0) (TurboSerial.array_set_length len) s8
                 = Done (tt, s9)).
    { unfold TurboSerial.update, modify, s9, s8, s7, s6.
      cbn [TurboSerial.rheap TurboSerial.set_pos]. rewrite alter_last.
      cbn [TurboSerial.array_set_length]. rewrite map_filter_empty. reflexivity. }
    specialize (Hat rest).
    replace ((([53; 82; 66; 84; 5; TYPE.ARRAY_SPARSE] ++ varint_groups len)
              ++ varint_groups count) ++ bytes ++ rest) with buf in Hat
      by (unfold buf; rewrite <- !app_assoc; reflexivity).
    destruct (sparse_loop H' opts' (Z.to_nat len + k') (length h0) len ivs fuel 0 s9
                (Z.of_nat (length (([53; 82; 66; 84; 5; TYPE.ARRAY_SPARSE]
                                    ++ varint_groups len) ++ varint_groups count))
                 + Z.of_nat (length bytes)) ∅)
      as (s10 & Hloop & Hheap).
    + unfold s9, s8, s7, s6.
      cbn [TurboSerial.buffer TurboSerial.rpos TurboSerial.set_pos TurboSerial.set_heap].
      rewrite !length_app in Hat |- *. cbn [length] in Hat |- *.
      replace (6 + Z.of_nat (length (varint_groups len))
               + Z.of_nat (length (varint_groups count)))
        with (Z.of_nat (6 + length (varint_groups len) + length (varint_groups count)))
        by lia.
      exact Hat.
    + unfold s9, s8, s7, s6, buf.
      cbn [TurboSerial.buffer TurboSerial.set_pos TurboSerial.set_heap].
      cbn [length app]. rewrite !length_app. lia.
    + unfold ivs, fuel. rewrite length_map. fold count. lia.
    + unfold s9. cbn [TurboSerial.rheap TurboSerial.set_heap].
      exact (list_lookup_middle h0 [] (Heap.OArray len ∅) (length h0) eq_refl).
    + unfold ivs. apply Forall_forall. intros iv Hin.
      apply list_elem_of_fmap in Hin as (i & -> & Hin). cbn [fst].
      exact (proj1 (proj1 (Hpres i) Hin)).
    + lia.
    + unfold bind at 1. unfold bind at 1. rewrite E1. cbv beta iota.
      unfold bind at 1. rewrite E2. cbv beta iota.
      unfold bind at 1. rewrite E3. cbv beta iota.
      unfold ivs in Hloop at 1. rewrite length_map in Hloop. fold count in Hloop.
      rewrite Z.add_0_l in Hloop. fold fuel in Hloop. rewrite Hloop. unfold ret. f_equal. f_equal.
      rewrite Hheap, Hstored. unfold s9. cbn [TurboSerial.rheap TurboSerial.set_heap].
      apply heap_insert_last.
Qed.

Lemma sparse_array_round_trip_witness :
  exists out s',
    TurboSerial.serialize bare_host TurboSerial.default_options
      [Heap.OArray 3 (<[2 := Heap.VNum (Num.of_int 7)]> (<[0 := Heap.VNull]> ∅))] 2
      (TurboSerial.new TurboSerial.default_options) (Heap.VRef 0%nat) = Done (out, s')
    /\ TurboSerial.deserialize bare_host TurboSerial.default_options
         (S (S (Z.to_nat 3 + 0))) [] (out ++ [])
       = Done (Heap.VRef 0%nat,
               [Heap.OArray 3 (<[2 := Heap.VNum (Num.of_int 7)]> (<[0 := Heap.VNull]> ∅))]).
Proof.
  apply (sparse_array_round_trip bare_host bare_host TurboSerial.default_options
           TurboSerial.default_options
           [Heap.OArray 3 (<[2 := Heap.VNum (Num.of_int 7)]> (<[0 := Heap.VNull]> ∅))]
           [] 0 0 (TurboSerial.new TurboSerial.default_options) [] 0%nat 3
           (<[2 := Heap.VNum (Num.of_int 7)]> (<[0 := Heap.VNull]> ∅))).
  - unfold PoolFacts.ok. vm_compute. repeat split; discriminate.
  - reflexivity.
  - intros i v Hv.
    destruct (decide (i = 2)) as [->|H2].
    + rewrite lookup_insert in Hv. destruct (decide (2 = 2)); [|contradiction].
      injection Hv as <-. split; [lia|apply (plain_int 7); lia].
    + rewrite lookup_insert_ne in Hv by congruence.
      destruct (decide (i = 0)) as [->|H0].
      * rewrite lookup_insert in Hv. destruct (decide (0 = 0)); [|contradiction].
        injection Hv as <-. split; [lia|].
        apply (plain_tag Heap.VNull TYPE.NULL). left. reflexivity.
      * rewrite lookup_insert_ne in Hv by congruence. rewrite lookup_empty in Hv.
        discriminate Hv.
  - exists 1. split; [lia|]. reflexivity.
  - lia.
  - simpl. lia.
Defined.
